(* ===== verification/_CoqProject ===== *)
-Q . S2P
Prelude.v
Mem.v
LibString.v
Alloc.v
Heap.v
Tcb.v
Ipc.v
VmMap.v
VmLinks.v
Pmap.v
Zone.v
Path.v
Bitmap.v
UnnamedFs.v
UfsCorrect.v
Vfs.v
VfsCorrect.v
Tcp.v
Io.v
Serial.v
Syscall.v
SyscallCorrect.v
Editor.v
EditorCorrect.v
Descriptors.v
Hal.v
HalCorrect.v
Ata.v
World.v
Shell.v
ShellCorrect.v
Browser.v
BrowserCorrect.v
Install.v
InstallCorrect.v
Kernel.v
KernelCorrect.v
Mouse.v
MouseCorrect.v
Vga.v
VgaCorrect.v
Boot.v
BootCorrect.v
Tui.v
TuiCorrect.v
Ahci.v
AhciCorrect.v
IpcDemo.v
