(* ===== verification/Prelude.v ===== *)
(** * Tinx kernel: verification development

    The repository is a 32-bit x86 kernel in C (src/src), compiled with [-m32],
    running in one flat address space without paging.  This library translates
    its core into executable definitions and proves what makes each part work.

    ** The program and its model

    - lib_string.c: string and memory routines, with word-at-a-time fast paths.
      [Mem.v] is the flat byte memory (a map from addresses to bytes, words
      little-endian, equality up to the bytes); [LibString.v] has one
      definition per routine, pointers are numbers.
    - xnu_memory.c has four allocators.  [Heap.v]: the kernel heap, block headers
      and canaries being bytes of memory ([kmalloc], [kfree], [kmalloc_aligned]
      and so on).  [Alloc.v]: the interface (class [Allocator]) the heap promises
      to its clients; the heap is an instance, and tasks, zones and VM maps are
      proved against the class.  [Zone.v]: zones, free lists threaded through
      the elements.  [Pmap.v]: physical pages, descriptor array and free list.
      [VmMap.v]: virtual memory maps as sorted entry lists; [VmLinks.v]: the
      pointers these lists stand for.
    - tcb.c: tasks and the scheduler.  [Tcb.v]: the task pool as records with
      [next] and [prev] indices, one definition per call; [None] is an endless
      loop or a NULL dereference, and a call that ends in its loop of halts has the
      outcome [Halted].
    - ipc.c: [Ipc.v], ports and mailboxes as ring buffers over the scheduler.
    - unnamedfs.c: the file system on a memory device.  [Path.v] path functions,
      [Bitmap.v] block bitmap, [UnnamedFs.v] all operations (superblock, inodes
      and data are bytes of one memory, so overlaps are visible),
      [UfsCorrect.v] the proofs.
    - vfs.c: [Vfs.v] nodes, dentry and readdir caches, descriptors and all file
      operations over UnnamedFS; [VfsCorrect.v] the proofs.
    - tcp.c: [Tcp.v], checksum, addresses, sockets and packets.
    - io.c: [Io.v], the VGA console with its CRT registers, and the keyboard.
    - serial.c: [Serial.v], the debug console and COM1.
    - syscall.c: [Syscall.v] joins the scheduler, IPC, file system, console,
      keyboard and serial port in one kernel state, with every handler and the
      dispatcher, and [kernel_panic] of kernel.c; [SyscallCorrect.v] the proofs.
      [IpcDemo.v] is [ipc_demo] of ipc.c, which runs on the same parts.
    - gdt.c: [Descriptors.v], the segment descriptors and the interrupt gates.
    - hal.c and [isr_handler] of kernel.c: [Hal.v], the interrupt controllers, the
      timer, the handler table and what an interrupt does; [HalCorrect.v].
    - editor.c: [Editor.v], [EditorCorrect.v].
    - The programs of the command line run in a small state monad with the results
      [Ok], [Hang] (polling a keyboard nobody types on) and [Crash] (a bad pointer,
      or a path written past the end of its local array); [World.v] has
      the monad and the state, the kernel of [Syscall.v] and [Hal.v] with a
      disk ([Ata.v]).  shell.c with all built-in commands: [Shell.v],
      [ShellCorrect.v].  browser.c: [Browser.v], [BrowserCorrect.v].  install.c:
      [Install.v], [InstallCorrect.v].  installer_tui.c: [Tui.v], [TuiCorrect.v].
    - mouse.c and vbox_mouse.c: [Mouse.v], over any device of the class
      [Ps2Device]; an 8042 with a mouse is an instance; [MouseCorrect.v].
    - vbox_vga.c: [Vga.v], [VgaCorrect.v].
    - ahci.c: [Ahci.v], over any controller of the class [Hba], the packed command
      structures being bytes of memory; [AhciCorrect.v].
    - kernel.c: [Boot.v] is [kernel_main] up to its loop, with every call in order,
      on the state of all parts the kernel starts ([BootCorrect.v]); [Kernel.v] is
      the loop itself, which reads a command line and runs it ([KernelCorrect.v]).

    Integers are [Z] and wrap where the code can wrap ([u8], [u32], [i32], ...).
    A structure is a record; a pointer into an array is an index; errors are the
    code's own return values.

    ** What the theorems show

    - Heap: [kmalloc] refines first fit with splitting, [kfree] releases exactly
      one block and merges, the pair is the identity, alignment, accounting.
    - Zones, pages, maps: fresh disjoint elements, a last-in first-out free list,
      and exactly the requested range mapped, unmapped or protected; the links of
      the entries follow the list.
    - Scheduler: an invariant of all reachable states (queue links, one running
      task, unique tids, owned and separate stacks), every call but [tcb_exit] comes
      back, the policy of the choice of the next task, and round robin as a liveness statement.
    - IPC: ring invariant under all calls, delivery, oldest message first.
    - File system: for an inode that lies in no block of its own file, extents are
      resized without touching other blocks and a write is read back (the inode
      table overlaps the data area, so the condition can fail and lemmas show how); the first-fit search and path normalisation are exact; the
      dentry cache never changes the result of a lookup, readdir enumerates.
    - Library: fast paths equal the byte loops, [memmove] on overlaps, [strlen].
    - TCP: the checksum verifies, and sockets follow a deterministic state machine
      over calls and packets, with their flags, ports and addresses.
    - Console and keyboard: buffered printing equals printing each character,
      with scrolling; typed text is decoded.
    - System calls: the break refines a counter, a message goes from memory to
      memory, output appears on the console, pointers below 0x1000 are refused.  Lemmas
      show that the invariants of the parts hold together after any calls whose
      buffers keep away from the variables of the kernel.
    - Interrupts: each one is acknowledged exactly, spurious ones too, and
      [pit_sleep] returns after the ticks it promises.
    - Start-up: from the state at power-on [kernel_main] reaches its loop, whatever
      the boot loader reports, with the invariant of every part established, the
      timer line alone enabled and the blocks of the heap accounted for; there what is
      typed is what [shell_exec] gets.
    - Programs: the editor is a gap buffer and saves what it loads; the shell parses
      what was quoted and its history recalls; the browser strips tags within
      bounds; an installation is found on the disk again, and refused without
      effect when it cannot be made; the text interface reports success after
      one key and installs nothing.
    - Devices: the stream of the mouse is framed and the pointer stays in bounds;
      rectangles and lines paint exactly their pixels, [vga_flip] shows the last
      colour drawn at each point; the SATA driver learns nothing of the drives it detects, and its
      commands do not have the layout a controller reads.

    Lemmas beside these record defects of the code, for instance
    [kmalloc_wraps_to_zero], [mailbox_collision], [zone_stops_growing],
    [write_destroys_home], [write_destroys_itself], [rmdir_breaks_root], [long_paths_collide],
    [model_needs_41_bytes].

    ** Bounds and fuel

    Loops over C strings and lists that the source does not bound take fuel and
    return [None] when it is used up; the theorems prove the result [Some].
    Heap walks have one step per possible header of the 4 MB array, scheduler
    walks one per task of the pool and one more, the checksum fold four rounds
    (a 32-bit sum needs two), decimal output the twelve bytes of its buffer.
    Paths passed to system calls are read within [path_fuel] bytes, a parameter.
    Loops that wait for a key take as many turns as scan codes are waiting: each
    turn takes one, and without any the program polls for ever, which is the
    result [Hang].  The chain of the text interface has at most 32 elements, so 33
    steps reach its end.  Loops that wait for a device have the count of the code.

    ** Not modelled

    The boot code (boot.asm) and the inline assembly that loads the descriptor
    tables or switches stacks; what the processor does with the tables is taken
    as documented.  Delays ([io_wait] and empty loops).  Timer interrupts are
    not interleaved with the start-up or with the commands.  What a device does
    is a parameter (a class with its documented behaviour) or, for the ports of
    a PC (interrupt controllers, timer, 8042, ATA drive, CRT controller, UART), a
    model of its own.  Of vfs.c the fallback of [vfs_mkdir] for nodes without
    operations, which do not exist, and the names of registered file systems.
    The messages of the allocators, the scheduler and the file systems to the
    serial port are left out, those of the other parts are modelled.  In [Syscall.v]
    the heap's array, the variables of the kernel and the memory of files and user
    buffers are separate; the code has one flat address space and refuses only
    pointers below 0x1000, so that a call with a pointer to the kernel's own
    variables, which would overwrite them, is outside the model. *)

From stdpp Require Export base tactics numbers list.
From Stdlib Require Export ZArith Lia Bool ZifyBool ZifyNat.
#[global] Open Scope Z_scope.

(** ** Machine integers

    [-m32]: [size_t], [uintptr_t], [uint32_t] are 32 bits wide and wrap. *)
Definition u8 (z : Z) : Z := z mod 2 ^ 8.
Definition u16 (z : Z) : Z := z mod 2 ^ 16.
Definition u32 (z : Z) : Z := z mod 2 ^ 32.
Definition u64 (z : Z) : Z := z mod 2 ^ 64.
Definition i8 (z : Z) : Z := (z + 2 ^ 7) mod 2 ^ 8 - 2 ^ 7.
Definition i32 (z : Z) : Z := (z + 2 ^ 31) mod 2 ^ 32 - 2 ^ 31.

(** A C truth value. *)
Definition b2z (b : bool) : Z := if b then 1 else 0.

(** ** Tactics *)

(** Linear arithmetic with division and modulo by constants. *)
Ltac zlia := Z.div_mod_to_equations; lia.

(** Case on every boolean test of the goal and turn it into arithmetic. *)
Ltac bool_to_prop :=
  repeat match goal with
  | H : (_ =? _)%Z = true |- _ => apply Z.eqb_eq in H
  | H : (_ =? _)%Z = false |- _ => apply Z.eqb_neq in H
  | H : (_ <? _)%Z = true |- _ => apply Z.ltb_lt in H
  | H : (_ <? _)%Z = false |- _ => apply Z.ltb_ge in H
  | H : (_ <=? _)%Z = true |- _ => apply Z.leb_le in H
  | H : (_ <=? _)%Z = false |- _ => apply Z.leb_gt in H
  | H : (_ >? _)%Z = _ |- _ => rewrite Z.gtb_ltb in H
  | H : (_ >=? _)%Z = _ |- _ => rewrite Z.geb_leb in H
  | H : (_ =? _)%nat = true |- _ => apply Nat.eqb_eq in H
  | H : (_ =? _)%nat = false |- _ => apply Nat.eqb_neq in H
  | H : (_ <? _)%nat = true |- _ => apply Nat.ltb_lt in H
  | H : (_ <? _)%nat = false |- _ => apply Nat.ltb_ge in H
  | H : (_ <=? _)%nat = true |- _ => apply Nat.leb_le in H
  | H : (_ <=? _)%nat = false |- _ => apply Nat.leb_gt in H
  | H : negb _ = true |- _ => apply negb_true_iff in H
  | H : negb _ = false |- _ => apply negb_false_iff in H
  | H : _ && _ = true |- _ => apply andb_true_iff in H as [? ?]
  | H : _ || _ = false |- _ => apply orb_false_iff in H as [? ?]
  | H : _ || _ = true |- _ => apply orb_true_iff in H
  | H : _ && _ = false |- _ => apply andb_false_iff in H
  end.

Ltac case_if :=
  match goal with
  | |- context [if ?b then _ else _] =>
      lazymatch type of b with bool => destruct b eqn:? end
  end.

Ltac case_if_in H :=
  match type of H with
  | context [if ?b then _ else _] =>
      lazymatch type of b with bool => destruct b eqn:? end
  end.

(** Case on the tests of the goal, closing the arithmetic branches. *)
Ltac ifs := repeat (case_if; bool_to_prop; simpl; try lia; try done).

(** Equality of tuples, component by component. *)
Ltac tuple_eq :=
  repeat match goal with |- (_, _) = (_, _) => apply f_equal2 end; try done; try lia.

(** ** Integer lemmas *)
Create HintDb tinx discriminated.
Create Rewrite HintDb tinx.

Lemma u32_range z : 0 <= u32 z < 2 ^ 32.
Proof. unfold u32. apply Z.mod_pos_bound. lia. Qed.

Lemma u32_small z : 0 <= z < 2 ^ 32 -> u32 z = z.
Proof. intros. unfold u32. by rewrite Z.mod_small. Qed.

Lemma u8_range z : 0 <= u8 z < 256.
Proof. unfold u8. change (2 ^ 8) with 256. apply Z.mod_pos_bound. lia. Qed.

Lemma u8_small z : 0 <= z < 256 -> u8 z = z.
Proof. intros. unfold u8. by rewrite Z.mod_small. Qed.

Lemma u8_u8 z : u8 (u8 z) = u8 z.
Proof. apply u8_small, u8_range. Qed.

Lemma u32_u32 z : u32 (u32 z) = u32 z.
Proof. apply u32_small, u32_range. Qed.

Lemma i32_range z : - 2 ^ 31 <= i32 z < 2 ^ 31.
Proof. unfold i32. pose proof (Z.mod_pos_bound (z + 2 ^ 31) (2 ^ 32)). lia. Qed.

Lemma i32_small z : - 2 ^ 31 <= z < 2 ^ 31 -> i32 z = z.
Proof. intros. unfold i32. rewrite Z.mod_small; lia. Qed.

Lemma land_3 z : Z.land z 3 = z mod 4.
Proof. change 3 with (Z.ones 2). rewrite Z.land_ones by lia. done. Qed.

Lemma land_7 z : Z.land z 7 = z mod 8.
Proof. change 7 with (Z.ones 3). rewrite Z.land_ones by lia. done. Qed.

Lemma shiftr_2 z : Z.shiftr z 2 = z / 4.
Proof. by rewrite Z.shiftr_div_pow2 by lia. Qed.

(** The test [((a | b) & 3) == 0] of the word paths. *)
Lemma lor_land_3 a b : Z.land (Z.lor a b) 3 = 0 <-> a mod 4 = 0 /\ b mod 4 = 0.
Proof. rewrite Z.land_lor_distr_l, !land_3. apply Z.lor_eq_0_iff. Qed.

(** Bits below and above position [k] do not meet. *)
Lemma lor_shiftl_add a b k : 0 <= k -> 0 <= a < 2 ^ k -> Z.lor a (Z.shiftl b k) = a + b * 2 ^ k.
Proof.
  intros Hk Ha. assert (Hz : Z.land a (Z.shiftl b k) = 0).
  { apply Z.bits_inj'. intros n Hn. rewrite Z.land_spec, Z.bits_0, Z.shiftl_spec by done.
    destruct (Z.lt_ge_cases n k); [rewrite (Z.testbit_neg_r b) by lia; by rewrite andb_false_r|].
    rewrite <- (Z.mod_small a (2 ^ k)) by done. by rewrite Z.mod_pow2_bits_high by lia. }
  pose proof (Z.add_lor_land a (Z.shiftl b k)) as H. rewrite Hz, Z.shiftl_mul_pow2 in * by done. lia.
Qed.

Lemma testbit_u32 z i : 0 <= i -> Z.testbit (u32 z) i = (i <? 32) && Z.testbit z i.
Proof.
  intros Hi. unfold u32. destruct (i <? 32) eqn:E; bool_to_prop; simpl.
  - by rewrite Z.mod_pow2_bits_low by lia.
  - by rewrite Z.mod_pow2_bits_high by lia.
Qed.

(** Clearing the low bits rounds down. *)
Lemma land_not_mask x k :
  0 <= x < 2 ^ 32 -> 0 <= k -> Z.land x (u32 (Z.lnot (Z.ones k))) = x / 2 ^ k * 2 ^ k.
Proof.
  intros Hx Hk. rewrite <- Z.shiftr_div_pow2, <- Z.shiftl_mul_pow2, <- Z.ldiff_ones_r by lia.
  apply Z.bits_inj'. intros i Hi.
  rewrite Z.land_spec, Z.ldiff_spec, testbit_u32, Z.lnot_spec by lia.
  destruct (i <? 32) eqn:E; bool_to_prop; simpl; [done|].
  rewrite <- (Z.mod_small x (2 ^ 32)) by lia. by rewrite Z.mod_pow2_bits_high by lia.
Qed.

#[export] Hint Resolve u32_range u8_range i32_range : tinx.
#[export] Hint Rewrite u8_u8 u32_u32 land_3 land_7 shiftr_2 : tinx.

(** Iterating a list search over indices [i, i+1, ..., i+n-1]:
    the [for (i = lo; i < hi; i++) if (p(i)) return i;] loops. *)
Fixpoint find_from (p : nat -> bool) (i n : nat) : option nat :=
  match n with
  | O => None
  | S n' => if p i then Some i else find_from p (S i) n'
  end.

Lemma find_from_Some p i n k :
  find_from p i n = Some k ->
  (i <= k < i + n)%nat /\ p k = true /\ forall j, (i <= j < k)%nat -> p j = false.
Proof.
  revert i; induction n as [|n IH]; intros i H; simpl in H; [done|].
  destruct (p i) eqn:E.
  - injection H as <-. repeat split; [lia|lia|done|lia].
  - apply IH in H as (Hr & Hk & Hj). repeat split; [lia|lia|done|].
    intros j Hj'. destruct (decide (j = i)) as [->|]; [done|]. apply Hj. lia.
Qed.

Lemma find_from_None p i n :
  find_from p i n = None -> forall j, (i <= j < i + n)%nat -> p j = false.
Proof.
  revert i; induction n as [|n IH]; intros i H j Hj; simpl in H; [lia|].
  destruct (p i) eqn:E; [done|].
  destruct (decide (j = i)) as [->|]; [done|]. apply (IH (S i)); [done|lia].
Qed.

Lemma find_from_ext (p p' : nat -> bool) i n : (forall j, p j = p' j) -> find_from p i n = find_from p' i n.
Proof. intros H. revert i. induction n as [|n IH]; intros i; [done|]. cbn. by rewrite H, IH. Qed.

(** Distinct indices below [n] are at most [n]. *)
Lemma bounded_nodup_length (l : list nat) n :
  NoDup l -> Forall (fun i => (i < n)%nat) l -> (length l <= n)%nat.
Proof.
  intros Hnd Hb. transitivity (length (seq 0 n)); [|by rewrite length_seq].
  apply submseteq_length, NoDup_submseteq; [done|].
  intros i Hi. apply elem_of_seq. rewrite Forall_forall in Hb. specialize (Hb i Hi). lia.
Qed.
