(* ===== verification/Mem.v ===== *)
(** * Flat byte memory

    The kernel runs with paging off: a pointer is a 32-bit number and every
    address can be read.  [mem] maps an address to the value stored there;
    [peek] reads it as an [unsigned char].  Words are little-endian.  Two
    memories with the same bytes are indistinguishable ([mem_eq]). *)
From S2P Require Import Prelude.

Definition mem := Z -> Z.

Definition peek (m : mem) (a : Z) : Z := u8 (m a).
Definition store8 (m : mem) (a v : Z) : mem := fun b => if b =? a then u8 v else m b.

Definition load32 (m : mem) (a : Z) : Z :=
  peek m a + 256 * peek m (a + 1) + 65536 * peek m (a + 2) + 16777216 * peek m (a + 3).
Definition store32 (m : mem) (a v : Z) : mem :=
  store8 (store8 (store8 (store8 m a v) (a + 1) (v / 256))
            (a + 2) (v / 65536)) (a + 3) (v / 16777216).

Declare Scope mem_scope.
Delimit Scope mem_scope with mem.
Notation "m '.[' a ']'" := (peek m a) (at level 1, format "m .[ a ]") : mem_scope.
#[global] Open Scope mem_scope.

(** [m1] and [m2] hold the same bytes. *)
Definition mem_eq : relation mem := fun m1 m2 => forall a, m1.[a] = m2.[a].
#[export] Instance mem_equiv : Equiv mem := mem_eq.
#[export] Instance mem_equivalence : Equivalence (≡@{mem}).
Proof.
  split.
  - intros m a. reflexivity.
  - intros m1 m2 H a. symmetry. apply H.
  - intros m1 m2 m3 H1 H2 a. etransitivity; [apply H1|apply H2].
Qed.

Lemma peek_range m a : 0 <= m.[a] < 256.
Proof. apply u8_range. Qed.
#[export] Hint Resolve peek_range : tinx.

Lemma u8_peek m a : u8 m.[a] = m.[a].
Proof. apply u8_u8. Qed.

Lemma peek_store8 m a v b : (store8 m a v).[b] = if b =? a then u8 v else m.[b].
Proof. unfold peek, store8. case_if; [apply u8_u8|done]. Qed.

Lemma peek_store32 m a v b :
  (store32 m a v).[b] =
  if b =? a + 3 then u8 (v / 16777216) else if b =? a + 2 then u8 (v / 65536)
  else if b =? a + 1 then u8 (v / 256) else if b =? a then u8 v else m.[b].
Proof. unfold store32. by rewrite !peek_store8. Qed.

Lemma peek_store32_ne m a v b : b < a \/ a + 4 <= b -> (store32 m a v).[b] = m.[b].
Proof. intros H. rewrite peek_store32. ifs. Qed.

#[export] Instance peek_proper : Proper ((≡) ==> (=) ==> (=)) peek.
Proof. intros m1 m2 H a ? <-. apply H. Qed.
#[export] Instance load32_proper : Proper ((≡) ==> (=) ==> (=)) load32.
Proof. intros m1 m2 H a ? <-. unfold load32. by rewrite !(H _). Qed.
#[export] Instance store8_proper : Proper ((≡) ==> (=) ==> (=) ==> (≡)) store8.
Proof. intros m1 m2 H a ? <- v ? <- b. rewrite !peek_store8. by rewrite (H b). Qed.
#[export] Instance store32_proper : Proper ((≡) ==> (=) ==> (=) ==> (≡)) store32.
Proof. intros m1 m2 H a ? <- v ? <- b. rewrite !peek_store32. by rewrite (H b). Qed.

Lemma load32_range m a : 0 <= load32 m a < 2 ^ 32.
Proof.
  unfold load32. pose proof (peek_range m a). pose proof (peek_range m (a + 1)).
  pose proof (peek_range m (a + 2)). pose proof (peek_range m (a + 3)). lia.
Qed.
#[export] Hint Resolve load32_range : tinx.

Lemma le_digits v :
  0 <= v < 2 ^ 32 ->
  u8 v + 256 * u8 (v / 256) + 65536 * u8 (v / 65536) + 16777216 * u8 (v / 16777216) = v.
Proof.
  intros H. unfold u8. change (2 ^ 8) with 256.
  replace (v / 65536) with (v / 256 / 256) by (by rewrite Z.div_div by lia).
  replace (v / 16777216) with (v / 256 / 256 / 256) by (by rewrite !Z.div_div by lia).
  zlia.
Qed.

Lemma load32_store32_eq m a v : 0 <= v < 2 ^ 32 -> load32 (store32 m a v) a = v.
Proof.
  intros Hv. unfold load32. rewrite !peek_store32.
  replace (a =? a + 3) with false by lia. replace (a =? a + 2) with false by lia.
  replace (a =? a + 1) with false by lia. rewrite !Z.eqb_refl.
  replace (a + 1 =? a + 3) with false by lia. replace (a + 1 =? a + 2) with false by lia.
  replace (a + 2 =? a + 3) with false by lia. by apply le_digits.
Qed.

(** A word read depends only on its four bytes. *)
Lemma load32_ext m1 m2 a :
  (forall b, a <= b < a + 4 -> m1.[b] = m2.[b]) -> load32 m1 a = load32 m2 a.
Proof. intros H. unfold load32. by rewrite !H by lia. Qed.

Lemma load32_store32_ne m a v b :
  b + 4 <= a \/ a + 4 <= b -> load32 (store32 m a v) b = load32 m b.
Proof. intros H. apply load32_ext. intros c Hc. apply peek_store32_ne. lia. Qed.

Lemma load32_store8_ne m a v b : a < b \/ b + 4 <= a -> load32 (store8 m a v) b = load32 m b.
Proof. intros H. apply load32_ext. intros c Hc. rewrite peek_store8. ifs. Qed.

(** The bytes of a loaded word. *)
Lemma load32_bytes m a :
  u8 (load32 m a) = m.[a] /\ u8 (load32 m a / 256) = m.[a + 1] /\
  u8 (load32 m a / 65536) = m.[a + 2] /\ u8 (load32 m a / 16777216) = m.[a + 3].
Proof.
  unfold load32.
  pose proof (peek_range m a). pose proof (peek_range m (a + 1)).
  pose proof (peek_range m (a + 2)). pose proof (peek_range m (a + 3)).
  unfold u8. change (2 ^ 8) with 256. repeat split; zlia.
Qed.

(** Copying one word copies its four bytes. *)
Lemma peek_copy32 m d s b :
  (store32 m d (load32 m s)).[b] = if (d <=? b) && (b <? d + 4) then m.[s + (b - d)] else m.[b].
Proof.
  rewrite peek_store32. destruct (load32_bytes m s) as (-> & -> & -> & ->).
  repeat (case_if; bool_to_prop); try (f_equal; lia); lia.
Qed.

(** ** Copied and filled ranges *)

(** [m'] is [m] with the [n] bytes at [s] (as they were in [m]) written at [d]. *)
Definition copied (m : mem) (d s n : Z) (m' : mem) : Prop :=
  forall a, m'.[a] = if (d <=? a) && (a <? d + n) then m.[s + (a - d)] else m.[a].

Definition filled (m : mem) (d v n : Z) (m' : mem) : Prop :=
  forall a, m'.[a] = if (d <=? a) && (a <? d + n) then u8 v else m.[a].

Lemma copied_0 m d s : copied m d s 0 m.
Proof. intros a. case_if; bool_to_prop; [lia|done]. Qed.

Lemma filled_0 m d v : filled m d v 0 m.
Proof. intros a. case_if; bool_to_prop; [lia|done]. Qed.

(** No byte of the source is overwritten before it is read when copying
    upwards: the destination is below the source, or the ranges do not meet. *)
Definition fwd_safe (d s n : Z) : Prop := d <= s \/ s + n <= d.

Lemma copied_app m d s n1 n2 m1 m2 :
  0 <= n1 -> 0 <= n2 -> fwd_safe d s (n1 + n2) ->
  copied m d s n1 m1 -> copied m1 (d + n1) (s + n1) n2 m2 -> copied m d s (n1 + n2) m2.
Proof.
  intros H1 H2 Hs C1 C2 a. rewrite (C2 a). unfold fwd_safe in Hs.
  destruct ((d + n1 <=? a) && (a <? d + n1 + n2)) eqn:E; bool_to_prop.
  - replace ((d <=? a) && (a <? d + (n1 + n2))) with true by lia.
    replace (s + n1 + (a - (d + n1))) with (s + (a - d)) by lia. rewrite C1.
    replace ((d <=? s + (a - d)) && (s + (a - d) <? d + n1)) with false; [done|].
    symmetry. apply andb_false_iff. destruct (decide (s + (a - d) < d)); [left|right]; lia.
  - rewrite C1. repeat (case_if; bool_to_prop); try done; lia.
Qed.

Lemma filled_app m d v n1 n2 m1 m2 :
  0 <= n1 -> 0 <= n2 ->
  filled m d v n1 m1 -> filled m1 (d + n1) v n2 m2 -> filled m d v (n1 + n2) m2.
Proof.
  intros H1 H2 C1 C2 a. rewrite (C2 a), (C1 a).
  repeat (case_if; bool_to_prop); try done; lia.
Qed.

Lemma copied_unique m d s n m1 m2 : copied m d s n m1 -> copied m d s n m2 -> m1 ≡ m2.
Proof. intros H1 H2 a. by rewrite (H1 a), (H2 a). Qed.

Lemma copied_byte m d s : copied m d s 1 (store8 m d m.[s]).
Proof.
  intros a. rewrite peek_store8, u8_peek.
  repeat (case_if; bool_to_prop); try done; try lia. f_equal. lia.
Qed.

Lemma copied_word m d s : copied m d s 4 (store32 m d (load32 m s)).
Proof. intros a. apply peek_copy32. Qed.

Lemma filled_byte m d v : filled m d v 1 (store8 m d v).
Proof. intros a. rewrite peek_store8. repeat (case_if; bool_to_prop); try done; lia. Qed.

(** The [n] bytes at [a], and writing bytes there. *)
Fixpoint user_bytes (n : nat) (m : mem) (a : Z) : list Z :=
  match n with O => [] | S n' => m.[a] :: user_bytes n' m (a + 1) end.
Fixpoint put_bytes (m : mem) (a : Z) (bs : list Z) : mem :=
  match bs with [] => m | b :: bs' => put_bytes (store8 m a b) (a + 1) bs' end.

Lemma length_user_bytes n m a : length (user_bytes n m a) = n.
Proof. revert a. induction n as [|n IH]; intros a; cbn; [done|]. by rewrite IH. Qed.

Lemma user_bytes_range n m a : Forall (fun b => 0 <= b < 256) (user_bytes n m a).
Proof. revert a. induction n as [|n IH]; intros a; cbn; constructor; [apply peek_range|apply IH]. Qed.

Lemma peek_put_bytes_before m a bs b : b < a -> (put_bytes m a bs).[b] = m.[b].
Proof.
  revert m a. induction bs as [|v bs IH]; intros m a Hb; cbn; [done|].
  rewrite IH by lia. rewrite peek_store8. by replace (b =? a) with false by lia.
Qed.

Lemma user_put_bytes m a bs :
  Forall (fun b => 0 <= b < 256) bs -> user_bytes (length bs) (put_bytes m a bs) a = bs.
Proof.
  intros Hb. revert m a. induction Hb as [|v bs Hv _ IH]; intros m a; cbn; [done|].
  rewrite IH, peek_put_bytes_before, peek_store8 by lia. by rewrite Z.eqb_refl, u8_small.
Qed.
