(* ===== verification/LibString.v ===== *)
(** * lib_string.c: the freestanding string and memory routines

    Every routine works on the flat memory of [Mem].  Loops whose bound is a
    count are structural on it; loops that look for a NUL take fuel and return
    [None] when it runs out, and the theorems give the fuel that is enough.
    Pointer-returning routines return the pair of the pointer and the memory. *)
From S2P Require Import Prelude Mem.

(** ** memcpy, memmove *)

(** [while (n--) *d++ = *s++;] and [rep movsb]. *)
Fixpoint copy_bytes (n : nat) (m : mem) (d s : Z) : mem :=
  match n with
  | O => m
  | S n' => copy_bytes n' (store8 m d m.[s]) (d + 1) (s + 1)
  end.

(** [while (nwords--) *dw_d++ = *dw_s++;] *)
Fixpoint copy_words (n : nat) (m : mem) (d s : Z) : mem * Z * Z :=
  match n with
  | O => (m, d, s)
  | S n' => copy_words n' (store32 m d (load32 m s)) (d + 4) (s + 4)
  end.

(** The loop unrolled four times: it leaves the words that do not fill a
    round, with the advanced pointers. *)
Fixpoint copy_words4 (n : nat) (m : mem) (d s : Z) : nat * mem * Z * Z :=
  match n with
  | S (S (S (S n'))) =>
      let m0 := store32 m d (load32 m s) in
      let m1 := store32 m0 (d + 4) (load32 m0 (s + 4)) in
      let m2 := store32 m1 (d + 8) (load32 m1 (s + 8)) in
      let m3 := store32 m2 (d + 12) (load32 m2 (s + 12)) in
      copy_words4 n' m3 (d + 16) (s + 16)
  | _ => (n, m, d, s)
  end.

Definition lib_memcpy (m : mem) (dest src n : Z) : Z * mem :=
  if (dest =? 0) || (src =? 0) || (n =? 0) then (dest, m) else
  if (Z.land (Z.lor dest src) 3 =? 0) && (16 <=? n) then
    let nwords := Z.shiftr n 2 in
    let tail := Z.land n 3 in
    let '(k, m1, d1, s1) := copy_words4 (Z.to_nat nwords) m dest src in
    let '(m2, d2, s2) := copy_words k m1 d1 s1 in
    (dest, copy_bytes (Z.to_nat tail) m2 d2 s2)
  else (dest, copy_bytes (Z.to_nat n) m dest src).

(** [while (n--) *--d = *--s;] from pointers already past the end. *)
Fixpoint copy_bytes_back (n : nat) (m : mem) (d s : Z) : mem :=
  match n with
  | O => m
  | S n' => copy_bytes_back n' (store8 m (d - 1) m.[s - 1]) (d - 1) (s - 1)
  end.

Definition lib_memmove (m : mem) (dest src n : Z) : Z * mem :=
  if (dest =? 0) || (src =? 0) || (n =? 0) then (dest, m) else
  if dest =? src then (dest, m) else
  if dest <? src then lib_memcpy m dest src n
  else (dest, copy_bytes_back (Z.to_nat n) m (dest + n) (src + n)).

(** ** memset *)

Fixpoint fill_bytes (n : nat) (m : mem) (p v : Z) : mem :=
  match n with
  | O => m
  | S n' => fill_bytes n' (store8 m p v) (p + 1) v
  end.

Fixpoint fill_words (n : nat) (m : mem) (p w : Z) : mem * Z :=
  match n with
  | O => (m, p)
  | S n' => fill_words n' (store32 m p w) (p + 4) w
  end.

Fixpoint fill_words4 (n : nat) (m : mem) (p w : Z) : nat * mem * Z :=
  match n with
  | S (S (S (S n'))) =>
      fill_words4 n'
        (store32 (store32 (store32 (store32 m p w) (p + 4) w) (p + 8) w) (p + 12) w) (p + 16) w
  | _ => (n, m, p)
  end.

Definition lib_memset (m : mem) (s c n : Z) : Z * mem :=
  if (s =? 0) || (n =? 0) then (s, m) else
  let val := u8 c in
  if (Z.land s 3 =? 0) && (16 <=? n) then
    let word := Z.lor (Z.lor (Z.lor val (Z.shiftl val 8)) (Z.shiftl val 16)) (Z.shiftl val 24) in
    let nwords := Z.shiftr n 2 in
    let tail := Z.land n 3 in
    let '(k, m1, p1) := fill_words4 (Z.to_nat nwords) m s word in
    let '(m2, p2) := fill_words k m1 p1 word in
    (s, fill_bytes (Z.to_nat tail) m2 p2 val)
  else (s, fill_bytes (Z.to_nat n) m s val).

(** ** memcmp *)

(** What every comparison returns when one of the pointers is NULL. *)
Definition null_cmp (s1 s2 : Z) : Z := if s1 =? s2 then 0 else if s1 =? 0 then -1 else 1.

Fixpoint memcmp_bytes (n : nat) (m : mem) (a b : Z) : Z :=
  match n with
  | O => 0
  | S n' => if m.[a] =? m.[b] then memcmp_bytes n' m (a + 1) (b + 1) else m.[a] - m.[b]
  end.

(** [inl r]: return [r]; [inr (a, b)]: all words equal, the advanced pointers.
    A word difference whose bytes are all equal would go on with the loop. *)
Fixpoint memcmp_words (n : nat) (m : mem) (wa wb : Z) : Z + Z * Z :=
  match n with
  | O => inr (wa, wb)
  | S n' =>
      if load32 m wa =? load32 m wb then memcmp_words n' m (wa + 4) (wb + 4)
      else match find_from (fun i => negb (m.[wa + Z.of_nat i] =? m.[wb + Z.of_nat i])) 0 4 with
           | Some i => inl (m.[wa + Z.of_nat i] - m.[wb + Z.of_nat i])
           | None => memcmp_words n' m (wa + 4) (wb + 4)
           end
  end.

Definition lib_memcmp (m : mem) (s1 s2 n : Z) : Z :=
  if (s1 =? 0) || (s2 =? 0) then null_cmp s1 s2 else
  if (Z.land (Z.lor s1 s2) 3 =? 0) && (16 <=? n) then
    match memcmp_words (Z.to_nat (Z.shiftr n 2)) m s1 s2 with
    | inl r => r
    | inr (a, b) => memcmp_bytes (Z.to_nat (Z.land n 3)) m a b
    end
  else memcmp_bytes (Z.to_nat n) m s1 s2.

(** ** strlen *)

(** [while (((uintptr_t)p & 3U) && *p) { p++; len++; }]: at most three rounds. *)
Fixpoint strlen_align (n : nat) (m : mem) (p len : Z) : Z * Z :=
  match n with
  | O => (p, len)
  | S n' => if negb (Z.land p 3 =? 0) && negb (m.[p] =? 0)
            then strlen_align n' m (p + 1) (u32 (len + 1)) else (p, len)
  end.

(** [((v - 0x01010101U) & ~v & 0x80808080U) != 0] *)
Definition has_zero_byte (v : Z) : bool :=
  negb (Z.land (Z.land (u32 (v - 0x01010101)) (Z.lxor v 0xFFFFFFFF)) 0x80808080 =? 0).

Fixpoint strlen_words (fuel : nat) (m : mem) (w len : Z) : option Z :=
  match fuel with
  | O => None
  | S f =>
      if has_zero_byte (load32 m w) then
        match find_from (fun i => m.[w + Z.of_nat i] =? 0) 0 4 with
        | Some i => Some (u32 (len + Z.of_nat i))
        | None => strlen_words f m (w + 4) (u32 (len + 4))
        end
      else strlen_words f m (w + 4) (u32 (len + 4))
  end.

Definition lib_strlen (fuel : nat) (m : mem) (s : Z) : option Z :=
  if s =? 0 then Some 0 else
  let '(p, len) := strlen_align 4 m s 0 in
  if m.[p] =? 0 then Some len else strlen_words fuel m p len.

(** ** strcmp, strncmp *)

Fixpoint strcmp_loop (fuel : nat) (m : mem) (s1 s2 : Z) : option Z :=
  match fuel with
  | O => None
  | S f => if negb (m.[s1] =? 0) && (m.[s1] =? m.[s2]) then strcmp_loop f m (s1 + 1) (s2 + 1)
           else Some (m.[s1] - m.[s2])
  end.

Definition lib_strcmp (fuel : nat) (m : mem) (s1 s2 : Z) : option Z :=
  if (s1 =? 0) || (s2 =? 0) then Some (null_cmp s1 s2) else strcmp_loop fuel m s1 s2.

Fixpoint strncmp_loop (n : nat) (m : mem) (s1 s2 : Z) : Z :=
  match n with
  | O => 0
  | S n' => if negb (m.[s1] =? 0) && (m.[s1] =? m.[s2]) then strncmp_loop n' m (s1 + 1) (s2 + 1)
            else m.[s1] - m.[s2]
  end.

Definition lib_strncmp (m : mem) (s1 s2 n : Z) : Z :=
  if (s1 =? 0) || (s2 =? 0) then null_cmp s1 s2 else strncmp_loop (Z.to_nat n) m s1 s2.

(** ** strcpy, strncpy, strcat *)

Fixpoint strcpy_loop (fuel : nat) (m : mem) (d s : Z) : option mem :=
  match fuel with
  | O => None
  | S f => let m' := store8 m d m.[s] in
           if m.[s] =? 0 then Some m' else strcpy_loop f m' (d + 1) (s + 1)
  end.

Definition lib_strcpy (fuel : nat) (m : mem) (dest src : Z) : option (Z * mem) :=
  if (dest =? 0) || (src =? 0) then Some (dest, m) else
  m' ← strcpy_loop fuel m dest src; Some (dest, m').

(** [for (; i < n - 1 && src[i]; i++) dest[i] = src[i];] with [k] rounds left. *)
Fixpoint strncpy_loop (k : nat) (m : mem) (dest src i : Z) : mem * Z :=
  match k with
  | O => (m, i)
  | S k' => if m.[src + i] =? 0 then (m, i)
            else strncpy_loop k' (store8 m (dest + i) m.[src + i]) dest src (i + 1)
  end.

Definition lib_strncpy (m : mem) (dest src n : Z) : Z * mem :=
  if (dest =? 0) || (n =? 0) then (dest, m) else
  let '(m1, i1) := if src =? 0 then (m, 0) else strncpy_loop (Z.to_nat (n - 1)) m dest src 0 in
  let '(m2, i2) := if src =? 0 then (m1, i1)
                   else strncpy_loop (Z.to_nat (n - 1 - i1)) m1 dest src i1 in
  (dest, store8 m2 (dest + (if i2 <? n then i2 else n - 1)) 0).

Definition lib_strcat (fuel : nat) (m : mem) (dest src : Z) : option (Z * mem) :=
  if (dest =? 0) || (src =? 0) then Some (dest, m) else
  dlen ← lib_strlen fuel m dest;
  r ← lib_strcpy fuel m (dest + dlen) src;
  Some (dest, snd r).

(** ** strchr, strrchr *)

Fixpoint strchr_loop (fuel : nat) (m : mem) (s ch : Z) : option (Z + Z) :=
  match fuel with
  | O => None
  | S f => if m.[s] =? 0 then Some (inr s)
           else if m.[s] =? ch then Some (inl s) else strchr_loop f m (s + 1) ch
  end.

Definition lib_strchr (fuel : nat) (m : mem) (s c : Z) : option Z :=
  if s =? 0 then Some 0 else
  r ← strchr_loop fuel m s (u8 c);
  match r with
  | inl p => Some p
  | inr e => Some (if c =? 0 then e else 0)
  end.

Fixpoint strrchr_loop (fuel : nat) (m : mem) (s ch last : Z) : option (Z * Z) :=
  match fuel with
  | O => None
  | S f => if m.[s] =? 0 then Some (last, s)
           else strrchr_loop f m (s + 1) ch (if m.[s] =? ch then s else last)
  end.

Definition lib_strrchr (fuel : nat) (m : mem) (s c : Z) : option Z :=
  if s =? 0 then Some 0 else
  '(last, e) ← strrchr_loop fuel m s (u8 c) 0;
  Some (if u8 c =? 0 then e else last).

(** ** atoi *)

Fixpoint atoi_skip (fuel : nat) (m : mem) (s : Z) : option Z :=
  match fuel with
  | O => None
  | S f => if (m.[s] =? 32) || (m.[s] =? 9) || (m.[s] =? 10) then atoi_skip f m (s + 1) else Some s
  end.

Fixpoint atoi_digits (fuel : nat) (m : mem) (s val : Z) : option Z :=
  match fuel with
  | O => None
  | S f => if (48 <=? i8 m.[s]) && (i8 m.[s] <=? 57)
           then atoi_digits f m (s + 1) (i32 (val * 10 + (i8 m.[s] - 48))) else Some val
  end.

Definition lib_atoi (fuel : nat) (m : mem) (s : Z) : option Z :=
  if s =? 0 then Some 0 else
  s1 ← atoi_skip fuel m s;
  let '(sign, s2) := if m.[s1] =? 45 then (-1, s1 + 1)
                     else if m.[s1] =? 43 then (1, s1 + 1) else (1, s1) in
  val ← atoi_digits fuel m s2 0;
  Some (i32 (sign * val)).

(** ** Copying *)

Lemma copy_bytes_copied n m d s :
  fwd_safe d s (Z.of_nat n) -> copied m d s (Z.of_nat n) (copy_bytes n m d s).
Proof.
  revert m d s; induction n as [|n IH]; intros m d s Hs; cbn [copy_bytes]; [apply copied_0|].
  replace (Z.of_nat (S n)) with (1 + Z.of_nat n) in * by lia.
  eapply copied_app; [lia|lia|done|apply copied_byte|].
  apply IH. unfold fwd_safe in *. lia.
Qed.

(** Word copies also need a whole word of distance, which alignment gives. *)
Definition word_safe (d s n : Z) : Prop := d = s \/ d + 4 <= s \/ s + n <= d.

Lemma word_safe_fwd d s n : word_safe d s n -> fwd_safe d s n.
Proof. unfold word_safe, fwd_safe. lia. Qed.

Lemma copy_words_copied n m d s :
  word_safe d s (4 * Z.of_nat n) ->
  exists m', copy_words n m d s = (m', d + 4 * Z.of_nat n, s + 4 * Z.of_nat n) /\
             copied m d s (4 * Z.of_nat n) m'.
Proof.
  revert m d s; induction n as [|n IH]; intros m d s Hs; cbn [copy_words].
  - exists m. split; [tuple_eq|]. apply copied_0.
  - destruct (IH (store32 m d (load32 m s)) (d + 4) (s + 4)) as (m' & -> & Hc);
      [unfold word_safe in *; lia|].
    exists m'. split; [tuple_eq|].
    replace (4 * Z.of_nat (S n)) with (4 + 4 * Z.of_nat n) in * by lia.
    eapply copied_app; [lia|lia|by apply word_safe_fwd|apply copied_word|done].
Qed.

(** The unrolled loop followed by the one-word loop is the one-word loop. *)
Lemma copy_words4_words n m d s :
  (let '(k, m1, d1, s1) := copy_words4 n m d s in copy_words k m1 d1 s1) = copy_words n m d s.
Proof.
  revert m d s. induction n as [n IH] using (well_founded_induction lt_wf). intros m d s.
  destruct n as [|[|[|[|n]]]]; try reflexivity.
  cbn [copy_words4]. rewrite IH by lia. cbn [copy_words].
  by rewrite <-!Z.add_assoc.
Qed.

Lemma memcpy_copied_lem m d s n :
  0 < d -> 0 < s -> 0 <= n -> fwd_safe d s n -> copied m d s n (snd (lib_memcpy m d s n)).
Proof.
  intros Hd Hsrc Hn Hs. unfold lib_memcpy.
  replace (d =? 0) with false by lia. replace (s =? 0) with false by lia. simpl.
  destruct (n =? 0) eqn:En; bool_to_prop; [subst; apply copied_0|].
  destruct (_ && _) eqn:E; bool_to_prop.
  - apply lor_land_3 in H as [Hd4 Hs4]. rewrite shiftr_2, land_3.
    pose proof (copy_words4_words (Z.to_nat (n / 4)) m d s) as Hw.
    destruct (copy_words4 _ m d s) as [[[k m1] d1] s1]. rewrite Hw.
    assert (Hws : word_safe d s (4 * Z.of_nat (Z.to_nat (n / 4)))).
    { unfold word_safe, fwd_safe in *. zlia. }
    destruct (copy_words_copied _ m d s Hws) as (m' & -> & Hc). simpl.
    replace n with (4 * Z.of_nat (Z.to_nat (n / 4)) + Z.of_nat (Z.to_nat (n mod 4))) at 1 by zlia.
    eapply copied_app; [lia|lia| |done|apply copy_bytes_copied];
      unfold fwd_safe in *; zlia.
  - simpl. replace n with (Z.of_nat (Z.to_nat n)) at 1 by lia. apply copy_bytes_copied.
    by rewrite Z2Nat.id.
Qed.

Lemma copied_snoc m d s n m1 :
  s <= d -> 0 <= n -> copied m (d + 1) (s + 1) n m1 ->
  copied m d s (n + 1) (store8 m1 d m1.[s]).
Proof.
  intros Hsd Hn Hc a. rewrite peek_store8, u8_peek, (Hc s), (Hc a).
  repeat (case_if; bool_to_prop); try lia; try done; f_equal; lia.
Qed.

Lemma copy_bytes_back_copied n m d s :
  s <= d -> copied m (d - Z.of_nat n) (s - Z.of_nat n) (Z.of_nat n) (copy_bytes_back n m d s).
Proof.
  intros Hsd.
  assert (Hgen : forall k m1 d1 s1 j, s1 <= d1 -> 0 <= j ->
      copied m d1 s1 j m1 ->
      copied m (d1 - Z.of_nat k) (s1 - Z.of_nat k) (j + Z.of_nat k) (copy_bytes_back k m1 d1 s1)).
  { induction k as [|k IH]; intros m1 d1 s1 j H1 Hj Hc; cbn [copy_bytes_back].
    - by replace (d1 - Z.of_nat 0) with d1 by lia; replace (s1 - Z.of_nat 0) with s1 by lia;
        replace (j + Z.of_nat 0) with j by lia.
    - replace (d1 - Z.of_nat (S k)) with (d1 - 1 - Z.of_nat k) by lia.
      replace (s1 - Z.of_nat (S k)) with (s1 - 1 - Z.of_nat k) by lia.
      replace (j + Z.of_nat (S k)) with (j + 1 + Z.of_nat k) by lia.
      apply IH; [lia|lia|]. apply copied_snoc; [lia|lia|].
      by replace (d1 - 1 + 1) with d1 by lia; replace (s1 - 1 + 1) with s1 by lia. }
  apply (Hgen n m d s 0); [lia|lia|apply copied_0].
Qed.

(** [lib_memmove] moves [n] bytes between any two non-NULL buffers, however
    they overlap: the destination holds the bytes the source held before the
    call, every other byte is unchanged, and the destination is returned. *)
Theorem memmove_copied m d s n :
  0 < d -> 0 < s -> 0 <= n ->
  fst (lib_memmove m d s n) = d /\ copied m d s n (snd (lib_memmove m d s n)).
Proof.
  intros Hd Hs Hn. unfold lib_memmove.
  replace (d =? 0) with false by lia. replace (s =? 0) with false by lia. simpl.
  destruct (n =? 0) eqn:En; bool_to_prop; [subst; split; [done|apply copied_0]|].
  destruct (d =? s) eqn:Ed; bool_to_prop.
  - subst. split; [done|]. intros a. simpl. case_if; [|done]. f_equal. lia.
  - destruct (d <? s) eqn:El; bool_to_prop.
    + split; [|apply memcpy_copied_lem; try lia; left; lia].
      unfold lib_memcpy. repeat case_match; done.
    + split; [done|]. simpl.
      pose proof (copy_bytes_back_copied (Z.to_nat n) m (d + n) (s + n)) as H.
      rewrite Z2Nat.id in H by lia.
      replace (d + n - n) with d in H by lia. replace (s + n - n) with s in H by lia.
      apply H. lia.
Qed.

Lemma memmove_copied_witness :
  let m := fun a : Z => a in
  (0 < 100 /\ 0 < 96 /\ 0 <= 20) /\ (snd (lib_memmove m 100 96 20)).[119] = 115 /\
  copied m 100 96 20 (snd (lib_memmove m 100 96 20)).
Proof.
  intros m. split; [lia|]. split; [by vm_compute|].
  apply (memmove_copied m 100 96 20); lia.
Defined.

(** The word path of [lib_memcpy] (aligned buffers, unrolled word loop, byte
    tail) and its byte path compute the same memory: whenever a forward copy is
    safe, the routine is the byte-by-byte copy. *)
Theorem memcpy_word_path_is_byte_copy m d s n :
  0 < d -> 0 < s -> 0 <= n -> fwd_safe d s n ->
  snd (lib_memcpy m d s n) ≡ copy_bytes (Z.to_nat n) m d s.
Proof.
  intros Hd Hs Hn Hsafe. eapply copied_unique; [by apply memcpy_copied_lem|].
  pose proof (copy_bytes_copied (Z.to_nat n) m d s) as H. rewrite Z2Nat.id in H by lia. auto.
Qed.

Lemma memcpy_word_path_is_byte_copy_witness :
  let m := fun a : Z => a in
  fwd_safe 64 68 37 /\ snd (lib_memcpy m 64 68 37) ≡ copy_bytes 37 m 64 68.
Proof.
  intros m. split; [left; lia|].
  apply (memcpy_word_path_is_byte_copy m 64 68 37); [lia|lia|lia|left; lia].
Defined.

(** ** Filling *)

Lemma fill_bytes_filled n m p v : filled m p v (Z.of_nat n) (fill_bytes n m p v).
Proof.
  revert m p; induction n as [|n IH]; intros m p; cbn [fill_bytes]; [apply filled_0|].
  replace (Z.of_nat (S n)) with (1 + Z.of_nat n) by lia.
  eapply filled_app; [lia|lia|apply filled_byte|apply IH].
Qed.

(** The word built by shifts holds the value in each of its bytes. *)
Definition splat (v : Z) : Z :=
  Z.lor (Z.lor (Z.lor v (Z.shiftl v 8)) (Z.shiftl v 16)) (Z.shiftl v 24).

Lemma splat_mul v : 0 <= v < 256 -> splat v = v * 0x01010101.
Proof.
  intros Hv.
  assert (H : forallb (fun i => splat (Z.of_nat i) =? Z.of_nat i * 0x01010101) (seq 0 256) = true)
    by by vm_compute.
  rewrite forallb_forall in H. specialize (H (Z.to_nat v)).
  rewrite Z2Nat.id in H by lia. apply Z.eqb_eq, H, in_seq. lia.
Qed.

Lemma filled_word m p v : filled m p v 4 (store32 m p (splat (u8 v))).
Proof.
  intros a. pose proof (u8_range v) as Hr. rewrite splat_mul by done.
  rewrite peek_store32.
  assert (Hb : u8 (u8 v * 0x01010101) = u8 v /\ u8 (u8 v * 0x01010101 / 256) = u8 v /\
    u8 (u8 v * 0x01010101 / 65536) = u8 v /\ u8 (u8 v * 0x01010101 / 16777216) = u8 v).
  { set (w := u8 v) in *. unfold u8. change (2 ^ 8) with 256. repeat split; zlia. }
  destruct Hb as (-> & -> & -> & ->). repeat (case_if; bool_to_prop); try done; lia.
Qed.

Lemma fill_words_filled n m p v :
  exists m', fill_words n m p (splat (u8 v)) = (m', p + 4 * Z.of_nat n) /\
             filled m p v (4 * Z.of_nat n) m'.
Proof.
  revert m p; induction n as [|n IH]; intros m p; cbn [fill_words].
  - exists m. split; [tuple_eq|apply filled_0].
  - destruct (IH (store32 m p (splat (u8 v))) (p + 4)) as (m' & -> & Hc).
    exists m'. split; [tuple_eq|].
    replace (4 * Z.of_nat (S n)) with (4 + 4 * Z.of_nat n) by lia.
    eapply filled_app; [lia|lia|apply filled_word|done].
Qed.

Lemma fill_words4_words n m p w :
  (let '(k, m1, p1) := fill_words4 n m p w in fill_words k m1 p1 w) = fill_words n m p w.
Proof.
  revert m p. induction n as [n IH] using (well_founded_induction lt_wf). intros m p.
  destruct n as [|[|[|[|n]]]]; try reflexivity.
  cbn [fill_words4]. rewrite IH by lia. cbn [fill_words]. by rewrite <-!Z.add_assoc.
Qed.

Lemma memset_filled_lem m s c n :
  0 < s -> 0 <= n -> filled m s c n (snd (lib_memset m s c n)).
Proof.
  intros Hs Hn. unfold lib_memset. replace (s =? 0) with false by lia. simpl.
  destruct (n =? 0) eqn:En; bool_to_prop; [subst; apply filled_0|].
  assert (Hu : forall k m0 p, filled m0 p c (Z.of_nat k) (fill_bytes k m0 p (u8 c))).
  { intros k m0 p a. rewrite (fill_bytes_filled k m0 p (u8 c) a). by rewrite u8_u8. }
  destruct (_ && _) eqn:E; bool_to_prop; simpl.
  - fold (splat (u8 c)). rewrite shiftr_2, land_3.
    pose proof (fill_words4_words (Z.to_nat (n / 4)) m s (splat (u8 c))) as Hw.
    destruct (fill_words4 _ m s _) as [[k m1] p1]. rewrite Hw.
    destruct (fill_words_filled (Z.to_nat (n / 4)) m s c) as (m' & -> & Hc). simpl.
    replace n with (4 * Z.of_nat (Z.to_nat (n / 4)) + Z.of_nat (Z.to_nat (n mod 4))) at 1 by zlia.
    eapply filled_app; [lia|lia|done|apply Hu].
  - replace n with (Z.of_nat (Z.to_nat n)) at 1 by lia. apply Hu.
Qed.

(** ** Comparing *)

(** [lib_memcmp] on non-NULL buffers, with its aligned word-at-a-time path,
    returns exactly what the byte loop returns. *)
Theorem memcmp_is_byte_compare m a b n :
  0 < a -> 0 < b -> 0 <= n -> lib_memcmp m a b n = memcmp_bytes (Z.to_nat n) m a b.
Proof.
  intros Ha Hb Hn. unfold lib_memcmp.
  replace (a =? 0) with false by lia. replace (b =? 0) with false by lia. simpl.
  destruct (_ && _); [|done]. rewrite shiftr_2, land_3.
  replace (Z.to_nat n) with (4 * Z.to_nat (n / 4) + Z.to_nat (n mod 4))%nat by zlia.
  generalize (Z.to_nat (n / 4)) (Z.to_nat (n mod 4)). clear. intros k t.
  revert a b; induction k as [|k IH]; intros a b; [done|].
  replace (4 * S k + t)%nat with (S (S (S (S (4 * k + t))))) by lia.
  cbn [memcmp_words memcmp_bytes find_from Z.of_nat Nat.add].
  replace (a + 1 + 1 + 1 + 1) with (a + 4) by lia. replace (b + 1 + 1 + 1 + 1) with (b + 4) by lia.
  replace (a + 1 + 1 + 1) with (a + 3) by lia. replace (b + 1 + 1 + 1) with (b + 3) by lia.
  replace (a + 1 + 1) with (a + 2) by lia. replace (b + 1 + 1) with (b + 2) by lia.
  change (Z.of_nat 0) with 0. change (Z.of_nat 1) with 1. change (Z.of_nat 2) with 2. change (Z.of_nat 3) with 3.
  rewrite ?Z.add_0_r.
  destruct (load32 m a =? load32 m b) eqn:Ew; bool_to_prop.
  - pose proof (load32_bytes m a) as Ba. rewrite Ew in Ba.
    destruct Ba as (<- & <- & <- & <-). destruct (load32_bytes m b) as (-> & -> & -> & ->).
    rewrite !Z.eqb_refl. apply IH.
  - repeat (destruct (m.[_] =? m.[_]); cbn [negb]; rewrite ?Z.add_0_r; try done).
Qed.

Lemma memcmp_is_byte_compare_witness :
  let m := store8 (fun _ => 7) 150 9 in
  lib_memcmp m 100 132 20 = -2 /\
  lib_memcmp m 100 132 20 = memcmp_bytes (Z.to_nat 20) m 100 132.
Proof. intros m. split; [by vm_compute|]. apply memcmp_is_byte_compare; lia. Defined.

Lemma byte_testbit x i b :
  0 <= i -> (x / 2 ^ (8 * i)) mod 256 = b -> Z.testbit x (8 * i + 7) = Z.testbit b 7.
Proof.
  intros Hi <-. change 256 with (2 ^ 8). rewrite Z.mod_pow2_bits_low by lia.
  rewrite Z.div_pow2_bits by lia. f_equal. lia.
Qed.

Lemma has_zero_byte_at v i :
  0 <= i < 4 -> (v / 2 ^ (8 * i)) mod 256 = 0 ->
  (u32 (v - 0x01010101) / 2 ^ (8 * i)) mod 256 = 255 -> has_zero_byte v = true.
Proof.
  intros Hi Hz Hf. unfold has_zero_byte. apply negb_true_iff, Z.eqb_neq. intros H.
  assert (Hb : Z.testbit (Z.land (Z.land (u32 (v - 0x01010101)) (Z.lxor v 0xFFFFFFFF)) 0x80808080)
                 (8 * i + 7) = true).
  { rewrite !Z.land_spec, Z.lxor_spec.
    rewrite (byte_testbit _ i 255), (byte_testbit _ i 0) by (done || lia).
    assert (i = 0 \/ i = 1 \/ i = 2 \/ i = 3) as [->|[->|[->| ->]]] by lia; done. }
  rewrite H in Hb. by rewrite Z.bits_0 in Hb.
Qed.

(** The bit trick never misses a NUL: a word with a zero byte is detected. *)
Lemma has_zero_byte_complete m w i :
  0 <= i < 4 -> m.[w + i] = 0 -> has_zero_byte (load32 m w) = true.
Proof.
  intros Hi Hz. unfold load32.
  pose proof (peek_range m w). pose proof (peek_range m (w + 1)).
  pose proof (peek_range m (w + 2)). pose proof (peek_range m (w + 3)).
  assert (Hc : m.[w] = 0 \/ (m.[w] <> 0 /\ m.[w + 1] = 0) \/
    (m.[w] <> 0 /\ m.[w + 1] <> 0 /\ m.[w + 2] = 0) \/
    (m.[w] <> 0 /\ m.[w + 1] <> 0 /\ m.[w + 2] <> 0 /\ m.[w + 3] = 0)).
  { assert (i = 0 \/ i = 1 \/ i = 2 \/ i = 3) as [->|[->|[->| ->]]] by lia;
      rewrite ?Z.add_0_r in Hz; lia. }
  destruct Hc as [Hc|[[? Hc]|[(? & ? & Hc)|(? & ? & ? & Hc)]]]; rewrite Hc;
    [apply (has_zero_byte_at _ 0)|apply (has_zero_byte_at _ 1)
    |apply (has_zero_byte_at _ 2)|apply (has_zero_byte_at _ 3)]; try lia;
    unfold u32; cbn [Z.mul Pos.mul]; rewrite ?Z.pow_0_r; zlia.
Qed.

(** The first NUL at or after [p] is [k] bytes on. *)
Definition nul_at (m : mem) (p k : Z) : Prop :=
  0 <= k /\ m.[p + k] = 0 /\ forall j, 0 <= j < k -> m.[p + j] <> 0.

Lemma nul_at_shift m p k d : 0 <= d <= k -> nul_at m p k -> nul_at m (p + d) (k - d).
Proof.
  intros Hd (Hk & Hz & Hj). repeat split; [lia| |].
  - by replace (p + d + (k - d)) with (p + k) by lia.
  - intros j Hj'. replace (p + d + j) with (p + (d + j)) by lia. apply Hj. lia.
Qed.

Lemma find_nul m w k :
  nul_at m w k ->
  find_from (fun i => m.[w + Z.of_nat i] =? 0) 0 4 = if k <? 4 then Some (Z.to_nat k) else None.
Proof.
  intros (Hk & Hz & Hj). destruct (find_from _ 0 4) as [i|] eqn:E.
  - apply find_from_Some in E as (Hi & Hzi & Hlt). bool_to_prop.
    destruct (Z.lt_trichotomy (Z.of_nat i) k) as [H|[H|H]].
    + exfalso. apply (Hj (Z.of_nat i)); [lia|done].
    + replace (k <? 4) with true by lia. f_equal. lia.
    + specialize (Hlt (Z.to_nat k)). rewrite Z2Nat.id in Hlt by lia.
      rewrite Hz in Hlt. exfalso. discriminate Hlt. lia.
  - destruct (k <? 4) eqn:Ek; [|done]. bool_to_prop. exfalso.
    pose proof (find_from_None _ _ _ E (Z.to_nat k)) as H. simpl in H.
    rewrite Z2Nat.id in H by lia. rewrite Hz in H. discriminate H. lia.
Qed.

Lemma strlen_words_nul fuel m w len k :
  nul_at m w k -> k < 4 * Z.of_nat fuel -> 0 <= len -> len + k < 2 ^ 32 ->
  strlen_words fuel m w len = Some (len + k).
Proof.
  revert w len k; induction fuel as [|f IH]; intros w len k Hn Hf Hl Hw; cbn [strlen_words];
    [destruct Hn; lia|].
  rewrite (find_nul m w k) by done. destruct (k <? 4) eqn:Ek; bool_to_prop.
  - destruct Hn as (Hk & Hz & _). rewrite (has_zero_byte_complete m w k) by (lia || done).
    rewrite Z2Nat.id by lia. by rewrite u32_small by lia.
  - rewrite (IH _ _ (k - 4)); [|apply nul_at_shift; [lia|done]|lia|apply u32_range|].
    + rewrite u32_small by lia. destruct (has_zero_byte _); f_equal; lia.
    + rewrite u32_small by lia. lia.
Qed.

Lemma strlen_align_nul n m p len k :
  nul_at m p k -> 0 <= len -> len + k < 2 ^ 32 ->
  exists d, 0 <= d <= k /\ strlen_align n m p len = (p + d, len + d).
Proof.
  revert p len k; induction n as [|n IH]; intros p len k Hn Hl Hw; cbn [strlen_align].
  - exists 0. destruct Hn. split; [lia|]. tuple_eq.
  - destruct (_ && _) eqn:E; bool_to_prop.
    + assert (1 <= k). { destruct Hn as (? & Hz & _). destruct (decide (k = 0)) as [->|]; [|lia].
        rewrite Z.add_0_r in Hz. congruence. }
      rewrite u32_small by lia.
      destruct (IH (p + 1) (len + 1) (k - 1)) as (d & Hd & ->);
        [apply nul_at_shift; [lia|done]|lia|lia|].
      exists (d + 1). split; [lia|]. tuple_eq.
    + exists 0. destruct Hn. split; [lia|]. tuple_eq.
Qed.

Lemma strlen_nul fuel m s k :
  0 < s -> nul_at m s k -> k < 2 ^ 32 -> k < 4 * Z.of_nat fuel -> lib_strlen fuel m s = Some k.
Proof.
  intros Hs Hn Hk Hf. unfold lib_strlen. replace (s =? 0) with false by lia.
  destruct (strlen_align_nul 4 m s 0 k) as (d & Hd & ->); [done|lia|lia|].
  pose proof (nul_at_shift m s k d Hd Hn) as Hn'. destruct (m.[s + d] =? 0) eqn:E; bool_to_prop.
  - f_equal. destruct Hn as (_ & _ & Hj). destruct (decide (d = k)); [lia|].
    exfalso. apply (Hj d); [lia|done].
  - rewrite (strlen_words_nul fuel m (s + d) (0 + d) (k - d)) by (done || lia). f_equal. lia.
Qed.

(** [lib_strlen] terminates on every NUL-terminated string and returns the
    offset of its first NUL: [k / 4 + 1] rounds of its word loop are enough. *)
Theorem strlen_first_nul m s k :
  0 < s -> nul_at m s k -> k < 2 ^ 32 ->
  lib_strlen (Z.to_nat (k / 4 + 1)) m s = Some k.
Proof. intros Hs Hn Hk. apply strlen_nul; try done. destruct Hn. zlia. Qed.

Lemma strlen_first_nul_witness :
  let m := store8 (fun _ => 65) 118 0 in
  nul_at m 101 17 /\ lib_strlen (Z.to_nat (17 / 4 + 1)) m 101 = Some 17.
Proof.
  intros m.
  assert (Hn : nul_at m 101 17).
  { split; [lia|]. split; [by vm_compute|]. intros j Hj. unfold m.
    rewrite peek_store8. replace (101 + j =? 118) with false by lia. by vm_compute. }
  split; [exact Hn|]. apply (strlen_first_nul m 101 17); [lia|exact Hn|lia].
Defined.

(** ** C strings *)

(** The NUL-terminated string [l] (non-NUL bytes) is stored at [p]. *)
Fixpoint cstr (m : mem) (p : Z) (l : list Z) : Prop :=
  match l with
  | [] => m.[p] = 0
  | c :: l' => m.[p] = c /\ c <> 0 /\ cstr m (p + 1) l'
  end.

(** C's ordering of strings: the difference of the first differing bytes. *)
Fixpoint strcmp_list (l1 l2 : list Z) : Z :=
  match l1, l2 with
  | [], [] => 0
  | [], y :: _ => - y
  | x :: _, [] => x
  | x :: l1', y :: l2' => if x =? y then strcmp_list l1' l2' else x - y
  end.

Lemma cstr_ext m m' p l :
  (forall a, p <= a <= p + Z.of_nat (length l) -> m'.[a] = m.[a]) -> cstr m p l -> cstr m' p l.
Proof.
  revert p; induction l as [|c l IH]; intros p He; simpl; [intros <-; apply He; simpl; lia|].
  intros (<- & Hc & Hl). split; [apply He; simpl; lia|]. split; [done|].
  apply IH; [|done]. intros a Ha. apply He. simpl length. lia.
Qed.

Lemma cstr_nul_at m p l : cstr m p l -> nul_at m p (Z.of_nat (length l)).
Proof.
  revert p; induction l as [|c l IH]; intros p; simpl.
  - intros H. repeat split; [lia|by rewrite Z.add_0_r|lia].
  - intros (Hc & Hne & Hl). apply IH in Hl as (Hk & Hz & Hj). repeat split; [lia| |].
    + by replace (p + Z.of_nat (S (length l))) with (p + 1 + Z.of_nat (length l)) by lia.
    + intros j Hj'. destruct (decide (j = 0)) as [->|]; [rewrite Z.add_0_r; congruence|].
      replace (p + j) with (p + 1 + (j - 1)) by lia. apply Hj. lia.
Qed.

Lemma strcmp_list_0 l1 l2 :
  Forall (fun c => 0 < c) l1 -> Forall (fun c => 0 < c) l2 -> strcmp_list l1 l2 = 0 <-> l1 = l2.
Proof.
  intros H1; revert l2; induction H1 as [|x l1 Hx H1 IH]; intros l2 H2; destruct H2 as [|y l2 Hy H2];
    simpl; try (split; [lia|discriminate]); [done|].
  destruct (x =? y) eqn:E; bool_to_prop.
  - subst. rewrite IH by done. split; [congruence|intros [=]; done].
  - split; [lia|intros [=]; lia].
Qed.

Lemma cstr_pos m p l : cstr m p l -> Forall (fun c => 0 < c) l.
Proof.
  revert p; induction l as [|c l IH]; intros p; simpl; [constructor|].
  intros (Hc & Hne & Hl). constructor; [|by eapply IH].
  pose proof (peek_range m p). lia.
Qed.

Lemma strcmp_loop_list fuel m s1 s2 l1 l2 :
  cstr m s1 l1 -> cstr m s2 l2 -> (length l1 < fuel)%nat ->
  strcmp_loop fuel m s1 s2 = Some (strcmp_list l1 l2).
Proof.
  revert s1 s2 l1 l2; induction fuel as [|f IH]; intros s1 s2 l1 l2 H1 H2 Hf; [lia|].
  cbn [strcmp_loop].
  destruct l1 as [|x l1]; destruct l2 as [|y l2]; cbn [cstr strcmp_list] in *.
  - rewrite H1, H2. done.
  - destruct H2 as (<- & ? & ?). rewrite H1. f_equal; lia.
  - destruct H1 as (<- & Hx & ?). rewrite H2.
    replace (m.[s1] =? 0) with false by lia. simpl. f_equal. lia.
  - destruct H1 as (<- & Hx & H1), H2 as (<- & Hy & H2).
    replace (m.[s1] =? 0) with false by lia. simpl. destruct (m.[s1] =? m.[s2]); [|done].
    apply IH; [done|done|simpl in Hf; lia].
Qed.

(** [lib_strcmp] on two strings terminates and returns C's comparison: the
    difference of the first differing bytes, so zero exactly on equal strings. *)
Theorem strcmp_compares fuel m s1 s2 l1 l2 :
  0 < s1 -> 0 < s2 -> cstr m s1 l1 -> cstr m s2 l2 -> (length l1 < fuel)%nat ->
  lib_strcmp fuel m s1 s2 = Some (strcmp_list l1 l2) /\ (strcmp_list l1 l2 = 0 <-> l1 = l2).
Proof.
  intros Hs1 Hs2 H1 H2 Hf. split.
  - unfold lib_strcmp. replace (s1 =? 0) with false by lia. replace (s2 =? 0) with false by lia.
    by apply strcmp_loop_list.
  - apply strcmp_list_0; by eapply cstr_pos.
Qed.

Lemma strcmp_compares_witness :
  let m := fun a : Z => if a =? 10 then 47 else if a =? 20 then 47 else if a =? 21 then 97 else 0 in
  cstr m 10 [47] /\ cstr m 20 [47; 97] /\ lib_strcmp 2 m 10 20 = Some (-97).
Proof.
  intros m. split; [by vm_compute|]. split; [by vm_compute|].
  apply (strcmp_compares 2 m 10 20 [47] [47; 97]); try lia; [by vm_compute|by vm_compute|simpl; lia].
Defined.

(** [m'] agrees with [m] outside [lo, hi). *)
Definition same_outside (lo hi : Z) (m m' : mem) : Prop :=
  forall a, a < lo \/ hi <= a -> m'.[a] = m.[a].

Lemma strcpy_loop_cstr fuel m d s l :
  cstr m s l -> (length l < fuel)%nat ->
  d + Z.of_nat (length l) < s \/ s + Z.of_nat (length l) < d ->
  exists m', strcpy_loop fuel m d s = Some m' /\ cstr m' d l /\
             same_outside d (d + Z.of_nat (length l) + 1) m m'.
Proof.
  revert m d s l; induction fuel as [|f IH]; intros m d s l Hl Hf Hd; [lia|].
  cbn [strcpy_loop]. destruct l as [|c l]; cbn [cstr length] in *.
  - rewrite Hl. simpl. eexists. split; [done|]. split; [by rewrite peek_store8, Z.eqb_refl|].
    intros a Ha. rewrite peek_store8. ifs.
  - destruct Hl as (<- & Hc & Hl). replace (m.[s] =? 0) with false by lia.
    destruct (IH (store8 m d m.[s]) (d + 1) (s + 1) l) as (m' & -> & Hm' & Hs); [|lia|lia|].
    + eapply cstr_ext; [|done]. intros a Ha. rewrite peek_store8. ifs.
    + exists m'. split; [done|]. split.
      * cbn [cstr]. rewrite (Hs d) by lia. rewrite peek_store8, Z.eqb_refl, u8_peek. done.
      * intros a Ha. rewrite (Hs a) by lia. rewrite peek_store8. ifs.
Qed.

(** [lib_strcat] appends: given a string [l1] in a buffer with room and a
    string [l2] that does not meet the buffer, the buffer then holds [l1 ++ l2],
    only the bytes from the old NUL on are written, and the buffer is returned. *)
Theorem strcat_appends fuel m d s l1 l2 :
  0 < d -> 0 < s -> cstr m d l1 -> cstr m s l2 ->
  let n := Z.of_nat (length l1 + length l2) in
  n < 2 ^ 32 -> d + n < s \/ s + Z.of_nat (length l2) < d ->
  (length l1 + length l2 < fuel)%nat ->
  exists m', lib_strcat fuel m d s = Some (d, m') /\ cstr m' d (l1 ++ l2) /\
             same_outside (d + Z.of_nat (length l1)) (d + n + 1) m m'.
Proof.
  intros Hd Hs H1 H2 n Hn Hov Hf. unfold lib_strcat, lib_strcpy.
  replace (d =? 0) with false by lia. replace (s =? 0) with false by lia. simpl.
  rewrite (strlen_nul fuel m d (Z.of_nat (length l1))) by (try apply cstr_nul_at; done || lia).
  simpl. replace (d + Z.of_nat (length l1) =? 0) with false by lia.
  replace (s =? 0) with false by lia. simpl.
  destruct (strcpy_loop_cstr fuel m (d + Z.of_nat (length l1)) s l2)
    as (m' & -> & Hm' & Ho); [done|lia|lia|].
  simpl. exists m'. split; [done|]. split.
  - clear -H1 Hm' Ho. revert d H1 Hm' Ho. induction l1 as [|c l1 IH]; intros d H1 Hm' Ho.
    + simpl in *. by rewrite Z.add_0_r in Hm'.
    + cbn [app cstr] in *. destruct H1 as (<- & Hc & H1). rewrite (Ho d) by (simpl; lia).
      split; [done|]. split; [done|]. apply IH; [done| |].
      * by replace (d + 1 + Z.of_nat (length l1)) with (d + Z.of_nat (S (length l1))) by lia.
      * intros a Ha. apply Ho. simpl length. lia.
  - intros a Ha. apply Ho. lia.
Qed.

Lemma strcat_appends_witness :
  let m := fun a : Z => if a =? 10 then 47 else if a =? 90 then 98 else 0 in
  exists m', lib_strcat 9 m 10 90 = Some (10, m') /\ cstr m' 10 [47; 98] /\ same_outside 11 13 m m'.
Proof.
  intros m. apply (strcat_appends 9 m 10 90 [47] [98]); simpl; try lia; by vm_compute.
Defined.

Lemma strncpy_loop_cstr k m d s i l :
  0 <= i -> cstr m (s + i) l -> d + i + Z.of_nat k <= s \/ s + i + Z.of_nat (length l) < d ->
  exists m', strncpy_loop k m d s i = (m', i + Z.of_nat (Nat.min k (length l))) /\
    same_outside (d + i) (d + i + Z.of_nat (Nat.min k (length l))) m m' /\
    forall j, (j < Nat.min k (length l))%nat -> m'.[d + i + Z.of_nat j] = m.[s + i + Z.of_nat j].
Proof.
  revert m i l; induction k as [|k IH]; intros m i l Hi Hl Hov; cbn [strncpy_loop].
  - exists m. split; [tuple_eq|]. split; [by intros a|]. simpl. lia.
  - destruct l as [|c l]; cbn [cstr length] in *.
    + rewrite Hl. simpl. exists m. split; [tuple_eq|]. split; [by intros a|]. lia.
    + destruct Hl as (<- & Hc & Hl). replace (m.[s + i] =? 0) with false by lia.
      set (m1 := store8 m (d + i) m.[s + i]).
      assert (Hm1 : forall a, a <> d + i -> m1.[a] = m.[a]).
      { intros a Ha. unfold m1. rewrite peek_store8. ifs. }
      destruct (IH m1 (i + 1) l) as (m' & -> & Ho & Hj); [lia| |lia|].
      * replace (s + (i + 1)) with (s + i + 1) by lia.
        eapply cstr_ext; [|done]. intros a Ha. apply Hm1. lia.
      * exists m'. split; [tuple_eq|]. split.
        -- intros a Ha. rewrite (Ho a) by lia. apply Hm1. lia.
        -- intros j Hjl. destruct j as [|j].
           ++ rewrite !Z.add_0_r. rewrite (Ho (d + i)) by lia.
              unfold m1. by rewrite peek_store8, Z.eqb_refl, u8_peek.
           ++ replace (d + i + Z.of_nat (S j)) with (d + (i + 1) + Z.of_nat j) by lia.
              rewrite Hj by lia. rewrite Hm1 by lia. f_equal. lia.
Qed.

Lemma cstr_lookup m p l j c :
  cstr m p l -> l !! j = Some c -> m.[p + Z.of_nat j] = c /\ c <> 0.
Proof.
  revert p j; induction l as [|x l IH]; intros p j Hl Hj; [done|].
  destruct Hl as (Hx & Hne & Hl). destruct j as [|j]; simpl in Hj.
  - injection Hj as <-. by rewrite Z.add_0_r.
  - replace (p + Z.of_nat (S j)) with (p + 1 + Z.of_nat j) by lia. by apply IH.
Qed.

Lemma cstr_intro m p l :
  (forall j c, l !! j = Some c -> m.[p + Z.of_nat j] = c /\ c <> 0) ->
  m.[p + Z.of_nat (length l)] = 0 -> cstr m p l.
Proof.
  revert p; induction l as [|x l IH]; intros p Hj Hz; simpl in *; [by rewrite Z.add_0_r in Hz|].
  destruct (Hj 0%nat x eq_refl) as [H0 Hne]. rewrite Z.add_0_r in H0.
  split; [done|]. split; [done|]. apply IH.
  - intros j c Hc. replace (p + 1 + Z.of_nat j) with (p + Z.of_nat (S j)) by lia. by apply Hj.
  - by replace (p + 1 + Z.of_nat (length l)) with (p + Z.of_nat (S (length l))) by lia.
Qed.

(** [lib_strncpy] with [n > 0] and a source that does not meet the
    destination always NUL-terminates: the destination holds the first [n - 1]
    bytes of the source string, and no byte outside the [n]-byte destination
    is written. *)
Theorem strncpy_truncates m d s n l :
  0 < d -> 0 < s -> 0 < n -> cstr m s l -> d + n <= s \/ s + Z.of_nat (length l) < d ->
  exists m', lib_strncpy m d s n = (d, m') /\ cstr m' d (take (Z.to_nat (n - 1)) l) /\
             same_outside d (d + n) m m'.
Proof.
  intros Hd Hs Hn Hl Hov. unfold lib_strncpy.
  replace (d =? 0) with false by lia. replace (n =? 0) with false by lia.
  replace (s =? 0) with false by lia. simpl.
  destruct (strncpy_loop_cstr (Z.to_nat (n - 1)) m d s 0 l) as (m1 & -> & Ho & Hj);
    [lia|by rewrite Z.add_0_r|lia|].
  set (k := Nat.min (Z.to_nat (n - 1)) (length l)) in *.
  assert (Hsrc : cstr m1 s l).
  { eapply cstr_ext; [|done]. intros a Ha. apply Ho. lia. }
  assert (Hrest : cstr m1 (s + (0 + Z.of_nat k)) (drop k l)).
  { apply cstr_intro.
    - intros j c Hc. rewrite lookup_drop in Hc. replace (s + (0 + Z.of_nat k) + Z.of_nat j)
        with (s + Z.of_nat (k + j)) by lia. by apply (cstr_lookup m1 s l).
    - rewrite length_drop. destruct (cstr_nul_at m1 s l Hsrc) as (_ & Hz & _).
      rewrite <- Hz. f_equal. lia. }
  destruct (strncpy_loop_cstr (Z.to_nat (n - 1 - (0 + Z.of_nat k))) m1 d s (0 + Z.of_nat k) (drop k l))
    as (m2 & -> & Ho2 & _); [lia|done|rewrite length_drop; lia|].
  rewrite length_drop in *.
  replace (Nat.min (Z.to_nat (n - 1 - (0 + Z.of_nat k))) (length l - k)) with 0%nat in * by lia.
  replace (0 + Z.of_nat k + Z.of_nat 0) with (Z.of_nat k) by lia.
  replace (Z.of_nat k <? n) with true by lia.
  eexists. split; [done|]. split.
  - assert (Hk : length (take (Z.to_nat (n - 1)) l) = k) by (rewrite length_take; lia).
    apply cstr_intro.
    + intros j c Hc. assert (j < k)%nat by (rewrite <- Hk; by eapply lookup_lt_Some).
      rewrite lookup_take_lt in Hc by lia.
      rewrite peek_store8. replace (d + Z.of_nat j =? d + Z.of_nat k) with false by lia.
      rewrite (Ho2 (d + Z.of_nat j)) by lia. rewrite Z.add_0_r in Hj.
      replace (d + Z.of_nat j) with (d + 0 + Z.of_nat j) by lia.
      replace (d + 0) with d by lia. rewrite Hj by lia.
      replace (s + 0 + Z.of_nat j) with (s + Z.of_nat j) by lia. by apply (cstr_lookup m s l).
    + rewrite Hk. by rewrite peek_store8, Z.eqb_refl.
  - intros a Ha. rewrite peek_store8. replace (a =? d + Z.of_nat k) with false by lia.
    rewrite (Ho2 a) by lia. apply Ho. lia.
Qed.

Lemma strncpy_truncates_witness :
  let m := fun a : Z => if (90 <=? a) && (a <? 95) then 98 else 0 in
  exists m', lib_strncpy m 10 90 4 = (10, m') /\ cstr m' 10 [98; 98; 98] /\ same_outside 10 14 m m'.
Proof.
  intros m. apply (strncpy_truncates m 10 90 4 [98; 98; 98; 98; 98]); try lia. by vm_compute.
Defined.
