(* ===== verification/Alloc.v ===== *)
(** * What the kernel heap promises to its clients

    The zone allocator and the VM map call [kmalloc] and [kfree] and write in
    the blocks they own.  They rely on this interface only; [Heap.v] provides
    it. *)
From S2P Require Import Prelude Mem LibString.

(** The [r] bytes at [q] contain address [a]. *)
Definition in_block (q r a : Z) : Prop := q <= a < q + r.

Class Allocator (A : Type) := {
  a_ok : A -> Prop;                     (* the allocator's invariant *)
  a_owned : A -> Z -> Z -> Prop;        (* base and length of an allocated block *)
  a_mem : A -> mem;
  a_write : A -> mem -> A;
  a_alloc : A -> Z -> option (Z * A);
  a_free : A -> Z -> option A;

  a_owned_range : forall h q r, a_ok h -> a_owned h q r -> 0 < q /\ 0 <= r /\ q + r < 2 ^ 32;
  a_owned_disjoint : forall h q r q' r', a_ok h -> a_owned h q r -> a_owned h q' r' ->
    q = q' /\ r = r' \/ q + r <= q' \/ q' + r' <= q;
  a_alloc_spec : forall h size, a_ok h -> 0 < size <= 2 ^ 32 - 8 ->
    a_alloc h size = Some (0, h) \/
    exists q r h', a_alloc h size = Some (q, h') /\ a_ok h' /\ 0 < q /\ size <= r /\
      (forall q' r', a_owned h' q' r' <-> a_owned h q' r' \/ q' = q /\ r' = r) /\
      (forall q' r', a_owned h q' r' -> q' + r' <= q \/ q + r <= q') /\
      (forall q' r' a, a_owned h q' r' -> in_block q' r' a -> (a_mem h').[a] = (a_mem h).[a]);
  a_free_spec : forall h q r, a_ok h -> a_owned h q r -> 0 < r ->
    exists h', a_free h q = Some h' /\ a_ok h' /\
      (forall q' r', a_owned h' q' r' <-> a_owned h q' r' /\ q' <> q) /\
      (forall q' r' a, a_owned h' q' r' -> in_block q' r' a -> (a_mem h').[a] = (a_mem h).[a]);
  a_write_spec : forall h m, a_ok h ->
    (forall a, (forall q r, a_owned h q r -> ~ in_block q r a) -> m.[a] = (a_mem h).[a]) ->
    a_ok (a_write h m) /\ (forall q r, a_owned (a_write h m) q r <-> a_owned h q r);
  a_mem_write : forall h m, a_mem (a_write h m) = m
}.

(** Writing inside one owned block keeps the allocator and its blocks. *)
Lemma write_owned {A} `{!Allocator A} (h : A) q r (m : mem) :
  a_ok h -> a_owned h q r -> (forall a, ~ in_block q r a -> m.[a] = (a_mem h).[a]) ->
  a_ok (a_write h m) /\ forall q' r', a_owned (a_write h m) q' r' <-> a_owned h q' r'.
Proof. intros Hok Ho Hm. apply a_write_spec; [done|]. intros a Ha. apply Hm. by apply (Ha q r). Qed.

Lemma memset_owned {A} `{!Allocator A} (h : A) q r c n :
  a_ok h -> a_owned h q r -> 0 <= n <= r ->
  let h' := a_write h (snd (lib_memset (a_mem h) q c n)) in
  a_ok h' /\ forall q' r', a_owned h' q' r' <-> a_owned h q' r'.
Proof.
  intros Hok Ho Hn. destruct (a_owned_range _ _ _ Hok Ho) as (? & ? & ?).
  apply (write_owned h q r); [done|done|]. intros a Ha. unfold in_block in Ha.
  rewrite (memset_filled_lem (a_mem h) q c n) by lia. case_if; [lia|done].
Qed.
