(* ===== verification/Heap.v ===== *)
(** * xnu_memory.c, kernel heap: kmalloc, kfree and friends

    The heap lives in the flat memory: block headers (16 bytes: [size] at 0,
    [canary] at 4, [free] at 8, [next] at 12) sit in front of their payloads
    inside the array [kernel_heap], whose address the linker chooses.  The
    operations read and write those header bytes as the C code does; a loop
    over the block list takes fuel, and [None] means that a call does not
    return (a list longer than the heap can hold, or a lock held for ever).
    Serial messages are not modelled. *)
From S2P Require Import Prelude Mem LibString Alloc.

Definition KERNEL_HEAP_SIZE : Z := 0x00400000.
Definition KHEAP_CANARY : Z := 0x48454150.
Definition KHEAP_ALIGN : Z := 8.
Definition KHEAP_MIN_SPLIT : Z := 16.
Definition sizeof_block_header : Z := 16.
Definition sizeof_ptr : Z := 4.

(** Header fields of the block at [p]. *)
Definition hdr_size (m : mem) (p : Z) : Z := load32 m p.
Definition hdr_canary (m : mem) (p : Z) : Z := load32 m (p + 4).
Definition hdr_free (m : mem) (p : Z) : bool := negb (m.[p + 8] =? 0).
Definition hdr_next (m : mem) (p : Z) : Z := load32 m (p + 12).
Definition set_hdr_size (m : mem) (p v : Z) : mem := store32 m p v.
Definition set_hdr_canary (m : mem) (p v : Z) : mem := store32 m (p + 4) v.
Definition set_hdr_free (m : mem) (p v : Z) : mem := store8 m (p + 8) v.
Definition set_hdr_next (m : mem) (p v : Z) : mem := store32 m (p + 12) v.

Record heap := mk_heap {
  hmem : mem;
  heap_head : Z;
  heap_initialized : bool;
  heap_lock : Z;
  heap_total_usable : Z
}.

Definition with_hmem (h : heap) (m : mem) : heap :=
  mk_heap m (heap_head h) (heap_initialized h) (heap_lock h) (heap_total_usable h).
Definition with_lock (h : heap) (l : Z) : heap :=
  mk_heap (hmem h) (heap_head h) (heap_initialized h) l (heap_total_usable h).

(** [while (__sync_lock_test_and_set(l, 1)) {}]: with one CPU and nobody to
    release it, a held lock is never obtained. *)
Definition spin_lock (h : heap) : option heap :=
  if heap_lock h =? 0 then Some (with_lock h 1) else None.
Definition spin_unlock (h : heap) : heap := with_lock h 0.

Definition align_up (v a : Z) : Z :=
  if a =? 0 then v else
  let mask := u32 (a - 1) in
  Z.land (u32 (v + mask)) (u32 (Z.lnot mask)).

(** A walk visits each header once, and headers are 16 bytes apart. *)
Definition HEAP_FUEL : nat := S (S (Z.to_nat (KERNEL_HEAP_SIZE / 16))).
Arguments HEAP_FUEL : simpl never.

(** [None]: out of fuel; [Some None]: no block fits; [Some (Some (payload, m'))]. *)
Fixpoint kmalloc_walk (fuel : nat) (m : mem) (cur size : Z) : option (option (Z * mem)) :=
  match fuel with
  | O => None
  | S f =>
      if cur =? 0 then Some None else
      if hdr_free m cur && (size <=? hdr_size m cur) then
        let remaining := u32 (hdr_size m cur - size) in
        let m1 :=
          if sizeof_block_header + KHEAP_MIN_SPLIT <=? remaining then
            let newb := cur + sizeof_block_header + size in
            let ma := set_hdr_size m newb (u32 (remaining - sizeof_block_header)) in
            let mb := set_hdr_canary ma newb KHEAP_CANARY in
            let mc := set_hdr_free mb newb 1 in
            let md := set_hdr_next mc newb (hdr_next mc cur) in
            let me := set_hdr_size md cur size in
            set_hdr_next me cur newb
          else m in
        let m2 := set_hdr_free m1 cur 0 in
        let m3 := set_hdr_canary m2 cur KHEAP_CANARY in
        Some (Some (cur + sizeof_block_header, m3))
      else kmalloc_walk f m (hdr_next m cur) size
  end.

(** [while (it) { if (it == cand) break; it = it->next; }] *)
Fixpoint find_block (fuel : nat) (m : mem) (it cand : Z) : option Z :=
  match fuel with
  | O => None
  | S f => if it =? 0 then Some 0 else if it =? cand then Some it
           else find_block f m (hdr_next m it) cand
  end.

Fixpoint coalesce_walk (fuel : nat) (m : mem) (cur : Z) : option mem :=
  match fuel with
  | O => None
  | S f =>
      if (cur =? 0) || (hdr_next m cur =? 0) then Some m else
      let nxt := hdr_next m cur in
      let cur_end := u32 (cur + sizeof_block_header + hdr_size m cur) in
      if hdr_free m cur && hdr_free m nxt && (cur_end =? nxt) then
        let m1 := set_hdr_size m cur (u32 (hdr_size m cur + (sizeof_block_header + hdr_size m nxt))) in
        let m2 := set_hdr_next m1 cur (hdr_next m1 nxt) in
        let m3 := set_hdr_canary m2 nxt 0 in
        coalesce_walk f m3 cur
      else coalesce_walk f m nxt
  end.

Definition heap_coalesce (h : heap) : option heap :=
  m ← coalesce_walk HEAP_FUEL (hmem h) (heap_head h); Some (with_hmem h m).

Fixpoint used_walk (fuel : nat) (m : mem) (cur used : Z) : option Z :=
  match fuel with
  | O => None
  | S f => if cur =? 0 then Some used else
           used_walk f m (hdr_next m cur)
             (if hdr_free m cur then used else u32 (used + (hdr_size m cur + sizeof_block_header)))
  end.

Fixpoint free_walk (fuel : nat) (m : mem) (cur freeb : Z) : option Z :=
  match fuel with
  | O => None
  | S f => if cur =? 0 then Some freeb else
           free_walk f m (hdr_next m cur)
             (if hdr_free m cur then u32 (freeb + hdr_size m cur) else freeb)
  end.

Definition kheap_total (h : heap) : Z := heap_total_usable h.

Definition kheap_used (h : heap) : option Z :=
  if negb (heap_initialized h) then Some 0 else used_walk HEAP_FUEL (hmem h) (heap_head h) 0.

Definition kheap_free (h : heap) : option Z :=
  if negb (heap_initialized h) then Some (KERNEL_HEAP_SIZE - sizeof_block_header)
  else free_walk HEAP_FUEL (hmem h) (heap_head h) 0.

Section Placement.

(** The address the linker gives the array. *)
Context (kernel_heap : Z).

Definition heap_init (h : heap) : heap :=
  if heap_initialized h then h else
  let m1 := set_hdr_size (hmem h) kernel_heap (KERNEL_HEAP_SIZE - sizeof_block_header) in
  let m2 := set_hdr_canary m1 kernel_heap KHEAP_CANARY in
  let m3 := set_hdr_free m2 kernel_heap 1 in
  let m4 := set_hdr_next m3 kernel_heap 0 in
  mk_heap m4 kernel_heap true (heap_lock h) (hdr_size m4 kernel_heap).

Fixpoint check_walk (fuel : nat) (m : mem) (cur : Z) : option Z :=
  match fuel with
  | O => None
  | S f => if cur =? 0 then Some 0 else
           if negb (hdr_canary m cur =? KHEAP_CANARY) then Some (-1) else
           if (cur <? kernel_heap) || (u32 (kernel_heap + KERNEL_HEAP_SIZE) <=? cur) then Some (-1)
           else check_walk f m (hdr_next m cur)
  end.

Definition kheap_check (h : heap) : option Z :=
  if negb (heap_initialized h) then Some 0 else check_walk HEAP_FUEL (hmem h) (heap_head h).

Definition kmalloc (h : heap) (size : Z) : option (Z * heap) :=
  if size =? 0 then Some (0, h) else
  let h := if heap_initialized h then h else heap_init h in
  let size := align_up size KHEAP_ALIGN in
  h1 ← spin_lock h;
  r ← kmalloc_walk HEAP_FUEL (hmem h1) (heap_head h1) size;
  match r with
  | Some (payload, m) => Some (payload, spin_unlock (with_hmem h1 m))
  | None => Some (0, spin_unlock h1)
  end.

Definition kzalloc (h : heap) (size : Z) : option (Z * heap) :=
  '(ptr, h1) ← kmalloc h size;
  if ptr =? 0 then Some (ptr, h1)
  else Some (ptr, with_hmem h1 (snd (lib_memset (hmem h1) ptr 0 size))).

(** The block whose payload is [p], if [p - 16] is a block of the list with an
    intact canary: the validation shared by both halves of [kfree]. *)
Definition validate_payload (h : heap) (p : Z) : option (option Z) :=
  let heap_start := kernel_heap in
  let heap_end := u32 (heap_start + KERNEL_HEAP_SIZE) in
  if (heap_start + sizeof_block_header <=? p) && (p <? heap_end) then
    let cand := p - sizeof_block_header in
    if (heap_start <=? cand) && (cand + sizeof_block_header <=? heap_end) then
      if hdr_canary (hmem h) cand =? KHEAP_CANARY then
        it ← find_block HEAP_FUEL (hmem h) (heap_head h) cand;
        Some (if it =? cand then Some cand else None)
      else Some None
    else Some None
  else Some None.

Definition kfree (h : heap) (ptr : Z) : option heap :=
  if ptr =? 0 then Some h else
  if negb (heap_initialized h) then Some h else
  let heap_start := kernel_heap in
  let heap_end := u32 (heap_start + KERNEL_HEAP_SIZE) in
  hdr ← validate_payload h ptr;
  match hdr with
  | None =>
      if (heap_start <=? ptr) && (ptr <? heap_end) && (sizeof_ptr <=? ptr) then
        let maybe_raw := load32 (hmem h) (ptr - sizeof_ptr) in
        hdr2 ← validate_payload h maybe_raw;
        match hdr2 with
        | Some cand2 =>
            h1 ← spin_lock h;
            if hdr_free (hmem h1) cand2 then Some (spin_unlock h1)
            else h2 ← heap_coalesce (with_hmem h1 (set_hdr_free (hmem h1) cand2 1));
                 Some (spin_unlock h2)
        | None => Some h
        end
      else Some h
  | Some hdr =>
      h1 ← spin_lock h;
      if hdr_free (hmem h1) hdr then Some (spin_unlock h1) else
      if negb (hdr_canary (hmem h1) hdr =? KHEAP_CANARY) then Some (spin_unlock h1)
      else h2 ← heap_coalesce (with_hmem h1 (set_hdr_free (hmem h1) hdr 1));
           Some (spin_unlock h2)
  end.

(** [while (a < align) a <<= 1;] *)
Fixpoint pow2_loop (fuel : nat) (a align : Z) : option Z :=
  match fuel with
  | O => None
  | S f => if a <? align then pow2_loop f (u32 (Z.shiftl a 1)) align else Some a
  end.

Definition kmalloc_aligned (h : heap) (size align : Z) : option (Z * heap) :=
  if size =? 0 then Some (0, h) else
  let align := if align =? 0 then KHEAP_ALIGN else align in
  align ← (if negb (Z.land align (u32 (align - 1)) =? 0) then pow2_loop 33 1 align else Some align);
  if align <=? KHEAP_ALIGN then kmalloc h size else
  let extra := u32 (align - 1 + sizeof_ptr) in
  '(raw, h1) ← kmalloc h (u32 (size + extra));
  if raw =? 0 then Some (0, h1) else
  let aligned := Z.land (u32 (raw + sizeof_ptr + align - 1)) (u32 (Z.lnot (u32 (align - 1)))) in
  Some (aligned, with_hmem h1 (store32 (hmem h1) (aligned - sizeof_ptr) raw)).

Definition kfree_aligned (h : heap) (ptr : Z) : option heap :=
  if ptr =? 0 then Some h else
  let raw := load32 (hmem h) (ptr - sizeof_ptr) in
  let heap_start := kernel_heap in
  let heap_end := u32 (heap_start + KERNEL_HEAP_SIZE) in
  if (raw <? heap_start) || (heap_end <=? raw) then kfree h ptr else kfree h raw.

Definition kmalloc_heap_used (h : heap) : option Z := kheap_used h.
Definition kmalloc_heap_total (h : heap) : Z := KERNEL_HEAP_SIZE.
Definition kmalloc_heap_free (h : heap) : option Z := kheap_free h.

End Placement.

(** ** The abstract heap: a list of blocks *)

(** A block: payload size and whether it is free.  A heap is the list of its
    blocks in address order; block addresses follow from the sizes. *)
Abbreviation blocks := (list (Z * bool)).

(** The blocks [bs] are laid out in memory from [p] up to [stop]. *)
Fixpoint blocks_at (m : mem) (stop p : Z) (bs : blocks) : Prop :=
  match bs with
  | [] => p = stop
  | (sz, fr) :: bs' =>
      hdr_size m p = sz /\ hdr_canary m p = KHEAP_CANARY /\ m.[p + 8] = b2z fr /\
      hdr_next m p = (match bs' with [] => 0 | _ => p + 16 + sz end) /\
      0 <= sz /\ sz mod 8 = 0 /\ blocks_at m stop (p + 16 + sz) bs'
  end.

(** [a] is a byte of the payload of an allocated block. *)
Fixpoint live (p : Z) (bs : blocks) (a : Z) : Prop :=
  match bs with
  | [] => False
  | (sz, fr) :: bs' => (fr = false /\ p + 16 <= a < p + 16 + sz) \/ live (p + 16 + sz) bs' a
  end.

(** First fit, splitting when at least 32 bytes remain. *)
Fixpoint first_fit (size p : Z) (bs : blocks) : option (Z * blocks) :=
  match bs with
  | [] => None
  | (sz, fr) :: bs' =>
      if fr && (size <=? sz) then
        Some (p + 16, if 32 <=? sz - size then (size, false) :: (sz - size - 16, true) :: bs'
                      else (sz, false) :: bs')
      else match first_fit size (p + 16 + sz) bs' with
           | Some (q, r) => Some (q, (sz, fr) :: r)
           | None => None
           end
  end.

(** Merging every run of adjacent free blocks. *)
Fixpoint merge_from (sz : Z) (fr : bool) (bs : blocks) : blocks :=
  match bs with
  | [] => [(sz, fr)]
  | (s2, f2) :: bs' => if fr && f2 then merge_from (sz + 16 + s2) true bs'
                       else (sz, fr) :: merge_from s2 f2 bs'
  end.
Definition merge (bs : blocks) : blocks :=
  match bs with [] => [] | (sz, fr) :: bs' => merge_from sz fr bs' end.

(** Marking free the allocated block whose payload is at [q]. *)
Fixpoint release (q p : Z) (bs : blocks) : blocks :=
  match bs with
  | [] => []
  | (sz, fr) :: bs' => if q =? p + 16 then (sz, true) :: bs'
                       else (sz, fr) :: release q (p + 16 + sz) bs'
  end.

(** The state (free or not) of the block whose payload is at [q], if any. *)
Fixpoint block_of (q p : Z) (bs : blocks) : option (Z * bool) :=
  match bs with
  | [] => None
  | (sz, fr) :: bs' => if q =? p + 16 then Some (sz, fr) else block_of q (p + 16 + sz) bs'
  end.

(** No two adjacent free blocks. *)
Fixpoint coalesced (bs : blocks) : Prop :=
  match bs with
  | (_, fr) :: (((_, f2) :: _) as bs') => (fr && f2 = false) /\ coalesced bs'
  | _ => True
  end.

Definition span (bs : blocks) : Z := foldr (fun (b : Z * bool) acc => 16 + fst b + acc) 0 bs.

(** ** Memory lemmas *)

Ltac hdr_unfold :=
  unfold hdr_size, hdr_canary, hdr_next, set_hdr_size, set_hdr_canary, set_hdr_free, set_hdr_next,
    sizeof_block_header, KHEAP_MIN_SPLIT, sizeof_ptr, KHEAP_ALIGN in *.

Lemma canary_range : 0 <= KHEAP_CANARY < 2 ^ 32.
Proof. unfold KHEAP_CANARY. lia. Qed.
#[export] Hint Resolve canary_range : tinx.

(** Evaluate reads over writes at addresses that [lia] can compare. *)
Ltac mem_simp :=
  repeat first
    [ rewrite load32_store32_eq by (auto with tinx; lia)
    | rewrite load32_store32_ne by lia
    | rewrite load32_store8_ne by lia
    | rewrite peek_store32_ne by lia
    | rewrite peek_store8, Z.eqb_refl
    | rewrite peek_store8;
      match goal with |- context [if ?a =? ?b then _ else _] => replace (a =? b) with false by lia end ].

Lemma blocks_at_ext m m' stop p bs :
  (forall a, p <= a < stop -> m'.[a] = m.[a]) -> blocks_at m stop p bs -> blocks_at m' stop p bs.
Proof.
  revert p; induction bs as [|[sz fr] bs IH]; intros p He; simpl; [done|].
  intros (Hs & Hc & Hf & Hn & H0 & H8 & Hb).
  assert (Hstop : p + 16 + sz <= stop).
  { clear -Hb. remember (p + 16 + sz) as q. clear Heqq p.
    revert q sz Hb. induction bs as [|[s f] bs IH]; intros q sz Hb; simpl in Hb; [lia|].
    destruct Hb as (_ & _ & _ & _ & ? & _ & Hb). apply IH in Hb; [lia|done]. }
  hdr_unfold.
  assert (Hl : forall b, p <= b -> b + 4 <= p + 16 -> load32 m' b = load32 m b).
  { intros b ? ?. apply load32_ext. intros a Ha. apply He. lia. }
  rewrite !Hl by lia. rewrite He by lia. repeat (split; [done|]).
  apply IH; [|done]. intros a Ha. apply He. lia.
Qed.

Lemma blocks_at_span m stop p bs : blocks_at m stop p bs -> p + span bs = stop.
Proof.
  revert p; induction bs as [|[sz fr] bs IH]; intros p; simpl; [lia|].
  intros (_ & _ & _ & _ & _ & _ & Hb). apply IH in Hb. unfold span in *. simpl. lia.
Qed.

Lemma blocks_at_nonneg m stop p bs : blocks_at m stop p bs -> Forall (fun b => 0 <= fst b) bs.
Proof.
  revert p; induction bs as [|[sz fr] bs IH]; intros p; simpl; [constructor|].
  intros (_ & _ & _ & _ & ? & _ & Hb). constructor; [done|]. by eapply IH.
Qed.

Lemma span_length bs : Forall (fun b => 0 <= fst b) bs -> 16 * Z.of_nat (length bs) <= span bs.
Proof. induction 1; unfold span in *; simpl in *; lia. Qed.

Lemma blocks_at_le m stop p bs : blocks_at m stop p bs -> p <= stop.
Proof.
  intros H. pose proof (blocks_at_span _ _ _ _ H).
  pose proof (span_length _ (blocks_at_nonneg _ _ _ _ H)). lia.
Qed.

Lemma live_range m stop p bs a : blocks_at m stop p bs -> live p bs a -> p + 16 <= a < stop.
Proof.
  revert p; induction bs as [|[sz fr] bs IH]; intros p Hb Hl; [done|].
  destruct Hb as (_ & _ & _ & _ & ? & _ & Hb). pose proof (blocks_at_le _ _ _ _ Hb).
  destruct Hl as [[_ ?]|Hl]; [lia|]. specialize (IH _ Hb Hl). lia.
Qed.

(** ** kmalloc refines first fit *)

(** The new header goes inside the block found, so [m'] differs from [m] only
    inside that free block. *)
Lemma kmalloc_walk_first_fit fuel m stop p bs size :
  0 < p -> stop < 2 ^ 32 -> 0 <= size -> size mod 8 = 0 ->
  blocks_at m stop p bs -> bs <> [] -> (length bs < fuel)%nat ->
  match first_fit size p bs with
  | Some (q, bs') => exists m', kmalloc_walk fuel m p size = Some (Some (q, m')) /\
      blocks_at m' stop p bs' /\ bs' <> [] /\
      (forall a, live p bs a \/ a < p \/ stop <= a -> m'.[a] = m.[a])
  | None => kmalloc_walk fuel m p size = Some None
  end.
Proof.
  intros Hp Hstop Hsz Hal. revert fuel m p Hp.
  induction bs as [|[sz fr] bs IH]; intros fuel m p Hp Hb Hne Hf; [done|].
  destruct fuel as [|f]; [simpl in Hf; lia|].
  cbn [kmalloc_walk first_fit]. destruct Hb as (Hs & Hc & Hfr & Hn & H0 & H8 & Hb).
  pose proof (blocks_at_le _ _ _ _ Hb) as Hle.
  replace (p =? 0) with false by lia.
  assert (hdr_free m p = fr) as -> by (unfold hdr_free; rewrite Hfr; by destruct fr).
  rewrite Hs. destruct (fr && (size <=? sz)) eqn:Efit; bool_to_prop.
  - subst fr. rewrite u32_small by lia. change (sizeof_block_header + KHEAP_MIN_SPLIT) with 32.
    eexists. split; [done|]. hdr_unfold. destruct (32 <=? sz - size) eqn:E32; bool_to_prop.
    + split; [|split; [done|]].
      * cbn [blocks_at]. hdr_unfold. rewrite u32_small by lia. split_and!.
        all: try (mem_simp; done || lia || zlia).
        { mem_simp. rewrite Hn. destruct bs; [done|lia]. }
        eapply blocks_at_ext; cycle 1.
        { replace (p + 16 + size + 16 + (sz - size - 16)) with (p + 16 + sz) by lia. exact Hb. }
        intros a Ha. mem_simp. done.
      * intros a [Hl|Ha]; [|mem_simp; done]. simpl in Hl. destruct Hl as [[? _]|Hl]; [done|].
        apply (live_range m stop) in Hl; [|done]. mem_simp. done.
    + split; [|split; [done|]].
      * cbn [blocks_at]. hdr_unfold. split_and!; try (mem_simp; done).
        eapply blocks_at_ext; [|exact Hb]. intros a Ha. mem_simp. done.
      * intros a [Hl|Ha]; [|mem_simp; done]. simpl in Hl. destruct Hl as [[? _]|Hl]; [done|].
        apply (live_range m stop) in Hl; [|done]. mem_simp. done.
  - assert (Hnext : match first_fit size (p + 16 + sz) bs with
      | Some (q, bs') => exists m', kmalloc_walk f m (hdr_next m p) size = Some (Some (q, m')) /\
          blocks_at m' stop (p + 16 + sz) bs' /\ bs' <> [] /\ bs <> [] /\
          (forall a, live (p + 16 + sz) bs a \/ a < p + 16 + sz \/ stop <= a -> m'.[a] = m.[a])
      | None => kmalloc_walk f m (hdr_next m p) size = Some None
      end).
    { rewrite Hn. destruct bs as [|b bs].
      - simpl in Hf. destruct f; [lia|]. done.
      - specialize (IH f m (p + 16 + sz) ltac:(lia) Hb ltac:(done) ltac:(simpl in *; lia)).
        destruct (first_fit _ _ _) as [[q bs']|]; [|done].
        destruct IH as (m' & ? & ? & ? & ?). exists m'. done. }
    destruct (first_fit size (p + 16 + sz) bs) as [[q bs']|]; [|done].
    destruct Hnext as (m' & Hw & Hb' & Hne' & Hne2 & Hfrm). exists m'. split; [done|].
    split; [|split; [done|]].
    + cbn [blocks_at]. hdr_unfold.
      assert (Hl : forall b, b + 4 <= p + 16 -> load32 m' b = load32 m b).
      { intros b ?. apply load32_ext. intros a Ha. apply Hfrm. lia. }
      rewrite !Hl by lia. rewrite Hfrm by lia. repeat (split; [done|]). split; [|done].
      rewrite Hn. destruct bs, bs'; done.
    + intros a Ha. apply Hfrm. simpl in Ha. destruct Ha as [[[_ ?]|?]|?]; [lia|by left|lia].
Qed.

(** ** heap_coalesce refines merge *)

Lemma hdr_free_b2z m p fr : m.[p + 8] = b2z fr -> hdr_free m p = fr.
Proof. intros H. unfold hdr_free. rewrite H. by destruct fr. Qed.

Lemma merge_from_head sz fr bs : exists sz' bs', merge_from sz fr bs = (sz', fr) :: bs'.
Proof.
  revert sz fr; induction bs as [|[s2 f2] bs IH]; intros sz fr; simpl; [eauto|].
  destruct (fr && f2) eqn:E; [bool_to_prop; subst; apply IH|eauto].
Qed.

(** Merging writes only to the headers of free blocks. *)
Lemma coalesce_walk_merge fuel m stop p sz fr bs :
  0 < p -> stop < 2 ^ 32 -> blocks_at m stop p ((sz, fr) :: bs) -> (length bs < fuel)%nat ->
  exists m', coalesce_walk fuel m p = Some m' /\ blocks_at m' stop p (merge_from sz fr bs) /\
    (forall a, live p ((sz, fr) :: bs) a \/ a < p \/ stop <= a -> m'.[a] = m.[a]).
Proof.
  intros Hp Hstop. revert fuel m p sz fr Hp.
  induction bs as [|[s2 f2] bs IH]; intros fuel m p sz fr Hp Hb Hf;
    (destruct fuel as [|f]; [simpl in Hf; lia|]); cbn [coalesce_walk].
  - destruct Hb as (Hs & Hc & Hfr & Hn & Hb). rewrite Hn, orb_true_r.
    exists m. split; [done|]. split; [cbn [merge_from blocks_at]; done|done].
  - destruct Hb as (Hs & Hc & Hfr & Hn & H0 & H8 & Hb). pose proof (blocks_at_le _ _ _ _ Hb) as Hle.
    pose proof Hb as (Hs2 & Hc2 & Hfr2 & Hn2 & H02 & H82 & Hb2).
    pose proof (blocks_at_le _ _ _ _ Hb2) as Hle2.
    rewrite Hn, Hs, Hs2. replace (p =? 0) with false by lia.
    replace (p + 16 + sz =? 0) with false by lia. cbn [orb].
    change (p + sizeof_block_header + sz) with (p + 16 + sz).
    rewrite (u32_small (p + 16 + sz)) by lia. rewrite Z.eqb_refl, andb_true_r.
    rewrite (hdr_free_b2z _ _ _ Hfr), (hdr_free_b2z _ _ _ Hfr2).
    cbn [merge_from]. destruct (fr && f2) eqn:E; bool_to_prop.
    + subst fr f2. hdr_unfold. rewrite u32_small by lia.
      match goal with |- context [coalesce_walk f ?m3 p] => set (m3' := m3) end.
      destruct (IH f m3' p (sz + 16 + s2) true) as (m' & Hw & Hb' & Hfrm); [done| |simpl in Hf; lia|].
      * unfold m3'. cbn [blocks_at]. hdr_unfold.
        split_and!; try (mem_simp; done || lia || zlia).
        { mem_simp. rewrite Hn2. destruct bs; [done|lia]. }
        eapply blocks_at_ext; [|replace (p + 16 + (sz + 16 + s2)) with (p + 16 + sz + 16 + s2) by lia;
                                exact Hb2].
        intros a Ha. mem_simp. done.
      * exists m'. split; [done|]. split; [done|]. intros a Ha.
        assert (Hl : live (p + 16 + sz + 16 + s2) bs a \/ a < p \/ stop <= a).
        { destruct Ha as [Hl|Ha]; [|by right]. simpl in Hl.
          destruct Hl as [[? _]|[[? _]|Hl]]; [done|done|by left]. }
        rewrite (Hfrm a).
        -- destruct Hl as [Hl|Hl]; [apply (live_range m stop) in Hl; [|done]|];
             unfold m3'; mem_simp; done.
        -- destruct Hl as [Hl|Hl]; [left|by right]. simpl. right.
           by replace (p + 16 + (sz + 16 + s2)) with (p + 16 + sz + 16 + s2) by lia.
    + destruct (IH f m (p + 16 + sz) s2 f2) as (m' & Hw & Hb' & Hfrm); [lia|done|simpl in Hf; lia|].
      exists m'. split; [done|]. split.
      * destruct (merge_from_head s2 f2 bs) as (? & ? & Hmc). rewrite Hmc in *.
        cbn [blocks_at]. hdr_unfold.
        assert (Hl : forall b, b + 4 <= p + 16 -> load32 m' b = load32 m b).
        { intros b ?. apply load32_ext. intros a Ha. apply Hfrm. lia. }
        rewrite !Hl by lia. rewrite Hfrm by lia. repeat (split; [done|]). exact Hb'.
      * intros a Ha. apply Hfrm. simpl in Ha.
        destruct Ha as [[[_ ?]|?]|?]; [lia|by left|lia].
Qed.

Lemma merge_from_coalesced sz fr bs : coalesced (merge_from sz fr bs).
Proof.
  revert sz fr; induction bs as [|[s2 f2] bs IH]; intros sz fr; simpl; [done|].
  destruct (fr && f2) eqn:E; [apply IH|].
  specialize (IH s2 f2). destruct (merge_from_head s2 f2 bs) as (s3 & r & Hm).
  rewrite Hm in *. done.
Qed.

(** The merged heap has the same allocated bytes. *)
Lemma live_merge_from sz fr bs p a :
  live p (merge_from sz fr bs) a <-> live p ((sz, fr) :: bs) a.
Proof.
  revert sz fr p; induction bs as [|[s2 f2] bs IH]; intros sz fr p; [done|].
  cbn [merge_from]. destruct (fr && f2) eqn:E; bool_to_prop.
  - subst. rewrite IH. simpl. replace (p + 16 + (sz + 16 + s2)) with (p + 16 + sz + 16 + s2) by lia.
    naive_solver.
  - cbn [live]. rewrite IH. done.
Qed.

(** A heap with no adjacent free blocks is its own merge. *)
Lemma merge_from_id sz fr bs : coalesced ((sz, fr) :: bs) -> merge_from sz fr bs = (sz, fr) :: bs.
Proof.
  revert sz fr; induction bs as [|[s2 f2] bs IH]; intros sz fr Hc; [done|].
  destruct Hc as [Hc1 Hc2]. cbn [merge_from]. by rewrite Hc1, IH.
Qed.

(** ** Finding and releasing a block *)

Lemma find_block_of fuel m stop p bs cand :
  0 < p -> 0 < cand -> blocks_at m stop p bs -> bs <> [] -> (length bs < fuel)%nat ->
  find_block fuel m p cand =
    Some (match block_of (cand + 16) p bs with Some _ => cand | None => 0 end).
Proof.
  intros Hp Hc. revert fuel p Hp.
  induction bs as [|[sz fr] bs IH]; intros fuel p Hp Hb Hne Hf; [done|].
  destruct fuel as [|f]; [simpl in Hf; lia|]. cbn [find_block block_of].
  destruct Hb as (Hs & Hcn & Hfr & Hn & H0 & H8 & Hb).
  replace (p =? 0) with false by lia.
  destruct (p =? cand) eqn:E; bool_to_prop.
  - subst. by rewrite Z.eqb_refl.
  - replace (cand + 16 =? p + 16) with false by lia. rewrite Hn. destruct bs as [|b bs].
    + destruct f; [simpl in Hf; lia|]. done.
    + apply IH; [lia|done|done|simpl in *; lia].
Qed.

Lemma release_blocks_at m stop p bs q sz :
  blocks_at m stop p bs -> block_of q p bs = Some (sz, false) ->
  blocks_at (set_hdr_free m (q - 16) 1) stop p (release q p bs) /\ p + 16 <= q /\ q + sz <= stop.
Proof.
  revert p; induction bs as [|[s fr] bs IH]; intros p Hb Hq; [done|].
  cbn [block_of release] in *. pose proof Hb as (Hs & Hc & Hfr & Hn & H0 & H8 & Hb').
  pose proof (blocks_at_le _ _ _ _ Hb').
  destruct (q =? p + 16) eqn:E; bool_to_prop.
  - injection Hq as -> ->. subst q. split; [|lia]. cbn [blocks_at]. hdr_unfold.
    replace (p + 16 - 16) with p by lia. split_and!; try (mem_simp; done).
    eapply blocks_at_ext; [|done]. intros a Ha. mem_simp. done.
  - destruct (IH _ Hb' Hq) as (Hr & ? & ?). split; [|lia]. cbn [blocks_at]. hdr_unfold.
    split_and!; try (mem_simp; done).
    rewrite load32_store8_ne by lia. rewrite Hn.
    destruct bs as [|[s2 f2] bs]; [done|]. cbn [release]. by destruct (q =? _).
Qed.

Lemma release_live p bs q sz a :
  Forall (fun b => 0 <= fst b) bs -> block_of q p bs = Some (sz, false) ->
  live p (release q p bs) a <-> live p bs a /\ ~ (q <= a < q + sz).
Proof.
  intros Hnn; revert p; induction Hnn as [|[s fr] bs H0 Hnn IH]; intros p Hq; [done|].
  assert (Hlo : forall p' q' b, block_of q' p' bs = Some b -> p' + 16 <= q').
  { clear -Hnn. induction Hnn as [|[s fr] bs H0 Hnn IH]; intros p q b; [done|]. simpl in *.
    destruct (q =? p + 16) eqn:E; bool_to_prop; [lia|]. intros H. apply IH in H. lia. }
  assert (Hll : forall p' a', live p' bs a' -> p' + 16 <= a').
  { clear -Hnn. induction Hnn as [|[s fr] bs H0 Hnn IH]; intros p a; [done|]. simpl in *.
    intros [[_ ?]|H]; [lia|]. apply IH in H. lia. }
  cbn [block_of release] in *. destruct (q =? p + 16) eqn:E; bool_to_prop; simpl in H0.
  - injection Hq as -> ->. subst. simpl. split.
    + intros [[? _]|Hl]; [done|]. split; [by right|]. apply Hll in Hl. lia.
    + intros [[[_ ?]|Hl] Hn]; [lia|by right].
  - simpl. rewrite IH by done. apply Hlo in Hq. split.
    + intros [[-> ?]|[Hl Hn]]; [|tauto]. split; [by left|]. lia.
    + intros [[[-> ?]|Hl] Hn]; [by left|]. right. tauto.
Qed.

(** What a block's header says, and where its payload lies. *)
Lemma block_of_bounds m stop p bs q :
  blocks_at m stop p bs -> forall b, block_of q p bs = Some b ->
  p + 16 <= q /\ 0 <= fst b /\ q + fst b <= stop /\ hdr_canary m (q - 16) = KHEAP_CANARY /\
  hdr_free m (q - 16) = snd b.
Proof.
  revert p; induction bs as [|[s fr] bs IH]; intros p Hb b Hq; [done|].
  cbn [block_of] in Hq. destruct Hb as (Hs & Hc & Hfr & Hn & H0 & H8 & Hb).
  pose proof (blocks_at_le _ _ _ _ Hb). destruct (q =? p + 16) eqn:E; bool_to_prop.
  - injection Hq as <-. subst q. replace (p + 16 - 16) with p by lia. simpl.
    split_and!; [lia|lia|lia|done|by apply hdr_free_b2z].
  - destruct (IH _ Hb _ Hq) as (? & ? & ? & ? & ?). split_and!; done || lia.
Qed.

Lemma block_of_aligned m stop p bs q b :
  blocks_at m stop p bs -> block_of q p bs = Some b -> q mod 8 = p mod 8.
Proof.
  revert p; induction bs as [|[s fr] bs IH]; intros p Hb Hq; [done|].
  cbn [block_of] in Hq. destruct Hb as (Hs & Hc & Hfr & Hn & H0 & H8 & Hb).
  destruct (q =? p + 16) eqn:E; bool_to_prop; [zlia|]. rewrite (IH _ Hb Hq). zlia.
Qed.

Lemma release_length q p bs : length (release q p bs) = length bs.
Proof.
  revert p; induction bs as [|[s fr] bs IH]; intros p; [done|]. cbn [release].
  case_if; simpl; [done|]. by rewrite IH.
Qed.

(** The header of the block being released is not payload of any block. *)
Lemma release_header_dead m stop p bs q sz :
  blocks_at m stop p bs -> block_of q p bs = Some (sz, false) -> ~ live p (release q p bs) (q - 16 + 8).
Proof.
  intros Hb Hq. rewrite release_live by (done || by eapply blocks_at_nonneg). intros [Hl _].
  revert p Hb Hq Hl. induction bs as [|[s fr] bs IH]; intros p Hb Hq Hl; [done|].
  cbn [block_of live] in *. destruct Hb as (Hs & Hc & Hfr & Hn & H0 & H8 & Hb).
  destruct (q =? p + 16) eqn:E; bool_to_prop.
  - destruct Hl as [[_ ?]|Hl]; [lia|]. apply (live_range m stop) in Hl; [|done]. lia.
  - destruct (block_of_bounds _ _ _ _ _ Hb _ Hq) as (? & _).
    destruct Hl as [[_ ?]|Hl]; [lia|]. by apply (IH _ Hb).
Qed.

(** ** First fit *)

Abbreviation sizes_ok bs := (Forall (fun b : Z * bool => 0 <= fst b) bs).

Lemma first_fit_block size p bs q bs' :
  sizes_ok bs -> first_fit size p bs = Some (q, bs') ->
  p + 16 <= q /\ bs' <> [] /\ exists r, block_of q p bs' = Some (r, false) /\ size <= r.
Proof.
  intros Hn; revert p q bs'; induction Hn as [|[sz fr] bs H0 Hn IH]; intros p q bs' H; [done|].
  cbn [first_fit] in H. simpl in H0. destruct (fr && (size <=? sz)) eqn:E; bool_to_prop.
  - injection H as <- <-. split; [lia|]. split; [by case_if|].
    case_if; bool_to_prop; cbn [block_of]; rewrite Z.eqb_refl; eexists; (split; [done|lia]).
  - destruct (first_fit size (p + 16 + sz) bs) as [[q2 r2]|] eqn:Ef; [|done].
    injection H as <- <-. destruct (IH _ _ _ Ef) as (Hlo & _ & r & Hb & Hr).
    split; [lia|]. split; [done|]. exists r. cbn [block_of].
    by replace (q2 =? p + 16) with false by lia.
Qed.

(** Releasing and merging undoes first fit on a coalesced heap. *)
Lemma first_fit_merge size p bs q bs' :
  sizes_ok bs -> coalesced bs -> first_fit size p bs = Some (q, bs') -> merge (release q p bs') = bs.
Proof.
  intros Hn; revert p q bs'; induction Hn as [|[sz fr] bs H0 Hn IH]; intros p q bs' Hc H; [done|].
  cbn [first_fit] in H. simpl in H0. destruct (fr && (size <=? sz)) eqn:E; bool_to_prop.
  - injection H as <- <-. subst fr.
    case_if; bool_to_prop; cbn [release]; rewrite Z.eqb_refl; cbn [merge merge_from andb].
    + replace (size + 16 + (sz - size - 16)) with sz by lia. by apply merge_from_id.
    + by apply merge_from_id.
  - destruct (first_fit size (p + 16 + sz) bs) as [[q2 r2]|] eqn:Ef; [|done].
    injection H as <- <-. destruct (first_fit_block _ _ _ _ _ Hn Ef) as (Hlo & Hne & _).
    assert (Hc' : coalesced bs) by (destruct bs as [|[? ?] ?]; [done|by destruct Hc]).
    specialize (IH _ _ _ Hc' Ef). cbn [release].
    replace (q2 =? p + 16) with false by lia. cbn [merge].
    destruct (release q2 (p + 16 + sz) r2) as [|[s f] t]; [by simpl in IH; subst|].
    cbn [merge merge_from] in *. destruct (merge_from_head s f t) as (s' & t' & Hh).
    rewrite Hh in IH. subst bs. destruct Hc as [Hc1 _]. by rewrite Hc1, Hh.
Qed.

Lemma first_fit_coalesced size p bs q bs' :
  coalesced bs -> first_fit size p bs = Some (q, bs') ->
  coalesced bs' /\ match bs', bs with (_, f') :: _, (_, f) :: _ => f' = true -> f = true | _, _ => True end.
Proof.
  revert p q bs'; induction bs as [|[sz fr] bs IH]; intros p q bs' Hc H; [done|].
  assert (Hc' : coalesced bs) by (destruct bs as [|[? ?] ?]; [done|by destruct Hc]).
  cbn [first_fit] in H. destruct (fr && (size <=? sz)) eqn:E; bool_to_prop.
  - injection H as <- <-. subst fr. split; [|by case_if].
    destruct bs as [|[s2 f2] bs]; case_if; try done; by destruct Hc as [Hc1 Hc2].
  - destruct (first_fit size (p + 16 + sz) bs) as [[q2 r2]|] eqn:Ef; [|done].
    injection H as <- <-. destruct (IH _ _ _ Hc' Ef) as [Hr Hh]. split; [|done].
    destruct r2 as [|[s3 f3] r2]; [done|]. split; [|done].
    destruct bs as [|[s2 f2] bs]; [done|]. destruct Hc as [Hc1 _].
    destruct fr, f3; try done. by rewrite Hh in Hc1.
Qed.

(** The block handed out was free and is the only change to the live bytes. *)
Lemma first_fit_live size p bs q bs' r a :
  sizes_ok bs -> 0 <= size -> first_fit size p bs = Some (q, bs') -> block_of q p bs' = Some (r, false) ->
  (live p bs' a <-> live p bs a \/ q <= a < q + r) /\ (live p bs a -> ~ (q <= a < q + r)).
Proof.
  intros Hn Hsz; revert p q bs'; induction Hn as [|[sz fr] bs H0 Hn IH]; intros p q bs' H Hb; [done|].
  assert (Hll : forall p' a', live p' bs a' -> p' + 16 <= a').
  { clear -Hn. induction Hn as [|[s f] l H0 Hn IH]; intros p a; [done|]. simpl in *.
    intros [[_ ?]|H]; [lia|]. apply IH in H. lia. }
  cbn [first_fit] in H. simpl in H0. destruct (fr && (size <=? sz)) eqn:E; bool_to_prop.
  - injection H as <- <-. subst fr.
    case_if; bool_to_prop; cbn [block_of] in Hb; rewrite Z.eqb_refl in Hb; injection Hb as <-; cbn [live].
    + replace (p + 16 + size + 16 + (sz - size - 16)) with (p + 16 + sz) by lia. split; [naive_solver|].
      intros [[? _]|Hl]; [done|]. apply Hll in Hl. lia.
    + split; [naive_solver|]. intros [[? _]|Hl]; [done|]. apply Hll in Hl. lia.
  - destruct (first_fit size (p + 16 + sz) bs) as [[q2 r2]|] eqn:Ef; [|done].
    injection H as <- <-. destruct (first_fit_block _ _ _ _ _ Hn Ef) as (Hlo & _).
    cbn [block_of] in Hb. replace (q2 =? p + 16) with false in Hb by lia.
    destruct (IH _ _ _ Ef Hb) as [Hl1 Hl2]. cbn [live]. rewrite Hl1.
    split; [naive_solver|]. intros [[_ ?]|Hl]; [lia|by apply Hl2].
Qed.

Lemma first_fit_zero p bs :
  sizes_ok bs -> Exists (fun b => snd b = true) bs ->
  exists q bs' r, first_fit 0 p bs = Some (q, bs') /\ block_of q p bs' = Some (r, false) /\ r < 32.
Proof.
  intros Hn; revert p; induction Hn as [|[sz fr] bs H0 Hn IH]; intros p Hex; [by apply Exists_nil in Hex|].
  cbn [first_fit]. simpl in H0. destruct fr; cbn [andb].
  - replace (0 <=? sz) with true by lia.
    case_if; bool_to_prop; (eexists _, _, _; split; [done|]; cbn [block_of]; rewrite Z.eqb_refl;
      split; [done|lia]).
  - apply Exists_cons in Hex as [?|Hex]; [done|].
    destruct (IH (p + 16 + sz) Hex) as (q & bs' & r & Hf & Hb & Hr). rewrite Hf.
    destruct (first_fit_block _ _ _ _ _ Hn Hf) as (? & _). eexists _, _, _. split; [done|].
    cbn [block_of]. by replace (q =? p + 16) with false by lia.
Qed.

(** ** Allocated blocks as (base, length) pairs *)

Lemma block_of_low p bs q b : sizes_ok bs -> block_of q p bs = Some b -> p + 16 <= q.
Proof.
  intros Hn; revert p; induction Hn as [|[s fr] bs H0 Hn IH]; intros p; [done|]. simpl in *.
  destruct (q =? p + 16) eqn:E; bool_to_prop; [lia|]. intros H. apply IH in H. lia.
Qed.

Lemma block_of_disjoint p bs q b q' b' :
  sizes_ok bs -> block_of q p bs = Some b -> block_of q' p bs = Some b' ->
  q = q' /\ b = b' \/ q + fst b + 16 <= q' \/ q' + fst b' + 16 <= q.
Proof.
  intros Hn; revert p; induction Hn as [|[s fr] bs H0 Hn IH]; intros p H H'; [done|]. simpl in *.
  destruct (q =? p + 16) eqn:E, (q' =? p + 16) eqn:E'; bool_to_prop.
  - left. split; [lia|]. congruence.
  - injection H as <-. apply block_of_low in H'; [|done]. simpl. lia.
  - injection H' as <-. apply block_of_low in H; [|done]. simpl. lia.
  - by eapply IH.
Qed.

Lemma live_block p bs a :
  sizes_ok bs ->
  live p bs a <-> exists q sz, block_of q p bs = Some (sz, false) /\ in_block q sz a.
Proof.
  intros Hn; revert p; induction Hn as [|[s fr] bs H0 Hn IH]; intros p; simpl.
  { split; [done|]. by intros (? & ? & ? & ?). }
  rewrite IH. unfold in_block. simpl in H0. split.
  - intros [[-> Ha]|(q & sz & Hb & Ha)].
    + exists (p + 16), s. by rewrite Z.eqb_refl.
    + exists q, sz. split; [|done]. pose proof (block_of_low _ _ _ _ Hn Hb).
      by replace (q =? p + 16) with false by lia.
  - intros (q & sz & Hb & Ha). destruct (q =? p + 16) eqn:E; bool_to_prop.
    + injection Hb as -> ->. left. lia.
    + right. eauto.
Qed.

Lemma block_of_release p bs q sz q' s' :
  sizes_ok bs -> block_of q p bs = Some (sz, false) ->
  block_of q' p (release q p bs) = Some (s', false) <-> block_of q' p bs = Some (s', false) /\ q' <> q.
Proof.
  intros Hn; revert p; induction Hn as [|[s fr] bs H0 Hn IH]; intros p H; [done|].
  cbn [block_of release] in *. simpl in H0. destruct (q =? p + 16) eqn:E; bool_to_prop.
  - injection H as -> ->. subst q. cbn [block_of].
    destruct (q' =? p + 16) eqn:E'; bool_to_prop; [naive_solver|]. split; [done|tauto].
  - cbn [block_of]. destruct (q' =? p + 16) eqn:E'; bool_to_prop; [|by apply IH].
    split; [|tauto]. intros ->. split; [done|]. lia.
Qed.

Lemma release_sizes q p bs : sizes_ok bs -> sizes_ok (release q p bs).
Proof.
  intros Hn; revert p; induction Hn as [|[s fr] bs H0 Hn IH]; intros p; [constructor|].
  cbn [release]. case_if; constructor; auto.
Qed.

Lemma block_of_merge_from p sz fr bs q s' :
  sizes_ok ((sz, fr) :: bs) ->
  block_of q p (merge_from sz fr bs) = Some (s', false) <->
  block_of q p ((sz, fr) :: bs) = Some (s', false).
Proof.
  revert p sz fr; induction bs as [|[s2 f2] bs IH]; intros p sz fr Hn; [done|].
  apply Forall_cons in Hn as [H1 Hn]. pose proof Hn as [H2 Hn']%Forall_cons. simpl in H1, H2.
  cbn [merge_from]. destruct (fr && f2) eqn:E; bool_to_prop.
  - subst. rewrite IH by (constructor; [simpl; lia|done]). cbn [block_of].
    replace (p + 16 + (sz + 16 + s2)) with (p + 16 + sz + 16 + s2) by lia.
    destruct (q =? p + 16) eqn:E1, (q =? p + 16 + sz + 16) eqn:E2; bool_to_prop; try done; try lia.
    split; [|done]. intros H. apply block_of_low in H; [lia|done].
  - cbn [block_of]. destruct (q =? p + 16); [done|]. by apply IH.
Qed.

Lemma block_of_first_fit size p bs q bs' r q' s' :
  sizes_ok bs -> 0 <= size -> first_fit size p bs = Some (q, bs') -> block_of q p bs' = Some (r, false) ->
  block_of q' p bs' = Some (s', false) <->
  block_of q' p bs = Some (s', false) \/ q' = q /\ s' = r.
Proof.
  intros Hn Hsz; revert p bs'; induction Hn as [|[sz fr] bs H0 Hn IH]; intros p bs' H Hb; [done|].
  cbn [first_fit] in H. simpl in H0. destruct (fr && (size <=? sz)) eqn:E; bool_to_prop.
  - injection H as <- <-. subst fr.
    destruct (32 <=? sz - size) eqn:E2; bool_to_prop; cbn [block_of] in *; rewrite Z.eqb_refl in Hb;
      injection Hb as <-.
    + replace (p + 16 + size + 16 + (sz - size - 16)) with (p + 16 + sz) by lia.
      destruct (q' =? p + 16) eqn:E1; bool_to_prop; [naive_solver|].
      destruct (q' =? p + 16 + size + 16) eqn:E3; bool_to_prop; [|naive_solver].
      split; [done|]. intros [Hx|?]; [|lia]. apply block_of_low in Hx; [lia|done].
    + destruct (q' =? p + 16) eqn:E1; bool_to_prop; naive_solver.
  - destruct (first_fit size (p + 16 + sz) bs) as [[q2 r2]|] eqn:Ef; [|done].
    injection H as <- <-. destruct (first_fit_block _ _ _ _ _ Hn Ef) as (Hlo & _).
    cbn [block_of] in *. replace (q2 =? p + 16) with false in Hb by lia.
    destruct (q' =? p + 16) eqn:E1; bool_to_prop; [|by apply IH].
    split; [by left|]. intros [?|[? _]]; [done|lia].
Qed.

(** Writing in allocated payloads does not disturb the headers. *)
Lemma blocks_at_payload m m' stop p bs :
  (forall a, p <= a -> ~ live p bs a -> m'.[a] = m.[a]) -> blocks_at m stop p bs -> blocks_at m' stop p bs.
Proof.
  revert p. induction bs as [|[sz fr] bs IH]; intros p He Hb; [done|].
  pose proof Hb as (Hs & Hc & Hfr & Hn & H0 & H8 & Hb'). cbn [blocks_at]. hdr_unfold.
  assert (Hlow : forall a, p <= a < p + 16 -> m'.[a] = m.[a]).
  { intros a Ha. apply He; [lia|]. intros Hl. apply (live_range m stop) in Hl; [lia|done]. }
  assert (Hl : forall b, p <= b -> b + 4 <= p + 16 -> load32 m' b = load32 m b).
  { intros b ? ?. apply load32_ext. intros a Ha. apply Hlow. lia. }
  rewrite !Hl by lia. rewrite Hlow by lia. repeat (split; [done|]).
  apply IH; [|done]. intros a Ha Hd. apply He; [lia|]. intros [[_ ?]|?]; [lia|done].
Qed.

(** The headers determine the block list. *)
Lemma blocks_at_det m stop p bs1 bs2 :
  0 <= p -> blocks_at m stop p bs1 -> blocks_at m stop p bs2 -> bs1 <> [] -> bs2 <> [] -> bs1 = bs2.
Proof.
  revert p bs2; induction bs1 as [|[s1 f1] bs1 IH]; intros p bs2 Hp H1 H2 N1 N2; [done|].
  destruct bs2 as [|[s2 f2] bs2]; [done|].
  destruct H1 as (Hs & _ & Hf & Hn & ? & _ & H1), H2 as (Hs' & _ & Hf' & Hn' & _ & _ & H2).
  assert (s1 = s2) as -> by congruence.
  assert (f1 = f2) as -> by (destruct f1, f2; simpl in *; congruence).
  f_equal. destruct bs1, bs2; try done; try lia. apply (IH (p + 16 + s2)); try done. lia.
Qed.

(** ** align_up *)

Lemma align_up_pow2 v k :
  0 <= v < 2 ^ 32 -> 0 <= k < 32 ->
  align_up v (2 ^ k) = u32 (v + (2 ^ k - 1)) / 2 ^ k * 2 ^ k.
Proof.
  intros Hv Hk. unfold align_up.
  assert (0 < 2 ^ k < 2 ^ 32) by (split; [lia|apply Z.pow_lt_mono_r; lia]).
  replace (2 ^ k =? 0) with false by lia. rewrite (u32_small (2 ^ k - 1)) by lia.
  replace (2 ^ k - 1) with (Z.ones k) at 2 by (rewrite Z.ones_equiv; lia).
  apply land_not_mask; [apply u32_range|lia].
Qed.

Lemma align_up_8 v : 0 <= v <= 2 ^ 32 - 8 -> align_up v 8 = (v + 7) / 8 * 8.
Proof.
  intros Hv. change (align_up v 8) with (align_up v (2 ^ 3)).
  by rewrite align_up_pow2, u32_small by lia.
Qed.

Lemma align_up_8_mult v : 0 <= v < 2 ^ 32 -> 0 <= align_up v 8 < 2 ^ 32 /\ align_up v 8 mod 8 = 0.
Proof.
  intros Hv. change (align_up v 8) with (align_up v (2 ^ 3)). rewrite align_up_pow2 by lia.
  pose proof (u32_range (v + (2 ^ 3 - 1))). change (2 ^ 3) with 8 in *. zlia.
Qed.

(** ** The heap operations *)
Section Correct.
Context (kernel_heap : Z).
Hypothesis heap_pos : 0 < kernel_heap.
Hypothesis heap_fits : kernel_heap + KERNEL_HEAP_SIZE < 2 ^ 32.

(** The running heap: [bs] tiles the array exactly, every header is intact and
    correctly linked, no two free blocks are adjacent, and the lock is open. *)
Definition heap_inv (h : heap) (bs : blocks) : Prop :=
  heap_initialized h = true /\ heap_lock h = 0 /\ heap_head h = kernel_heap /\
  heap_total_usable h = KERNEL_HEAP_SIZE - 16 /\ bs <> [] /\
  blocks_at (hmem h) (kernel_heap + KERNEL_HEAP_SIZE) kernel_heap bs /\ coalesced bs.

Lemma heap_inv_fuel h bs : heap_inv h bs -> (S (length bs) < HEAP_FUEL)%nat.
Proof using heap_fits.
  intros (_ & _ & _ & _ & _ & Hb & _). pose proof (blocks_at_span _ _ _ _ Hb).
  pose proof (span_length _ (blocks_at_nonneg _ _ _ _ Hb)).
  unfold HEAP_FUEL, KERNEL_HEAP_SIZE in *. zlia.
Qed.

Lemma heap_init_inv h :
  heap_initialized h = false -> heap_lock h = 0 ->
  heap_inv (heap_init kernel_heap h) [(KERNEL_HEAP_SIZE - 16, true)].
Proof using heap_pos heap_fits.
  intros Hi Hl. unfold heap_init, heap_inv. rewrite Hi. cbn [heap_initialized heap_lock heap_head hmem
    heap_total_usable]. hdr_unfold. unfold KERNEL_HEAP_SIZE in *.
  split_and!; try done; try (mem_simp; done).
  cbn [blocks_at]. hdr_unfold. split_and!; try (mem_simp; done); lia.
Qed.

Lemma heap_unlock_id h : heap_lock h = 0 -> spin_unlock (with_lock h 1) = h.
Proof. intros Hl. destruct h; unfold spin_unlock, with_lock; cbn in *. by rewrite Hl. Qed.

(** The bytes of allocated payloads, and everything outside the heap, are the
    same in [h] and [h']. *)
Definition keeps_live (bs : blocks) (h h' : heap) : Prop :=
  forall a, live kernel_heap bs a \/ a < kernel_heap \/ kernel_heap + KERNEL_HEAP_SIZE <= a ->
  (hmem h').[a] = (hmem h).[a].

Lemma kmalloc_first_fit_lem h bs size :
  heap_inv h bs -> 0 < size < 2 ^ 32 ->
  match first_fit (align_up size 8) kernel_heap bs with
  | Some (q, bs') => exists h', kmalloc kernel_heap h size = Some (q, h') /\ heap_inv h' bs' /\
                       keeps_live bs h h'
  | None => kmalloc kernel_heap h size = Some (0, h)
  end.
Proof using heap_pos heap_fits.
  intros Hinv Hsize. pose proof (heap_inv_fuel _ _ Hinv) as Hfuel.
  destruct Hinv as (Hi & Hl & Hh & Ht & Hne & Hb & Hc).
  unfold kmalloc. rewrite Hi. replace (size =? 0) with false by lia.
  unfold spin_lock. rewrite Hl. cbn [Z.eqb mbind option_bind with_lock hmem heap_head].
  rewrite Hh. destruct (align_up_8_mult size) as [Hr H8]; [lia|].
  pose proof (kmalloc_walk_first_fit HEAP_FUEL (hmem h) (kernel_heap + KERNEL_HEAP_SIZE) kernel_heap
    bs (align_up size 8) heap_pos heap_fits ltac:(lia) H8 Hb Hne ltac:(lia)) as Hw.
  change KHEAP_ALIGN with 8.
  destruct (first_fit _ _ _) as [[q bs']|] eqn:Ef.
  - destruct Hw as (m' & -> & Hb' & Hne' & Hfrm). cbn [mbind option_bind]. eexists. split; [done|].
    split; [|exact Hfrm]. unfold heap_inv; cbn. split_and!; try done.
    by eapply first_fit_coalesced.
  - rewrite Hw. cbn [mbind option_bind]. by rewrite (heap_unlock_id h Hl).
Qed.

Lemma validate_payload_block h bs q :
  heap_inv h bs -> q < kernel_heap + KERNEL_HEAP_SIZE ->
  validate_payload kernel_heap h q =
    Some (match block_of q kernel_heap bs with Some _ => Some (q - 16) | None => None end).
Proof using heap_pos heap_fits.
  intros Hinv Hq. pose proof (heap_inv_fuel _ _ Hinv) as Hfuel.
  destruct Hinv as (Hi & Hl & Hh & Ht & Hne & Hb & Hc).
  unfold validate_payload. change sizeof_block_header with 16.
  rewrite (u32_small (kernel_heap + _)) by (unfold KERNEL_HEAP_SIZE in *; lia).
  pose proof (block_of_bounds (hmem h) (kernel_heap + KERNEL_HEAP_SIZE) kernel_heap bs q Hb) as Hbo.
  replace (q <? kernel_heap + KERNEL_HEAP_SIZE) with true by lia. rewrite andb_true_r.
  destruct (kernel_heap + 16 <=? q) eqn:E; bool_to_prop.
  - replace (kernel_heap <=? q - 16) with true by lia.
    replace (q - 16 + 16 <=? kernel_heap + KERNEL_HEAP_SIZE) with true by lia. cbn [andb].
    rewrite Hh, (find_block_of _ _ (kernel_heap + KERNEL_HEAP_SIZE) _ bs) by (lia || done).
    replace (q - 16 + 16) with q by lia.
    destruct (block_of q kernel_heap bs) as [[sz fr]|] eqn:Eb.
    + destruct (Hbo _ eq_refl) as (_ & _ & _ & -> & _). rewrite Z.eqb_refl. cbn [mbind option_bind]. by rewrite Z.eqb_refl.
    + case_if; [|done]. cbn [mbind option_bind]. by replace (0 =? q - 16) with false by lia.
  - destruct (block_of q kernel_heap bs) as [[sz fr]|] eqn:Eb; [|done].
    destruct (Hbo _ eq_refl) as (? & _). lia.
Qed.

(** The tail of both halves of [kfree]. *)
Lemma release_coalesce h bs q sz :
  heap_inv h bs -> block_of q kernel_heap bs = Some (sz, false) ->
  exists h', heap_coalesce (with_hmem (with_lock h 1) (set_hdr_free (hmem h) (q - 16) 1)) = Some h' /\
    heap_inv (spin_unlock h') (merge (release q kernel_heap bs)) /\
    (forall a, live kernel_heap (merge (release q kernel_heap bs)) a <->
               live kernel_heap bs a /\ ~ (q <= a < q + sz)) /\
    keeps_live (release q kernel_heap bs) h h'.
Proof using heap_pos heap_fits.
  intros Hinv Hq. pose proof (heap_inv_fuel _ _ Hinv) as Hfuel.
  destruct Hinv as (Hi & Hl & Hh & Ht & Hne & Hb & Hc).
  destruct (release_blocks_at _ _ _ _ _ _ Hb Hq) as (Hr & _).
  destruct (block_of_bounds _ _ _ _ _ Hb _ Hq) as (Hlo & Hsz & Hhi & _). simpl in Hsz, Hhi.
  pose proof (release_live kernel_heap bs q sz) as Hlive.
  assert (Hlen : (length (release q kernel_heap bs) = length bs)%nat) by apply release_length.
  unfold heap_coalesce, keeps_live. cbn [hmem with_hmem heap_head with_lock]. rewrite Hh.
  destruct (release q kernel_heap bs) as [|[s f] bs'] eqn:Er; [by destruct bs|].
  destruct (coalesce_walk_merge HEAP_FUEL _ _ _ _ _ _ heap_pos heap_fits Hr) as (m' & Hw & Hb' & Hfrm);
    [simpl in Hlen; lia|].
  rewrite Hw. cbn [mbind option_bind merge]. eexists. split; [done|]. split_and!.
  - unfold heap_inv; cbn. split_and!; try done; [|apply merge_from_coalesced].
    by destruct (merge_from_head s f bs') as (? & ? & ->).
  - intros a. rewrite live_merge_from. apply Hlive; [by eapply blocks_at_nonneg|done].
  - intros a Ha. cbn [hmem with_hmem]. rewrite Hfrm by done. unfold set_hdr_free.
    rewrite peek_store8. replace (a =? q - 16 + 8) with false; [done|]. symmetry. apply Z.eqb_neq.
    destruct Ha as [Ha|Ha]; [|unfold KERNEL_HEAP_SIZE in *; lia].
    intros ->. apply (release_header_dead _ _ _ _ _ _ Hb Hq). by rewrite Er.
Qed.

Lemma kfree_lem h bs q sz :
  heap_inv h bs -> block_of q kernel_heap bs = Some (sz, false) -> 0 < sz ->
  exists h', kfree kernel_heap h q = Some h' /\ heap_inv h' (merge (release q kernel_heap bs)) /\
    (forall a, live kernel_heap (merge (release q kernel_heap bs)) a <->
               live kernel_heap bs a /\ ~ (q <= a < q + sz)) /\
    keeps_live (release q kernel_heap bs) h h'.
Proof using heap_pos heap_fits.
  intros Hinv Hq Hsz. destruct (release_coalesce h bs q sz Hinv Hq) as (h' & Hc & Hinv' & Hlv & Hk).
  pose proof Hinv as (Hi & Hl & Hh & Ht & Hne & Hb & _).
  destruct (block_of_bounds _ _ _ _ _ Hb _ Hq) as (Hlo & _ & Hhi & Hcan & Hf). simpl in Hhi.
  unfold kfree. replace (q =? 0) with false by lia. rewrite Hi. cbn [negb].
  rewrite (validate_payload_block h bs q Hinv) by lia. rewrite Hq. cbn [mbind option_bind].
  unfold spin_lock. rewrite Hl. cbn [Z.eqb mbind option_bind with_lock hmem].
  rewrite Hf, Hcan, Z.eqb_refl. cbn [negb snd]. change (mk_heap (hmem h) (heap_head h)
    (heap_initialized h) 1 (heap_total_usable h)) with (with_lock h 1).
  rewrite Hc. cbn [mbind option_bind]. exists (spin_unlock h'). done.
Qed.

(** C1. [kmalloc] of a non-zero size terminates and is first fit over the block
    list: it returns the payload of the first free block large enough for the
    aligned size, splits it when at least 32 bytes remain, leaves a well-formed
    coalesced heap, and changes no byte of an allocated payload nor any byte
    outside the heap array; when no block fits it returns NULL and changes
    nothing. *)
Theorem kmalloc_is_first_fit h bs size :
  heap_inv h bs -> 0 < size < 2 ^ 32 ->
  match first_fit (align_up size 8) kernel_heap bs with
  | Some (q, bs') => exists h', kmalloc kernel_heap h size = Some (q, h') /\ heap_inv h' bs' /\
                       keeps_live bs h h'
  | None => kmalloc kernel_heap h size = Some (0, h)
  end.
Proof using heap_pos heap_fits. apply kmalloc_first_fit_lem. Qed.

Lemma kmalloc_inv h bs size q h' :
  heap_inv h bs -> 0 < size < 2 ^ 32 -> kmalloc kernel_heap h size = Some (q, h') -> q <> 0 ->
  exists bs', first_fit (align_up size 8) kernel_heap bs = Some (q, bs') /\ heap_inv h' bs' /\
    keeps_live bs h h'.
Proof using heap_pos heap_fits.
  intros Hinv Hs Hk Hq. pose proof (kmalloc_first_fit_lem h bs size Hinv Hs) as Hf.
  destruct (first_fit _ _ _) as [[q' bs']|] eqn:E.
  - destruct Hf as (h2 & Hk2 & Hi2 & Hl2). rewrite Hk in Hk2. injection Hk2 as <- <-. eauto.
  - rewrite Hk in Hf. by injection Hf.
Qed.

Lemma inv_sizes h bs : heap_inv h bs -> sizes_ok bs.
Proof using Type. intros (_ & _ & _ & _ & _ & Hb & _). by eapply blocks_at_nonneg. Qed.

(** Memory that [kmalloc] hands out is fresh: none of the [size] bytes at the
    returned pointer belonged to an allocated payload before, all of them do
    afterwards, they lie inside the heap array, no other byte becomes live, and
    the pointer is 8-aligned when the array is. *)
Theorem kmalloc_fresh h bs size q h' :
  heap_inv h bs -> 0 < size <= 2 ^ 32 - 8 -> kmalloc kernel_heap h size = Some (q, h') -> q <> 0 ->
  exists bs' r, heap_inv h' bs' /\ block_of q kernel_heap bs' = Some (r, false) /\
    size <= r /\ kernel_heap + 16 <= q /\ q + r <= kernel_heap + KERNEL_HEAP_SIZE /\
    q mod 8 = kernel_heap mod 8 /\
    (forall a, live kernel_heap bs a -> ~ (q <= a < q + r)) /\
    (forall a, live kernel_heap bs' a <-> live kernel_heap bs a \/ q <= a < q + r).
Proof using heap_pos heap_fits.
  intros Hinv Hs Hk Hq. destruct (kmalloc_inv h bs size q h') as (bs' & Hf & Hinv' & _); try done; [lia|].
  pose proof (inv_sizes _ _ Hinv) as Hn.
  destruct (first_fit_block _ _ _ _ _ Hn Hf) as (_ & _ & r & Hb & Hr).
  rewrite align_up_8 in Hr by lia.
  assert (0 <= align_up size 8) by (apply align_up_8_mult; lia).
  exists bs', r. pose proof Hinv' as (_ & _ & _ & _ & _ & Hba & _).
  destruct (block_of_bounds _ _ _ _ _ Hba _ Hb) as (? & ? & ? & _). simpl in *.
  split_and!; try done; try zlia.
  - by eapply block_of_aligned.
  - intros a Ha. eapply (first_fit_live (align_up size 8)); done.
  - intros a. eapply (first_fit_live (align_up size 8)); done.
Qed.

(** C22. [kfree] of an allocated block terminates, frees exactly its payload
    bytes and merges adjacent free blocks: every other allocated byte stays
    allocated with its contents, and the resulting heap is well formed. *)
Theorem kfree_releases_block h bs q sz :
  heap_inv h bs -> block_of q kernel_heap bs = Some (sz, false) -> 0 < sz ->
  exists h', kfree kernel_heap h q = Some h' /\ heap_inv h' (merge (release q kernel_heap bs)) /\
    (forall a, live kernel_heap (merge (release q kernel_heap bs)) a <->
               live kernel_heap bs a /\ ~ (q <= a < q + sz)) /\
    keeps_live (release q kernel_heap bs) h h'.
Proof using heap_pos heap_fits. apply kfree_lem. Qed.

(** A block allocated and freed at once leaves the block list exactly as it
    was: no fragmentation is left behind. *)
Theorem kmalloc_kfree_roundtrip h bs size q h' :
  heap_inv h bs -> 0 < size <= 2 ^ 32 - 8 -> kmalloc kernel_heap h size = Some (q, h') -> q <> 0 ->
  exists h'', kfree kernel_heap h' q = Some h'' /\ heap_inv h'' bs /\ keeps_live bs h h''.
Proof using heap_pos heap_fits.
  intros Hinv Hs Hk Hq. destruct (kmalloc_inv h bs size q h') as (bs' & Hf & Hinv' & Hkl); try done; [lia|].
  pose proof (inv_sizes _ _ Hinv) as Hn.
  destruct (first_fit_block _ _ _ _ _ Hn Hf) as (_ & _ & r & Hb & Hr).
  rewrite align_up_8 in Hr by lia.
  assert (0 <= align_up size 8) by (apply align_up_8_mult; lia).
  destruct (kfree_lem h' bs' q r Hinv' Hb) as (h2 & Hk2 & Hi2 & _ & Hkl2); [zlia|].
  rewrite (first_fit_merge _ _ _ _ _ Hn) in Hi2 by (done || apply Hinv).
  exists h2. split_and!; try done. intros a Ha. rewrite Hkl2, Hkl; [done..|].
  destruct Ha as [Ha|Ha]; [left|by right].
  rewrite release_live by (done || by eapply inv_sizes).
  split; [|by eapply first_fit_live]. eapply first_fit_live; eauto.
Qed.

Lemma heap_inv_det h bs1 bs2 : heap_inv h bs1 -> heap_inv h bs2 -> bs1 = bs2.
Proof using heap_pos.
  intros (_ & _ & _ & _ & N1 & H1 & _) (_ & _ & _ & _ & N2 & H2 & _).
  eapply blocks_at_det; [|done..]. lia.
Qed.

(** Freeing NULL, a pointer outside the heap array, or a block that is
    already free (double free) changes nothing. *)
Theorem kfree_invalid_noop h bs q :
  heap_inv h bs ->
  q = 0 \/ q < kernel_heap \/ kernel_heap + KERNEL_HEAP_SIZE <= q \/
    (exists sz, block_of q kernel_heap bs = Some (sz, true) /\ q < kernel_heap + KERNEL_HEAP_SIZE) ->
  kfree kernel_heap h q = Some h.
Proof using heap_pos heap_fits.
  intros Hinv Hq. pose proof Hinv as (Hi & Hl & Hh & Ht & Hne & Hb & _).
  unfold kfree. destruct (q =? 0) eqn:E0; [done|]. bool_to_prop. rewrite Hi. cbn [negb].
  rewrite (u32_small (kernel_heap + _)) by (unfold KERNEL_HEAP_SIZE in *; lia).
  assert (Hout : q < kernel_heap \/ kernel_heap + KERNEL_HEAP_SIZE <= q ->
                 validate_payload kernel_heap h q = Some None).
  { intros Ho. unfold validate_payload. change sizeof_block_header with 16.
    rewrite (u32_small (kernel_heap + _)) by (unfold KERNEL_HEAP_SIZE in *; lia).
    by replace ((kernel_heap + 16 <=? q) && (q <? kernel_heap + KERNEL_HEAP_SIZE)) with false
      by (unfold KERNEL_HEAP_SIZE in *; lia). }
  destruct Hq as [?|[Hq|[Hq|(sz & Hq & Hlt)]]]; [done|..].
  1, 2: rewrite Hout by auto; cbn [mbind option_bind];
    by replace ((kernel_heap <=? q) && (q <? kernel_heap + KERNEL_HEAP_SIZE)) with false
      by (unfold KERNEL_HEAP_SIZE in *; lia).
  destruct (block_of_bounds _ _ _ _ _ Hb _ Hq) as (_ & _ & _ & _ & Hf).
  rewrite (validate_payload_block h bs q Hinv Hlt), Hq. cbn [mbind option_bind].
  unfold spin_lock. rewrite Hl. cbn [Z.eqb mbind option_bind with_lock hmem]. rewrite Hf.
  by rewrite <- (heap_unlock_id h Hl) at 6.
Qed.

(** Sums over the blocks, as [kheap_used] and [kheap_free] compute them. *)
Definition used_of (bs : blocks) : Z :=
  foldr (fun (b : Z * bool) acc => if snd b then acc else fst b + 16 + acc) 0 bs.
Definition free_of (bs : blocks) : Z :=
  foldr (fun (b : Z * bool) acc => if snd b then fst b + acc else acc) 0 bs.
Definition nfree (bs : blocks) : Z := 
  foldr (fun (b : Z * bool) acc => if snd b then 1 + acc else acc) 0 bs.

Lemma walks_sum fuel m stop p bs u f :
  0 < p -> kernel_heap <= p -> stop <= kernel_heap + KERNEL_HEAP_SIZE ->
  blocks_at m stop p bs -> bs <> [] -> (length bs < fuel)%nat ->
  0 <= u -> 0 <= f -> u + used_of bs < 2 ^ 32 -> f + free_of bs < 2 ^ 32 ->
  used_walk fuel m p u = Some (u + used_of bs) /\ free_walk fuel m p f = Some (f + free_of bs) /\
  check_walk kernel_heap fuel m p = Some 0.
Proof using heap_pos heap_fits.
  revert fuel p u f; induction bs as [|[sz fr] bs IH];
    intros fuel p u f Hp Hk Hst Hb Hne Hfu Hu Hf Hub Hfb; [done|].
  destruct fuel as [|fuel]; [lia|]. cbn [used_walk free_walk check_walk].
  pose proof Hb as (Hs & Hc & Hfr & Hn & H0 & H8 & Hb'). pose proof (blocks_at_le _ _ _ _ Hb').
  replace (p =? 0) with false by lia. rewrite Hc, Z.eqb_refl, Hs, (hdr_free_b2z _ _ _ Hfr), Hn.
  rewrite (u32_small (kernel_heap + _)) by (unfold KERNEL_HEAP_SIZE in *; lia).
  replace ((p <? kernel_heap) || (kernel_heap + KERNEL_HEAP_SIZE <=? p)) with false
    by (unfold KERNEL_HEAP_SIZE in *; lia).
  cbn [negb used_of free_of foldr fst snd] in *. fold (used_of bs) (free_of bs) in *.
  change sizeof_block_header with 16.
  assert (0 <= used_of bs /\ 0 <= free_of bs) as [Hu0 Hf0].
  { pose proof (blocks_at_nonneg _ _ _ _ Hb') as Hnn. clear -Hnn.
    induction Hnn as [|[? []] ? ? ? ?]; unfold used_of, free_of in *; simpl in *; lia. }
  destruct bs as [|b bs].
  - destruct fuel; [simpl in Hfu; lia|]. simpl. destruct fr; rewrite ?u32_small by lia;
      split_and!; f_equal; lia.
  - destruct fr; rewrite u32_small by lia; (edestruct (IH fuel (p + 16 + sz)) as (-> & -> & ->);
      [lia|lia|done|done|done|simpl in *; lia|..|split_and!; f_equal; lia]); lia.
Qed.

Lemma sums_span bs : used_of bs + free_of bs + 16 * nfree bs = span bs.
Proof using Type.
  induction bs as [|[sz []] bs IH]; unfold used_of, free_of, nfree, span in *; simpl in *; lia.
Qed.

(** The statistics account for every byte of the heap array: used bytes
    (headers of allocated blocks included), free bytes and the headers of the
    free blocks add up to the array size, and the corruption check passes. *)
Theorem kheap_accounting h bs :
  heap_inv h bs ->
  exists u f, kheap_used h = Some u /\ kheap_free h = Some f /\
    kheap_check kernel_heap h = Some 0 /\ u + f + 16 * nfree bs = KERNEL_HEAP_SIZE.
Proof using heap_pos heap_fits.
  intros Hinv. pose proof (heap_inv_fuel _ _ Hinv) as Hfu.
  pose proof (inv_sizes _ _ Hinv) as Hnn.
  pose proof Hinv as (Hi & Hl & Hh & Ht & Hne & Hb & _).
  unfold kheap_used, kheap_free, kheap_check. rewrite Hi, Hh. cbn [negb].
  pose proof (blocks_at_span _ _ _ _ Hb). pose proof (sums_span bs).
  assert (0 <= used_of bs /\ 0 <= free_of bs /\ 0 <= nfree bs) as (? & ? & ?).
  { clear -Hnn. induction Hnn as [|[? []] ? ? ? ?]; unfold used_of, free_of, nfree in *; simpl in *; lia. }
  destruct (walks_sum HEAP_FUEL (hmem h) (kernel_heap + KERNEL_HEAP_SIZE) kernel_heap bs 0 0)
    as (-> & -> & ->); try done; try (unfold KERNEL_HEAP_SIZE in *; lia).
  eexists _, _. split_and!; [done|done|done|]. lia.
Qed.

Lemma heap_inv_payload h bs m :
  heap_inv h bs -> (forall a, ~ live kernel_heap bs a -> m.[a] = (hmem h).[a]) ->
  heap_inv (with_hmem h m) bs.
Proof using Type.
  intros (Hi & Hl & Hh & Ht & Hne & Hb & Hc) Hm. unfold heap_inv; cbn. split_and!; try done.
  eapply blocks_at_payload; [|done]. intros a _. apply Hm.
Qed.

Lemma aligned_address raw k :
  0 < raw -> 0 <= k < 32 -> raw + 4 + 2 ^ k < 2 ^ 32 ->
  let q := Z.land (u32 (raw + sizeof_ptr + 2 ^ k - 1)) (u32 (Z.lnot (u32 (2 ^ k - 1)))) in
  raw + 4 <= q <= raw + 4 + 2 ^ k - 1 /\ q mod 2 ^ k = 0.
Proof using Type.
  intros Hr Hk Hb q. change sizeof_ptr with 4 in q.
  assert (0 < 2 ^ k < 2 ^ 32) by (split; [lia|apply Z.pow_lt_mono_r; lia]).
  assert (Hq : q = (raw + 4 + 2 ^ k - 1) / 2 ^ k * 2 ^ k).
  { unfold q. rewrite (u32_small (2 ^ k - 1)), (u32_small (raw + _ + _ - 1)) by lia.
    replace (2 ^ k - 1) with (Z.ones k) by (rewrite Z.ones_equiv; lia).
    apply land_not_mask; lia. }
  rewrite Hq. split; [|by rewrite Z.mod_mul by lia].
  pose proof (Z.div_mod (raw + 4 + 2 ^ k - 1) (2 ^ k)).
  pose proof (Z.mod_pos_bound (raw + 4 + 2 ^ k - 1) (2 ^ k)). lia.
Qed.

Lemma land_pow2_pred k : 0 <= k < 32 -> Z.land (2 ^ k) (u32 (2 ^ k - 1)) = 0.
Proof using Type.
  intros Hk. assert (0 < 2 ^ k < 2 ^ 32) by (split; [lia|apply Z.pow_lt_mono_r; lia]).
  rewrite u32_small by lia. replace (2 ^ k - 1) with (Z.ones k) by (rewrite Z.ones_equiv; lia).
  rewrite Z.land_ones by lia. by apply Z.mod_same; lia.
Qed.

(** The value [kmalloc_aligned] computes from the raw block. *)
Lemma kmalloc_aligned_unfold h size k :
  0 < size -> 4 <= k < 32 -> size + 2 ^ k + 3 < 2 ^ 32 ->
  kmalloc_aligned kernel_heap h size (2 ^ k) =
  ('(raw, h1) ← kmalloc kernel_heap h (size + 2 ^ k + 3);
   if raw =? 0 then Some (0, h1) else
   let q := Z.land (u32 (raw + sizeof_ptr + 2 ^ k - 1)) (u32 (Z.lnot (u32 (2 ^ k - 1)))) in
   Some (q, with_hmem h1 (store32 (hmem h1) (q - 4) raw))).
Proof using Type.
  intros Hs Hk Hb. unfold kmalloc_aligned.
  assert (2 ^ 4 <= 2 ^ k) by (apply Z.pow_le_mono_r; lia). change (2 ^ 4) with 16 in *.
  replace (size =? 0) with false by lia. replace (2 ^ k =? 0) with false by lia.
  rewrite land_pow2_pred by lia. cbn [Z.eqb negb mbind option_bind].
  replace (2 ^ k <=? KHEAP_ALIGN) with false by (unfold KHEAP_ALIGN; lia).
  unfold sizeof_ptr. rewrite (u32_small (2 ^ k - 1 + 4)) by lia.
  rewrite (u32_small (size + _)) by lia. by replace (size + (2 ^ k - 1 + 4)) with (size + 2 ^ k + 3) by lia.
Qed.

(** [kmalloc_aligned] with a power-of-two alignment above 8 returns NULL and
    changes nothing, or returns a pointer that is a multiple of the alignment
    to [size] fresh bytes; [kfree_aligned] then finds the hidden block pointer
    and restores the block list. *)
Theorem kmalloc_aligned_roundtrip h bs size k :
  heap_inv h bs -> 0 < size -> 4 <= k < 32 -> size + 2 ^ k + 3 <= 2 ^ 32 - 8 ->
  kmalloc_aligned kernel_heap h size (2 ^ k) = Some (0, h) \/
  exists q h' bs' h'', kmalloc_aligned kernel_heap h size (2 ^ k) = Some (q, h') /\
    0 < q /\ q mod 2 ^ k = 0 /\ heap_inv h' bs' /\ keeps_live bs h h' /\
    (forall a, q <= a < q + size -> live kernel_heap bs' a /\ ~ live kernel_heap bs a) /\
    kfree_aligned kernel_heap h' q = Some h'' /\ heap_inv h'' bs.
Proof using heap_pos heap_fits.
  intros Hinv Hs Hk Hb. rewrite kmalloc_aligned_unfold by lia.
  set (n := size + 2 ^ k + 3) in *. assert (Hn : 0 < n < 2 ^ 32) by lia.
  pose proof (kmalloc_first_fit_lem h bs n Hinv Hn) as Hf.
  destruct (first_fit _ _ _) as [[raw bs']|] eqn:E; [|left; by rewrite Hf].
  destruct Hf as (h1 & -> & Hinv1 & Hk1). pose proof (inv_sizes _ _ Hinv) as Hsz.
  destruct (first_fit_block _ _ _ _ _ Hsz E) as (Hlo & _ & r & Hbo & Hr).
  rewrite align_up_8 in Hr by lia.
  assert (H8 : 0 <= align_up n 8) by (apply align_up_8_mult; lia).
  pose proof Hinv1 as (Hi1 & _ & _ & _ & _ & Hba & _).
  destruct (block_of_bounds _ _ _ _ _ Hba _ Hbo) as (_ & _ & Hhi & _). simpl in Hhi.
  cbn [mbind option_bind]. replace (raw =? 0) with false by lia.
  destruct (aligned_address raw k) as [Hq Hm]; [lia|lia|zlia|]. cbv zeta in Hq, Hm. cbv zeta.
  set (q := Z.land _ _) in *. right.
  set (h' := with_hmem h1 (store32 (hmem h1) (q - 4) raw)).
  assert (Hlv : forall a, raw <= a < raw + r -> live kernel_heap bs' a /\ ~ live kernel_heap bs a).
  { intros a Ha. destruct (first_fit_live _ _ _ _ _ _ a Hsz H8 E Hbo) as [Hl1 Hl2].
    rewrite Hl1. split; [by right|]. intros Hl. by apply Hl2 in Hl. }
  assert (Hst : forall a, ~ (raw <= a < raw + r) -> (hmem h').[a] = (hmem h1).[a]).
  { intros a Ha. cbn. apply peek_store32_ne. zlia. }
  assert (Hinv' : heap_inv h' bs').
  { apply heap_inv_payload; [done|]. intros a Ha. apply Hst. intros Hx. apply Ha. by apply Hlv. }
  destruct (kfree_lem h' bs' raw r Hinv' Hbo) as (h2 & Hk2 & Hi2 & _); [zlia|].
  rewrite (first_fit_merge _ _ _ _ _ Hsz) in Hi2 by (done || apply Hinv).
  exists q, h', bs', h2. split_and!; try done; [lia| |..].
  - intros a Ha. rewrite Hst by (intros Hx; apply Hlv in Hx; destruct Ha as [?|Ha]; [tauto|];
      destruct Hx as [Hx _]; apply (live_range (hmem h1) (kernel_heap + KERNEL_HEAP_SIZE)) in Hx; [lia|done]).
    by apply Hk1.
  - intros a Ha. apply Hlv. zlia.
  - unfold kfree_aligned. replace (q =? 0) with false by lia. change sizeof_ptr with 4.
    rewrite (u32_small (kernel_heap + _)) by (unfold KERNEL_HEAP_SIZE in *; lia).
    assert (raw < kernel_heap + KERNEL_HEAP_SIZE) by zlia.
    replace (load32 (hmem h') (q - 4)) with raw by (cbn; rewrite load32_store32_eq; [done|lia]).
    by replace ((raw <? kernel_heap) || (kernel_heap + KERNEL_HEAP_SIZE <=? raw)) with false by lia.
Qed.

(** A request in the last seven byte counts of the 32-bit range wraps to 0 in
    [align_up], so [kmalloc] answers it from any heap with a free block: the
    non-NULL pointer returned is backed by no payload bytes of its own size. *)
Theorem kmalloc_wraps_to_zero h bs size :
  heap_inv h bs -> 2 ^ 32 - 8 < size < 2 ^ 32 -> Exists (fun b => snd b = true) bs ->
  exists q h' bs' r, kmalloc kernel_heap h size = Some (q, h') /\ q <> 0 /\ heap_inv h' bs' /\
    block_of q kernel_heap bs' = Some (r, false) /\ r < 32.
Proof using heap_pos heap_fits.
  intros Hinv Hs Hex. pose proof (kmalloc_first_fit_lem h bs size Hinv ltac:(lia)) as Hf.
  assert (Ha : align_up size 8 = 0).
  { change (align_up size 8) with (align_up size (2 ^ 3)). rewrite align_up_pow2 by lia.
    unfold u32. change (2 ^ 3) with 8. zlia. }
  rewrite Ha in Hf. pose proof (inv_sizes _ _ Hinv) as Hsz.
  destruct (first_fit_zero kernel_heap bs Hsz Hex) as (q & bs' & r & Hff & Hb & Hr).
  rewrite Hff in Hf. destruct Hf as (h' & Hk & Hi & _). exists q, h', bs', r. split_and!; try done.
  destruct (first_fit_block _ _ _ _ _ Hsz Hff) as (? & _). lia.
Qed.

(** ** The heap provides the allocator interface *)

Definition heap_ok (h : heap) : Prop := exists bs, heap_inv h bs.
Definition heap_owned (h : heap) (q r : Z) : Prop :=
  exists bs, heap_inv h bs /\ block_of q kernel_heap bs = Some (r, false).

Lemma heap_owned_iff h bs q r :
  heap_inv h bs -> heap_owned h q r <-> block_of q kernel_heap bs = Some (r, false).
Proof using heap_pos.
  intros Hi. split; [|by exists bs]. intros (bs' & Hi' & Hb). by rewrite (heap_inv_det h bs bs').
Qed.

Lemma heap_owned_live h bs q r a :
  heap_inv h bs -> block_of q kernel_heap bs = Some (r, false) -> in_block q r a -> live kernel_heap bs a.
Proof using Type.
  intros Hi Hb Ha. apply live_block; [by eapply inv_sizes|]. eauto.
Qed.

Lemma heap_alloc_spec h size :
  heap_ok h -> 0 < size <= 2 ^ 32 - 8 ->
  kmalloc kernel_heap h size = Some (0, h) \/
  exists q r h', kmalloc kernel_heap h size = Some (q, h') /\ heap_ok h' /\ 0 < q /\ size <= r /\
    (forall q' r', heap_owned h' q' r' <-> heap_owned h q' r' \/ q' = q /\ r' = r) /\
    (forall q' r', heap_owned h q' r' -> q' + r' <= q \/ q + r <= q') /\
    (forall q' r' a, heap_owned h q' r' -> in_block q' r' a -> (hmem h').[a] = (hmem h).[a]).
Proof using heap_pos heap_fits.
  intros [bs Hinv] Hs. pose proof (kmalloc_first_fit_lem h bs size Hinv ltac:(lia)) as Hf.
  destruct (first_fit _ _ _) as [[q bs']|] eqn:E; [right|by left].
  destruct Hf as (h' & Hk & Hinv' & Hkl). pose proof (inv_sizes _ _ Hinv) as Hn.
  destruct (first_fit_block _ _ _ _ _ Hn E) as (? & _ & r & Hb & Hr).
  rewrite align_up_8 in Hr by lia. assert (H8 : 0 <= align_up size 8) by (apply align_up_8_mult; lia).
  pose proof (fun q' s' => block_of_first_fit _ _ _ _ _ r q' s' Hn H8 E Hb) as Hbf.
  exists q, r, h'. split_and!; [done|by exists bs'|lia|zlia|..].
  - intros q' r'. rewrite (heap_owned_iff h' bs'), (heap_owned_iff h bs) by done. apply Hbf.
  - intros q' r' Ho. rewrite (heap_owned_iff h bs) in Ho by done.
    assert (Ho' : block_of q' kernel_heap bs' = Some (r', false)) by (apply Hbf; by left).
    destruct (block_of_disjoint _ _ _ _ _ _ (inv_sizes _ _ Hinv') Ho' Hb) as [[-> Heq]|[?|?]];
      simpl in *; [|lia..]. exfalso. injection Heq as ->.
    destruct (first_fit_live _ _ _ _ _ _ q Hn H8 E Hb) as [_ Hl2]. apply Hl2; [|zlia].
    eapply heap_owned_live; [done|done|]. unfold in_block. zlia.
  - intros q' r' a Ho Ha. apply Hkl. left. rewrite (heap_owned_iff h bs) in Ho by done.
    by eapply heap_owned_live.
Qed.

Lemma heap_free_spec h q r :
  heap_ok h -> heap_owned h q r -> 0 < r ->
  exists h', kfree kernel_heap h q = Some h' /\ heap_ok h' /\
    (forall q' r', heap_owned h' q' r' <-> heap_owned h q' r' /\ q' <> q) /\
    (forall q' r' a, heap_owned h' q' r' -> in_block q' r' a -> (hmem h').[a] = (hmem h).[a]).
Proof using heap_pos heap_fits.
  intros [bs Hinv] Ho Hr. rewrite (heap_owned_iff h bs) in Ho by done.
  destruct (kfree_lem h bs q r Hinv Ho Hr) as (h' & Hk & Hinv' & Hl & Hkl).
  pose proof (inv_sizes _ _ Hinv) as Hn. exists h'. split_and!; [done|by eexists|..].
  - intros q' r'. rewrite (heap_owned_iff h' _ _ _ Hinv'), (heap_owned_iff h bs) by done.
    rewrite <- (block_of_release _ _ _ _ _ _ Hn Ho).
    pose proof (release_sizes q kernel_heap bs Hn) as Hn'. unfold merge.
    destruct (release q kernel_heap bs) as [|[s f] l]; [done|]. by apply block_of_merge_from.
  - intros q' r' a Ho' Ha. apply Hkl. left. rewrite (heap_owned_iff h' _ _ _ Hinv') in Ho'.
    apply release_live with (sz := r); [done|done|]. apply Hl. by eapply heap_owned_live.
Qed.

#[export, refine] Instance heap_allocator : Allocator heap := {
  a_ok := heap_ok; a_owned := heap_owned; a_mem := hmem; a_write := with_hmem;
  a_alloc := kmalloc kernel_heap; a_free := kfree kernel_heap;
  a_alloc_spec := heap_alloc_spec; a_free_spec := heap_free_spec;
  a_mem_write := fun _ _ => eq_refl
}.
Proof.
  - intros h q r _ (bs & Hinv & Hb). pose proof Hinv as (_ & _ & _ & _ & _ & Hba & _).
    destruct (block_of_bounds _ _ _ _ _ Hba _ Hb) as (? & ? & ? & _). simpl in *. lia.
  - intros h q r q' r' [bs Hinv] H1 H2. rewrite (heap_owned_iff h bs) in H1, H2 by done.
    destruct (block_of_disjoint _ _ _ _ _ _ (inv_sizes _ _ Hinv) H1 H2) as [[-> ?]|[?|?]];
      simpl in *; [left; split; congruence|lia..].
  - intros h m [bs Hinv] Hm. assert (Hinv' : heap_inv (with_hmem h m) bs).
    { apply heap_inv_payload; [done|]. intros a Ha. apply Hm. intros q r Ho Hx. apply Ha.
      rewrite (heap_owned_iff h bs) in Ho by done. by eapply heap_owned_live. }
    split; [by exists bs|]. intros q r. by rewrite (heap_owned_iff _ bs), (heap_owned_iff h bs).
Defined.

End Correct.

(** ** The theorems at a concrete heap, at 2 MiB *)

Definition h_boot : heap := mk_heap (fun _ => 0) 0 false 0 0.
Definition h_ready : heap := heap_init 0x200000 h_boot.
Abbreviation bs_ready := [(KERNEL_HEAP_SIZE - 16, true)].

Lemma ready_inv : heap_inv 0x200000 h_ready bs_ready.
Proof. by apply heap_init_inv. Qed.

Lemma kmalloc_is_first_fit_witness :
  exists h', kmalloc 0x200000 h_ready 100 = Some (0x200010, h') /\
    heap_inv 0x200000 h' [(104, false); (KERNEL_HEAP_SIZE - 136, true)] /\
    keeps_live 0x200000 bs_ready h_ready h'.
Proof. apply (kmalloc_is_first_fit 0x200000 eq_refl eq_refl h_ready bs_ready 100 ready_inv). done. Defined.

Lemma kmalloc_fresh_witness :
  exists q h' bs' r, kmalloc 0x200000 h_ready 100 = Some (q, h') /\ heap_inv 0x200000 h' bs' /\
    block_of q 0x200000 bs' = Some (r, false) /\ 100 <= r.
Proof.
  destruct (kmalloc_first_fit_lem 0x200000 eq_refl eq_refl h_ready bs_ready 100 ready_inv) as (h' & Hk & _);
    [done|].
  destruct (kmalloc_fresh 0x200000 eq_refl eq_refl h_ready bs_ready 100 _ h' ready_inv ltac:(done) Hk
    ltac:(done)) as (bs' & r & Hi & Hb & Hr & _).
  by exists 0x200010, h', bs', r.
Defined.

Lemma kfree_releases_block_witness :
  exists h1 h2, kmalloc 0x200000 h_ready 100 = Some (0x200010, h1) /\
    kfree 0x200000 h1 0x200010 = Some h2 /\ heap_inv 0x200000 h2 bs_ready.
Proof.
  destruct (kmalloc_first_fit_lem 0x200000 eq_refl eq_refl h_ready bs_ready 100 ready_inv) as (h1 & Hk & Hi & _);
    [done|].
  destruct (kfree_releases_block 0x200000 eq_refl eq_refl h1 _ 0x200010 104 Hi ltac:(done) ltac:(done))
    as (h2 & Hk2 & Hi2 & _).
  by exists h1, h2.
Defined.

Lemma kmalloc_kfree_roundtrip_witness :
  exists h1 h2, kmalloc 0x200000 h_ready 5000 = Some (0x200010, h1) /\
    kfree 0x200000 h1 0x200010 = Some h2 /\ heap_inv 0x200000 h2 bs_ready.
Proof.
  destruct (kmalloc_first_fit_lem 0x200000 eq_refl eq_refl h_ready bs_ready 5000 ready_inv) as (h1 & Hk & _);
    [done|].
  destruct (kmalloc_kfree_roundtrip 0x200000 eq_refl eq_refl h_ready bs_ready 5000 _ h1 ready_inv
    ltac:(done) Hk ltac:(done)) as (h2 & Hk2 & Hi2 & _).
  by exists h1, h2.
Defined.

Lemma kfree_invalid_noop_witness : kfree 0x200000 h_ready 0x200010 = Some h_ready.
Proof.
  apply (kfree_invalid_noop 0x200000 eq_refl eq_refl h_ready bs_ready 0x200010 ready_inv).
  right; right; right. exists (KERNEL_HEAP_SIZE - 16). by split.
Defined.

Lemma kheap_accounting_witness :
  exists u f, kheap_used h_ready = Some u /\ kheap_free h_ready = Some f /\
    kheap_check 0x200000 h_ready = Some 0 /\ u + f + 16 * 1 = KERNEL_HEAP_SIZE.
Proof. apply (kheap_accounting 0x200000 eq_refl eq_refl h_ready bs_ready ready_inv). Defined.

Lemma kmalloc_aligned_roundtrip_witness :
  exists q h' h'', kmalloc_aligned 0x200000 h_ready 4096 (2 ^ 12) = Some (q, h') /\
    q mod 2 ^ 12 = 0 /\ kfree_aligned 0x200000 h' q = Some h'' /\ heap_inv 0x200000 h'' bs_ready.
Proof.
  destruct (kmalloc_aligned_roundtrip 0x200000 eq_refl eq_refl h_ready bs_ready 4096 12 ready_inv)
    as [Hk|(q & h' & bs' & h'' & Hk & _ & Hm & _ & _ & _ & Hf & Hi)]; try done.
  by exists q, h', h''.
Defined.

Lemma kmalloc_wraps_to_zero_witness :
  exists q h' bs' r, kmalloc 0x200000 h_ready (2 ^ 32 - 1) = Some (q, h') /\ q <> 0 /\
    heap_inv 0x200000 h' bs' /\ block_of q 0x200000 bs' = Some (r, false) /\ r < 32.
Proof.
  apply (kmalloc_wraps_to_zero 0x200000 eq_refl eq_refl h_ready bs_ready (2 ^ 32 - 1) ready_inv).
  - done.
  - by constructor.
Defined.
