(* ===== verification/Tcb.v ===== *)
(** * tcb.c: the task pool and the scheduler

    The pool is the array [task_pool]; a [tcb_t *] is an index into it, or NULL.
    The run queue is the doubly linked list threaded through the [next] and
    [prev] fields of the pool, exactly as in the code: walks follow the
    pointers and take fuel ([None] means that the call does not return or
    follows a NULL pointer; a call that ends in [while (1) hal_halt();] gives the
    outcome [Halted]).  [kmalloc] is the allocator of [Alloc.v].
    [hal_context_switch] only logs and [hal_sti]/[hal_cli] set the interrupt
    flag; serial messages are not modelled. *)
From S2P Require Import Prelude Mem LibString Alloc Heap.

Inductive task_state :=
  | TASK_STATE_FREE | TASK_STATE_READY | TASK_STATE_RUNNING | TASK_STATE_BLOCKED | TASK_STATE_ZOMBIE.
#[export] Instance task_state_eq_dec : EqDecision task_state.
Proof. solve_decision. Defined.

Definition TASK_PRIORITY_IDLE : Z := 0.
Definition TASK_PRIORITY_NORMAL : Z := 5.
Definition TASK_PRIORITY_HIGH : Z := 10.
Definition TASK_PRIORITY_REALTIME : Z := 15.

Definition TCB_STACK_SIZE : Z := 0x2000.
Definition TCB_MAX_TASKS : nat := 256.
Definition TCB_INVALID_TID : Z := -1.

Record cpu_context := mk_context {
  eax : Z; ebx : Z; ecx : Z; edx : Z; esi : Z; edi : Z; ebp : Z; esp : Z; eip : Z; eflags : Z;
  cs : Z; ds : Z; es : Z; fs : Z; gs : Z; ss : Z; cr3 : Z
}.

Record resource_limits := mk_limits { max_memory : Z; max_open_files : Z; max_threads : Z }.

Record task_accounting := mk_accounting {
  creation_time : Z; total_run_time : Z; sleep_time : Z; wait_time : Z
}.

Record tcb := mk_tcb {
  t_tid : Z; t_pid : Z; t_name : list Z;
  t_state : task_state; t_priority : Z; t_base_priority : Z;
  t_context : cpu_context; t_fpu : Z; t_kernel_stack : Z; t_user_stack : Z; t_stack_size : Z;
  t_time_slice : Z; t_last_run : Z; t_next : option nat; t_prev : option nat;
  t_page_directory : Z; t_heap_start : Z; t_heap_end : Z;
  t_msg_buffer : Z; t_msg_size : Z; t_waiting_for : Z;
  t_limits : resource_limits; t_open_handles : Z; t_handle_count : Z;
  t_accounting : task_accounting;
  t_parent : option nat; t_children : option nat; t_sibling : option nat;
  t_arch_data : Z
}.

Definition set_tid (v : Z) (t : tcb) : tcb :=
  mk_tcb v (t_pid t) (t_name t) (t_state t) (t_priority t) (t_base_priority t) (t_context t)
    (t_fpu t) (t_kernel_stack t) (t_user_stack t) (t_stack_size t) (t_time_slice t)
    (t_last_run t) (t_next t) (t_prev t) (t_page_directory t) (t_heap_start t)
    (t_heap_end t) (t_msg_buffer t) (t_msg_size t) (t_waiting_for t) (t_limits t)
    (t_open_handles t) (t_handle_count t) (t_accounting t) (t_parent t) (t_children t)
    (t_sibling t) (t_arch_data t).
Definition set_name (v : list Z) (t : tcb) : tcb :=
  mk_tcb (t_tid t) (t_pid t) v (t_state t) (t_priority t) (t_base_priority t) (t_context t)
    (t_fpu t) (t_kernel_stack t) (t_user_stack t) (t_stack_size t) (t_time_slice t)
    (t_last_run t) (t_next t) (t_prev t) (t_page_directory t) (t_heap_start t)
    (t_heap_end t) (t_msg_buffer t) (t_msg_size t) (t_waiting_for t) (t_limits t)
    (t_open_handles t) (t_handle_count t) (t_accounting t) (t_parent t) (t_children t)
    (t_sibling t) (t_arch_data t).
Definition set_state (v : task_state) (t : tcb) : tcb :=
  mk_tcb (t_tid t) (t_pid t) (t_name t) v (t_priority t) (t_base_priority t) (t_context t)
    (t_fpu t) (t_kernel_stack t) (t_user_stack t) (t_stack_size t) (t_time_slice t)
    (t_last_run t) (t_next t) (t_prev t) (t_page_directory t) (t_heap_start t)
    (t_heap_end t) (t_msg_buffer t) (t_msg_size t) (t_waiting_for t) (t_limits t)
    (t_open_handles t) (t_handle_count t) (t_accounting t) (t_parent t) (t_children t)
    (t_sibling t) (t_arch_data t).
Definition set_priority (v : Z) (t : tcb) : tcb :=
  mk_tcb (t_tid t) (t_pid t) (t_name t) (t_state t) v (t_base_priority t) (t_context t)
    (t_fpu t) (t_kernel_stack t) (t_user_stack t) (t_stack_size t) (t_time_slice t)
    (t_last_run t) (t_next t) (t_prev t) (t_page_directory t) (t_heap_start t)
    (t_heap_end t) (t_msg_buffer t) (t_msg_size t) (t_waiting_for t) (t_limits t)
    (t_open_handles t) (t_handle_count t) (t_accounting t) (t_parent t) (t_children t)
    (t_sibling t) (t_arch_data t).
Definition set_base_priority (v : Z) (t : tcb) : tcb :=
  mk_tcb (t_tid t) (t_pid t) (t_name t) (t_state t) (t_priority t) v (t_context t) (t_fpu t)
    (t_kernel_stack t) (t_user_stack t) (t_stack_size t) (t_time_slice t) (t_last_run t)
    (t_next t) (t_prev t) (t_page_directory t) (t_heap_start t) (t_heap_end t)
    (t_msg_buffer t) (t_msg_size t) (t_waiting_for t) (t_limits t) (t_open_handles t)
    (t_handle_count t) (t_accounting t) (t_parent t) (t_children t) (t_sibling t)
    (t_arch_data t).
Definition set_context (v : cpu_context) (t : tcb) : tcb :=
  mk_tcb (t_tid t) (t_pid t) (t_name t) (t_state t) (t_priority t) (t_base_priority t) v
    (t_fpu t) (t_kernel_stack t) (t_user_stack t) (t_stack_size t) (t_time_slice t)
    (t_last_run t) (t_next t) (t_prev t) (t_page_directory t) (t_heap_start t)
    (t_heap_end t) (t_msg_buffer t) (t_msg_size t) (t_waiting_for t) (t_limits t)
    (t_open_handles t) (t_handle_count t) (t_accounting t) (t_parent t) (t_children t)
    (t_sibling t) (t_arch_data t).
Definition set_kernel_stack (v : Z) (t : tcb) : tcb :=
  mk_tcb (t_tid t) (t_pid t) (t_name t) (t_state t) (t_priority t) (t_base_priority t)
    (t_context t) (t_fpu t) v (t_user_stack t) (t_stack_size t) (t_time_slice t)
    (t_last_run t) (t_next t) (t_prev t) (t_page_directory t) (t_heap_start t)
    (t_heap_end t) (t_msg_buffer t) (t_msg_size t) (t_waiting_for t) (t_limits t)
    (t_open_handles t) (t_handle_count t) (t_accounting t) (t_parent t) (t_children t)
    (t_sibling t) (t_arch_data t).
Definition set_stack_size (v : Z) (t : tcb) : tcb :=
  mk_tcb (t_tid t) (t_pid t) (t_name t) (t_state t) (t_priority t) (t_base_priority t)
    (t_context t) (t_fpu t) (t_kernel_stack t) (t_user_stack t) v (t_time_slice t)
    (t_last_run t) (t_next t) (t_prev t) (t_page_directory t) (t_heap_start t)
    (t_heap_end t) (t_msg_buffer t) (t_msg_size t) (t_waiting_for t) (t_limits t)
    (t_open_handles t) (t_handle_count t) (t_accounting t) (t_parent t) (t_children t)
    (t_sibling t) (t_arch_data t).
Definition set_time_slice (v : Z) (t : tcb) : tcb :=
  mk_tcb (t_tid t) (t_pid t) (t_name t) (t_state t) (t_priority t) (t_base_priority t)
    (t_context t) (t_fpu t) (t_kernel_stack t) (t_user_stack t) (t_stack_size t) v
    (t_last_run t) (t_next t) (t_prev t) (t_page_directory t) (t_heap_start t)
    (t_heap_end t) (t_msg_buffer t) (t_msg_size t) (t_waiting_for t) (t_limits t)
    (t_open_handles t) (t_handle_count t) (t_accounting t) (t_parent t) (t_children t)
    (t_sibling t) (t_arch_data t).
Definition set_last_run (v : Z) (t : tcb) : tcb :=
  mk_tcb (t_tid t) (t_pid t) (t_name t) (t_state t) (t_priority t) (t_base_priority t)
    (t_context t) (t_fpu t) (t_kernel_stack t) (t_user_stack t) (t_stack_size t)
    (t_time_slice t) v (t_next t) (t_prev t) (t_page_directory t) (t_heap_start t)
    (t_heap_end t) (t_msg_buffer t) (t_msg_size t) (t_waiting_for t) (t_limits t)
    (t_open_handles t) (t_handle_count t) (t_accounting t) (t_parent t) (t_children t)
    (t_sibling t) (t_arch_data t).
Definition set_next (v : option nat) (t : tcb) : tcb :=
  mk_tcb (t_tid t) (t_pid t) (t_name t) (t_state t) (t_priority t) (t_base_priority t)
    (t_context t) (t_fpu t) (t_kernel_stack t) (t_user_stack t) (t_stack_size t)
    (t_time_slice t) (t_last_run t) v (t_prev t) (t_page_directory t) (t_heap_start t)
    (t_heap_end t) (t_msg_buffer t) (t_msg_size t) (t_waiting_for t) (t_limits t)
    (t_open_handles t) (t_handle_count t) (t_accounting t) (t_parent t) (t_children t)
    (t_sibling t) (t_arch_data t).
Definition set_prev (v : option nat) (t : tcb) : tcb :=
  mk_tcb (t_tid t) (t_pid t) (t_name t) (t_state t) (t_priority t) (t_base_priority t)
    (t_context t) (t_fpu t) (t_kernel_stack t) (t_user_stack t) (t_stack_size t)
    (t_time_slice t) (t_last_run t) (t_next t) v (t_page_directory t) (t_heap_start t)
    (t_heap_end t) (t_msg_buffer t) (t_msg_size t) (t_waiting_for t) (t_limits t)
    (t_open_handles t) (t_handle_count t) (t_accounting t) (t_parent t) (t_children t)
    (t_sibling t) (t_arch_data t).
Definition set_msg_buffer (v : Z) (t : tcb) : tcb :=
  mk_tcb (t_tid t) (t_pid t) (t_name t) (t_state t) (t_priority t) (t_base_priority t)
    (t_context t) (t_fpu t) (t_kernel_stack t) (t_user_stack t) (t_stack_size t)
    (t_time_slice t) (t_last_run t) (t_next t) (t_prev t) (t_page_directory t)
    (t_heap_start t) (t_heap_end t) v (t_msg_size t) (t_waiting_for t) (t_limits t)
    (t_open_handles t) (t_handle_count t) (t_accounting t) (t_parent t) (t_children t)
    (t_sibling t) (t_arch_data t).
Definition set_msg_size (v : Z) (t : tcb) : tcb :=
  mk_tcb (t_tid t) (t_pid t) (t_name t) (t_state t) (t_priority t) (t_base_priority t)
    (t_context t) (t_fpu t) (t_kernel_stack t) (t_user_stack t) (t_stack_size t)
    (t_time_slice t) (t_last_run t) (t_next t) (t_prev t) (t_page_directory t)
    (t_heap_start t) (t_heap_end t) (t_msg_buffer t) v (t_waiting_for t) (t_limits t)
    (t_open_handles t) (t_handle_count t) (t_accounting t) (t_parent t) (t_children t)
    (t_sibling t) (t_arch_data t).
Definition set_waiting_for (v : Z) (t : tcb) : tcb :=
  mk_tcb (t_tid t) (t_pid t) (t_name t) (t_state t) (t_priority t) (t_base_priority t)
    (t_context t) (t_fpu t) (t_kernel_stack t) (t_user_stack t) (t_stack_size t)
    (t_time_slice t) (t_last_run t) (t_next t) (t_prev t) (t_page_directory t)
    (t_heap_start t) (t_heap_end t) (t_msg_buffer t) (t_msg_size t) v (t_limits t)
    (t_open_handles t) (t_handle_count t) (t_accounting t) (t_parent t) (t_children t)
    (t_sibling t) (t_arch_data t).
Definition set_accounting (v : task_accounting) (t : tcb) : tcb :=
  mk_tcb (t_tid t) (t_pid t) (t_name t) (t_state t) (t_priority t) (t_base_priority t)
    (t_context t) (t_fpu t) (t_kernel_stack t) (t_user_stack t) (t_stack_size t)
    (t_time_slice t) (t_last_run t) (t_next t) (t_prev t) (t_page_directory t)
    (t_heap_start t) (t_heap_end t) (t_msg_buffer t) (t_msg_size t) (t_waiting_for t)
    (t_limits t) (t_open_handles t) (t_handle_count t) v (t_parent t) (t_children t)
    (t_sibling t) (t_arch_data t).
Definition set_arch_data (v : Z) (t : tcb) : tcb :=
  mk_tcb (t_tid t) (t_pid t) (t_name t) (t_state t) (t_priority t) (t_base_priority t)
    (t_context t) (t_fpu t) (t_kernel_stack t) (t_user_stack t) (t_stack_size t)
    (t_time_slice t) (t_last_run t) (t_next t) (t_prev t) (t_page_directory t)
    (t_heap_start t) (t_heap_end t) (t_msg_buffer t) (t_msg_size t) (t_waiting_for t)
    (t_limits t) (t_open_handles t) (t_handle_count t) (t_accounting t) (t_parent t)
    (t_children t) (t_sibling t) v.
Definition set_heap_start (v : Z) (t : tcb) : tcb :=
  mk_tcb (t_tid t) (t_pid t) (t_name t) (t_state t) (t_priority t) (t_base_priority t)
    (t_context t) (t_fpu t) (t_kernel_stack t) (t_user_stack t) (t_stack_size t)
    (t_time_slice t) (t_last_run t) (t_next t) (t_prev t) (t_page_directory t) v
    (t_heap_end t) (t_msg_buffer t) (t_msg_size t) (t_waiting_for t) (t_limits t)
    (t_open_handles t) (t_handle_count t) (t_accounting t) (t_parent t) (t_children t)
    (t_sibling t) (t_arch_data t).
Definition set_heap_end (v : Z) (t : tcb) : tcb :=
  mk_tcb (t_tid t) (t_pid t) (t_name t) (t_state t) (t_priority t) (t_base_priority t)
    (t_context t) (t_fpu t) (t_kernel_stack t) (t_user_stack t) (t_stack_size t)
    (t_time_slice t) (t_last_run t) (t_next t) (t_prev t) (t_page_directory t)
    (t_heap_start t) v (t_msg_buffer t) (t_msg_size t) (t_waiting_for t) (t_limits t)
    (t_open_handles t) (t_handle_count t) (t_accounting t) (t_parent t) (t_children t)
    (t_sibling t) (t_arch_data t).

Definition set_total_run_time (v : Z) (t : tcb) : tcb :=
  set_accounting (mk_accounting (creation_time (t_accounting t)) v
    (sleep_time (t_accounting t)) (wait_time (t_accounting t))) t.
Definition set_sleep_time (v : Z) (t : tcb) : tcb :=
  set_accounting (mk_accounting (creation_time (t_accounting t)) (total_run_time (t_accounting t))
    v (wait_time (t_accounting t))) t.
Definition set_wait_time (v : Z) (t : tcb) : tcb :=
  set_accounting (mk_accounting (creation_time (t_accounting t)) (total_run_time (t_accounting t))
    (sleep_time (t_accounting t)) v) t.

Definition scheduler_time_slice_for_priority (prio : Z) : Z :=
  if prio =? TASK_PRIORITY_IDLE then 2
  else if prio =? TASK_PRIORITY_NORMAL then 10
  else if prio =? TASK_PRIORITY_HIGH then 20
  else if prio =? TASK_PRIORITY_REALTIME then 30
  else 10.

(** [for (; i+1 < dstsize && src[i]; i++) dst[i] = src[i]; dst[i] = 0], on the
    array [dst] and the characters of the string [src]. *)
Fixpoint str_copy_loop (n : nat) (dst src : list Z) (i : nat) : list Z :=
  match n, src with
  | S n', ch :: src' => if ch =? 0 then <[i := 0]> dst else str_copy_loop n' (<[i := ch]> dst) src' (S i)
  | _, _ => <[i := 0]> dst
  end.
Definition str_copy (dst src : list Z) : list Z :=
  match dst with [] => dst | _ => str_copy_loop (length dst - 1) dst src 0 end.

Section Scheduler.
Context {A : Type} `{!Allocator A}.

Record sched := mk_sched {
  task_pool : nat -> tcb;
  next_tid : Z;
  runqueue_head : option nat;
  runqueue_tail : option nat;
  current_task : option nat;
  scheduler_ticks : Z;
  scheduler_initialized : bool;
  idle_task : option nat;
  iflag : bool;
  kheap : A
}.

Definition set_pool (f : nat -> tcb) (s : sched) : sched :=
  mk_sched f (next_tid s) (runqueue_head s) (runqueue_tail s) (current_task s) (scheduler_ticks s)
    (scheduler_initialized s) (idle_task s) (iflag s) (kheap s).
Definition set_next_tid (v : Z) (s : sched) : sched :=
  mk_sched (task_pool s) v (runqueue_head s) (runqueue_tail s) (current_task s) (scheduler_ticks s)
    (scheduler_initialized s) (idle_task s) (iflag s) (kheap s).
Definition set_head (v : option nat) (s : sched) : sched :=
  mk_sched (task_pool s) (next_tid s) v (runqueue_tail s) (current_task s) (scheduler_ticks s)
    (scheduler_initialized s) (idle_task s) (iflag s) (kheap s).
Definition set_tail (v : option nat) (s : sched) : sched :=
  mk_sched (task_pool s) (next_tid s) (runqueue_head s) v (current_task s) (scheduler_ticks s)
    (scheduler_initialized s) (idle_task s) (iflag s) (kheap s).
Definition set_current (v : option nat) (s : sched) : sched :=
  mk_sched (task_pool s) (next_tid s) (runqueue_head s) (runqueue_tail s) v (scheduler_ticks s)
    (scheduler_initialized s) (idle_task s) (iflag s) (kheap s).
Definition set_ticks (v : Z) (s : sched) : sched :=
  mk_sched (task_pool s) (next_tid s) (runqueue_head s) (runqueue_tail s) (current_task s) v
    (scheduler_initialized s) (idle_task s) (iflag s) (kheap s).
Definition set_initialized (v : bool) (s : sched) : sched :=
  mk_sched (task_pool s) (next_tid s) (runqueue_head s) (runqueue_tail s) (current_task s)
    (scheduler_ticks s) v (idle_task s) (iflag s) (kheap s).
Definition set_idle (v : option nat) (s : sched) : sched :=
  mk_sched (task_pool s) (next_tid s) (runqueue_head s) (runqueue_tail s) (current_task s)
    (scheduler_ticks s) (scheduler_initialized s) v (iflag s) (kheap s).
Definition set_iflag (v : bool) (s : sched) : sched :=
  mk_sched (task_pool s) (next_tid s) (runqueue_head s) (runqueue_tail s) (current_task s)
    (scheduler_ticks s) (scheduler_initialized s) (idle_task s) v (kheap s).
Definition set_kheap (v : A) (s : sched) : sched :=
  mk_sched (task_pool s) (next_tid s) (runqueue_head s) (runqueue_tail s) (current_task s)
    (scheduler_ticks s) (scheduler_initialized s) (idle_task s) (iflag s) v.

Definition hal_cli (s : sched) : sched := set_iflag false s.
Definition hal_sti (s : sched) : sched := set_iflag true s.

(** [*(&task_pool[i]) := f(task_pool[i])] *)
Definition upd (i : nat) (f : tcb -> tcb) (s : sched) : sched :=
  set_pool (fun j => if (j =? i)%nat then f (task_pool s i) else task_pool s j) s.

Definition state_of (s : sched) (i : nat) : task_state := t_state (task_pool s i).
Definition is_state (s : sched) (i : nat) (st : task_state) : bool := bool_decide (state_of s i = st).

(** ** Run-queue walks *)

(** A list of distinct pool entries has at most [TCB_MAX_TASKS] elements. *)
Definition QFUEL : nat := S TCB_MAX_TASKS.

(** [for (it = head; it; it = it->next) if (p(it)) return it;] *)
Fixpoint queue_find (fuel : nat) (pool : nat -> tcb) (p : nat -> bool) (it : option nat)
  : option (option nat) :=
  match fuel, it with
  | O, _ => None
  | S _, None => Some None
  | S f, Some i => if p i then Some (Some i) else queue_find f pool p (t_next (pool i))
  end.

Definition in_queue (s : sched) (task : nat) : option bool :=
  r ← queue_find QFUEL (task_pool s) (Nat.eqb task) (runqueue_head s);
  Some (match r with Some _ => true | None => false end).

(** [it->priority > best->priority] scan over the READY tasks. *)
Fixpoint queue_best (fuel : nat) (pool : nat -> tcb) (best it : option nat) : option (option nat) :=
  match fuel, it with
  | O, _ => None
  | S _, None => Some best
  | S f, Some i =>
      let best' :=
        if negb (bool_decide (t_state (pool i) = TASK_STATE_READY)) then best else
        match best with
        | None => Some i
        | Some b => if t_priority (pool i) >? t_priority (pool b) then Some i else best
        end in
      queue_best f pool best' (t_next (pool i))
  end.

(** [t->next = NULL; t->prev = runqueue_tail; if (!head) ... else ...] *)
Definition link_tail (task : nat) (s : sched) : option sched :=
  match runqueue_head s with
  | None => Some (set_tail (Some task) (set_head (Some task) s))
  | Some _ =>
      match runqueue_tail s with
      | None => None
      | Some tl => Some (set_tail (Some task) (upd tl (set_next (Some task)) s))
      end
  end.
Definition append (task : nat) (s : sched) : option sched :=
  link_tail task (upd task (fun t => set_prev (runqueue_tail s) (set_next None t)) s).

(** ** TCB management *)

Fixpoint tcb_init_loop (n i : nat) (s : sched) : sched :=
  match n with
  | O => s
  | S n' => tcb_init_loop n' (S i)
      (upd i (fun t => set_stack_size 0 (set_kernel_stack 0 (set_prev None (set_next None
         (set_tid TCB_INVALID_TID (set_state TASK_STATE_FREE t)))))) s)
  end.
Definition tcb_init (s : sched) : sched :=
  let s := tcb_init_loop TCB_MAX_TASKS 0 s in
  set_ticks 0 (set_current None (set_tail None (set_head None (set_next_tid 1 s)))).

Definition fresh_context (bp sp ip : Z) : cpu_context :=
  mk_context 0 0 0 0 0 0 bp sp ip 0x202 0x08 0x10 0x10 0x10 0x10 0x10 0.

(** What [tcb_allocate] leaves in the slot it takes; the name keeps the bytes
    after its first. *)
Definition fresh_tcb (tid ticks : Z) (old : tcb) : tcb :=
  mk_tcb tid tid (<[0%nat := 0]> (t_name old))
    TASK_STATE_READY TASK_PRIORITY_NORMAL TASK_PRIORITY_NORMAL
    (fresh_context 0 0 0) 0 0 0 TCB_STACK_SIZE
    (scheduler_time_slice_for_priority TASK_PRIORITY_NORMAL) 0 None None
    0 0 0 0 0 TCB_INVALID_TID (mk_limits 0x1000000 32 16) 0 0
    (mk_accounting ticks 0 0 0) None None None 0.

Definition tcb_allocate (s : sched) : option nat * sched :=
  match find_from (fun i => is_state s i TASK_STATE_FREE) 0 TCB_MAX_TASKS with
  | None => (None, s)
  | Some i =>
      (Some i, upd i (fresh_tcb (next_tid s) (scheduler_ticks s)) (set_next_tid (i32 (next_tid s + 1)) s))
  end.

(** ** Scheduler *)

Definition scheduler_add_task (task : option nat) (s : sched) : option sched :=
  match task with
  | None => Some s
  | Some i =>
      if is_state s i TASK_STATE_FREE then Some s else
      dup ← in_queue s i;
      if dup : bool then Some s else
      let s1 := upd i (fun t => set_state TASK_STATE_READY
                                  (set_prev (runqueue_tail s) (set_next None t))) s in
      let s2 := if t_time_slice (task_pool s1 i) =? 0
                then upd i (fun t => set_time_slice (scheduler_time_slice_for_priority (t_priority t)) t) s1
                else s1 in
      s3 ← link_tail i s2;
      Some (match current_task s3 with
            | None => upd i (set_state TASK_STATE_RUNNING) (set_current (Some i) s3)
            | Some _ => s3
            end)
  end.

(** [current_task->state = RUNNING; current_task->time_slice = slice(priority)] *)
Definition run_fresh (i : nat) (s : sched) : sched :=
  upd i (fun t => set_time_slice (scheduler_time_slice_for_priority (t_priority t))
                    (set_state TASK_STATE_RUNNING t)) s.

Definition unlink (i : nat) (s : sched) : sched :=
  let t := task_pool s i in
  let s1 := match t_prev t with
            | Some p => upd p (set_next (t_next t)) s
            | None => set_head (t_next t) s
            end in
  let t1 := task_pool s1 i in
  let s2 := match t_next t1 with
            | Some n => upd n (set_prev (t_prev t1)) s1
            | None => set_tail (t_prev t1) s1
            end in
  upd i (fun t => set_prev None (set_next None t)) s2.

Definition scheduler_remove_task (task : option nat) (s : sched) : option sched :=
  match task with
  | None => Some s
  | Some i =>
      match runqueue_head s with
      | None => Some s
      | Some _ =>
          found ← in_queue s i;
          if negb found then Some s else
          let s1 := unlink i s in
          if bool_decide (current_task s1 = Some i) then
            let c := match runqueue_head s1 with Some h => Some h | None => idle_task s1 end in
            let s2 := set_current c s1 in
            Some (match c with Some j => run_fresh j s2 | None => s2 end)
          else Some s1
      end
  end.

Definition tcb_free (task : option nat) (s : sched) : option sched :=
  match task with
  | None => Some s
  | Some i =>
      s1 ← (if scheduler_initialized s then
              s1 ← scheduler_remove_task (Some i) s;
              Some (if bool_decide (current_task s1 = Some i) then set_current None s1 else s1)
            else Some s);
      Some (upd i (fun t => set_tid TCB_INVALID_TID (set_state TASK_STATE_FREE (set_kernel_stack 0 t))) s1)
  end.

Definition tcb_get_by_tid (s : sched) (tid : Z) : option nat :=
  if tid =? TCB_INVALID_TID then None else
  find_from (fun i => (t_tid (task_pool s i) =? tid) && negb (is_state s i TASK_STATE_FREE)) 0 TCB_MAX_TASKS.

Definition tcb_set_state (task : option nat) (st : task_state) (s : sched) : sched :=
  match task with None => s | Some i => upd i (set_state st) s end.

Definition tcb_set_priority (task : option nat) (priority : Z) (s : sched) : sched :=
  match task with
  | None => s
  | Some i =>
      let priority := if priority >? TASK_PRIORITY_REALTIME then TASK_PRIORITY_REALTIME else priority in
      upd i (fun t => set_time_slice (scheduler_time_slice_for_priority priority)
                        (set_base_priority priority (set_priority priority t))) s
  end.

(** The address of [tcb_trampoline], fixed by the linker. *)
Context (tcb_trampoline : Z).

(** [entry] and [arg] are the addresses stashed for the trampoline. *)
Definition tcb_setup_context (task : option nat) (entry arg : Z) (s : sched) : option sched :=
  match task with
  | None => Some s
  | Some i =>
      if entry =? 0 then Some s else
      r ← (if t_kernel_stack (task_pool s i) =? 0 then
             '(stack, h) ← a_alloc (kheap s) TCB_STACK_SIZE;
             if stack =? 0 then Some (set_kheap h s, false) else
             let h1 := a_write h (fill_bytes (Z.to_nat TCB_STACK_SIZE) (a_mem h) stack 0) in
             Some (upd i (fun t => set_stack_size TCB_STACK_SIZE (set_kernel_stack stack t))
                     (set_kheap h1 s), true)
           else Some (s, true));
      let '(s, ok) := r in
      if negb ok then Some s else
      let t := task_pool s i in
      let stack_top := Z.land (u32 (t_kernel_stack t + t_stack_size t)) (u32 (Z.lnot 0xF)) in
      Some (upd i (fun t =>
        set_state TASK_STATE_READY (set_last_run (scheduler_ticks s)
          (set_time_slice (scheduler_time_slice_for_priority (t_priority t))
          (set_context (fresh_context stack_top stack_top tcb_trampoline)
          (set_msg_buffer arg (set_arch_data entry t)))))) s)
  end.

(** [name] is the string, or NULL. *)
Definition tcb_create (entry arg : Z) (name : option (list Z)) (priority : Z) (s : sched)
  : option (option nat * sched) :=
  match tcb_allocate s with
  | (None, s) => Some (None, s)
  | (Some i, s) =>
      let s1 := upd i (fun t => set_base_priority priority (set_priority priority
                  (set_name (match name with
                             | Some n => str_copy (t_name t) n
                             | None => <[0%nat := 0]> (t_name t)
                             end) t))) s in
      s2 ← tcb_setup_context (Some i) entry arg s1;
      s3 ← (if scheduler_initialized s2 then scheduler_add_task (Some i) s2 else Some s2);
      Some (Some i, s3)
  end.

Definition tcb_save_context (task : option nat) (ctx : option cpu_context) (s : sched) : sched :=
  match task, ctx with Some i, Some c => upd i (set_context c) s | _, _ => s end.

(** The address of [idle_task_entry]. *)
Context (idle_task_entry : Z).

(** "idle" *)
Definition idle_name : list Z := [105; 100; 108; 101].

(** [scheduler_init] after its call of [tcb_init]. *)
Definition scheduler_init_rest (s : sched) : option sched :=
  let s := set_initialized true (set_ticks 0 (set_current None (set_tail None (set_head None s)))) in
  '(idle, s) ← tcb_create idle_task_entry 0 (Some idle_name) TASK_PRIORITY_IDLE s;
  let s := set_idle idle s in
  Some (match current_task s, idle with
        | None, Some i => upd i (set_state TASK_STATE_RUNNING) (set_current (Some i) s)
        | _, _ => s
        end).
Definition scheduler_init (s : sched) : option sched :=
  if scheduler_initialized s then Some s else scheduler_init_rest (tcb_init s).

(** The round-robin scan of [scheduler_pick_next]: at most [n] tasks from [it],
    wrapping at the end of the queue, until it is back at [start]. *)
Fixpoint rr_scan (n : nat) (pool : nat -> tcb) (head start it : option nat) : option nat :=
  match n, it with
  | S n', Some i =>
      if bool_decide (t_state (pool i) = TASK_STATE_READY) then Some i else
      let it' := match t_next (pool i) with None => head | nx => nx end in
      if bool_decide (it' = start) then None else rr_scan n' pool head start it'
  | _, _ => None
  end.

(** A READY task of higher priority than the current one. *)
Definition preempts (s : sched) (c it : nat) : bool :=
  negb (it =? c)%nat && is_state s it TASK_STATE_READY &&
  (t_priority (task_pool s it) >? t_priority (task_pool s c)).

Definition rr_start (s : sched) : option nat :=
  match (match current_task s with Some c => t_next (task_pool s c) | None => runqueue_head s end) with
  | None => runqueue_head s
  | st => st
  end.

Definition scheduler_pick_next (s : sched) : option (option nat * sched) :=
  match runqueue_head s with
  | None => Some (match current_task s with Some c => Some c | None => idle_task s end, s)
  | Some _ =>
      let start := rr_start s in
      let keep := match current_task s with
                  | Some c => is_state s c TASK_STATE_RUNNING && (t_time_slice (task_pool s c) >? 0)
                  | None => false
                  end in
      match current_task s, keep with
      | Some c, true =>
          r ← queue_find QFUEL (task_pool s) (preempts s c) (runqueue_head s);
          Some (match r with Some it => Some it | None => Some c end, s)
      | _, _ =>
          match rr_scan TCB_MAX_TASKS (task_pool s) (runqueue_head s) start start with
          | Some it => Some (Some it, s)
          | None =>
              best ← queue_best QFUEL (task_pool s) None (runqueue_head s);
              match best with
              | Some b => Some (Some b, s)
              | None =>
                  match idle_task s with
                  | Some d =>
                      if negb (is_state s d TASK_STATE_FREE) then
                        Some (Some d, if negb (is_state s d TASK_STATE_RUNNING)
                                      then upd d (set_state TASK_STATE_READY) s else s)
                      else Some (current_task s, s)
                  | None => Some (current_task s, s)
                  end
              end
          end
      end
  end.

Definition scheduler_get_current (s : sched) : option nat := current_task s.
Definition tcb_get_ticks (s : sched) : Z := scheduler_ticks s.

(** Wake-up of one pool entry by [scheduler_tick]. *)
Definition wake (i : nat) (s : sched) : option sched :=
  let t := task_pool s i in
  if bool_decide (t_state t = TASK_STATE_BLOCKED) && negb (sleep_time (t_accounting t) =? 0) &&
     (scheduler_ticks s >=? sleep_time (t_accounting t))
  then
    let s1 := upd i (fun t => set_time_slice (scheduler_time_slice_for_priority (t_priority t))
                (set_state TASK_STATE_READY (set_wait_time 0 (set_sleep_time 0 t)))) s in
    q ← in_queue s1 i;
    if q : bool then Some s1 else append i s1
  else Some s.
Fixpoint wake_loop (n i : nat) (s : sched) : option sched :=
  match n with
  | O => Some s
  | S n' => s1 ← wake i s; wake_loop n' (S i) s1
  end.

Definition scheduler_tick (s : sched) : option sched :=
  let s := set_ticks (u64 (scheduler_ticks s + 1)) s in
  if negb (scheduler_initialized s) then Some s else
  match current_task s with
  | None => Some s
  | Some c =>
      let s := upd c (fun t => set_total_run_time (u64 (total_run_time (t_accounting t) + 1)) t) s in
      let s := if is_state s c TASK_STATE_RUNNING then
                 if t_time_slice (task_pool s c) >? 0
                 then upd c (fun t => set_time_slice (t_time_slice t - 1) t) s else s
               else s in
      wake_loop TCB_MAX_TASKS 0 s
  end.

(** Moving the current task [c], which has a successor, to the tail. *)
Definition rotate (c : nat) (s : sched) : option sched :=
  match runqueue_head s, runqueue_tail s, t_next (task_pool s c) with
  | Some h, Some tl, Some nx =>
      if (c =? h)%nat && bool_decide (t_next (task_pool s h) <> None) then
        let s := set_head (Some nx) s in
        let s := upd nx (set_prev None) s in
        let s := upd c (fun t => set_next None (set_prev (Some tl) t)) s in
        let s := upd tl (set_next (Some c)) s in
        Some (set_tail (Some c) s)
      else if negb (c =? tl)%nat then
        let s1 := match t_prev (task_pool s c) with
                  | Some p => upd p (set_next (Some nx)) s
                  | None => s
                  end in
        let s2 := match t_next (task_pool s1 c) with
                  | Some n => upd n (set_prev (t_prev (task_pool s1 c))) s1
                  | None => s1
                  end in
        let s3 := upd c (fun t => set_next None (set_prev (Some tl) t)) s2 in
        let s4 := upd tl (set_next (Some c)) s3 in
        Some (set_tail (Some c) s4)
      else Some s
  | _, _, _ => Some s
  end.

(** [if (task->time_slice == 0) task->time_slice = slice(priority)] *)
Definition refill (i : nat) (s : sched) : sched :=
  if t_time_slice (task_pool s i) =? 0
  then upd i (fun t => set_time_slice (scheduler_time_slice_for_priority (t_priority t)) t) s else s.

(** [task->state = RUNNING; task->last_run = scheduler_ticks] *)
Definition start_running (i : nat) (s : sched) : sched :=
  upd i (fun t => set_last_run (scheduler_ticks s) (set_state TASK_STATE_RUNNING t)) s.

(** The [!current_task] branch of [scheduler_schedule]. *)
Definition schedule_first (s : sched) : option sched :=
  '(nx, s) ← scheduler_pick_next s;
  let s := set_current nx s in
  Some (match nx with Some i => refill i (start_running i s) | None => s end).

(** An expired slice: back to READY with a fresh slice, and to the tail. *)
Definition expire (c : nat) (s : sched) : option sched :=
  if is_state s c TASK_STATE_RUNNING && (t_time_slice (task_pool s c) =? 0) then
    rotate c (upd c (fun t => set_time_slice (scheduler_time_slice_for_priority (t_priority t))
                                (set_state TASK_STATE_READY t)) s)
  else Some s.

(** From [prev] to [nx]; [hal_context_switch] does nothing to the state. *)
Definition switch_to (prev nx : nat) (s : sched) : sched :=
  let s := if is_state s prev TASK_STATE_RUNNING then upd prev (set_state TASK_STATE_READY) s else s in
  set_current (Some nx) (refill nx (start_running nx s)).

Definition scheduler_schedule (s : sched) : option sched :=
  if negb (scheduler_initialized s) then Some s else
  match current_task s with
  | None => schedule_first s
  | Some c =>
      s ← expire c s;
      '(nx, s) ← scheduler_pick_next s;
      match nx with
      | None => Some s
      | Some i =>
          if bool_decide (current_task s = Some i) then
            Some (if negb (is_state s i TASK_STATE_RUNNING) then start_running i s else s)
          else Some (switch_to c i s)
      end
  end.

Definition scheduler_start (s : sched) : sched :=
  if negb (scheduler_initialized s) then s else
  match current_task s with
  | None => s
  | Some c => hal_sti (upd c (set_state TASK_STATE_RUNNING) s)
  end.

(** How a call ends: it comes back, or it stays in a loop of halts in that state, in
    which only interrupts are served. *)
Inductive ending := Back (s : sched) | Halted (s : sched).
Definition after_call (e : ending) : sched := match e with Back s | Halted s => s end.

(** [tcb_exit] never comes back: with or without a current task it ends in
    [while (1) hal_halt();] (and [hal_context_switch] switches to no other task). *)
Definition tcb_exit (s : sched) : option ending :=
  match current_task s with
  | None => Some (Halted s)
  | Some c =>
      s ← scheduler_remove_task (Some c) (upd c (set_state TASK_STATE_ZOMBIE) s);
      s ← scheduler_schedule s;
      Some (Halted s)
  end.

(** One [hal_halt]: the processor sleeps until the next timer interrupt, the one line
    the kernel enables, whose handler calls [scheduler_tick]; with interrupts
    off it never wakes. *)
Definition hal_halt (s : sched) : option sched := if iflag s then scheduler_tick s else None.
Fixpoint halts (n : nat) (s : sched) : option sched :=
  match n with O => Some s | S n' => s ← hal_halt s; halts n' s end.
(** What [pit_sleep] of hal.c, which counts timer interrupts, does to the scheduler. *)
Definition pit_wait (ms : Z) (s : sched) : option sched :=
  if ms =? 0 then Some s else
  let ticks := u32 (ms + 9) / 10 in
  halts (Z.to_nat (if ticks =? 0 then 1 else ticks)) s.

(** What [tcb_trampoline] does before it calls the task's function: the function
    and the argument stashed by [tcb_setup_context] are taken out. *)
Definition trampoline_start (s : sched) : option (Z * Z * sched) :=
  match current_task s with
  | None => None
  | Some c =>
      let t := task_pool s c in
      Some (t_arch_data t, t_msg_buffer t,
            hal_sti (upd c (fun t => set_msg_buffer 0 (set_arch_data 0 t)) s))
  end.

Definition tcb_yield (s : sched) : option sched :=
  if negb (scheduler_initialized s) then hal_halt (hal_sti s) else
  match current_task s with
  | None => hal_halt (hal_sti s)
  | Some c => s ← scheduler_schedule (upd c (set_time_slice 0) (hal_cli s)); Some (hal_sti s)
  end.

Definition tcb_block (task : option nat) (s : sched) : option sched :=
  match task with
  | None => Some s
  | Some i =>
      let s := upd i (set_state TASK_STATE_BLOCKED) (hal_cli s) in
      s ← (if bool_decide (current_task s = Some i) then scheduler_schedule s
           else Some (upd i (set_wait_time (scheduler_ticks s)) s));
      Some (hal_sti s)
  end.

Definition tcb_unblock (task : option nat) (s : sched) : option sched :=
  match task with
  | None => Some s
  | Some i =>
      let s := hal_cli s in
      if negb (is_state s i TASK_STATE_BLOCKED) then Some (hal_sti s) else
      let s := upd i (fun t => set_time_slice (scheduler_time_slice_for_priority (t_priority t))
                                 (set_state TASK_STATE_READY t)) s in
      q ← in_queue s i;
      s ← (if q : bool then Some s else append i s);
      Some (hal_sti s)
  end.

(** Without a task [tcb_sleep] waits on the timer itself. *)
Definition tcb_sleep (ms : Z) (s : sched) : option sched :=
  if negb (scheduler_initialized s) then pit_wait ms s else
  match current_task s with
  | None => pit_wait ms s
  | Some c =>
      if ms =? 0 then tcb_yield s else
      let s := hal_cli s in
      let ticks_to_sleep := u32 (ms + 9) / 10 in
      let ticks_to_sleep := if ticks_to_sleep =? 0 then 1 else ticks_to_sleep in
      let s := upd c (fun t => set_state TASK_STATE_BLOCKED
                 (set_sleep_time (u64 (scheduler_ticks s + ticks_to_sleep)) t)) s in
      scheduler_schedule (hal_sti s)
  end.

End Scheduler.

Arguments sched : clear implicits.

(** ** The run queue as a list *)

(** Reduce field reads of updated records. *)
Ltac tcb_simpl :=
  cbn [t_tid t_pid t_name t_state t_priority t_base_priority t_context t_kernel_stack t_stack_size
    t_time_slice t_last_run t_next t_prev t_msg_buffer t_waiting_for t_accounting t_arch_data
    set_tid set_name set_state set_priority set_base_priority set_context set_kernel_stack
    set_stack_size set_time_slice set_last_run set_next set_prev set_msg_buffer set_waiting_for set_accounting
    set_arch_data set_total_run_time set_sleep_time set_wait_time fresh_tcb
    sleep_time wait_time total_run_time
    task_pool next_tid runqueue_head runqueue_tail current_task scheduler_ticks
    scheduler_initialized idle_task iflag kheap set_pool set_next_tid set_head set_tail set_current
    set_ticks set_initialized set_idle set_iflag set_kheap hal_cli hal_sti upd] in *.

(** The tasks [l] are linked in this order; [pv] is before the first and [nx]
    after the last. *)
Fixpoint seg (pool : nat -> tcb) (pv : option nat) (l : list nat) (nx : option nat) : Prop :=
  match l with
  | [] => True
  | i :: l' => t_prev (pool i) = pv /\
               t_next (pool i) = (match l' with [] => nx | j :: _ => Some j end) /\
               seg pool (Some i) l' nx
  end.

Definition first_or (l : list nat) (d : option nat) : option nat :=
  match l with [] => d | i :: _ => Some i end.
Fixpoint last_or (l : list nat) (d : option nat) : option nat :=
  match l with [] => d | i :: l' => last_or l' (Some i) end.

Lemma last_or_app l1 l2 d : last_or (l1 ++ l2) d = last_or l2 (last_or l1 d).
Proof. revert d; induction l1; intros d; simpl; auto. Qed.

Lemma last_or_in l d i : last_or l d = Some i -> i ∈ l \/ l = [] /\ d = Some i.
Proof.
  revert d; induction l as [|j l IH]; intros d; simpl; [auto|].
  intros [H|[-> H]]%IH; left; [by right|]. injection H as ->. by left.
Qed.

Lemma seg_app pool pv l1 l2 nx :
  seg pool pv (l1 ++ l2) nx <-> seg pool pv l1 (first_or l2 nx) /\ seg pool (last_or l1 pv) l2 nx.
Proof.
  revert pv; induction l1 as [|i l1 IH]; intros pv; simpl; [tauto|].
  rewrite IH. destruct l1 as [|j l1]; simpl; [|tauto]. destruct l2; simpl; tauto.
Qed.

Lemma seg_ext pool pool' pv l nx :
  (forall i, i ∈ l -> t_next (pool' i) = t_next (pool i) /\ t_prev (pool' i) = t_prev (pool i)) ->
  seg pool pv l nx -> seg pool' pv l nx.
Proof.
  revert pv; induction l as [|i l IH]; intros pv He; simpl; [done|].
  intros (Hp & Hn & Hs). destruct (He i) as [-> ->]; [by left|]. split_and!; try done.
  apply IH; [|done]. intros j Hj. apply He. by right.
Qed.

(** The last link of a segment can be redirected, and so can the first. *)
Lemma seg_relink pool pool' pv pv' l nx nx' :
  (forall i, i ∈ l -> (last_or l None <> Some i -> t_next (pool' i) = t_next (pool i)) /\
                      (first_or l None <> Some i -> t_prev (pool' i) = t_prev (pool i))) ->
  (forall i, last_or l None = Some i -> t_next (pool' i) = nx') ->
  (forall i, first_or l None = Some i -> t_prev (pool' i) = pv') ->
  NoDup l -> seg pool pv l nx -> seg pool' pv' l nx'.
Proof.
  intros He Hl Hf Hnd Hs. destruct l as [|i l]; [done|]. simpl in Hf, Hl, Hs |- *.
  destruct Hs as (Hp & Hn & Hs). split; [by apply Hf|].
  apply NoDup_cons in Hnd as [Hi Hnd'].
  assert (Hne : forall j, j ∈ l -> Some i <> Some j) by (intros j Hj [= ->]; done).
  clear Hf Hp. revert i Hi Hn Hs He Hl Hne. induction l as [|j l IH]; intros i Hi Hn Hs He Hl Hne.
  - split; [by apply Hl|done].
  - split.
    + destruct (He i) as [H _]; [by left|]. rewrite H; [done|]. simpl.
      intros [Hx|[_ Hx]]%last_or_in; [apply Hi; by right|]. injection Hx as ->. apply Hi. by left.
    + destruct Hs as (Hp' & Hn' & Hs). apply NoDup_cons in Hnd' as [Hj Hnd'].
      cbn [seg]. split.
      * destruct (He j) as [_ H]; [by right; left|]. rewrite H; [done|]. apply Hne. by left.
      * apply (IH Hnd' j Hj Hn' Hs); [|exact Hl|].
        -- intros k Hk. destruct (He k) as [H1 H2]; [by right|]. split; [exact H1|].
           intros _. apply H2. by apply Hne.
        -- intros k Hk [= ->]. done.
Qed.

(** [s] has the run queue [l]. *)
Record queue_ok {A} (s : sched A) (l : list nat) : Prop := {
  q_head : runqueue_head s = first_or l None;
  q_tail : runqueue_tail s = last_or l None;
  q_seg : seg (task_pool s) None l None;
  q_nodup : NoDup l;
  q_bound : Forall (fun i => (i < TCB_MAX_TASKS)%nat) l;
  q_out : forall i, i ∉ l -> t_next (task_pool s i) = None /\ t_prev (task_pool s i) = None
}.

(** A walk over a segment finds the first task with [p]. *)
Lemma queue_find_list fuel pool p pv l :
  seg pool pv l None -> (length l < fuel)%nat ->
  queue_find fuel pool p (first_or l None) = Some (List.find p l).
Proof.
  revert fuel pv; induction l as [|i l IH]; intros fuel pv Hs Hf; (destruct fuel as [|f]; [simpl in Hf; lia|]).
  - done.
  - destruct Hs as (_ & Hn & Hs). simpl. destruct (p i) eqn:E; [done|]. rewrite Hn.
    change (match l with [] => None | j :: _ => Some j end) with (first_or l None).
    apply (IH f (Some i)); [done|simpl in Hf; lia].
Qed.

Lemma queue_fuel {A} (s : sched A) l : queue_ok s l -> (length l < QFUEL)%nat.
Proof.
  intros Hq. unfold QFUEL. pose proof (bounded_nodup_length _ _ (q_nodup _ _ Hq) (q_bound _ _ Hq)). lia.
Qed.

Lemma in_queue_spec {A} (s : sched A) l i : queue_ok s l -> in_queue s i = Some (bool_decide (i ∈ l)).
Proof.
  intros Hq. unfold in_queue. rewrite (q_head _ _ Hq).
  rewrite (queue_find_list QFUEL _ _ None) by (apply Hq || by eapply queue_fuel). cbn [mbind option_bind].
  destruct (List.find _ l) as [j|] eqn:E.
  - apply List.find_some in E as [Hj He]. apply Nat.eqb_eq in He as <-.
    rewrite bool_decide_true; [done|]. by apply list_elem_of_In.
  - rewrite bool_decide_false; [done|]. intros Hi%list_elem_of_In.
    apply (List.find_none _ _ E) in Hi. by rewrite Nat.eqb_refl in Hi.
Qed.

(** [s'] is [s] up to the links of the tasks and the ends of the queue. *)
Record same_but_links {A} (s s' : sched A) : Prop := {
  l_pool : forall j, exists n p, task_pool s' j = set_next n (set_prev p (task_pool s j));
  l_tid : next_tid s' = next_tid s;
  l_current : current_task s' = current_task s;
  l_ticks : scheduler_ticks s' = scheduler_ticks s;
  l_init : scheduler_initialized s' = scheduler_initialized s;
  l_idle : idle_task s' = idle_task s;
  l_iflag : iflag s' = iflag s;
  l_kheap : kheap s' = kheap s
}.

#[export] Instance same_but_links_refl {A} : Reflexive (@same_but_links A).
Proof.
  intros s. split; try done. intros j. exists (t_next (task_pool s j)), (t_prev (task_pool s j)).
  by destruct (task_pool s j).
Qed.
#[export] Instance same_but_links_trans {A} : Transitive (@same_but_links A).
Proof.
  intros s1 s2 s3 H1 H2. split; try (etransitivity; [apply H2|apply H1]).
  intros j. destruct (l_pool _ _ H1 j) as (n1 & p1 & E1), (l_pool _ _ H2 j) as (n2 & p2 & E2).
  exists n2, p2. by rewrite E2, E1.
Qed.

Lemma same_links_field {A B} (f : tcb -> B) (s s' : sched A) j :
  same_but_links s s' -> (forall n p t, f (set_next n (set_prev p t)) = f t) ->
  f (task_pool s' j) = f (task_pool s j).
Proof. intros H Hf. destruct (l_pool _ _ H j) as (n & p & ->). apply Hf. Qed.

(** Case on the pool entries an update touches. *)
Ltac pool_case :=
  tcb_simpl;
  repeat (match goal with
          | |- context [(?a =? ?b)%nat] => destruct (a =? b)%nat eqn:?; bool_to_prop; subst
          end; tcb_simpl); try done; try lia.

Lemma queue_ok_ext {A} (s s' : sched A) l :
  runqueue_head s' = runqueue_head s -> runqueue_tail s' = runqueue_tail s ->
  (forall i, t_next (task_pool s' i) = t_next (task_pool s i) /\
             t_prev (task_pool s' i) = t_prev (task_pool s i)) ->
  queue_ok s l -> queue_ok s' l.
Proof.
  intros Hh Ht Hl [H1 H2 H3 H4 H5 H6]. split; try done; try congruence.
  - eapply seg_ext; [|done]. auto.
  - intros i Hi. destruct (Hl i) as [-> ->]. by apply H6.
Qed.

(** An update of a pool entry that keeps its links keeps the queue. *)
Lemma queue_ok_upd {A} (s : sched A) l i f :
  (forall t, t_next (f t) = t_next t /\ t_prev (f t) = t_prev t) ->
  queue_ok s l -> queue_ok (upd i f s) l.
Proof. intros Hf. apply queue_ok_ext; [done|done|]. intros j. pool_case. Qed.

Lemma same_links_next {A} (s : sched A) i n : same_but_links s (upd i (set_next n) s).
Proof.
  split; try done. intros j. tcb_simpl. destruct (j =? i)%nat eqn:E; bool_to_prop; subst.
  - exists n, (t_prev (task_pool s i)). by destruct (task_pool s i).
  - exists (t_next (task_pool s j)), (t_prev (task_pool s j)). by destruct (task_pool s j).
Qed.

Lemma same_links_prev {A} (s : sched A) i p : same_but_links s (upd i (set_prev p) s).
Proof.
  split; try done. intros j. tcb_simpl. destruct (j =? i)%nat eqn:E; bool_to_prop; subst.
  - exists (t_next (task_pool s i)), p. by destruct (task_pool s i).
  - exists (t_next (task_pool s j)), (t_prev (task_pool s j)). by destruct (task_pool s j).
Qed.

Lemma same_links_both {A} (s : sched A) i n p :
  same_but_links s (upd i (fun t => set_prev p (set_next n t)) s) /\
  same_but_links s (upd i (fun t => set_next n (set_prev p t)) s).
Proof.
  split; (split; [|done..]); intros j; tcb_simpl; destruct (j =? i)%nat eqn:E; bool_to_prop; subst.
  1, 3: by exists n, p.
  all: exists (t_next (task_pool s j)), (t_prev (task_pool s j)); by destruct (task_pool s j).
Qed.

Lemma same_links_ends {A} (s : sched A) h t : same_but_links s (set_tail t (set_head h s)).
Proof.
  split; try done. intros j. exists (t_next (task_pool s j)), (t_prev (task_pool s j)).
  tcb_simpl. by destruct (task_pool s j).
Qed.

Lemma same_links_head {A} (s : sched A) h : same_but_links s (set_head h s).
Proof. apply (same_links_ends s h (runqueue_tail s)). Qed.
Lemma same_links_tail {A} (s : sched A) t : same_but_links s (set_tail t s).
Proof. apply (same_links_ends s (runqueue_head s) t). Qed.

Lemma head_some {A} (s : sched A) l i : queue_ok s l -> i ∈ l -> exists h, runqueue_head s = Some h.
Proof. intros Hq Hi. rewrite (q_head _ _ Hq). destruct l; [by apply not_elem_of_nil in Hi|]. by eexists. Qed.

(** Appending a task that is not queued; [s0] is [s] before the task's own
    links were set. *)
Lemma link_tail_ok {A} (s0 s : sched A) l i :
  queue_ok s0 l -> i ∉ l -> (i < TCB_MAX_TASKS)%nat ->
  runqueue_head s = runqueue_head s0 -> runqueue_tail s = runqueue_tail s0 ->
  (forall j, j <> i -> t_next (task_pool s j) = t_next (task_pool s0 j) /\
                       t_prev (task_pool s j) = t_prev (task_pool s0 j)) ->
  t_next (task_pool s i) = None -> t_prev (task_pool s i) = runqueue_tail s0 ->
  exists s', link_tail i s = Some s' /\ queue_ok s' (l ++ [i]) /\ same_but_links s s'.
Proof.
  intros Hq Hi Hb Hh Ht Hj Hn Hp. unfold link_tail. rewrite Hh, Ht.
  destruct Hq as [H1 H2 H3 H4 H5 H6]. rewrite H1, H2 in *.
  assert (Hbnd : Forall (fun i => (i < TCB_MAX_TASKS)%nat) (l ++ [i])) by (apply Forall_app; auto).
  assert (Hnd : NoDup (l ++ [i])).
  { apply NoDup_app. split_and!; [done| |apply NoDup_singleton]. intros x Hx ->%list_elem_of_singleton. done. }
  destruct l as [|h l]; cbn [first_or].
  - eexists. split; [done|]. split; [|apply same_links_ends]. split; tcb_simpl; try done.
    intros j Hne%not_elem_of_cons. destruct (Hj j) as [-> ->]; [tauto|]. apply H6, not_elem_of_nil.
  - destruct (last_or (h :: l) None) as [tl|] eqn:El.
    2:{ exfalso. simpl in El. clear -El. revert h El. induction l; intros h El; simpl in *; eauto. done. }
    assert (Htl : tl ∈ h :: l) by (apply last_or_in in El as [?|[? ?]]; done).
    assert (tl <> i) by (intros ->; done).
    eexists. split; [done|]. split.
    2:{ etransitivity; [apply (same_links_next s tl (Some i))|]. split; try done.
        intros j. exists (t_next (task_pool (upd tl (set_next (Some i)) s) j)),
          (t_prev (task_pool (upd tl (set_next (Some i)) s) j)). tcb_simpl.
        case_if; [by destruct (task_pool s tl)|by destruct (task_pool s j)]. }
    split; tcb_simpl; try done.
    + rewrite last_or_app. done.
    + apply seg_app. split.
      * eapply (seg_relink (task_pool s0)); [| | |done|exact H3].
        -- intros j Hjl. assert (j <> i) by (intros ->; done). destruct (Hj j) as [E1 E2]; [done|].
           split; intros Hx; pool_case; rewrite El in Hx; done.
        -- intros j Hjl. rewrite El in Hjl. injection Hjl as ->. pool_case.
        -- intros j Hjl. simpl in Hjl. injection Hjl as ->. destruct H3 as (H3 & _).
           assert (j <> i) by (intros ->; apply Hi; by left). destruct (Hj j) as [E1 E2]; [done|]. pool_case; try split; congruence.
      * rewrite El. cbn [seg]. pool_case.
    + intros j Hne. rewrite not_elem_of_app in Hne. destruct Hne as [Hne1 Hne2%not_elem_of_cons].
      destruct (Hj j) as [E1 E2]; [tauto|]. destruct (H6 j Hne1) as [E3 E4]. pool_case; try split; congruence.
Qed.

(** The neighbours of a queued task. *)
Lemma queue_split {A} (s : sched A) l1 i l2 :
  queue_ok s (l1 ++ i :: l2) ->
  seg (task_pool s) None l1 (Some i) /\ seg (task_pool s) (Some i) l2 None /\
  t_prev (task_pool s i) = last_or l1 None /\ t_next (task_pool s i) = first_or l2 None /\
  NoDup l1 /\ NoDup l2 /\ i ∉ l1 /\ i ∉ l2 /\ (forall j, j ∈ l1 -> j ∉ l2).
Proof.
  intros Hq. pose proof (q_seg _ _ Hq) as [Hs1 Hs2]%seg_app. cbn [seg first_or] in *.
  destruct Hs2 as (Hp & Hn & Hs2). pose proof (q_nodup _ _ Hq) as Hnd.
  apply NoDup_app in Hnd as (Hn1 & Hd & Hn2). apply NoDup_cons in Hn2 as [Hi Hn2].
  split_and!; try done.
  - intros Hx. apply (Hd i Hx). by left.
  - intros j Hj Hx. apply (Hd j Hj). by right.
Qed.

Lemma first_or_in l i : first_or l None = Some i -> i ∈ l.
Proof. destruct l; simpl; [done|]. intros [= ->]. by left. Qed.
Lemma last_or_in' l i : last_or l None = Some i -> i ∈ l.
Proof. intros [?|[? ?]]%last_or_in; done. Qed.

Lemma seg_last_next pool pv l nx j : seg pool pv l nx -> last_or l None = Some j -> t_next (pool j) = nx.
Proof.
  destruct l as [|i l]; [done|]. cbn [last_or]. revert pv i.
  induction l as [|k l IH]; intros pv i (_ & Hn & Hs); cbn [last_or]; [by intros [= ->]|].
  by apply (IH (Some i)).
Qed.

Lemma last_or_None l : last_or l None = None -> l = [].
Proof.
  destruct l as [|i l]; [done|]. cbn [last_or]. revert i. induction l as [|j l IH]; intros i; [done|].
  cbn [last_or]. intros H. by apply IH in H.
Qed.

(** Taking [i] out of the chain: its neighbours are linked to each other. *)
Lemma seg_unlinked {A} (s : sched A) pool' l1 i l2 :
  queue_ok s (l1 ++ i :: l2) ->
  (forall j, j <> i ->
     t_next (pool' j) = (if bool_decide (last_or l1 None = Some j) then first_or l2 None
                         else t_next (task_pool s j)) /\
     t_prev (pool' j) = (if bool_decide (first_or l2 None = Some j) then last_or l1 None
                         else t_prev (task_pool s j))) ->
  seg pool' None (l1 ++ l2) None.
Proof.
  intros Hq Hj. destruct (queue_split _ _ _ _ Hq) as (Hs1 & Hs2 & _ & _ & Hn1 & Hn2 & Hi1 & Hi2 & Hd).
  assert (Hne1 : forall j, j ∈ l1 -> j <> i) by (intros j Hx ->; done).
  assert (Hne2 : forall j, j ∈ l2 -> j <> i) by (intros j Hx ->; done).
  apply seg_app. split.
  - eapply (seg_relink (task_pool s)); [| | |done|exact Hs1].
    + intros j Hjl. destruct (Hj j) as [-> ->]; [auto|]. split; intros Hx.
      * by rewrite bool_decide_false.
      * rewrite bool_decide_false; [done|]. intros Hy%first_or_in. by apply (Hd j).
    + intros j Hjl. pose proof (last_or_in' _ _ Hjl). destruct (Hj j) as [-> _]; [auto|].
      by rewrite bool_decide_true.
    + intros j Hjl. pose proof (first_or_in _ _ Hjl) as Hx. destruct (Hj j) as [_ ->]; [auto|].
      rewrite bool_decide_false by (intros Hy%first_or_in; by apply (Hd j)).
      destruct l1; [done|]. injection Hjl as ->. by destruct Hs1.
  - eapply (seg_relink (task_pool s)); [| | |done|exact Hs2].
    + intros j Hjl. destruct (Hj j) as [-> ->]; [auto|]. split; intros Hx.
      * rewrite bool_decide_false; [done|]. intros Hy%last_or_in'. by apply (Hd j).
      * by rewrite bool_decide_false.
    + intros j Hjl. pose proof (last_or_in' _ _ Hjl). destruct (Hj j) as [-> _]; [auto|].
      rewrite bool_decide_false by (intros Hy%last_or_in'; by apply (Hd j)).
      by apply (seg_last_next _ _ _ _ _ Hs2).
    + intros j Hjl. pose proof (first_or_in _ _ Hjl) as Hx. destruct (Hj j) as [_ ->]; [auto|].
      by rewrite bool_decide_true.
Qed.

Lemma unlink_ok {A} (s : sched A) l1 i l2 :
  queue_ok s (l1 ++ i :: l2) ->
  queue_ok (unlink i s) (l1 ++ l2) /\ same_but_links s (unlink i s).
Proof.
  intros Hq. pose proof (queue_split _ _ _ _ Hq) as (Hs1 & Hs2 & Hp & Hn & Hn1 & Hn2 & Hi1 & Hi2 & Hd).
  assert (Hlinks : forall j, j <> i ->
     t_next (task_pool (unlink i s) j) = (if bool_decide (last_or l1 None = Some j) then first_or l2 None
                         else t_next (task_pool s j)) /\
     t_prev (task_pool (unlink i s) j) = (if bool_decide (first_or l2 None = Some j) then last_or l1 None
                         else t_prev (task_pool s j))).
  { intros j Hj. unfold unlink. rewrite Hp.
    destruct (last_or l1 None) as [p|] eqn:Ep; tcb_simpl.
    - assert (p <> i) by (intros ->; by apply last_or_in' in Ep).
      replace (i =? p)%nat with false by (symmetry; apply Nat.eqb_neq; done). rewrite Hn, Hp.
      destruct (first_or l2 None) as [n|] eqn:En; pool_case; split; repeat case_bool_decide; simplify_eq; done.
    - rewrite Hn. destruct (first_or l2 None) as [n|] eqn:En; pool_case; split;
        repeat case_bool_decide; simplify_eq; done. }
  assert (Hself : t_next (task_pool (unlink i s) i) = None /\ t_prev (task_pool (unlink i s) i) = None).
  { unfold unlink. tcb_simpl. by rewrite Nat.eqb_refl. }
  assert (Hends : runqueue_head (unlink i s) = first_or (l1 ++ l2) None /\
                  runqueue_tail (unlink i s) = last_or (l1 ++ l2) None).
  { pose proof (q_head _ _ Hq) as Hh. pose proof (q_tail _ _ Hq) as Ht. rewrite last_or_app in *.
    unfold unlink. rewrite Hp. destruct (last_or l1 None) as [p|] eqn:Ep; tcb_simpl.
    - assert (p <> i) by (intros ->; by apply last_or_in' in Ep).
      replace (i =? p)%nat with false by (symmetry; apply Nat.eqb_neq; done). rewrite Hn, Hp.
      destruct l1; [done|]. destruct l2; tcb_simpl; done.
    - apply last_or_None in Ep as ->. rewrite Hn. destruct l2; tcb_simpl; done. }
  split.
  - destruct Hends. split; try done.
    + by eapply seg_unlinked.
    + pose proof (q_nodup _ _ Hq) as Hnd. by apply NoDup_app; split_and!.
    + pose proof (q_bound _ _ Hq) as Hb. apply Forall_app in Hb as [Hb1 [_ Hb2]%Forall_cons].
      by apply Forall_app.
    + intros j Hjn. destruct (decide (j = i)) as [->|Hne]; [done|].
      destruct (Hlinks j Hne) as [-> ->].
      rewrite not_elem_of_app in Hjn. destruct Hjn as [Hj1 Hj2].
      rewrite !bool_decide_false by (intros Hx; by first [apply last_or_in' in Hx|apply first_or_in in Hx]).
      apply (q_out _ _ Hq). rewrite not_elem_of_app, not_elem_of_cons. tauto.
  - unfold unlink. etransitivity; [|apply same_links_both].
    set (s1 := match t_prev (task_pool s i) with Some _ => _ | None => _ end).
    transitivity s1; [|case_match; [apply same_links_prev|apply same_links_tail]].
    unfold s1. case_match; [apply same_links_next|apply same_links_head].
Qed.

(** The rotation of an expired task is taking it out and appending it. *)
Lemma rotate_ok {A} (s : sched A) l1 c l2 :
  queue_ok s (l1 ++ c :: l2) ->
  exists s', rotate c s = Some s' /\ queue_ok s' (l1 ++ l2 ++ [c]) /\ same_but_links s s'.
Proof.
  intros Hq. pose proof (queue_split _ _ _ _ Hq) as (_ & _ & Hp & Hn & _ & _ & Hi1 & Hi2 & Hd).
  unfold rotate. rewrite Hn. destruct l2 as [|nx l2].
  { exists s. repeat case_match; done. }
  pose proof (q_head _ _ Hq) as Hh. pose proof (q_tail _ _ Hq) as Ht.
  rewrite last_or_app in Ht. simpl in Ht. cbn [first_or].
  assert (exists tl, last_or l2 (Some nx) = Some tl) as [tl El].
  { clear. revert nx. induction l2; intros nx; simpl; eauto. }
  rewrite El in Ht. assert (Htl : tl ∈ nx :: l2).
  { apply last_or_in in El as [?|[_ [= ->]]]; [by right|by left]. }
  assert (tl <> c) by (intros ->; done).
  assert (nx <> c) by (intros ->; apply Hi2; by left).
  destruct (unlink_ok s l1 c (nx :: l2) Hq) as [Hq' _].
  assert (Hc : c ∉ l1 ++ nx :: l2) by (rewrite not_elem_of_app; tauto).
  assert (Hb : (c < TCB_MAX_TASKS)%nat).
  { pose proof (q_bound _ _ Hq) as Hb. rewrite Forall_forall in Hb. apply Hb.
    apply elem_of_app. right. by left. }
  assert (Htu : runqueue_tail (unlink c s) = Some tl).
  { rewrite (q_tail _ _ Hq'), last_or_app. done. }
  destruct (link_tail_ok (unlink c s) (upd c (fun t => set_next None (set_prev (Some tl) t)) (unlink c s))
    (l1 ++ nx :: l2) c Hq' Hc Hb) as (s2 & Hl2 & Hq2 & _); try done.
  { intros j Hj. pool_case. }
  { pool_case. } { rewrite Htu. pool_case. }
  rewrite <- app_assoc in Hq2. cbn [app] in Hq2.
  unfold link_tail in Hl2. tcb_simpl. rewrite (q_head _ _ Hq'), Htu in Hl2.
  assert (Hcc : (c =? c)%nat = true) by apply Nat.eqb_refl.
  assert (Hcn : (c =? nx)%nat = false) by (by apply Nat.eqb_neq; auto).
  rewrite Hh, Ht. destruct l1 as [|h l1]; cbn [first_or app last_or] in *; injection Hl2 as Hs2.
  - rewrite Hcc, Hn. rewrite bool_decide_true by done. cbn [andb]. eexists. split; [done|]. split.
    + eapply queue_ok_ext; [..|exact Hq2]; subst s2; [|done|].
      { unfold unlink. rewrite Hp. tcb_simpl. rewrite Hn. done. }
      intros j. unfold unlink. rewrite Hp. tcb_simpl. rewrite Hn. tcb_simpl.
      rewrite ?Hcc, ?Hcn. pool_case; rewrite ?Hp; done.
    + etransitivity; [apply (same_links_head s (Some nx))|].
      etransitivity; [apply (same_links_prev _ nx None)|].
      etransitivity; [apply (proj2 (same_links_both _ c None (Some tl)))|].
      etransitivity; [apply (same_links_next _ tl (Some c))|]. apply same_links_tail.
  - assert (Hch : (c =? h)%nat = false) by (apply Nat.eqb_neq; intros ->; apply Hi1; by left).
    rewrite Hch. cbn [andb]. replace (c =? tl)%nat with false by (symmetry; apply Nat.eqb_neq; done).
    cbn [negb]. destruct (last_or l1 (Some h)) as [p|] eqn:Ep.
    2:{ exfalso. by apply (last_or_None (h :: l1)) in Ep. }
    assert (Hpc : (c =? p)%nat = false).
    { apply Nat.eqb_neq. intros ->. apply (last_or_in' (h :: l1)) in Ep. done. }
    rewrite Hp. tcb_simpl. rewrite Hpc, Hn, Hp. eexists. split; [done|]. split.
    + eapply queue_ok_ext; [..|exact Hq2]; subst s2; [|done|].
      { unfold unlink. rewrite Hp. tcb_simpl. rewrite Hpc, Hn. tcb_simpl. done. }
      intros j. unfold unlink. rewrite Hp. tcb_simpl. rewrite Hpc, Hn, Hp. tcb_simpl.
      rewrite ?Hcc, ?Hcn. pool_case; rewrite ?Hp; done.
    + etransitivity; [apply (same_links_next s p (Some nx))|].
      etransitivity; [apply (same_links_prev _ nx (Some p))|].
      etransitivity; [apply (proj2 (same_links_both _ c None (Some tl)))|].
      etransitivity; [apply (same_links_next _ tl (Some c))|]. apply same_links_tail.
Qed.

Lemma rotate_out {A} (s : sched A) l c : queue_ok s l -> c ∉ l -> rotate c s = Some s.
Proof. intros Hq Hc. destruct (q_out _ _ Hq c Hc) as [Hn _]. unfold rotate. rewrite Hn. repeat case_match; done. Qed.

(** ** The scheduler invariant *)
Section Invariant.
Context {A : Type} `{!Allocator A}.
Context (tcb_trampoline idle_task_entry : Z).
Implicit Types s : sched A.

(** Well-formedness of the pool and of the queue [l]: queued tasks are not
    free, positive tids are unique, and stacks are separate blocks that belong
    to the kernel heap. *)
Record core_inv s (l : list nat) : Prop := {
  c_queue : queue_ok s l;
  c_init : scheduler_initialized s = true;
  c_nofree : forall i, i ∈ l -> state_of s i <> TASK_STATE_FREE;
  c_idle : forall d, idle_task s = Some d -> (d < TCB_MAX_TASKS)%nat;
  c_next_tid : 0 < next_tid s;
  c_tid_lt : forall i, t_tid (task_pool s i) < next_tid s;
  c_tids : forall i j, t_tid (task_pool s i) = t_tid (task_pool s j) ->
                       0 < t_tid (task_pool s i) -> i = j;
  c_heap : a_ok (kheap s);
  c_stack : forall i, t_kernel_stack (task_pool s i) <> 0 ->
    exists r, a_owned (kheap s) (t_kernel_stack (task_pool s i)) r /\ TCB_STACK_SIZE <= r;
  c_stacks : forall i j, t_kernel_stack (task_pool s i) = t_kernel_stack (task_pool s j) ->
    t_kernel_stack (task_pool s i) <> 0 -> i = j
}.

(** Only the current task is RUNNING, and the current task is a task. *)
Record run_inv s : Prop := {
  r_running : forall i, state_of s i = TASK_STATE_RUNNING -> current_task s = Some i;
  r_current : forall c, current_task s = Some c ->
    (c < TCB_MAX_TASKS)%nat /\ state_of s c <> TASK_STATE_FREE
}.

Definition sched_inv s (l : list nat) : Prop := core_inv s l /\ run_inv s.

Lemma core_upd s l i f :
  (forall t, t_next (f t) = t_next t /\ t_prev (f t) = t_prev t /\ t_tid (f t) = t_tid t /\
             t_kernel_stack (f t) = t_kernel_stack t) ->
  (t_state (f (task_pool s i)) = TASK_STATE_FREE -> state_of s i = TASK_STATE_FREE) ->
  core_inv s l -> core_inv (upd i f s) l.
Proof.
  intros Hf Hst [H1 H2 H3 H4 H5 H6 H7 H8 H9 H10].
  assert (Ht : forall j, t_tid (task_pool (upd i f s) j) = t_tid (task_pool s j)).
  { intros j. pool_case. apply Hf. }
  assert (Hk : forall j, t_kernel_stack (task_pool (upd i f s) j) = t_kernel_stack (task_pool s j)).
  { intros j. pool_case. apply Hf. }
  split; try done.
  - apply queue_ok_upd; [|done]. intros t. destruct (Hf t) as (? & ? & _). done.
  - intros j Hj. specialize (H3 j Hj). unfold state_of in *. pool_case. auto.
  - intros j. rewrite Ht. apply H6.
  - intros j k. rewrite !Ht. apply H7.
  - intros j. rewrite Hk. apply H9.
  - intros j k. rewrite !Hk. apply H10.
Qed.

Lemma core_current s l c : core_inv s l -> core_inv (set_current c s) l.
Proof. intros []; split; try done. by apply (queue_ok_ext s). Qed.
Lemma core_ticks s l v : core_inv s l -> core_inv (set_ticks v s) l.
Proof. intros []; split; try done. by apply (queue_ok_ext s). Qed.
Lemma core_iflag s l v : core_inv s l -> core_inv (set_iflag v s) l.
Proof. intros []; split; try done. by apply (queue_ok_ext s). Qed.

(** Relinking keeps everything but the queue. *)
Lemma core_links s s' l l' :
  core_inv s l -> same_but_links s s' -> queue_ok s' l' ->
  (forall i, i ∈ l' -> i ∈ l \/ state_of s i <> TASK_STATE_FREE) -> core_inv s' l'.
Proof.
  intros [H1 H2 H3 H4 H5 H6 H7 H8 H9 H10] Hl Hq Hin.
  assert (Ht : forall j, t_tid (task_pool s' j) = t_tid (task_pool s j))
    by (intros j; by apply (same_links_field t_tid)).
  assert (Hk : forall j, t_kernel_stack (task_pool s' j) = t_kernel_stack (task_pool s j))
    by (intros j; by apply (same_links_field t_kernel_stack)).
  split; rewrite ?(l_init _ _ Hl), ?(l_idle _ _ Hl), ?(l_tid _ _ Hl), ?(l_kheap _ _ Hl); try done.
  - intros i Hi. unfold state_of. rewrite (same_links_field t_state s s') by done.
    destruct (Hin i Hi); [by apply H3|done].
  - intros j. rewrite Ht. apply H6.
  - intros j k. rewrite !Ht. apply H7.
  - intros j. rewrite Hk. apply H9.
  - intros j k. rewrite !Hk. apply H10.
Qed.

Lemma run_links s s' : run_inv s -> same_but_links s s' -> run_inv s'.
Proof.
  intros [H1 H2] Hl. split; rewrite (l_current _ _ Hl).
  - intros i. unfold state_of. rewrite (same_links_field t_state s s') by done. apply H1.
  - intros c. unfold state_of. rewrite (same_links_field t_state s s') by done. apply H2.
Qed.

(** An update that does not make a task RUNNING or FREE. *)
Lemma run_upd s i f :
  (t_state (f (task_pool s i)) = TASK_STATE_RUNNING -> current_task s = Some i) ->
  (t_state (f (task_pool s i)) = TASK_STATE_FREE -> current_task s <> Some i) ->
  run_inv s -> run_inv (upd i f s).
Proof.
  intros Hr Hf [H1 H2]. split; unfold state_of in *.
  - intros j. pool_case. apply H1.
  - intros c Hc. specialize (H2 c Hc) as [Hb H2]. split; [done|]. tcb_simpl. pool_case. intros Hx. by apply Hf.
Qed.

(** Dispatching [i]: nothing else is RUNNING afterwards. *)
Lemma run_dispatch s i f :
  (forall t, t_state (f t) = TASK_STATE_RUNNING) -> (i < TCB_MAX_TASKS)%nat -> current_task s = Some i ->
  (forall j, j <> i -> state_of s j <> TASK_STATE_RUNNING) -> run_inv (upd i f s).
Proof.
  intros Hf Hb Hc Hn. split; unfold state_of in *.
  - intros j. pool_case. intros Hx. by apply Hn in Hx.
  - intros c. tcb_simpl. rewrite Hc. intros [= <-]. split; [done|]. rewrite Nat.eqb_refl, Hf. done.
Qed.

Ltac solve_upd := first [apply core_upd|apply run_upd]; unfold state_of; tcb_simpl; try done.

Lemma append_inv s l i :
  core_inv s l -> i ∉ l -> (i < TCB_MAX_TASKS)%nat -> state_of s i <> TASK_STATE_FREE ->
  exists s', append i s = Some s' /\ core_inv s' (l ++ [i]) /\ same_but_links s s'.
Proof.
  intros Hc Hi Hb Hs. unfold append.
  destruct (link_tail_ok s (upd i (fun t => set_prev (runqueue_tail s) (set_next None t)) s) l i)
    as (s' & -> & Hq & Hl); try done; try apply Hc; try (intros j Hj); try pool_case.
  assert (Hss : same_but_links s s') 
    by (etransitivity; [exact (proj1 (same_links_both s i None (runqueue_tail s)))|done]).
  exists s'. split_and!; try done. eapply core_links; [done|done|done|].
  intros j Hj. apply elem_of_app in Hj as [?|Hj]; [by left|].
  apply list_elem_of_singleton in Hj as ->. by right.
Qed.

Lemma add_task_inv s l i :
  sched_inv s l -> (i < TCB_MAX_TASKS)%nat -> state_of s i <> TASK_STATE_FREE ->
  (current_task s <> Some i \/ i ∈ l) ->
  exists s', scheduler_add_task (Some i) s = Some s' /\
    sched_inv s' (if bool_decide (i ∈ l) then l else l ++ [i]) /\
    (i ∉ l -> current_task s' = (match current_task s with None => Some i | c => c end) /\
       state_of s' i = (match current_task s with None => TASK_STATE_RUNNING | _ => TASK_STATE_READY end) /\
       forall j, j <> i -> state_of s' j = state_of s j).
Proof.
  intros [Hc Hr] Hb Hs Hcur. unfold scheduler_add_task, is_state. rewrite bool_decide_false by done.
  rewrite (in_queue_spec s l i) by apply Hc. cbn [mbind option_bind].
  case_bool_decide as Hi; [by exists s; split_and!|]. destruct Hcur as [Hcur|?]; [|done].
  set (s1 := upd i _ s). set (s2 := if _ =? 0 then _ else s1).
  set (slice := fun t => if t_time_slice t =? 0
                         then set_time_slice (scheduler_time_slice_for_priority (t_priority t)) t else t).
  set (b := upd i (fun t => slice (set_state TASK_STATE_READY t)) s).
  assert (Hss : same_but_links b s2).
  { subst s2 s1 b slice. split; try (case_if; done). intros j. tcb_simpl. rewrite Nat.eqb_refl. tcb_simpl.
    destruct (j =? i)%nat eqn:E; bool_to_prop; subst.
    - exists None, (runqueue_tail s). case_if; pool_case.
    - exists (t_next (task_pool s j)), (t_prev (task_pool s j)).
      case_if; pool_case; by destruct (task_pool s j). }
  assert (Hcb : core_inv b l).
  { apply core_upd; [intros t; unfold slice; tcb_simpl; case_if; done| |done].
    unfold slice. tcb_simpl. case_if; done. }
  assert (Hrb : run_inv b).
  { apply run_upd; [..|done]; unfold slice; tcb_simpl; case_if; done. }
  destruct (link_tail_ok s s2 l i) as (s' & -> & Hq & Hl); try done; [apply Hc|..].
  1, 2: subst s2 s1; case_if; done.
  1: intros j Hj; subst s2 s1; case_if; pool_case.
  1, 2: subst s2 s1; case_if; pool_case.
  assert (Hbs : same_but_links b s') by (by etransitivity).
  assert (Hc' : core_inv s' (l ++ [i])).
  { eapply core_links; [done|done|done|]. intros j Hj. apply elem_of_app in Hj as [?|Hj]; [by left|].
    apply list_elem_of_singleton in Hj as ->. right. unfold state_of, b, slice. pool_case. case_if; done. }
  pose proof (run_links _ _ Hrb Hbs) as Hr'. cbn [mbind option_bind]. eexists. split; [done|].
  assert (Ecur : current_task s' = current_task s) by (rewrite (l_current _ _ Hbs); done).
  assert (Est : forall j, state_of s' j = if (j =? i)%nat then TASK_STATE_READY else state_of s j).
  { intros j. unfold state_of. rewrite (same_links_field t_state b s') by done. unfold b, slice.
    pool_case. case_if; done. }
  rewrite <- Ecur. split; [|intros _; destruct (current_task s') as [c|] eqn:Ec; tcb_simpl;
    unfold state_of in *; (split; [done|]); tcb_simpl; rewrite ?Est, Nat.eqb_refl; (split; [done|]);
    intros j Hj; apply Nat.eqb_neq in Hj; rewrite ?Hj, Est, Hj; done].
  destruct (current_task s') as [c|] eqn:Ec; [done|]. split.
  - apply core_upd; [done|done|]. by apply core_current.
  - apply run_dispatch; try done. intros j _ Hj. apply (r_running _ Hr') in Hj. tcb_simpl. congruence.
Qed.

(** [l'] is the queue [l] without [i]. *)
Definition dequeued (i : nat) (l l' : list nat) : Prop :=
  i ∉ l /\ l' = l \/ exists l1 l2, l = l1 ++ i :: l2 /\ l' = l1 ++ l2.

Lemma dequeued_in i l l' j : dequeued i l l' -> j ∈ l' -> j ∈ l.
Proof.
  intros [[_ ->]|(l1 & l2 & -> & ->)]; [done|]. rewrite !elem_of_app, elem_of_cons. tauto.
Qed.

Lemma dequeued_not i l l' : NoDup l -> dequeued i l l' -> i ∉ l'.
Proof.
  intros Hn [[? ->]|(l1 & l2 & -> & ->)]; [done|].
  apply NoDup_app in Hn as (_ & Hd & [Hi _]%NoDup_cons). rewrite not_elem_of_app. split; [|done].
  intros Hx. apply (Hd i Hx). by left.
Qed.

(** Removal may leave the removed task marked RUNNING; its callers mark it
    ZOMBIE before or FREE after. *)
Lemma remove_task_inv s l i :
  sched_inv s l ->
  exists s' l', scheduler_remove_task (Some i) s = Some s' /\ dequeued i l l' /\ core_inv s' l' /\
    (forall j, j <> i -> state_of s' j = TASK_STATE_RUNNING -> current_task s' = Some j) /\
    (state_of s i <> TASK_STATE_RUNNING -> state_of s' i = TASK_STATE_RUNNING -> current_task s' = Some i) /\
    (forall c, current_task s' = Some c -> (c < TCB_MAX_TASKS)%nat /\ state_of s' c <> TASK_STATE_FREE).
Proof.
  intros [Hc Hr]. unfold scheduler_remove_task.
  assert (Hsame : i ∉ l -> exists s' l', Some s = Some s' /\ dequeued i l l' /\ core_inv s' l' /\
    (forall j, j <> i -> state_of s' j = TASK_STATE_RUNNING -> current_task s' = Some j) /\
    (state_of s i <> TASK_STATE_RUNNING -> state_of s' i = TASK_STATE_RUNNING -> current_task s' = Some i) /\
    (forall c, current_task s' = Some c -> (c < TCB_MAX_TASKS)%nat /\ state_of s' c <> TASK_STATE_FREE)).
  { intros Hi. exists s, l. split_and!; try done; [by left| |apply Hr]. intros j _. apply Hr. }
  destruct (runqueue_head s) as [h|] eqn:Eh.
  2:{ apply Hsame. rewrite (q_head _ _ (c_queue _ _ Hc)) in Eh. destruct l; [apply not_elem_of_nil|done]. }
  rewrite (in_queue_spec s l i) by apply Hc. cbn [mbind option_bind].
  case_bool_decide as Hi; cbn [negb]; [|by apply Hsame]. clear Hsame.
  apply list_elem_of_split in Hi as (l1 & l2 & ->).
  destruct (unlink_ok s l1 i l2 (c_queue _ _ Hc)) as [Hq Hl].
  assert (Hc1 : core_inv (unlink i s) (l1 ++ l2)).
  { eapply core_links; [done|done|done|]. intros j. rewrite !elem_of_app, elem_of_cons. tauto. }
  pose proof (run_links _ _ Hr Hl) as Hr1.
  assert (Hd : dequeued i (l1 ++ i :: l2) (l1 ++ l2)) by (right; eauto).
  case_bool_decide as Hcur.
  2:{ exists (unlink i s), (l1 ++ l2). split_and!; try done; [intros j _; apply Hr1|intros _; apply Hr1|apply Hr1]. }
  eexists _, (l1 ++ l2). split; [done|]. split; [done|].
  assert (Hno : forall j, j <> i -> state_of (unlink i s) j <> TASK_STATE_RUNNING).
  { intros j Hj Hx. apply (r_running _ Hr1) in Hx. congruence. }
  destruct (match runqueue_head (unlink i s) with Some h => Some h | None => idle_task (unlink i s) end)
    as [j|] eqn:Ej.
  - assert (Hj : (j < TCB_MAX_TASKS)%nat).
    { rewrite (q_head _ _ Hq) in Ej. destruct (l1 ++ l2) as [|k l'] eqn:El; simpl in Ej.
      - by apply (c_idle _ _ Hc1).
      - injection Ej as ->. pose proof (q_bound _ _ Hq) as Hb. by apply Forall_cons in Hb as [? _]. }
    split; [|split_and!].
    + apply core_upd; [done|done|]. by apply core_current.
    + intros k Hk. unfold state_of, run_fresh in *. pool_case. intros Hx. by apply Hno in Hx.
    + intros Hni. unfold state_of, run_fresh in *. pool_case. intros Hx. exfalso.
      apply Hni. by rewrite <- (same_links_field t_state s (unlink i s) i Hl).
    + intros c. unfold state_of, run_fresh in *. tcb_simpl. intros [= ->]. split; [done|]. pool_case.
  - split; [by apply core_current|]. split_and!; [|intros Hni Hx; exfalso|done].
    + intros k Hk Hx. by apply Hno in Hx.
    + apply Hni. unfold state_of in *. tcb_simpl. by rewrite <- (same_links_field t_state s (unlink i s) i Hl).
Qed.

End Invariant.
(** ** scheduler_pick_next *)

Definition ready (pool : nat -> tcb) (i : nat) : bool :=
  bool_decide (t_state (pool i) = TASK_STATE_READY).

(** Following [nxt] from the first of [l] visits [l] and then reaches [fin]. *)
Fixpoint chain (nxt : nat -> option nat) (l : list nat) (fin : option nat) : Prop :=
  match l with [] => True | i :: l' => nxt i = first_or l' fin /\ chain nxt l' fin end.

Lemma rr_scan_chain n pool head start l :
  chain (fun i => match t_next (pool i) with None => head | nx => nx end) l start ->
  (forall i l', l = i :: l' -> Forall (fun j => Some j <> start) l') -> (length l <= n)%nat ->
  rr_scan n pool head start (first_or l None) = List.find (ready pool) l.
Proof.
  revert n; induction l as [|i l IH]; intros n Hch Hst Hn; [by destruct n|].
  destruct n as [|n]; [simpl in Hn; lia|]. destruct Hch as [Hnx Hch]. cbn [rr_scan first_or List.find].
  fold (ready pool i). destruct (ready pool i) eqn:E; [done|]. rewrite Hnx.
  specialize (Hst i l eq_refl). destruct l as [|j l]; cbn [first_or].
  - by rewrite bool_decide_true.
  - apply Forall_cons in Hst as [Hj Hst]. rewrite bool_decide_false by done.
    apply (IH n); [done| |simpl in *; lia]. intros i' l' [= -> ->]. done.
Qed.

(** The queue read from [l2] onwards, wrapping to its head. *)
Lemma seg_chain pool l1 l2 :
  seg pool None (l1 ++ l2) None ->
  chain (fun i => match t_next (pool i) with None => first_or (l1 ++ l2) None | nx => nx end)
    (l2 ++ l1) (first_or l2 (first_or l1 None)).
Proof.
  intros [Hs1 Hs2]%seg_app.
  assert (Hch : forall l pv nx fin nxt,
    seg pool pv l nx -> (forall i j, t_next (pool i) = Some j -> nxt i = Some j) ->
    (forall i, t_next (pool i) = None -> nx = None -> nxt i = fin) ->
    (forall j, nx = Some j -> fin = Some j) -> chain nxt l fin).
  { induction l as [|i l IH]; intros pv nx fin nxt Hs Hn1 Hn2 Hn3; [done|]. destruct Hs as (_ & Hn & Hs).
    split; [|by eapply IH]. destruct l as [|j l]; simpl in *; [|auto].
    destruct nx as [j|]; [|auto]. rewrite (Hn3 j eq_refl). auto. }
  assert (Happ : forall nxt a b fin, chain nxt (a ++ b) fin <-> chain nxt a (first_or b fin) /\ chain nxt b fin).
  { intros nxt a b fin. induction a as [|i a IH]; simpl; [tauto|]. rewrite IH.
    destruct a; simpl; [destruct b|]; simpl; tauto. }
  apply Happ. split.
  - eapply Hch; [exact Hs2|..]; [by intros i j ->|intros i ->|done].
    intros _. destruct l1, l2; done.
  - eapply Hch; [exact Hs1|..]; [by intros i j ->|intros i ->|].
    + intros Hx. destruct l2; [|done]. by rewrite app_nil_r.
    + intros j Hj. destruct l2; [done|]. done.
Qed.

(** The order in which the round-robin scan visits the queue: from the task
    after the current one around to the current one, or the queue itself when
    the current task is not queued. *)
Definition rr_order (cur : option nat) (l order : list nat) : Prop :=
  (exists c l1 l2, cur = Some c /\ l = l1 ++ c :: l2 /\ order = l2 ++ l1 ++ [c]) \/
  (forall c, cur = Some c -> c ∉ l) /\ order = l.

Lemma rr_order_exists cur l : exists order, rr_order cur l order.
Proof.
  destruct cur as [c|]; [|by exists l; right]. destruct (decide (c ∈ l)) as [Hc|Hc].
  - apply list_elem_of_split in Hc as (l1 & l2 & ->). eexists. left. eauto 10.
  - exists l. right. split; [|done]. by intros ? [= <-].
Qed.

Lemma rr_order_perm cur l order : rr_order cur l order -> order ≡ₚ l.
Proof. intros [(c & l1 & l2 & _ & -> & ->)|[_ ->]]; [|done]. solve_Permutation. Qed.

Lemma rr_scan_order {A} (s : sched A) l order :
  queue_ok s l -> rr_order (current_task s) l order ->
  rr_scan TCB_MAX_TASKS (task_pool s) (runqueue_head s) (rr_start s) (rr_start s) =
  List.find (ready (task_pool s)) order.
Proof.
  intros Hq Ho. pose proof (bounded_nodup_length _ _ (q_nodup _ _ Hq) (q_bound _ _ Hq)) as Hlen.
  pose proof (rr_order_perm _ _ _ Ho) as Hperm.
  assert (Hrot : exists l1 l2, l = l1 ++ l2 /\ order = l2 ++ l1 /\
            rr_start s = first_or order None /\ first_or l2 (first_or l1 None) = first_or order None).
  { unfold rr_start. destruct Ho as [(c & l1 & l2 & -> & -> & ->)|[Hc ->]].
    - destruct (queue_split _ _ _ _ Hq) as (_ & _ & _ & Hn & _). rewrite Hn, (q_head _ _ Hq).
      exists (l1 ++ [c]), l2. rewrite <- app_assoc. split_and!; [done|done| |];
        destruct l2; [by destruct l1|done|by destruct l1|done].
    - exists [], l. rewrite app_nil_r. split_and!; [done|done| |by destruct l].
      rewrite (q_head _ _ Hq). destruct (current_task s) as [c|]; [|by destruct l].
      destruct (q_out _ _ Hq c) as [-> _]; [by apply Hc|done]. }
  destruct Hrot as (l1 & l2 & -> & -> & Hst & Hf). rewrite Hst.
  apply rr_scan_chain; [| |by rewrite Hperm].
  - rewrite <- Hf, (q_head _ _ Hq). apply seg_chain, Hq.
  - intros i l' Hl. rewrite Hl. cbn [first_or].
    assert (Hnd : NoDup (i :: l')) by (rewrite <- Hl, Hperm; apply Hq).
    apply NoDup_cons in Hnd as [Hi _]. apply Forall_forall. intros j Hj [= ->]. done.
Qed.

(** The slice of the current task is not used up. *)
Definition keeps_cpu {A} (s : sched A) (c : nat) : Prop :=
  state_of s c = TASK_STATE_RUNNING /\ 0 < t_time_slice (task_pool s c).

Lemma pick_next_keep {A} (s : sched A) l c :
  queue_ok s l -> l <> [] -> current_task s = Some c -> keeps_cpu s c ->
  scheduler_pick_next s =
    Some (Some (match List.find (preempts s c) l with Some it => it | None => c end), s).
Proof.
  intros Hq Hne Hc [Hr Hs]. unfold scheduler_pick_next.
  destruct (runqueue_head s) as [h|] eqn:Eh; [|by rewrite (q_head _ _ Hq) in Eh; destruct l].
  rewrite Hc. unfold is_state. rewrite bool_decide_true by done.
  replace (t_time_slice (task_pool s c) >? 0) with true by lia. cbn [andb].
  rewrite <- Eh, (q_head _ _ Hq), (queue_find_list _ _ _ None) by (apply Hq || by eapply queue_fuel).
  cbn [mbind option_bind]. by destruct (List.find _ l).
Qed.

Lemma pick_next_rr {A} (s : sched A) l order it :
  queue_ok s l -> rr_order (current_task s) l order ->
  (forall c, current_task s = Some c -> ~ keeps_cpu s c) ->
  List.find (ready (task_pool s)) order = Some it -> scheduler_pick_next s = Some (Some it, s).
Proof.
  intros Hq Ho Hk Hf. unfold scheduler_pick_next.
  destruct (runqueue_head s) as [h|] eqn:Eh.
  2:{ rewrite (q_head _ _ Hq) in Eh. destruct l; [|done].
      apply rr_order_perm in Ho. apply Permutation_nil_r in Ho. by subst. }
  rewrite <- Eh. rewrite (rr_scan_order s l order Hq Ho), Hf.
  destruct (current_task s) as [c|]; [|done].
  destruct (is_state s c TASK_STATE_RUNNING && (t_time_slice (task_pool s c) >? 0)) eqn:E; [|done].
  exfalso. apply (Hk c eq_refl). unfold is_state in E. bool_to_prop.
  split; [by eapply bool_decide_eq_true_1|lia].
Qed.

(** No READY task in the queue: the idle task, or else the current one. *)
Lemma queue_best_none fuel pool pv l :
  seg pool pv l None -> (length l < fuel)%nat -> List.find (ready pool) l = None ->
  queue_best fuel pool None (first_or l None) = Some None.
Proof.
  revert fuel pv; induction l as [|i l IH]; intros fuel pv Hs Hf Hn;
    (destruct fuel as [|f]; [simpl in Hf; lia|]); [done|].
  destruct Hs as (_ & Hnx & Hs). cbn [queue_best first_or List.find] in *.
  destruct (ready pool i) eqn:E; [done|]. unfold ready in E. rewrite E. cbn [negb]. rewrite Hnx.
  apply (IH f (Some i)); [done|simpl in Hf; lia|done].
Qed.

Lemma find_none_perm (p : nat -> bool) l l' : l ≡ₚ l' -> List.find p l = None -> List.find p l' = None.
Proof.
  intros Hp Hn. destruct (List.find p l') as [i|] eqn:E; [|done].
  apply List.find_some in E as [Hi He]. rewrite <- list_elem_of_In, <- Hp, list_elem_of_In in Hi.
  apply (List.find_none _ _ Hn) in Hi. congruence.
Qed.

Lemma pick_next_none {A} (s : sched A) l order :
  queue_ok s l -> l <> [] -> rr_order (current_task s) l order ->
  (forall c, current_task s = Some c -> ~ keeps_cpu s c) ->
  List.find (ready (task_pool s)) order = None ->
  scheduler_pick_next s =
    match idle_task s with
    | Some d => if negb (is_state s d TASK_STATE_FREE) then
                  Some (Some d, if negb (is_state s d TASK_STATE_RUNNING)
                                then upd d (set_state TASK_STATE_READY) s else s)
                else Some (current_task s, s)
    | None => Some (current_task s, s)
    end.
Proof.
  intros Hq Hne Ho Hk E. unfold scheduler_pick_next.
  destruct (runqueue_head s) as [h|] eqn:Eh; [|by rewrite (q_head _ _ Hq) in Eh; destruct l].
  cbv zeta. rewrite <- Eh, (rr_scan_order s l order Hq Ho), E.
  rewrite (q_head _ _ Hq), (queue_best_none _ _ None l) by (apply Hq || (by eapply queue_fuel) ||
    (eapply find_none_perm; [by eapply rr_order_perm|done])).
  cbn [mbind option_bind]. destruct (current_task s) as [c|]; [|done].
  destruct (is_state s c TASK_STATE_RUNNING && (t_time_slice (task_pool s c) >? 0)) eqn:Ek; [|done].
  exfalso. apply (Hk c eq_refl). unfold is_state in Ek. bool_to_prop.
  split; [by eapply bool_decide_eq_true_1|lia].
Qed.

Section Invariant2.
Context {A : Type} `{!Allocator A}.
Context (tcb_trampoline idle_task_entry : Z).
Implicit Types s : sched A.

Lemma refill_inv s l i : sched_inv s l -> sched_inv (refill i s) l.
Proof.
  intros [Hc Hr]. unfold refill. case_if; [|done]. split; [by apply core_upd|].
  destruct Hr as [H1 H2]. split; unfold state_of in *.
  - intros j. pool_case; apply H1.
  - intros c Hx. specialize (H2 c Hx) as [? ?]. split; [done|]. pool_case.
Qed.

Lemma start_running_inv s l i :
  core_inv s l -> current_task s = Some i -> (i < TCB_MAX_TASKS)%nat ->
  (forall j, j <> i -> state_of s j <> TASK_STATE_RUNNING) -> sched_inv (start_running i s) l.
Proof. intros Hc Hcur Hb Hn. split; [by apply core_upd|]. by apply run_dispatch. Qed.

Lemma pick_next_inv s l :
  sched_inv s l ->
  exists r s', scheduler_pick_next s = Some (r, s') /\ sched_inv s' l /\
    current_task s' = current_task s /\ (forall i, r = Some i -> (i < TCB_MAX_TASKS)%nat).
Proof.
  intros [Hc Hr]. pose proof (c_queue _ _ Hc) as Hq.
  assert (Hcb : forall c, current_task s = Some c -> (c < TCB_MAX_TASKS)%nat) by (intros c Hx; by apply Hr).
  assert (Hlb : forall i, i ∈ l -> (i < TCB_MAX_TASKS)%nat)
    by (apply Forall_forall, Hq).
  destruct (runqueue_head s) as [h|] eqn:Eh.
  2:{ unfold scheduler_pick_next. rewrite Eh. eexists _, s. split_and!; try done.
      intros i. destruct (current_task s) eqn:E; [intros [= <-]; auto|apply Hc]. }
  assert (Hne : l <> []) by (intros ->; rewrite (q_head _ _ Hq) in Eh; done).
  assert (Hdec : (exists c, current_task s = Some c /\ keeps_cpu s c) \/
                 (forall c, current_task s = Some c -> ~ keeps_cpu s c)).
  { destruct (current_task s) as [c|]; [|by right]. unfold keeps_cpu.
    destruct (decide (state_of s c = TASK_STATE_RUNNING)); [|right; by intros ? [= <-] [? _]].
    destruct (decide (0 < t_time_slice (task_pool s c))); [left; by exists c|right; by intros ? [= <-] [_ ?]]. }
  destruct Hdec as [(c & Hcur & Hk)|Hk].
  { rewrite (pick_next_keep s l c Hq Hne Hcur Hk). eexists _, s. split_and!; try done.
    intros i. destruct (List.find _ l) as [it|] eqn:E; intros [= <-]; [|auto].
    apply List.find_some in E as [E _]. apply Hlb. by apply list_elem_of_In. }
  destruct (rr_order_exists (current_task s) l) as [order Ho].
  destruct (List.find (ready (task_pool s)) order) as [it|] eqn:E.
  { rewrite (pick_next_rr s l order it Hq Ho Hk E). eexists _, s. split_and!; try done.
    intros i [= <-]. apply List.find_some in E as [E _]. apply Hlb.
    rewrite <- (rr_order_perm _ _ _ Ho). by apply list_elem_of_In. }
  rewrite (pick_next_none s l order Hq Hne Ho Hk E). destruct (idle_task s) as [d|] eqn:Ed.
  2:{ eexists _, s. by split_and!. }
  pose proof (c_idle _ _ Hc d Ed) as Hd. unfold is_state.
  case_bool_decide as Hf; cbn [negb]; [eexists _, s; by split_and!|].
  case_bool_decide as Hru; cbn [negb]; eexists _, _.
  - split_and!; try done. by intros i [= <-].
  - split; [done|]. split; [|split; [done|by intros i [= <-]]]. split.
    + by apply core_upd.
    + by apply run_upd.
Qed.

Lemma schedule_first_inv s l :
  sched_inv s l -> current_task s = None -> exists s', schedule_first s = Some s' /\ sched_inv s' l.
Proof.
  intros Hi Hn. unfold schedule_first. destruct (pick_next_inv s l Hi) as (r & s' & -> & [Hc Hr] & Hcur & Hb).
  cbn [mbind option_bind]. destruct r as [i|]; (eexists; split; [done|]).
  - apply refill_inv, start_running_inv; [by apply core_current|done|by apply Hb|].
    intros j _ Hj. apply (r_running _ Hr) in Hj. congruence.
  - split; [by apply core_current|]. split; tcb_simpl; [|done].
    intros j Hj. apply (r_running _ Hr) in Hj. congruence.
Qed.

Lemma expire_inv s l c :
  sched_inv s l -> exists s' l', expire c s = Some s' /\ sched_inv s' l' /\ l' ≡ₚ l /\
    current_task s' = current_task s.
Proof.
  intros [Hc Hr]. unfold expire. destruct (is_state _ _ _ && _) eqn:E; [|by exists s, l].
  set (s0 := upd c _ s).
  assert (Hc0 : core_inv s0 l) by (by apply core_upd).
  assert (Hr0 : run_inv s0) by (by apply run_upd).
  destruct (decide (c ∈ l)) as [Hi|Hi].
  - apply list_elem_of_split in Hi as (l1 & l2 & ->).
    destruct (rotate_ok s0 l1 c l2) as (s' & -> & Hq & Hl); [apply Hc0|].
    exists s', (l1 ++ l2 ++ [c]). split_and!; [done|split|solve_Permutation|apply Hl].
    + eapply core_links; [done|done|done|]. intros j.
      pose proof (not_elem_of_nil j). rewrite !elem_of_app, !elem_of_cons. tauto.
    + by eapply run_links.
  - rewrite (rotate_out s0 l c) by (done || apply Hc0). by exists s0, l.
Qed.

Lemma switch_inv s l c i :
  sched_inv s l -> current_task s = Some c -> i <> c -> (i < TCB_MAX_TASKS)%nat ->
  sched_inv (switch_to c i s) l /\ current_task (switch_to c i s) = Some i.
Proof.
  intros [Hc Hr] Hcur Hne Hb. unfold switch_to.
  set (s0 := if is_state s c TASK_STATE_RUNNING then upd c (set_state TASK_STATE_READY) s else s).
  assert (H0 : core_inv s0 l /\ forall j, state_of s0 j <> TASK_STATE_RUNNING).
  { unfold s0, is_state. case_bool_decide as Hs.
    - split; [by apply core_upd|]. intros j. unfold state_of. pool_case. intros Hj.
      apply (r_running _ Hr) in Hj. congruence.
    - split; [done|]. intros j Hj. pose proof (r_running _ Hr j Hj). congruence. }
  destruct H0 as [Hc0 Hn]. split; [|done].
  assert (Hsw : sched_inv (refill i (start_running i (set_current (Some i) s0))) l).
  { apply refill_inv, start_running_inv; [by apply core_current|done|done|].
    intros j _. apply Hn. }
  revert Hsw. unfold refill, start_running. tcb_simpl. case_if; done.
Qed.

Lemma schedule_inv s l :
  sched_inv s l -> exists s' l', scheduler_schedule s = Some s' /\ sched_inv s' l' /\ l' ≡ₚ l.
Proof.
  intros Hi. pose proof Hi as [Hc _]. unfold scheduler_schedule. rewrite (c_init _ _ Hc). cbn [negb].
  destruct (current_task s) as [c|] eqn:Ec.
  2:{ destruct (schedule_first_inv s l Hi Ec) as (s' & -> & ?). by exists s', l. }
  destruct (expire_inv s l c Hi) as (s1 & l1 & -> & Hi1 & Hp & Hc1). cbn [mbind option_bind].
  destruct (pick_next_inv s1 l1 Hi1) as (r & s2 & -> & Hi2 & Hc2 & Hb). cbn [mbind option_bind].
  destruct r as [i|]; [|by exists s2, l1]. specialize (Hb i eq_refl). rewrite Ec in Hc1.
  case_bool_decide as Hcur.
  - eexists _, l1. split; [done|]. split; [|done]. case_if; [|done].
    destruct Hi2 as [Hcc Hrr]. apply start_running_inv; try done.
    intros j Hj Hx. apply (r_running _ Hrr) in Hx. congruence.
  - eexists _, l1. split; [done|]. split; [|done].
    apply switch_inv; [done|congruence|congruence|done].
Qed.

Lemma iflag_inv s l v : sched_inv s l -> sched_inv (set_iflag v s) l.
Proof. intros [Hc [? ?]]. split; [by apply core_iflag|by split]. Qed.

(** Without a current task a timer interrupt only counts. *)
Lemma halt_inv s l : sched_inv s l -> current_task s = None -> iflag s = true ->
  exists s', hal_halt s = Some s' /\ sched_inv s' l /\ current_task s' = None /\ iflag s' = true.
Proof.
  intros [Hc [H1 H2]] Hn Hf. unfold hal_halt, scheduler_tick. rewrite Hf. cbv zeta. tcb_simpl. rewrite (c_init _ _ Hc), Hn. cbn [negb].
  eexists. split; [done|]. split; [|done]. split; [by apply core_ticks|by split].
Qed.
Lemma halts_inv n : forall s l, sched_inv s l -> current_task s = None -> iflag s = true -> exists s', halts n s = Some s' /\ sched_inv s' l.
Proof.
  induction n as [|n IH]; intros s l Hi Hn Hf; cbn [halts]; [by exists s|].
  destruct (halt_inv s l Hi Hn Hf) as (s1 & -> & H1 & H2 & H3). cbn [mbind option_bind]. by apply IH.
Qed.

Lemma yield_inv s l : sched_inv s l -> exists s' l', tcb_yield s = Some s' /\ sched_inv s' l' /\ l' ≡ₚ l.
Proof.
  intros Hi. pose proof Hi as [Hc _]. unfold tcb_yield. rewrite (c_init _ _ Hc). cbn [negb].
  destruct (current_task s) as [c|] eqn:Ec.
  2:{ destruct (halt_inv (hal_sti s) l) as (s' & -> & Hi' & _); [by apply iflag_inv|done|done|]. by exists s', l. }
  destruct (schedule_inv (upd c (set_time_slice 0) (hal_cli s)) l) as (s' & l' & -> & Hi' & Hp).
  { apply (iflag_inv s l false) in Hi as [Hc' Hr']. split; [by apply core_upd|].
    apply run_upd; [|intros Hx Hy; by apply (r_current _ Hr') in Hy as [_ ?]|done]. by apply Hr'. }
  eexists _, l'. split; [done|]. split; [|done]. by apply iflag_inv.
Qed.

Lemma block_inv s l i :
  sched_inv s l -> (i < TCB_MAX_TASKS)%nat ->
  exists s' l', tcb_block (Some i) s = Some s' /\ sched_inv s' l' /\ l' ≡ₚ l.
Proof.
  intros Hi Hb. unfold tcb_block.
  assert (H0 : sched_inv (upd i (set_state TASK_STATE_BLOCKED) (hal_cli s)) l).
  { apply (iflag_inv s l false) in Hi as [Hc' Hr']. split; [by apply core_upd|by apply run_upd]. }
  case_bool_decide as Hcur.
  - destruct (schedule_inv _ _ H0) as (s' & l' & -> & Hi' & Hp). eexists _, l'.
    split; [done|]. split; [|done]. by apply iflag_inv.
  - eexists _, l. split; [done|]. split; [|done]. apply iflag_inv. destruct H0 as [Hc' Hr'].
    set (b := upd i (set_state TASK_STATE_BLOCKED) (hal_cli s)) in *.
    assert (Hbl : t_state (task_pool b i) = TASK_STATE_BLOCKED).
    { unfold b. tcb_simpl. by rewrite Nat.eqb_refl. }
    split; [apply core_upd|apply run_upd]; try done; tcb_simpl; by rewrite Hbl.
Qed.

Lemma unblock_inv s l i :
  sched_inv s l -> (i < TCB_MAX_TASKS)%nat ->
  exists s' l', tcb_unblock (Some i) s = Some s' /\ sched_inv s' l' /\
    l' = (if bool_decide (state_of s i = TASK_STATE_BLOCKED /\ i ∉ l) then l ++ [i] else l).
Proof.
  intros Hi Hb. unfold tcb_unblock, is_state. change (state_of (hal_cli s) i) with (state_of s i).
  destruct (decide (state_of s i = TASK_STATE_BLOCKED)) as [Hs|Hs].
  2:{ rewrite (bool_decide_false _ Hs). eexists _, l. split; [done|]. split; [by apply iflag_inv, iflag_inv|].
      rewrite bool_decide_false; [done|]. tauto. }
  rewrite (bool_decide_true _ Hs). cbn [negb]. set (b := upd i _ (hal_cli s)).
  assert (H0 : sched_inv b l).
  { apply (iflag_inv s l false) in Hi as [Hc' Hr']. split; [by apply core_upd|by apply run_upd]. }
  destruct H0 as [Hc Hr]. rewrite (in_queue_spec b l i) by apply Hc. cbn [mbind option_bind].
  destruct (decide (i ∈ l)) as [Hin|Hin].
  - rewrite (bool_decide_true _ Hin). cbn [mbind option_bind]. eexists _, l. split; [done|].
    rewrite bool_decide_false by tauto. split; [|done]. by apply iflag_inv.
  - rewrite (bool_decide_false _ Hin). destruct (append_inv b l i) as (s' & -> & Hc' & Hl); try done.
    { unfold b, state_of. pool_case. }
    cbn [mbind option_bind]. eexists _, (l ++ [i]). split; [done|].
    rewrite bool_decide_true by done. split; [|done]. apply iflag_inv. split; [done|by eapply run_links].
Qed.

End Invariant2.

Section Invariant3.
Context {A : Type} `{!Allocator A}.
Context (tcb_trampoline idle_task_entry : Z).
Implicit Types s : sched A.

(** Updates of fields the invariant does not mention. *)
Lemma inert_upd s l i f :
  (forall t, t_next (f t) = t_next t /\ t_prev (f t) = t_prev t /\ t_tid (f t) = t_tid t /\
             t_kernel_stack (f t) = t_kernel_stack t) ->
  (forall t, t_state (f t) = t_state t) ->
  sched_inv s l -> sched_inv (upd i f s) l.
Proof.
  intros Hf Hs [Hc Hr]. split.
  - apply core_upd; [done| |done]. by rewrite Hs.
  - apply run_upd; [| |done]; rewrite Hs; [apply Hr|].
    intros Hx Hy. by apply (r_current _ Hr) in Hy as [_ ?].
Qed.

Lemma set_state_inv s l i st :
  sched_inv s l -> st <> TASK_STATE_FREE -> st <> TASK_STATE_RUNNING ->
  sched_inv (tcb_set_state (Some i) st s) l.
Proof. intros [Hc Hr] H1 H2. split; [by apply core_upd|by apply run_upd]. Qed.

Lemma free_inv s l i :
  sched_inv s l -> exists s' l', tcb_free (Some i) s = Some s' /\ sched_inv s' l' /\ dequeued i l l'.
Proof.
  intros Hi. pose proof Hi as [Hc _]. unfold tcb_free. rewrite (c_init _ _ Hc).
  destruct (remove_task_inv s l i Hi) as (s1 & l' & -> & Hd & Hc1 & Hr1 & _ & Hcur1).
  cbn [mbind option_bind]. set (s2 := if bool_decide _ then set_current None s1 else s1).
  assert (Hni : i ∉ l') by (eapply dequeued_not; [apply Hc|done]).
  assert (Hc2 : core_inv s2 l') by (unfold s2; case_bool_decide; [by apply core_current|done]).
  assert (Hr2 : forall j, j <> i -> state_of s2 j = TASK_STATE_RUNNING -> current_task s2 = Some j).
  { intros j Hj Hx. unfold s2 in *. case_bool_decide as Hx2; tcb_simpl; [|by apply Hr1].
    specialize (Hr1 j Hj Hx). congruence. }
  assert (Hu2 : forall c, current_task s2 = Some c ->
                c <> i /\ (c < TCB_MAX_TASKS)%nat /\ state_of s2 c <> TASK_STATE_FREE).
  { intros c. unfold s2. case_bool_decide; tcb_simpl; [done|]. intros Hx.
    split; [congruence|]. by apply Hcur1. }
  clearbody s2. eexists _, l'. split; [done|]. split; [|done]. split; [|split].
  - destruct Hc2 as [H1 H2 H3 H4 H5 H6 H7 H8 H9 H10]. split; try done.
    + by apply queue_ok_upd.
    + intros j Hj. specialize (H3 j Hj). unfold state_of in *. pool_case.
    + intros j. specialize (H6 j). unfold TCB_INVALID_TID. pool_case.
    + intros j k. unfold TCB_INVALID_TID. specialize (H7 j k). pool_case.
    + intros j. specialize (H9 j). pool_case.
    + intros j k. specialize (H10 j k). pool_case.
  - intros j. unfold state_of. pool_case. by apply Hr2.
  - intros c Hx. destruct (Hu2 c Hx) as (? & ? & ?). split; [done|]. unfold state_of in *. pool_case.
Qed.

Lemma exit_inv s l c :
  sched_inv s l -> current_task s = Some c ->
  exists s' l', tcb_exit s = Some (Halted s') /\ sched_inv s' l' /\ (forall i, i ∈ l' -> i ∈ l).
Proof.
  intros [Hc Hr] Hcur. unfold tcb_exit. rewrite Hcur.
  set (s0 := upd c (set_state TASK_STATE_ZOMBIE) s).
  assert (Hi0 : sched_inv s0 l) by (split; [by apply core_upd|by apply run_upd]).
  destruct (remove_task_inv s0 l c Hi0) as (s1 & l1 & -> & Hd & Hc1 & Hr1 & Hr2 & Hcur1).
  cbn [mbind option_bind].
  assert (Hi1 : sched_inv s1 l1).
  { split; [done|]. split; [|done]. intros j. destruct (decide (j = c)) as [->|Hne]; [|by apply Hr1].
    apply Hr2. unfold s0, state_of. pool_case. }
  destruct (schedule_inv s1 l1 Hi1) as (s2 & l2 & -> & Hi2 & Hp).
  exists s2, l2. split_and!; [done|done|]. intros i. rewrite Hp. by eapply dequeued_in.
Qed.

Lemma sleep_inv s l ms :
  sched_inv s l -> (current_task s = None -> iflag s = true) ->
  exists s' l', tcb_sleep ms s = Some s' /\ sched_inv s' l' /\ l' ≡ₚ l.
Proof.
  intros Hi Hf. pose proof Hi as [Hc _]. unfold tcb_sleep. rewrite (c_init _ _ Hc). cbn [negb].
  destruct (current_task s) as [c|] eqn:Ec.
  2:{ unfold pit_wait. case_if; [by exists s, l|]. destruct (halts_inv (Z.to_nat (if u32 (ms + 9) / 10 =? 0 then 1 else u32 (ms + 9) / 10)) s l Hi Ec (Hf eq_refl)) as (s' & H1 & H2).
      by exists s', l. }
  case_if; [by apply yield_inv|]. apply schedule_inv, iflag_inv.
  apply (iflag_inv s l false) in Hi as [Hc' Hr']. split; [by apply core_upd|by apply run_upd].
Qed.

Lemma wake_inv s l i :
  sched_inv s l -> (i < TCB_MAX_TASKS)%nat ->
  exists s' l', wake i s = Some s' /\ sched_inv s' l' /\ (l' = l \/ l' = l ++ [i]).
Proof.
  intros [Hc Hr] Hb. unfold wake. case_if; [|exists s, l; split_and!; [done|by split|by left]].
  set (b := upd i _ s).
  assert (H0 : sched_inv b l) by (split; [by apply core_upd|by apply run_upd]).
  destruct H0 as [Hcb Hrb]. rewrite (in_queue_spec b l i) by apply Hcb. cbn [mbind option_bind].
  destruct (bool_decide_reflect (i ∈ l)) as [Hin|Hin]; [exists b, l; split_and!; [done|by split|by left]|].
  destruct (append_inv b l i) as (s' & -> & Hc' & Hl); try done.
  { unfold b, state_of. pool_case. }
  exists s', (l ++ [i]). split_and!; [done| |by right]. split; [done|by eapply run_links].
Qed.

Lemma wake_loop_inv n i s l :
  sched_inv s l -> (i + n <= TCB_MAX_TASKS)%nat ->
  exists s' l', wake_loop n i s = Some s' /\ sched_inv s' l' /\ exists w, l' = l ++ w.
Proof.
  revert i s l; induction n as [|n IH]; intros i s l Hi Hb.
  - exists s, l. split_and!; [done|done|]. exists []. by rewrite app_nil_r.
  - cbn [wake_loop]. destruct (wake_inv s l i Hi) as (s1 & l1 & -> & Hi1 & Hl1); [lia|].
    cbn [mbind option_bind]. destruct (IH (S i) s1 l1 Hi1) as (s2 & l2 & -> & Hi2 & w & ->); [lia|].
    eexists _, _. split_and!; [done|done|]. destruct Hl1 as [->| ->]; [by exists w|].
    exists (i :: w). by rewrite <- app_assoc.
Qed.

Lemma tick_inv s l :
  sched_inv s l -> exists s' l', scheduler_tick s = Some s' /\ sched_inv s' l' /\ exists w, l' = l ++ w.
Proof.
  intros Hi. unfold scheduler_tick.
  assert (H0 : sched_inv (set_ticks (u64 (scheduler_ticks s + 1)) s) l).
  { destruct Hi as [Hc [? ?]]. split; [by apply core_ticks|by split]. }
  cbv zeta. set (s1 := set_ticks _ s) in *. rewrite (c_init _ _ (proj1 H0)). cbn [negb].
  destruct (current_task s1) as [c|].
  2:{ eexists _, l. split_and!; [done|done|]. exists []. by rewrite app_nil_r. }
  apply wake_loop_inv; [|unfold TCB_MAX_TASKS; lia].
  assert (H1 : sched_inv (upd c (fun t => set_total_run_time (u64 (total_run_time (t_accounting t) + 1)) t) s1) l)
    by (by apply inert_upd).
  case_if; [|done]. case_if; [|done]. by apply inert_upd.
Qed.

End Invariant3.

Section Creation.
Context {A : Type} `{!Allocator A}.
Context (tcb_trampoline idle_task_entry : Z).
Implicit Types s : sched A.

Lemma allocate_inv s l i s1 :
  sched_inv s l -> next_tid s < 2 ^ 31 - 1 -> tcb_allocate s = (Some i, s1) ->
  sched_inv s1 l /\ (i < TCB_MAX_TASKS)%nat /\ i ∉ l /\ current_task s1 <> Some i /\
  task_pool s1 i = fresh_tcb (next_tid s) (scheduler_ticks s) (task_pool s i) /\
  kheap s1 = kheap s /\ (forall j, j <> i -> task_pool s1 j = task_pool s j).
Proof.
  intros [Hc Hr] Ht Ha. unfold tcb_allocate in Ha.
  destruct (find_from _ 0 _) as [k|] eqn:E; [|done]. injection Ha as -> <-.
  apply find_from_Some in E as (Hb & Hfree & _). apply bool_decide_eq_true_1 in Hfree.
  pose proof (c_next_tid _ _ Hc) as Hpos.
  assert (Hil : i ∉ l) by (intros Hx; by apply (c_nofree _ _ Hc) in Hx).
  assert (Hcur : current_task s <> Some i) by (intros Hx; by apply (r_current _ Hr) in Hx as [_ ?]).
  destruct Hc as [H1 H2 H3 H4 H5 H6 H7 H8 H9 H10].
  split_and!; try done; [|lia|tcb_simpl; by rewrite Nat.eqb_refl|intros j Hj; pool_case].
  split; [split|split]; tcb_simpl; rewrite ?i32_small by lia; try done; try lia.
  - destruct H1 as [Q1 Q2 Q3 Q4 Q5 Q6]. split; tcb_simpl; try done.
    + eapply seg_ext; [|done]. intros j Hj. assert (j <> i) by (intros ->; done). pool_case.
    + intros j Hj. specialize (Q6 j Hj). pool_case.
  - intros j Hj. specialize (H3 j Hj). unfold state_of in *. pool_case.
  - intros j. specialize (H6 j). pool_case.
  - intros j k. specialize (H6 j) as H6j. specialize (H6 k). specialize (H7 j k). pool_case.
  - intros j. specialize (H9 j). pool_case.
  - intros j k. specialize (H10 j k). pool_case.
  - intros j. pose proof (r_running _ Hr j). unfold state_of in *. pool_case.
  - intros c Hx. destruct (r_current _ Hr c Hx). split; [done|]. unfold state_of in *. pool_case.
Qed.

(** Everything [tcb_setup_context] leaves alone, and what it sets. *)
Lemma setup_context_inv s l i entry arg :
  sched_inv s l -> (i < TCB_MAX_TASKS)%nat -> state_of s i = TASK_STATE_READY ->
  exists s', tcb_setup_context tcb_trampoline (Some i) entry arg s = Some s' /\ sched_inv s' l /\
    state_of s' i = TASK_STATE_READY /\ current_task s' = current_task s /\ idle_task s' = idle_task s /\ next_tid s' = next_tid s /\
    t_tid (task_pool s' i) = t_tid (task_pool s i) /\
    (forall j, j <> i -> state_of s' j = state_of s j) /\
    (entry <> 0 -> t_kernel_stack (task_pool s' i) <> 0 ->
       t_arch_data (task_pool s' i) = entry /\ t_msg_buffer (task_pool s' i) = arg /\
       eip (t_context (task_pool s' i)) = tcb_trampoline).
Proof.
  intros Hi Hb Hst. unfold tcb_setup_context. destruct (entry =? 0) eqn:Ee; bool_to_prop.
  { exists s. split_and!; done. }
  assert (Hfin : forall s1, sched_inv s1 l -> state_of s1 i = TASK_STATE_READY ->
    current_task s1 = current_task s -> idle_task s1 = idle_task s -> next_tid s1 = next_tid s ->
    t_tid (task_pool s1 i) = t_tid (task_pool s i) ->
    (forall j, j <> i -> state_of s1 j = state_of s j) ->
    let t := task_pool s1 i in
    let stack_top := Z.land (u32 (t_kernel_stack t + t_stack_size t)) (u32 (Z.lnot 0xF)) in
    let s' := upd i (fun t =>
        set_state TASK_STATE_READY (set_last_run (scheduler_ticks s1)
          (set_time_slice (scheduler_time_slice_for_priority (t_priority t))
          (set_context (fresh_context stack_top stack_top tcb_trampoline)
          (set_msg_buffer arg (set_arch_data entry t)))))) s1 in
    sched_inv s' l /\ state_of s' i = TASK_STATE_READY /\ current_task s' = current_task s /\
    idle_task s' = idle_task s /\ next_tid s' = next_tid s /\ t_tid (task_pool s' i) = t_tid (task_pool s i) /\
    (forall j, j <> i -> state_of s' j = state_of s j) /\
    (entry <> 0 -> t_kernel_stack (task_pool s' i) <> 0 ->
       t_arch_data (task_pool s' i) = entry /\ t_msg_buffer (task_pool s' i) = arg /\
       eip (t_context (task_pool s' i)) = tcb_trampoline)).
  { intros s1 [Hc1 Hr1] Hs1 Hcu Hid Hnt Htid Hoth t stack_top s'. unfold s', state_of in *. tcb_simpl.
    rewrite Nat.eqb_refl. split_and!; try done.
    2:{ intros j Hj. specialize (Hoth j Hj). pool_case. }
    split; [by apply core_upd|by apply run_upd]. }
  destruct (t_kernel_stack (task_pool s i) =? 0) eqn:Ek; bool_to_prop.
  2:{ cbn [mbind option_bind negb]. eexists. split; [done|]. by apply Hfin. }
  destruct Hi as [Hc Hr]. pose proof (c_heap _ _ Hc) as Hok.
  destruct (a_alloc_spec (kheap s) TCB_STACK_SIZE Hok) as [Hal|(q & r & h & Hal & Hok1 & Hq & Hrs & Hown & Hdis & Hmem)];
    [unfold TCB_STACK_SIZE; lia|..]; rewrite Hal; cbn [mbind option_bind].
  { cbn [Z.eqb negb]. eexists. split; [done|]. split_and!; try done.
    split; [|by destruct Hr]. destruct Hc; split; try done. by apply (queue_ok_ext s). }
  replace (q =? 0) with false by lia. cbn [mbind option_bind negb]. eexists. split; [done|].
  apply Hfin; [|unfold state_of in *; pool_case|done|done|done|pool_case|
    intros j Hj; unfold state_of; pool_case].
  set (m := fill_bytes _ _ _ _). destruct (a_write_spec h m Hok1) as [Hok2 Hown2].
  { intros a Ha. unfold m. rewrite fill_bytes_filled. case_if; [|done]. bool_to_prop. exfalso.
    apply (Ha q r); [apply Hown; by right|]. unfold in_block. unfold TCB_STACK_SIZE in *. lia. }
  assert (Hst2 : forall q' r', a_owned (a_write h m) q' r' <-> a_owned (kheap s) q' r' \/ q' = q /\ r' = r)
    by (intros; by rewrite Hown2).
  clearbody m. split.
  - destruct Hc as [H1 H2 H3 H4 H5 H6 H7 H8 H9 H10]. split; tcb_simpl; try done.
    + apply (queue_ok_ext s); try done. intros j. pool_case.
    + intros j Hj. specialize (H3 j Hj). unfold state_of in *. pool_case.
    + intros j. specialize (H6 j). pool_case.
    + intros j k. specialize (H7 j k). pool_case.
    + intros j. pool_case.
      * intros _. exists r. rewrite Hst2. split; [by right|done].
      * intros Hx. destruct (H9 j Hx) as (r' & ? & ?). exists r'. rewrite Hst2. split; [by left|done].
    + assert (Hne : forall j, t_kernel_stack (task_pool s j) <> q \/ t_kernel_stack (task_pool s j) = 0).
      { intros j. destruct (decide (t_kernel_stack (task_pool s j) = 0)) as [|Hj]; [by right|left].
        destruct (H9 j Hj) as (r' & Ho & Hr'). specialize (Hdis _ _ Ho). unfold TCB_STACK_SIZE in *. lia. }
      intros j k. pose proof (Hne j). pose proof (Hne k). specialize (H10 j k). pool_case.
  - destruct Hr as [R1 R2]. split; unfold state_of in *; tcb_simpl.
    + intros j. specialize (R1 j). pool_case.
    + intros c Hx. specialize (R2 c Hx) as [? ?]. split; [done|]. pool_case.
Qed.

(** Queueing a task changes links, states and slices only. *)
Lemma add_task_fields {B} (f : tcb -> B) s i s' j :
  (forall st t, f (set_state st t) = f t) -> (forall v t, f (set_time_slice v t) = f t) ->
  (forall n p t, f (set_prev p (set_next n t)) = f t) -> (forall n t, f (set_next n t) = f t) ->
  scheduler_add_task (Some i) s = Some s' ->
  f (task_pool s' j) = f (task_pool s j) /\ idle_task s' = idle_task s /\ next_tid s' = next_tid s.
Proof.
  intros H1 H2 H3 H4. unfold scheduler_add_task. case_if; [by intros [= <-]|].
  destruct (in_queue s i) as [[]|]; cbn [mbind option_bind]; [by intros [= <-]| |done].
  set (s1 := upd i _ s). set (s2 := if _ =? 0 then _ else s1).
  assert (E2 : f (task_pool s2 j) = f (task_pool s j) /\ idle_task s2 = idle_task s /\ next_tid s2 = next_tid s).
  { unfold s2, s1. case_if; tcb_simpl; (split; [|done]); repeat case_if; rewrite ?H2, ?H1, ?H3;
      bool_to_prop; subst; done. }
  destruct (link_tail i s2) as [s3|] eqn:El; cbn [mbind option_bind]; [|done].
  assert (E3 : f (task_pool s3 j) = f (task_pool s2 j) /\ idle_task s3 = idle_task s2 /\ next_tid s3 = next_tid s2).
  { unfold link_tail in El. destruct (runqueue_head s2); [destruct (runqueue_tail s2); [|done]|];
      injection El as <-; tcb_simpl; [|done]. split; [|done]. case_if; bool_to_prop; subst; by rewrite ?H4. }
  intros [= <-]. destruct E2 as (<- & <- & <-), E3 as (<- & <- & <-).
  destruct (current_task s3); [done|]. tcb_simpl. split; [|done]. case_if; bool_to_prop; subst; by rewrite ?H1.
Qed.

Lemma create_inv s l entry arg name prio :
  sched_inv s l -> next_tid s < 2 ^ 31 - 1 ->
  exists r s' l', tcb_create tcb_trampoline entry arg name prio s = Some (r, s') /\ sched_inv s' l' /\
    idle_task s' = idle_task s /\
    match r with
    | None => s' = s /\ l' = l /\ forall i, (i < TCB_MAX_TASKS)%nat -> state_of s i <> TASK_STATE_FREE
    | Some i => i ∉ l /\ l' = l ++ [i] /\ (i < TCB_MAX_TASKS)%nat /\ state_of s i = TASK_STATE_FREE /\
                current_task s' = (match current_task s with None => Some i | c => c end) /\
                state_of s' i = (match current_task s with
                                 | None => TASK_STATE_RUNNING | _ => TASK_STATE_READY end) /\
                (forall j, j <> i -> state_of s' j = state_of s j) /\
                t_tid (task_pool s' i) = next_tid s /\ next_tid s' = next_tid s + 1 /\
                (entry <> 0 -> t_kernel_stack (task_pool s' i) <> 0 ->
                 t_arch_data (task_pool s' i) = entry /\ t_msg_buffer (task_pool s' i) = arg /\
                 eip (t_context (task_pool s' i)) = tcb_trampoline)
    end.
Proof.
  intros Hi Ht. unfold tcb_create. destruct (tcb_allocate s) as [[i|] s1] eqn:Ea.
  2:{ exists None, s1, l. unfold tcb_allocate in Ea. destruct (find_from _ _ _) eqn:Ef; [done|].
      injection Ea as <-. split_and!; try done. intros i Hb.
      pose proof (find_from_None _ _ _ Ef i ltac:(lia)) as Hx. by apply bool_decide_eq_false_1 in Hx. }
  destruct (allocate_inv s l i s1 Hi Ht Ea) as (Hi1 & Hb & Hil & Hcur & Hf & _ & _).
  assert (Hid1 : idle_task s1 = idle_task s).
  { unfold tcb_allocate in Ea. destruct (find_from _ _ _); [|done]. by injection Ea as _ <-. }
  assert (Hfree : state_of s i = TASK_STATE_FREE /\ next_tid s1 = next_tid s + 1 /\ current_task s1 = current_task s /\
                  forall j, j <> i -> state_of s1 j = state_of s j).
  { unfold tcb_allocate in Ea. destruct (find_from _ _ _) eqn:Ef; [|done]. injection Ea as -> <-.
    apply find_from_Some in Ef as (_ & Hx & _). apply bool_decide_eq_true_1 in Hx.
    pose proof (c_next_tid _ _ (proj1 Hi)).
    split_and!; [done|tcb_simpl; rewrite i32_small; lia|done|]. intros j Hj. unfold state_of. pool_case. }
  destruct Hfree as (Hfree & Hnt1 & Hcs1 & Hst1).
  cbv zeta. set (s2 := upd i _ s1).
  assert (Hi2 : sched_inv s2 l) by (by apply inert_upd).
  assert (Hid2 : idle_task s2 = idle_task s1) by done.
  assert (Hs2 : state_of s2 i = TASK_STATE_READY /\ t_tid (task_pool s2 i) = next_tid s).
  { unfold s2, state_of. tcb_simpl. by rewrite Nat.eqb_refl, Hf. }
  destruct Hs2 as [Hs2 Htid2].
  destruct (setup_context_inv s2 l i entry arg Hi2 Hb Hs2) as (s3 & -> & Hi3 & Hs3 & Hc3 & Hid3 & Hnt3 & Ht3 & Hst3 & Hent).
  cbn [mbind option_bind]. rewrite (c_init _ _ (proj1 Hi3)).
  destruct (add_task_inv s3 l i Hi3 Hb) as (s4 & Hadd & Hi4 & Hcs4); [by rewrite Hs3|left; by rewrite Hc3|].
  destruct (Hcs4 Hil) as (Hcur4 & Hst4 & Hoth4).
  assert (Hst2 : forall j, j <> i -> state_of s2 j = state_of s1 j)
    by (intros j Hj; unfold s2, state_of; pool_case).
  change (current_task s2) with (current_task s1) in Hc3. rewrite Hc3, Hcs1 in Hcur4, Hst4.
  rewrite bool_decide_false in Hi4 by done. rewrite Hadd. cbn [mbind option_bind].
  exists (Some i), s4, (l ++ [i]).
  pose proof (fun B f => @add_task_fields B f s3 i s4 i) as Hk.
  destruct (Hk _ t_tid) as (E1 & E2 & E7); try done.
  change (next_tid s2) with (next_tid s1) in Hnt3.
  destruct (Hk _ t_kernel_stack) as (E3 & _); try done. destruct (Hk _ t_arch_data) as (E4 & _); try done.
  destruct (Hk _ t_msg_buffer) as (E5 & _); try done. destruct (Hk _ t_context) as (E6 & _); try done.
  rewrite E1, E3, E4, E5, E6. split_and!; try done; try congruence.
  intros j Hj. rewrite Hoth4, Hst3, Hst2, Hst1 by done. done.
Qed.
End Creation.

(** ** Every sequence of scheduler calls *)
Section Reachable.
Context {A : Type} `{!Allocator A}.
Context (tcb_trampoline idle_task_entry : Z).
Implicit Types s : sched A.

Inductive op :=
  | OpCreate (entry arg : Z) (name : option (list Z)) (prio : Z)
  | OpFree (i : nat)
  | OpSetState (i : nat) (st : task_state)
  | OpSetPriority (i : nat) (prio : Z)
  | OpSaveContext (i : nat) (ctx : cpu_context)
  | OpSchedule | OpTick | OpStart | OpExit | OpYield
  | OpBlock (i : nat) | OpUnblock (i : nat) | OpSleep (ms : Z) | OpTrampoline.

(** A call that comes back. *)
Definition back (r : option (sched A)) : option ending := s ← r; Some (Back s).
Definition exec (o : op) (s : sched A) : option ending :=
  match o with
  | OpExit => tcb_exit s
  | OpCreate entry arg name prio => back ('(_, s') ← tcb_create tcb_trampoline entry arg name prio s; Some s')
  | OpFree i => back (tcb_free (Some i) s)
  | OpSetState i st => back (Some (tcb_set_state (Some i) st s))
  | OpSetPriority i prio => back (Some (tcb_set_priority (Some i) prio s))
  | OpSaveContext i ctx => back (Some (tcb_save_context (Some i) (Some ctx) s))
  | OpSchedule => back (scheduler_schedule s)
  | OpTick => back (scheduler_tick s)
  | OpStart => back (Some (scheduler_start s))
  | OpYield => back (tcb_yield s)
  | OpBlock i => back (tcb_block (Some i) s)
  | OpUnblock i => back (tcb_unblock (Some i) s)
  | OpSleep ms => back (tcb_sleep ms s)
  | OpTrampoline => back ('(_, s') ← trampoline_start s; Some s')
  end.

(** What the kernel's callers respect: pointers into the pool, a tid counter
    that has not overflowed, [tcb_set_state] with READY, BLOCKED or ZOMBIE
    only, the trampoline run by a task, and waiting for the timer with interrupts on. *)
Definition enabled (o : op) (s : sched A) : Prop :=
  match o with
  | OpCreate _ _ _ _ => next_tid s < 2 ^ 31 - 1
  | OpSetState _ st => st <> TASK_STATE_FREE /\ st <> TASK_STATE_RUNNING
  | OpBlock i | OpUnblock i => (i < TCB_MAX_TASKS)%nat
  | OpTrampoline => current_task s <> None
  | OpSleep _ => current_task s = None -> iflag s = true
  | _ => True
  end.

(** The [.bss] and [.data] image of tcb.c. *)
Definition zero_tcb : tcb :=
  mk_tcb 0 0 (replicate 32 0) TASK_STATE_FREE 0 0 (mk_context 0 0 0 0 0 0 0 0 0 0 0 0 0 0 0 0 0)
    0 0 0 0 0 0 None None 0 0 0 0 0 0 (mk_limits 0 0 0) 0 0 (mk_accounting 0 0 0 0) None None None 0.
Definition boot (h : A) : sched A := mk_sched (fun _ => zero_tcb) 1 None None None 0 false None false h.

Inductive reachable (h : A) : sched A -> Prop :=
  | reach_init s : scheduler_init tcb_trampoline idle_task_entry (boot h) = Some s -> reachable h s
  | reach_step s o e : reachable h s -> enabled o s -> exec o s = Some e -> reachable h (after_call e).

Lemma tcb_init_pool n i s :
  (forall j, task_pool s j = zero_tcb \/ task_pool s j = set_tid TCB_INVALID_TID zero_tcb) ->
  forall j, task_pool (tcb_init_loop n i s) j = zero_tcb \/
            task_pool (tcb_init_loop n i s) j = set_tid TCB_INVALID_TID zero_tcb.
Proof.
  revert i s; induction n as [|n IH]; intros i s Hs; [done|]. cbn [tcb_init_loop]. apply IH.
  intros j. tcb_simpl. case_if; [|apply Hs]. right. by destruct (Hs i) as [-> | ->].
Qed.

Lemma tcb_init_loop_rest n i s :
  next_tid (tcb_init_loop n i s) = next_tid s /\ scheduler_initialized (tcb_init_loop n i s) = scheduler_initialized s /\
  idle_task (tcb_init_loop n i s) = idle_task s /\ kheap (tcb_init_loop n i s) = kheap s.
Proof.
  revert i s; induction n as [|n IH]; intros i s; [done|]. cbn [tcb_init_loop].
  destruct (IH (S i) (upd i (fun t => set_stack_size 0 (set_kernel_stack 0 (set_prev None (set_next None
         (set_tid TCB_INVALID_TID (set_state TASK_STATE_FREE t)))))) s)) as (-> & -> & -> & ->). done.
Qed.

Lemma init_rest_inv s0 :
  a_ok (kheap s0) -> next_tid s0 = 1 -> idle_task s0 = None ->
  (forall j, task_pool s0 j = zero_tcb \/ task_pool s0 j = set_tid TCB_INVALID_TID zero_tcb) ->
  exists s l, scheduler_init_rest tcb_trampoline idle_task_entry s0 = Some s /\ sched_inv s l /\
    exists i, l = [i] /\ current_task s = Some i /\ state_of s i = TASK_STATE_RUNNING /\
      next_tid s = 2 /\ idle_task s = Some i /\ (forall j, j <> i -> state_of s j = TASK_STATE_FREE).
Proof.
  intros Hok E1 E3 Hp. unfold scheduler_init_rest. cbv zeta.
  set (s1 := set_initialized true (set_ticks _ _)).
  assert (Hi1 : sched_inv s1 []).
  { split; [split|split]; unfold s1, state_of; tcb_simpl; try done; try (by rewrite ?E3); try lia.
    - split; tcb_simpl; try done; [constructor|]. intros j _. by destruct (Hp j) as [-> | ->].
    - intros j Hj. by apply not_elem_of_nil in Hj.
    - intros j. rewrite E1. by destruct (Hp j) as [-> | ->].
    - intros j k _. by destruct (Hp j) as [-> | ->].
    - intros j. by destruct (Hp j) as [-> | ->].
    - intros j k _. by destruct (Hp j) as [-> | ->].
    - intros j. by destruct (Hp j) as [-> | ->]. }
  destruct (create_inv tcb_trampoline s1 [] idle_task_entry 0 (Some idle_name) TASK_PRIORITY_IDLE Hi1)
    as (r & s2 & l & -> & Hi2 & _ & Hr); [unfold s1; tcb_simpl; lia|].
  cbn [mbind option_bind]. eexists _, l. split; [done|].
  assert (Hi3 : sched_inv (set_idle r s2) l).
  { destruct Hi2 as [[H1 H2 H3 H4 H5 H6 H7 H8 H9 H10] [? ?]]. split; [|by split]. split; try done.
    - by apply (queue_ok_ext s2).
    - tcb_simpl. intros d ->. by destruct Hr as (_ & _ & ? & _). }
  destruct r as [i|].
  2:{ exfalso. destruct Hr as (_ & _ & Hr). apply (Hr 0%nat); [unfold TCB_MAX_TASKS; lia|].
      unfold s1, state_of. tcb_simpl. by destruct (Hp 0%nat) as [-> | ->]. }
  destruct Hr as (_ & -> & Hb & _ & Hcur & Hst & Hoth & _ & Hnt & _).
  change (current_task s1) with (@None nat) in Hcur, Hst. change (next_tid s1) with (next_tid s0) in Hnt.
  tcb_simpl. rewrite Hcur. split; [done|]. exists i. split_and!; try done; [tcb_simpl; lia|].
  intros j Hj. change (state_of s2 j = TASK_STATE_FREE). rewrite Hoth by done.
  unfold s1, state_of. tcb_simpl. by destruct (Hp j) as [-> | ->].
Qed.

Lemma tcb_init_facts n h :
  let s := set_ticks 0 (set_current None (set_tail None (set_head None
             (set_next_tid 1 (tcb_init_loop n 0 (boot h)))))) in
  kheap s = h /\ next_tid s = 1 /\ idle_task s = None /\
  forall j, task_pool s j = zero_tcb \/ task_pool s j = set_tid TCB_INVALID_TID zero_tcb.
Proof.
  destruct (tcb_init_loop_rest n 0 (boot h)) as (_ & _ & E3 & E4). tcb_simpl. rewrite E3, E4.
  split_and!; [done|done|done|]. intros j. apply tcb_init_pool. by left.
Qed.

Lemma init_inv h :
  a_ok h -> exists s l, scheduler_init tcb_trampoline idle_task_entry (boot h) = Some s /\ sched_inv s l /\
    exists i, l = [i] /\ current_task s = Some i /\ state_of s i = TASK_STATE_RUNNING /\ next_tid s = 2 /\
      (forall j, j <> i -> state_of s j = TASK_STATE_FREE).
Proof.
  intros Hok. unfold scheduler_init. cbn [boot scheduler_initialized].
  pose proof (tcb_init_facts TCB_MAX_TASKS h) as Hf. cbv zeta in Hf. fold (tcb_init (boot h)) in Hf.
  destruct Hf as (E1 & E2 & E3 & E4). generalize dependent (tcb_init (boot h)).
  intros s0 E1 E2 E3 E4. destruct (init_rest_inv s0) as (s & l & H1 & H2 & i & H3 & H4 & H5 & H6 & _ & H7); try (by rewrite ?E1).
  exists s, l. split_and!; [done|done|]. exists i. by split_and!.
Qed.

(** The two kinds of call: [tcb_exit] stays in its loop of halts, every other call
    comes back. *)
Definition ends_as (o : op) (s' : sched A) : ending :=
  match o with OpExit => Halted s' | _ => Back s' end.
Lemma after_ends o s' : after_call (ends_as o s') = s'.
Proof. by destruct o. Qed.
Lemma back_inv (r : option (sched A)) (P : sched A -> list nat -> Prop) :
  (exists s' l', r = Some s' /\ P s' l') -> exists s' l', back r = Some (Back s') /\ P s' l'.
Proof. intros (s' & l' & -> & ?). by exists s', l'. Qed.

Lemma exec_inv o s l :
  sched_inv s l -> enabled o s -> exists s' l', exec o s = Some (ends_as o s') /\ sched_inv s' l'.
Proof.
  intros Hi He. destruct o; cbn [exec enabled ends_as] in *; try apply back_inv.
  - destruct (create_inv tcb_trampoline s l entry arg name prio Hi He) as (r & s' & l' & -> & ? & _).
    by exists s', l'.
  - destruct (free_inv s l i Hi) as (s' & l' & ? & ? & _). eauto.
  - eexists _, l. split; [done|]. destruct He. by apply set_state_inv.
  - eexists _, l. split; [done|]. by apply inert_upd.
  - eexists _, l. split; [done|]. by apply inert_upd.
  - destruct (schedule_inv s l Hi) as (s' & l' & ? & ? & _). eauto.
  - destruct (tick_inv s l Hi) as (s' & l' & ? & ? & _). eauto.
  - eexists _, l. split; [done|]. unfold scheduler_start. case_if; [done|].
    destruct (current_task s) as [c|] eqn:Ec; [|done]. apply iflag_inv. destruct Hi as [Hc Hr].
    destruct (r_current _ Hr c Ec). split; [by apply core_upd|]. apply run_dispatch; try done.
    intros j Hj Hx. apply (r_running _ Hr) in Hx. congruence.
  - destruct (current_task s) as [c|] eqn:Ec; [|exists s, l; split; [by unfold tcb_exit; rewrite Ec|done]].
    destruct (exit_inv s l c Hi Ec) as (s' & l' & ? & ? & _). eauto.
  - destruct (yield_inv s l Hi) as (s' & l' & ? & ? & _). eauto.
  - destruct (block_inv s l i Hi He) as (s' & l' & ? & ? & _). eauto.
  - destruct (unblock_inv s l i Hi He) as (s' & l' & ? & ? & _). eauto.
  - destruct (sleep_inv s l ms Hi He) as (s' & l' & ? & ? & _). eauto.
  - unfold trampoline_start. destruct (current_task s) as [c|]; [|done]. eexists _, l.
    split; [done|]. apply iflag_inv. by apply inert_upd.
Qed.

Lemma reachable_sched_inv h s : a_ok h -> reachable h s -> exists l, sched_inv s l.
Proof.
  intros Hok. induction 1 as [s Hs|s o e _ IH He Hx].
  - destruct (init_inv h Hok) as (s0 & l & Hs0 & Hi & _). rewrite Hs in Hs0. injection Hs0 as <-. eauto.
  - destruct IH as [l Hi]. destruct (exec_inv o s l Hi He) as (s2 & l2 & Hx2 & ?).
    rewrite Hx in Hx2. injection Hx2 as ->. rewrite after_ends. eauto.
Qed.

(** C3. In every state reached from [scheduler_init] by any sequence of task
    creation, release, state and priority changes, ticks, yields, blocking,
    sleeping and exits, the run queue is a well-formed doubly linked list of
    distinct non-free tasks, at most one task is RUNNING and it is
    [current_task], tids are unique, and every stack a task holds is a block of
    at least [TCB_STACK_SIZE] bytes that the kernel heap has handed out and not
    taken back, with no byte in common with the stack of another task. *)
Theorem scheduler_invariant h s :
  a_ok h -> reachable h s ->
  exists l, queue_ok s l /\ (forall i, i ∈ l -> state_of s i <> TASK_STATE_FREE) /\
    (forall i, state_of s i = TASK_STATE_RUNNING -> current_task s = Some i) /\
    (forall i j, t_tid (task_pool s i) = t_tid (task_pool s j) -> 0 < t_tid (task_pool s i) -> i = j) /\
    (forall i, t_kernel_stack (task_pool s i) <> 0 ->
       exists r, a_owned (kheap s) (t_kernel_stack (task_pool s i)) r /\ TCB_STACK_SIZE <= r) /\
    (forall i j r r', i <> j -> a_owned (kheap s) (t_kernel_stack (task_pool s i)) r ->
       a_owned (kheap s) (t_kernel_stack (task_pool s j)) r' ->
       t_kernel_stack (task_pool s i) + r <= t_kernel_stack (task_pool s j) \/
       t_kernel_stack (task_pool s j) + r' <= t_kernel_stack (task_pool s i)).
Proof.
  intros Hok Hr. destruct (reachable_sched_inv h s Hok Hr) as [l [Hc Hrun]]. exists l.
  split_and!; try apply Hc; [apply Hrun|]. intros i j r r' Hne Ho Ho'.
  destruct (a_owned_disjoint _ _ _ _ _ (c_heap _ _ Hc) Ho Ho') as [[He _]|?]; [|lia].
  exfalso. apply Hne. apply (c_stacks _ _ Hc); [done|].
  destruct (a_owned_range _ _ _ (c_heap _ _ Hc) Ho). lia.
Qed.


(** [tcb_get_by_tid] finds exactly the task with that tid. *)
Theorem get_by_tid_exact h s i :
  a_ok h -> reachable h s -> (i < TCB_MAX_TASKS)%nat -> state_of s i <> TASK_STATE_FREE ->
  0 < t_tid (task_pool s i) -> tcb_get_by_tid s (t_tid (task_pool s i)) = Some i.
Proof.
  intros Hok Hr Hb Hs Ht. destruct (reachable_sched_inv h s Hok Hr) as [l [Hc _]].
  unfold tcb_get_by_tid, TCB_INVALID_TID. replace (t_tid (task_pool s i) =? -1) with false by lia.
  destruct (find_from _ 0 _) as [k|] eqn:E.
  - apply find_from_Some in E as (_ & Hk & _). bool_to_prop. f_equal. symmetry.
    by apply (c_tids _ _ Hc).
  - pose proof (find_from_None _ _ _ E i ltac:(lia)) as Hk. cbn beta in Hk.
    rewrite Z.eqb_refl in Hk. unfold is_state in Hk. by rewrite bool_decide_false in Hk.
Qed.

End Reachable.

(** ** Scheduling policy *)
Section Policy.
Context {A : Type} `{!Allocator A}.
Implicit Types s : sched A.

(** C36. The policy of [scheduler_pick_next], in every state of the invariant.  A
    running task with time left keeps the CPU unless a READY task of strictly
    higher priority is queued, and then the first such task in the queue is
    taken, not the highest one.  Otherwise the first READY task after the current
    one in circular queue order is taken, whatever its priority (the comment at
    tcb.c:390 announces a scan from the highest priority down; the code has
    none).  With no READY task queued the idle task is made READY and taken,
    or, without one, the current task; on an empty queue the current task, or
    else the idle one. *)
Theorem pick_next_policy s l order :
  sched_inv s l -> rr_order (current_task s) l order ->
  (l = [] -> scheduler_pick_next s =
     Some (match current_task s with Some c => Some c | None => idle_task s end, s)) /\
  (forall c, l <> [] -> current_task s = Some c -> keeps_cpu s c ->
     scheduler_pick_next s =
       Some (Some (match List.find (preempts s c) l with Some it => it | None => c end), s)) /\
  (forall it, (forall c, current_task s = Some c -> ~ keeps_cpu s c) ->
     List.find (ready (task_pool s)) order = Some it -> scheduler_pick_next s = Some (Some it, s)) /\
  (l <> [] -> (forall c, current_task s = Some c -> ~ keeps_cpu s c) ->
     List.find (ready (task_pool s)) order = None ->
     scheduler_pick_next s =
       match idle_task s with
       | Some d => if bool_decide (state_of s d = TASK_STATE_FREE) then Some (current_task s, s) else
           Some (Some d, if bool_decide (state_of s d = TASK_STATE_RUNNING) then s
                         else upd d (set_state TASK_STATE_READY) s)
       | None => Some (current_task s, s)
       end).
Proof.
  intros [Hc _] Ho. pose proof (c_queue _ _ Hc) as Hq. split_and!.
  - intros ->. unfold scheduler_pick_next. by rewrite (q_head _ _ Hq).
  - intros c Hne Hcur Hk. by apply pick_next_keep.
  - intros it Hk Hf. by eapply pick_next_rr.
  - intros Hne Hk Hf. rewrite (pick_next_none s l order Hq Hne Ho Hk Hf). unfold is_state.
    destruct (idle_task s) as [d|]; [|done]. by repeat case_bool_decide.
Qed.

(** The queue [c :: l] with [c] running and all the others READY. *)
Record rr_state s (q : list nat) : Prop := {
  rr_inv : sched_inv s q;
  rr_cur : current_task s = first_or q None;
  rr_run : forall c l, q = c :: l -> state_of s c = TASK_STATE_RUNNING /\
             forall i, i ∈ l -> state_of s i = TASK_STATE_READY
}.

Fixpoint yields (k : nat) s : option (sched A) :=
  match k with O => Some s | S k' => s' ← tcb_yield s; yields k' s' end.

(** An expired running task at the head goes to the tail, READY. *)
Lemma expire_head s c l :
  sched_inv s (c :: l) -> state_of s c = TASK_STATE_RUNNING -> t_time_slice (task_pool s c) = 0 ->
  exists s', expire c s = Some s' /\ sched_inv s' (l ++ [c]) /\ current_task s' = current_task s /\
    state_of s' c = TASK_STATE_READY /\ (forall i, i <> c -> state_of s' i = state_of s i).
Proof.
  intros [Hc Hr] Hs Ht. unfold expire, is_state. rewrite bool_decide_true, Ht by done. cbn [andb Z.eqb].
  set (s0 := upd c _ s).
  assert (Hc0 : core_inv s0 (c :: l)) by (by apply core_upd).
  assert (Hr0 : run_inv s0) by (by apply run_upd).
  destruct (rotate_ok s0 [] c l) as (s' & -> & Hq & Hl); [apply Hc0|]. simpl in Hq.
  assert (Hst : forall i, state_of s' i = state_of s0 i)
    by (intros i; by apply (same_links_field t_state)).
  exists s'. split; [done|]. split; [split|].
  - eapply core_links; [done|done|done|]. intros j. pose proof (not_elem_of_nil j).
    rewrite elem_of_app, !elem_of_cons. tauto.
  - by eapply run_links.
  - split; [apply Hl|]. rewrite Hst. split; [unfold s0, state_of; pool_case|].
    intros i Hi. rewrite Hst. unfold s0, state_of. pool_case.
Qed.

Lemma yield_rr s c l :
  rr_state s (c :: l) -> exists s', tcb_yield s = Some s' /\ rr_state s' (l ++ [c]).
Proof.
  intros [Hi Hcur Hrun]. destruct (Hrun c l eq_refl) as [Hs Hrest]. simpl in Hcur.
  pose proof (q_nodup _ _ (c_queue _ _ (proj1 Hi))) as Hnd. apply NoDup_cons in Hnd as [Hcl Hnd].
  unfold tcb_yield. rewrite (c_init _ _ (proj1 Hi)), Hcur. cbn [negb].
  set (s0 := upd c (set_time_slice 0) (hal_cli s)).
  assert (Hi0 : sched_inv s0 (c :: l)) by (by apply inert_upd, iflag_inv).
  assert (Hs0 : forall i, state_of s0 i = state_of s i) by (intros i; unfold s0, state_of; pool_case).
  destruct (expire_head s0 c l Hi0) as (s1 & He & Hi1 & Hc1 & Hr1 & Hk1);
    [by rewrite Hs0|unfold s0; pool_case|].
  unfold scheduler_schedule. rewrite (c_init _ _ (proj1 Hi0)). cbn [negb].
  change (current_task s0) with (current_task s) in Hc1. change (current_task s0) with (current_task s).
  rewrite Hcur in Hc1 |- *. rewrite He. cbn [mbind option_bind].
  assert (Hready : forall i, i ∈ l ++ [c] -> state_of s1 i = TASK_STATE_READY).
  { intros i Hx. destruct (decide (i = c)) as [->|Hne]; [done|]. rewrite Hk1, Hs0 by done.
    apply Hrest. apply elem_of_app in Hx as [?|Hx]; [done|]. by apply list_elem_of_singleton in Hx. }
  destruct (l ++ [c]) as [|n q] eqn:Eq; [by destruct l|].
  assert (Hn : state_of s1 n = TASK_STATE_READY) by (apply Hready; by left).
  rewrite (pick_next_rr s1 (n :: q) (n :: q) n); [|apply Hi1|..].
  2:{ left. exists c, l, []. rewrite Hc1, <- Eq. by rewrite app_nil_l. }
  2:{ intros c' Hx [Hy _]. rewrite Hc1 in Hx. injection Hx as <-. congruence. }
  2:{ cbn [List.find]. unfold ready. by rewrite bool_decide_true. }
  cbn [mbind option_bind]. rewrite Hc1.
  assert (Hqn : forall i, i ∈ q -> i <> n).
  { pose proof (q_nodup _ _ (c_queue _ _ (proj1 Hi1))) as Hn1. apply NoDup_cons in Hn1 as [? _].
    intros i Hx ->. done. }
  assert (Hnb : (n < TCB_MAX_TASKS)%nat).
  { pose proof (q_bound _ _ (c_queue _ _ (proj1 Hi1))) as Hb. by apply Forall_cons in Hb as [? _]. }
  case_bool_decide as Hcn.
  - injection Hcn as ->. unfold is_state. rewrite Hn. cbn [bool_decide negb]. rewrite bool_decide_false by done.
    cbn [negb]. eexists. split; [done|]. split.
    + apply iflag_inv, start_running_inv; [apply Hi1|done|done|].
      intros j Hj Hx. apply (r_running _ (proj2 Hi1)) in Hx. congruence.
    + done.
    + intros c' l' [= <- <-]. unfold state_of, start_running. split; [pool_case|].
      intros i Hx. assert (i <> n) by auto. pool_case. apply Hready. by right.
  - destruct (switch_inv s1 (n :: q) c n Hi1 Hc1) as [Hsw Hcsw]; [congruence|done|].
    eexists. split; [done|]. split; [by apply iflag_inv|by tcb_simpl|].
    intros c' l' [= <- <-]. split.
    + unfold state_of, switch_to, refill, start_running, is_state.
      repeat (case_if; tcb_simpl; rewrite ?Nat.eqb_refl; tcb_simpl; try done).
    + intros i Hx. assert (i <> n) by auto. assert (Hir : state_of s1 i = TASK_STATE_READY) by (apply Hready; by right).
      unfold state_of, switch_to, refill, start_running, is_state in *.
      repeat (case_if; tcb_simpl); bool_to_prop; subst; done.
Qed.

Lemma yields_rr k s q :
  rr_state s q -> q <> [] -> (k <= length q)%nat ->
  exists s', yields k s = Some s' /\ rr_state s' (drop k q ++ take k q).
Proof.
  revert s q; induction k as [|k IH]; intros s q Hq Hne Hk.
  { exists s. rewrite drop_0, take_0, app_nil_r. done. }
  destruct q as [|c l]; [done|]. destruct (yield_rr s c l Hq) as (s1 & Hy & Hq1).
  cbn [yields]. rewrite Hy. cbn [mbind option_bind].
  destruct (IH s1 (l ++ [c]) Hq1) as (s2 & Hy2 & Hq2); [by destruct l|rewrite length_app; simpl in *; lia|].
  exists s2. split; [done|]. simpl in Hk. rewrite drop_app_le, take_app_le in Hq2 by lia.
  simpl. by rewrite <- app_assoc in Hq2.
Qed.

(** C23. Round-robin fairness: when the first task of a queue of READY tasks runs
    and each running task yields, the [k]-th task of the queue has the CPU
    after [k] yields (for every [k] below the queue length), and after as many
    yields as there are tasks the queue is back in its first order. *)
Theorem yield_round_robin k i s q :
  rr_state s q -> q !! k = Some i ->
  (exists s', yields k s = Some s' /\ current_task s' = Some i /\ state_of s' i = TASK_STATE_RUNNING) /\
  (exists s', yields (length q) s = Some s' /\ rr_state s' q).
Proof.
  intros Hq Hk. assert (Hne : q <> []) by (by intros ->). pose proof (lookup_lt_Some _ _ _ Hk).
  split.
  - destruct (yields_rr k s q Hq Hne) as (s' & Hy & Hq'); [lia|]. exists s'. split; [done|].
    rewrite (drop_S _ _ _ Hk) in Hq'. split; [by rewrite (rr_cur _ _ Hq')|]. by eapply (rr_run _ _ Hq').
  - destruct (yields_rr (length q) s q Hq Hne) as (s' & Hy & Hq'); [lia|]. exists s'. split; [done|].
    by rewrite drop_all, firstn_all, app_nil_l in Hq'.
Qed.

End Policy.

(** ** Sleeping and waking *)
Section Wake.
Context {A : Type} `{!Allocator A}.
Implicit Types s : sched A.

(** The sleeper [t] is due at tick [now]. *)
Definition due (now : Z) (t : tcb) : bool :=
  bool_decide (t_state t = TASK_STATE_BLOCKED) && negb (sleep_time (t_accounting t) =? 0) &&
  (now >=? sleep_time (t_accounting t)).

Lemma wake_effect s l i :
  sched_inv s l -> (i < TCB_MAX_TASKS)%nat ->
  exists s' l', wake i s = Some s' /\ sched_inv s' l' /\ (forall j, j ∈ l -> j ∈ l') /\
    scheduler_ticks s' = scheduler_ticks s /\
    (forall j, j <> i -> state_of s' j = state_of s j /\
                         t_accounting (task_pool s' j) = t_accounting (task_pool s j)) /\
    if due (scheduler_ticks s) (task_pool s i) then state_of s' i = TASK_STATE_READY /\ i ∈ l' else s' = s.
Proof.
  intros [Hc Hr] Hb. unfold wake, due. case_if; [|by exists s, l; split_and!; try done; split].
  set (b := upd i _ s).
  assert (H0 : sched_inv b l) by (split; [by apply core_upd|by apply run_upd]).
  assert (Hbs : state_of b i = TASK_STATE_READY) by (unfold b, state_of; pool_case).
  assert (Hbo : forall j, j <> i -> state_of b j = state_of s j /\
                         t_accounting (task_pool b j) = t_accounting (task_pool s j))
    by (intros j Hj; unfold b, state_of; pool_case).
  destruct H0 as [Hcb Hrb]. rewrite (in_queue_spec b l i) by apply Hcb. cbn [mbind option_bind].
  destruct (bool_decide_reflect (i ∈ l)) as [Hin|Hin].
  { exists b, l. by split_and!; try done; split. }
  destruct (append_inv b l i) as (s' & -> & Hc' & Hl); [done|done|done|by rewrite Hbs|].
  assert (Hst : forall j, state_of s' j = state_of b j) by (intros j; by apply (same_links_field t_state)).
  exists s', (l ++ [i]). split_and!; [done|split; [done|by eapply run_links]|..].
  - intros j Hj. apply elem_of_app. by left.
  - exact (l_ticks _ _ Hl).
  - intros j Hj. rewrite Hst, (same_links_field t_accounting b s' j) by done. by apply Hbo.
  - by rewrite Hst.
  - apply elem_of_app. right. by apply list_elem_of_singleton.
Qed.

Lemma wake_loop_effect n i s l :
  sched_inv s l -> (i + n <= TCB_MAX_TASKS)%nat ->
  exists s' l', wake_loop n i s = Some s' /\ sched_inv s' l' /\ (forall j, j ∈ l -> j ∈ l') /\
    (forall j, (j < i \/ i + n <= j)%nat -> state_of s' j = state_of s j) /\
    (forall j, (i <= j < i + n)%nat ->
       if due (scheduler_ticks s) (task_pool s j)
       then state_of s' j = TASK_STATE_READY /\ j ∈ l' else state_of s' j = state_of s j).
Proof.
  revert i s l; induction n as [|n IH]; intros i s l Hi Hb.
  { exists s, l. split_and!; try done. intros j Hj. lia. }
  cbn [wake_loop]. destruct (wake_effect s l i Hi) as (s1 & l1 & -> & Hi1 & Hl1 & Ht1 & Ho1 & Hw1); [lia|].
  cbn [mbind option_bind].
  destruct (IH (S i) s1 l1 Hi1) as (s2 & l2 & -> & Hi2 & Hl2 & Ho2 & Hw2); [lia|].
  exists s2, l2. split_and!; try done; [auto|..].
  - intros j Hj. rewrite Ho2 by lia. apply Ho1. lia.
  - intros j Hj. destruct (decide (j = i)) as [->|Hne].
    + rewrite (Ho2 i) by lia. case_if; [destruct Hw1; auto|by rewrite Hw1].
    + specialize (Hw2 j ltac:(lia)). rewrite Ht1 in Hw2. destruct (Ho1 j Hne) as [E1 E2].
      unfold due in *. unfold state_of in E1. rewrite E1, E2 in Hw2. case_if; [done|].
      rewrite Hw2. unfold state_of. done.
Qed.

(** A timer tick makes READY and queues every sleeping task whose wake-up time
    has come, and changes the state of no other task: nobody wakes early, and
    a task blocked without a wake-up time stays blocked. *)
Theorem tick_wakes_due_sleepers s l c :
  sched_inv s l -> current_task s = Some c ->
  exists s' l', scheduler_tick s = Some s' /\ sched_inv s' l' /\ (forall j, j ∈ l -> j ∈ l') /\
    forall j, (j < TCB_MAX_TASKS)%nat ->
      if due (u64 (scheduler_ticks s + 1)) (task_pool s j)
      then state_of s' j = TASK_STATE_READY /\ j ∈ l' else state_of s' j = state_of s j.
Proof.
  intros Hi Hcur. unfold scheduler_tick. cbv zeta. set (s1 := set_ticks _ s).
  assert (Hi1 : sched_inv s1 l).
  { destruct Hi as [Hc [? ?]]. split; [by apply core_ticks|by split]. }
  rewrite (c_init _ _ (proj1 Hi1)). cbn [negb].
  change (current_task s1) with (current_task s). rewrite Hcur.
  set (s2 := upd c _ s1). set (s3 := if is_state s2 c _ then _ else s2).
  assert (Hi2 : sched_inv s2 l) by (by apply inert_upd).
  assert (Hi3 : sched_inv s3 l).
  { unfold s3. case_if; [|done]. case_if; [|done]. by apply inert_upd. }
  assert (Hf : scheduler_ticks s3 = u64 (scheduler_ticks s + 1) /\ forall j, state_of s3 j = state_of s j /\
    sleep_time (t_accounting (task_pool s3 j)) = sleep_time (t_accounting (task_pool s j))).
  { unfold s3, s2, s1, state_of. repeat case_if; tcb_simpl; (split; [done|]); intros j; pool_case. }
  destruct Hf as [Ht Hf].
  destruct (wake_loop_effect TCB_MAX_TASKS 0 s3 l Hi3) as (s' & l' & -> & Hi' & Hl & _ & Hw); [done|].
  exists s', l'. split_and!; try done. intros j Hj. specialize (Hw j ltac:(lia)).
  destruct (Hf j) as [E1 E2]. unfold due in *. unfold state_of in E1 at 1 2. rewrite Ht, E1, E2 in Hw.
  case_if; [done|]. rewrite Hw. apply Hf.
Qed.

(** When the current task leaves the queue, [scheduler_remove_task] gives the
    CPU to the task at the head of the queue and marks it RUNNING whatever its
    state was: a BLOCKED head is run. *)
Theorem remove_current_runs_head s c h l :
  sched_inv s (h :: l) -> current_task s = Some c -> c ∈ l ->
  exists s', scheduler_remove_task (Some c) s = Some s' /\ current_task s' = Some h /\
    state_of s' h = TASK_STATE_RUNNING.
Proof.
  intros [Hc Hr] Hcur Hin. unfold scheduler_remove_task.
  rewrite (q_head _ _ (c_queue _ _ Hc)). cbn [first_or].
  rewrite (in_queue_spec s (h :: l) c) by apply Hc. cbn [mbind option_bind].
  rewrite bool_decide_true by (by right). cbn [negb].
  apply list_elem_of_split in Hin as (l1 & l2 & ->).
  destruct (unlink_ok s (h :: l1) c l2 (c_queue _ _ Hc)) as [Hq Hl].
  rewrite (l_current _ _ Hl), Hcur, bool_decide_true by done. rewrite (q_head _ _ Hq). cbn [first_or app].
  eexists. split; [done|]. split; [done|]. unfold state_of, run_fresh. pool_case.
Qed.

End Wake.

(** ** The theorems on a running system, with the heap of [Heap.v] *)
Section Witnesses.

#[local] Instance kernel_allocator : Allocator heap := heap_allocator 0x200000 eq_refl eq_refl.

Lemma ready_ok : a_ok h_ready.
Proof. exists bs_ready. apply ready_inv. Qed.

(** The idle task and one more task: the first runs, the second is READY. *)
Lemma two_tasks : exists s i j, reachable 0x100000 0x100040 h_ready s /\ rr_state s [i; j].
Proof.
  destruct (init_inv 0x100000 0x100040 h_ready ready_ok) as (s & l & Hs & Hi & i & -> & Hc & Hst & Hn & Hfree).
  assert (He : next_tid s < 2 ^ 31 - 1) by lia.
  destruct (create_inv 0x100000 s [i] 0x100080 0 None TASK_PRIORITY_NORMAL Hi He)
    as (r & s' & l' & Hcr & Hi' & _ & Hr).
  destruct r as [j|].
  - destruct Hr as (Hni & -> & Hb & _ & Hcur & Hsj & Hoth & _). exists s', i, j. split.
    + apply (reach_step 0x100000 0x100040 h_ready s (OpCreate 0x100080 0 None TASK_PRIORITY_NORMAL) (Back s'));
        [by constructor|done|]. cbn [exec]. by rewrite Hcr.
    + rewrite Hc in Hcur, Hsj. split; [done|done|]. intros c l [= <- <-]. split.
      * rewrite Hoth; [done|]. intros ->. apply Hni. by left.
      * intros k ->%list_elem_of_singleton. done.
  - exfalso. destruct Hr as (_ & _ & Hr). destruct (decide (i = 0%nat)) as [->|Hne].
    + apply (Hr 1%nat); [unfold TCB_MAX_TASKS; lia|]. by apply Hfree.
    + apply (Hr 0%nat); [unfold TCB_MAX_TASKS; lia|]. apply Hfree. lia.
Qed.

Lemma scheduler_invariant_witness :
  exists s l, reachable 0x100000 0x100040 h_ready s /\ queue_ok s l /\ (2 <= length l)%nat.
Proof.
  destruct two_tasks as (s & i & j & Hr & Hrr).
  destruct (scheduler_invariant 0x100000 0x100040 h_ready s ready_ok Hr) as (l & Hq & _).
  exists s, [i; j]. split; [done|]. split; [apply Hrr|simpl; lia].
Defined.


(** Task 0 runs with [slice] ticks left at priority 5; task 1 (priority 5), task 2
    (priority 10) and task 3 (priority 20) are READY, in this order. *)
Definition queued (tid prio slice : Z) (st : task_state) (nx pv : option nat) : tcb :=
  set_next nx (set_prev pv (set_time_slice slice (set_priority prio (set_state st (set_tid tid zero_tcb))))).
Definition s_queue (slice : Z) : sched heap :=
  mk_sched (fun i => match i with
                     | 0 => queued 1 5 slice TASK_STATE_RUNNING (Some 1) None
                     | 1 => queued 2 5 5 TASK_STATE_READY (Some 2) (Some 0)
                     | 2 => queued 3 10 5 TASK_STATE_READY (Some 3) (Some 1)
                     | 3 => queued 4 20 5 TASK_STATE_READY None (Some 2)
                     | _ => zero_tcb
                     end%nat) 5 (Some 0%nat) (Some 3%nat) (Some 0%nat) 0 true None false h_ready.

Lemma s_queue_inv slice : sched_inv (s_queue slice) [0; 1; 2; 3]%nat.
Proof.
  assert (Hp : forall i, t_kernel_stack (task_pool (s_queue slice) i) = 0 /\
    t_tid (task_pool (s_queue slice) i) < 5) by (intros [|[|[|[|i]]]]; done).
  split; [split|split]; try done.
  - split; try done.
    + by apply (bool_decide_unpack _).
    + repeat constructor; unfold TCB_MAX_TASKS; lia.
    + intros [|[|[|[|i]]]] Hi; [by destruct Hi; apply (bool_decide_unpack _)..|done].
  - intros i Hi. by apply list_elem_of_In in Hi as [<-|[<-|[<-|[<-|[]]]]].
  - intros i. apply Hp.
  - intros [|[|[|[|i]]]] [|[|[|[|j]]]]; done.
  - exact ready_ok.
  - intros i Hi. by destruct (Hp i).
  - intros i j _ Hi. by destruct (Hp i).
  - intros [|[|[|[|i]]]]; done.
  - intros c [= <-]. split; [unfold TCB_MAX_TASKS; lia|done].
Qed.

(** With time left task 0 is preempted by task 2, the first of higher priority and not
    the highest; with its slice used up the next task, of its own priority, runs. *)
Lemma pick_next_policy_witness :
  scheduler_pick_next (s_queue 5) = Some (Some 2%nat, s_queue 5) /\
  scheduler_pick_next (s_queue 0) = Some (Some 1%nat, s_queue 0).
Proof.
  assert (Ho : forall slice, rr_order (current_task (s_queue slice)) [0; 1; 2; 3]%nat [1; 2; 3; 0]%nat)
    by (intros slice; left; by exists 0%nat, [], [1; 2; 3]%nat).
  destruct (pick_next_policy (s_queue 5) _ _ (s_queue_inv 5) (Ho 5)) as (_ & H1 & _).
  destruct (pick_next_policy (s_queue 0) _ _ (s_queue_inv 0) (Ho 0)) as (_ & _ & H2 & _).
  split; [refine (H1 0%nat _ eq_refl _); [done|by split]|].
  apply H2; [|reflexivity]. intros c [= <-] [_ Hs]. cbn in Hs. lia.
Defined.

Lemma yield_round_robin_witness :
  exists s i j, rr_state s [i; j] /\
    exists s', yields 1 s = Some s' /\ current_task s' = Some j /\ state_of s' j = TASK_STATE_RUNNING.
Proof.
  destruct two_tasks as (s & i & j & Hr & Hrr). exists s, i, j. split; [done|].
  apply (yield_round_robin 1 j s [i; j] Hrr). done.
Defined.

Lemma tick_wakes_due_sleepers_witness :
  exists s s' l', reachable 0x100000 0x100040 h_ready s /\ scheduler_tick s = Some s' /\ sched_inv s' l'.
Proof.
  destruct two_tasks as (s & i & j & Hr & Hrr).
  destruct (tick_wakes_due_sleepers s [i; j] i (rr_inv _ _ Hrr) (rr_cur _ _ Hrr)) as (s' & l' & Ht & Hi & _).
  by exists s, s', l'.
Defined.

Lemma remove_current_runs_head_witness :
  exists s s' h c, sched_inv s [h; c] /\ state_of s h = TASK_STATE_BLOCKED /\
    scheduler_remove_task (Some c) s = Some s' /\ state_of s' h = TASK_STATE_RUNNING.
Proof.
  destruct two_tasks as (s & i & j & _ & Hrr).
  assert (Hne : j <> i).
  { pose proof (q_nodup _ _ (c_queue _ _ (proj1 (rr_inv _ _ Hrr)))) as [Hn _]%NoDup_cons.
    intros ->. apply Hn. by left. }
  destruct (rr_run _ _ Hrr i [j] eq_refl) as [Hsi Hsj].
  destruct (switch_inv s [i; j] i j (rr_inv _ _ Hrr) (rr_cur _ _ Hrr) Hne) as [Hi1 Hc1].
  { pose proof (q_bound _ _ (c_queue _ _ (proj1 (rr_inv _ _ Hrr)))) as [_ [Hb _]%Forall_cons]%Forall_cons. done. }
  set (s1 := tcb_set_state (Some i) TASK_STATE_BLOCKED (switch_to i j s)).
  assert (Hi2 : sched_inv s1 [i; j]) by (by apply set_state_inv).
  destruct (remove_current_runs_head s1 j i [j] Hi2 Hc1) as (s' & Hrm & _ & Hst); [by left|].
  exists s1, s', i, j. split_and!; try done. unfold s1, state_of, tcb_set_state. pool_case.
Defined.

End Witnesses.
