(* ===== verification/Ipc.v ===== *)
(** * ipc.c: ports, mailboxes and message passing

    A port or a task's fallback mailbox is a ring buffer of messages.  Tasks
    are the pool entries of [Tcb.v]: a send or a receive validates them with
    [tcb_get_by_tid] and blocks or wakes them with [tcb_set_state].  Serial
    messages are left out; the demonstration [ipc_demo] is in [IpcDemo.v]. *)
From S2P Require Import Prelude Mem LibString Alloc Heap Tcb.

Record message := mk_message {
  sender_tid : Z; receiver_tid : Z; msg_type : Z; msg_id : Z;
  payload : list Z;        (* the 16 bytes of the union, as four words *)
  msg_flags : Z
}.
Definition set_parties (s r : Z) (m : message) : message :=
  mk_message s r (msg_type m) (msg_id m) (payload m) (msg_flags m).
Definition set_flags (f : Z) (m : message) : message :=
  mk_message (sender_tid m) (receiver_tid m) (msg_type m) (msg_id m) (payload m) f.
Definition zero_message : message := mk_message 0 0 0 0 [0; 0; 0; 0] 0.

Definition IPC_FLAG_NONBLOCK : Z := 0x01.
Definition IPC_QUEUE_SIZE : nat := 16.
Definition TASK_MAILBOX_SIZE : nat := IPC_QUEUE_SIZE.
Definition IPC_MAX_PORTS : nat := 128.
Definition IPC_PORT_NULL : Z := -1.

(** [queue], [queue_size], [head], [tail] and the message count. *)
Record ring := mk_ring {
  rg_buf : nat -> message; rg_size : nat; rg_head : nat; rg_tail : nat; rg_count : nat
}.

Definition ring_full (r : ring) : bool := (rg_size r <=? rg_count r)%nat.

(** [queue[tail] = m; tail = (tail + 1) % size; count++] *)
Definition ring_put (r : ring) (m : message) : ring :=
  mk_ring (fun i => if (i =? rg_tail r)%nat then m else rg_buf r i) (rg_size r) (rg_head r)
    ((rg_tail r + 1) mod rg_size r) (rg_count r + 1).

Definition ring_at (r : ring) (k : nat) : message := rg_buf r ((rg_head r + k) mod rg_size r).

(** The offset from the head of the first message the receiver accepts. *)
Definition ring_search (r : ring) (from_tid : Z) : option nat :=
  if (rg_count r =? 0)%nat then None else
  if from_tid =? -1 then Some 0%nat else
  find_from (fun k => sender_tid (ring_at r k) =? from_tid) 0 (rg_count r).

(** [for (k = pos; k < cnt - 1; k++) queue[(head+k) % size] = queue[(head+k+1) % size]] *)
Fixpoint ring_shift (n k : nat) (r : ring) : ring :=
  match n with
  | O => r
  | S n' =>
      let src := ((rg_head r + k + 1) mod rg_size r)%nat in
      let dst := ((rg_head r + k) mod rg_size r)%nat in
      ring_shift n' (S k)
        (mk_ring (fun i => if (i =? dst)%nat then rg_buf r src else rg_buf r i) (rg_size r) (rg_head r)
           (rg_tail r) (rg_count r))
  end.

(** Taking out the message at offset [pos]. *)
Definition ring_take (r : ring) (pos : nat) : ring :=
  if (pos =? 0)%nat then
    mk_ring (rg_buf r) (rg_size r) ((rg_head r + 1) mod rg_size r) (rg_tail r) (rg_count r - 1)
  else
    let r1 := ring_shift (rg_count r - 1 - pos) pos r in
    mk_ring (rg_buf r1) (rg_size r) (rg_head r)
      (if (rg_tail r =? 0)%nat then rg_size r - 1 else rg_tail r - 1) (rg_count r - 1).

Definition empty_ring (size : nat) : ring := mk_ring (fun _ => zero_message) size 0 0 0.

Record port := mk_port {
  port_id : Z; p_name : list Z; p_owner : option nat; p_ring : ring
}.
Definition set_owner (o : option nat) (p : port) : port := mk_port (port_id p) (p_name p) o (p_ring p).
Definition set_ring (r : ring) (p : port) : port := mk_port (port_id p) (p_name p) (p_owner p) r.

(** [ipc_strncpy] on the 32-byte name array. *)
Fixpoint ipc_strncpy (n : nat) (src : list Z) : list Z :=
  match n, src with
  | O, _ => []
  | S n', ch :: src' => if (n' =? 0)%nat || (ch =? 0) then replicate n 0 else ch :: ipc_strncpy n' src'
  | S _, [] => replicate n 0
  end.

Section Ipc.
Context {A : Type} `{!Allocator A}.

Record ipc := mk_ipc {
  tasks : sched A;
  ipc_ports : nat -> port;
  ipc_port_used : nat -> bool;
  mailboxes : nat -> ring
}.

Definition set_tasks (s : sched A) (x : ipc) : ipc := mk_ipc s (ipc_ports x) (ipc_port_used x) (mailboxes x).
Definition upd_port (i : nat) (f : port -> port) (x : ipc) : ipc :=
  mk_ipc (tasks x) (fun j => if (j =? i)%nat then f (ipc_ports x i) else ipc_ports x j)
    (ipc_port_used x) (mailboxes x).
Definition set_used (i : nat) (b : bool) (x : ipc) : ipc :=
  mk_ipc (tasks x) (ipc_ports x) (fun j => if (j =? i)%nat then b else ipc_port_used x j) (mailboxes x).
Definition upd_mailbox (i : nat) (f : ring -> ring) (x : ipc) : ipc :=
  mk_ipc (tasks x) (ipc_ports x) (ipc_port_used x)
    (fun j => if (j =? i)%nat then f (mailboxes x i) else mailboxes x j).

Definition tid_of (x : ipc) (i : nat) : Z := t_tid (task_pool (tasks x) i).
Definition waits_for (x : ipc) (i : nat) : Z := t_waiting_for (task_pool (tasks x) i).
Definition task_is (x : ipc) (i : nat) (st : task_state) : bool := is_state (tasks x) i st.

(** [t->waiting_for = w; tcb_set_state(t, st)] *)
Definition set_wait (i : nat) (w : Z) (st : task_state) (x : ipc) : ipc :=
  set_tasks (tcb_set_state (Some i) st (upd i (set_waiting_for w) (tasks x))) x.

Definition tid_to_mbox_idx (tid : Z) : nat :=
  if tid <? 0 then 0%nat else Z.to_nat (tid mod Z.of_nat TCB_MAX_TASKS).

Definition find_port_for_task (x : ipc) (task : nat) : option nat :=
  find_from (fun i => ipc_port_used x i && bool_decide (p_owner (ipc_ports x i) = Some task))
    0 IPC_MAX_PORTS.

(** A task that exists and is neither FREE nor ZOMBIE. *)
Definition live_task (x : ipc) (i : nat) : bool :=
  negb (task_is x i TASK_STATE_FREE) && negb (task_is x i TASK_STATE_ZOMBIE).

Definition init_port (i : nat) (x : ipc) : ipc :=
  upd_port i (fun p => mk_port IPC_PORT_NULL (<[0%nat := 0]> (p_name p)) None (empty_ring IPC_QUEUE_SIZE))
    (set_used i false x).
Fixpoint init_ports (n i : nat) (x : ipc) : ipc :=
  match n with O => x | S n' => init_ports n' (S i) (init_port i x) end.
Fixpoint init_mailboxes (n i : nat) (x : ipc) : ipc :=
  match n with
  | O => x
  | S n' => init_mailboxes n' (S i) (upd_mailbox i (fun _ => empty_ring TASK_MAILBOX_SIZE) x)
  end.
Definition ipc_init (x : ipc) : ipc :=
  init_mailboxes TCB_MAX_TASKS 0 (init_ports IPC_MAX_PORTS 0 x).

Definition ipc_create_port (name : option (list Z)) (queue_size : nat) (x : ipc) : Z * ipc :=
  let queue_size := if (queue_size =? 0)%nat || (IPC_QUEUE_SIZE <? queue_size)%nat
                    then IPC_QUEUE_SIZE else queue_size in
  match find_from (fun i => negb (ipc_port_used x i)) 0 IPC_MAX_PORTS with
  | None => (-1, x)
  | Some i =>
      (Z.of_nat i,
       upd_port i (fun p => mk_port (Z.of_nat i)
         (match name with Some n => ipc_strncpy 32 n | None => <[0%nat := 0]> (p_name p) end)
         None (empty_ring queue_size)) (set_used i true x))
  end.

(** A valid index of a port in use. *)
Definition port_index (x : ipc) (id : Z) : option nat :=
  if (id <? 0) || (Z.of_nat IPC_MAX_PORTS <=? id) then None else
  if ipc_port_used x (Z.to_nat id) then Some (Z.to_nat id) else None.

(** Number of tids scanned: 1 to 2047. *)
Definition TID_SCAN : nat := Z.to_nat 2047.
#[global] Opaque TID_SCAN.

(** [for (tid = 1; tid < 2048; tid++)]: wakes the tasks blocked on [rtid] when
    [space] holds. *)
Definition wake_sender (rtid : Z) (space : ipc -> bool) (tid : Z) (x : ipc) : ipc :=
  match tcb_get_by_tid (tasks x) tid with
  | None => x
  | Some t =>
      if task_is x t TASK_STATE_BLOCKED && (waits_for x t =? rtid) && space x
      then set_wait t TCB_INVALID_TID TASK_STATE_READY x else x
  end.
Fixpoint wake_senders (n : nat) (tid : Z) (rtid : Z) (space : ipc -> bool) (x : ipc) : ipc :=
  match n with
  | O => x
  | S n' => wake_senders n' (tid + 1) rtid space (wake_sender rtid space tid x)
  end.

Definition has_space (receiver : nat) (x : ipc) : bool :=
  match find_port_for_task x receiver with
  | Some i => (rg_count (p_ring (ipc_ports x i)) <? rg_size (p_ring (ipc_ports x i)))%nat
  | None => (rg_count (mailboxes x (tid_to_mbox_idx (tid_of x receiver))) <? TASK_MAILBOX_SIZE)%nat
  end.
Definition wake_sender_waiters_for_receiver (receiver : nat) (x : ipc) : ipc :=
  wake_senders TID_SCAN 1 (tid_of x receiver) (has_space receiver) x.

Definition ipc_wakeup_waiters (id : Z) (x : ipc) : ipc :=
  match port_index x id with
  | None => x
  | Some i =>
      let owner := p_owner (ipc_ports x i) in
      let r := p_ring (ipc_ports x i) in
      let x1 :=
        match owner with
        | Some o =>
            if task_is x o TASK_STATE_BLOCKED && (0 <? rg_count r)%nat then
              let wake := (waits_for x o =? -1) ||
                match find_from (fun k => sender_tid (ring_at r k) =? waits_for x o) 0 (rg_count r) with
                | Some _ => true | None => false end in
              if wake then set_wait o TCB_INVALID_TID TASK_STATE_READY x else x
            else x
        | None => x
        end in
      if (rg_count r <? rg_size r)%nat then
        match owner with
        | Some o => wake_senders TID_SCAN 1 (tid_of x1 o) (fun _ => true) x1
        | None => x1
        end
      else x1
  end.

Definition ipc_destroy_port (id : Z) (x : ipc) : ipc :=
  match port_index x id with
  | None => x
  | Some i =>
      let x1 := set_used i false (ipc_wakeup_waiters id x) in
      upd_port i (fun p => mk_port IPC_PORT_NULL (<[0%nat := 0]> (p_name p)) None
        (mk_ring (rg_buf (p_ring p)) 0 0 0 0)) x1
  end.

Definition ipc_bind_port (task : option nat) (id : Z) (x : ipc) : Z * ipc :=
  match task, port_index x id with
  | Some t, Some i =>
      match tcb_get_by_tid (tasks x) (tid_of x t) with
      | None => (-1, x)
      | Some v =>
          if negb (live_task x v) then (-1, x) else
          match p_owner (ipc_ports x i) with
          | Some o => if (o =? t)%nat then (0, upd_port i (set_owner (Some t)) x) else (-1, x)
          | None => (0, upd_port i (set_owner (Some t)) x)
          end
      end
  | _, _ => (-1, x)
  end.

Definition ipc_unbind_port (task : option nat) (id : Z) (x : ipc) : Z * ipc :=
  match task, port_index x id with
  | Some t, Some i =>
      if bool_decide (p_owner (ipc_ports x i) = Some t) then (0, upd_port i (set_owner None) x) else (-1, x)
  | _, _ => (-1, x)
  end.

Definition ipc_wait_for_message (task : option nat) (from_tid : Z) (x : ipc) : ipc :=
  match task with None => x | Some t => set_wait t from_tid TASK_STATE_BLOCKED x end.

Definition ipc_waiting_task (task : option nat) (x : ipc) : ipc :=
  match task with
  | None => x
  | Some t => if negb (task_is x t TASK_STATE_BLOCKED) then set_wait t (-1) TASK_STATE_BLOCKED x else x
  end.

(** ** Sending *)

(** The queue of a task: its port, or its mailbox when it has none. *)
Inductive qref := QPort (i : nat) | QMbox (i : nat).
Definition queue_of (x : ipc) (t : nat) : qref :=
  match find_port_for_task x t with
  | Some i => QPort i
  | None => QMbox (tid_to_mbox_idx (tid_of x t))
  end.
Definition get_queue (x : ipc) (q : qref) : ring :=
  match q with QPort i => p_ring (ipc_ports x i) | QMbox i => mailboxes x i end.
Definition put_queue (q : qref) (r : ring) (x : ipc) : ipc :=
  match q with
  | QPort i => upd_port i (set_ring r) x
  | QMbox i => upd_mailbox i (fun _ => r) x
  end.

(** [count >= queue_size], resp. [count >= TASK_MAILBOX_SIZE]. *)
Definition queue_full (x : ipc) (q : qref) : bool :=
  match q with
  | QPort i => ring_full (p_ring (ipc_ports x i))
  | QMbox i => (TASK_MAILBOX_SIZE <=? rg_count (mailboxes x i))%nat
  end.

(** The receiver waits for [sender], or for anyone. *)
Definition awaits (x : ipc) (t : nat) (sender : Z) : bool :=
  task_is x t TASK_STATE_BLOCKED &&
  ((waits_for x t =? sender) || (waits_for x t =? -1) || (waits_for x t =? TCB_INVALID_TID)).

(** Enqueue [m] for task [t] and wake it if it waits for [sender]. *)
Definition deliver (q : qref) (t : nat) (sender : Z) (m : message) (x : ipc) : ipc :=
  let x1 := put_queue q (ring_put (get_queue x q) m) x in
  if awaits x t sender then set_wait t TCB_INVALID_TID TASK_STATE_READY x1 else x1.

(** [from], [to_] and [msg] as the caller passes them. *)
Definition ipc_send (from to_ : option nat) (msg : option message) (x : ipc) : Z * ipc :=
  match from, to_, msg with
  | Some from, Some to_, Some msg =>
      match tcb_get_by_tid (tasks x) (tid_of x from), tcb_get_by_tid (tasks x) (tid_of x to_) with
      | Some f, Some t =>
          if negb (live_task x f) then (-1, x) else
          if negb (live_task x t) then (-1, x) else
          let kmsg := set_parties (tid_of x from) (tid_of x to_) msg in
          let q := queue_of x to_ in
          if queue_full x q then
            if negb (Z.land (msg_flags kmsg) IPC_FLAG_NONBLOCK =? 0) then (-1, x)
            else (-2, set_wait f (tid_of x to_) TASK_STATE_BLOCKED x)
          else (0, deliver q t (tid_of x f) kmsg x)
      | _, _ => (-1, x)
      end
  | _, _, _ => (-1, x)
  end.

(** ** Receiving: the result, the message copied out, and the new state *)

Definition ipc_recv (task : option nat) (from_tid : Z) (x : ipc) : Z * option message * ipc :=
  match task with
  | None => (-1, None, x)
  | Some task =>
      match tcb_get_by_tid (tasks x) (tid_of x task) with
      | None => (-1, None, x)
      | Some t =>
          if negb (live_task x t) then (-1, None, x) else
          let q := queue_of x task in
          let r := get_queue x q in
          match ring_search r from_tid with
          | None => (-1, None, set_wait t from_tid TASK_STATE_BLOCKED x)
          | Some pos =>
              let x1 := put_queue q (ring_take r pos) x in
              let x2 := if task_is x1 t TASK_STATE_BLOCKED
                        then set_wait t TCB_INVALID_TID TASK_STATE_READY x1 else x1 in
              (0, Some (ring_at r pos), wake_sender_waiters_for_receiver t x2)
          end
      end
  end.

(** A reply whose sender is not a live task goes straight to the queue, as a
    kernel message, and never blocks. *)
Definition reply_direct (dest : nat) (reply : message) (x : ipc) : Z * ipc :=
  let sender := if sender_tid reply =? TCB_INVALID_TID then -2 else sender_tid reply in
  let kmsg := set_parties sender (tid_of x dest) reply in
  let q := queue_of x dest in
  if queue_full x q then (-1, x) else (0, deliver q dest sender kmsg x).

Definition ipc_reply (to_ : option nat) (reply : option message) (x : ipc) : Z * ipc :=
  match to_, reply with
  | Some to_, Some reply =>
      match tcb_get_by_tid (tasks x) (tid_of x to_) with
      | None => (-1, x)
      | Some dest =>
          if negb (live_task x dest) then (-1, x) else
          match (if negb (sender_tid reply =? TCB_INVALID_TID)
                 then tcb_get_by_tid (tasks x) (sender_tid reply) else None) with
          | Some f => if live_task x f then ipc_send (Some f) (Some dest) (Some reply) x
                      else reply_direct dest reply x
          | None => reply_direct dest reply x
          end
      end
  | _, _ => (-1, x)
  end.

Definition ipc_try_send (from to_ : option nat) (msg : option message) (x : ipc) : Z * ipc :=
  match from, to_, msg with
  | Some _, Some _, Some m =>
      ipc_send from to_ (Some (set_flags (Z.lor (msg_flags m) IPC_FLAG_NONBLOCK) m)) x
  | _, _, _ => (-1, x)
  end.

Definition ipc_try_recv (task : option nat) (from_tid : Z) (x : ipc) : Z * option message * ipc :=
  match task with
  | None => (-1, None, x)
  | Some t0 =>
      match tcb_get_by_tid (tasks x) (tid_of x t0) with
      | None => (-1, None, x)
      | Some _ =>
          match ring_search (get_queue x (queue_of x t0)) from_tid with
          | None => (-1, None, x)
          | Some _ => ipc_recv task from_tid x
          end
      end
  end.

Definition ipc_port_send (id : Z) (from : option nat) (msg : option message) (x : ipc) : Z * ipc :=
  match from, msg, port_index x id with
  | Some _, Some _, Some i =>
      match p_owner (ipc_ports x i) with
      | None => (-1, x)
      | Some dest => ipc_send from (Some dest) msg x
      end
  | _, _, _ => (-1, x)
  end.

Definition ipc_port_recv (id : Z) (task : option nat) (from_tid : Z) (x : ipc) : Z * option message * ipc :=
  match task, port_index x id with
  | Some t, Some i =>
      if bool_decide (p_owner (ipc_ports x i) = Some t) then ipc_recv task from_tid x else (-1, None, x)
  | _, _ => (-1, None, x)
  end.

End Ipc.

Arguments ipc : clear implicits.

(** ** A ring is a bounded first-in first-out queue *)

Record ring_ok (r : ring) : Prop := {
  ok_size : (0 < rg_size r <= IPC_QUEUE_SIZE)%nat;
  ok_head : (rg_head r < rg_size r)%nat;
  ok_count : (rg_count r <= rg_size r)%nat;
  ok_tail : rg_tail r = ((rg_head r + rg_count r) mod rg_size r)%nat
}.

(** The queued messages, oldest first. *)
Definition contents (r : ring) : list message := map (ring_at r) (seq 0 (rg_count r)).

Lemma lookup_contents r k :
  contents r !! k = if (k <? rg_count r)%nat then Some (ring_at r k) else None.
Proof.
  unfold contents. destruct (k <? rg_count r)%nat eqn:E; bool_to_prop.
  - by rewrite list_lookup_fmap, lookup_seq_lt by done.
  - apply lookup_ge_None. rewrite length_map, length_seq. done.
Qed.

Lemma length_contents r : length (contents r) = rg_count r.
Proof. unfold contents. by rewrite length_map, length_seq. Qed.

Lemma offset_inj h k k' n :
  (k < n)%nat -> (k' < n)%nat -> ((h + k) mod n = (h + k') mod n)%nat -> k = k'.
Proof.
  intros Hk Hk' He.
  pose proof (Nat.div_mod_eq (h + k) n). pose proof (Nat.div_mod_eq (h + k') n).
  set (q := ((h + k) / n)%nat) in *. set (q' := ((h + k') / n)%nat) in *.
  assert (~ (q < q')%nat) by nia. assert (~ (q' < q)%nat) by nia. assert (q = q') by lia. nia.
Qed.

Lemma offset_eqb h k k' n :
  (k < n)%nat -> (k' < n)%nat -> ((h + k) mod n =? (h + k') mod n)%nat = (k =? k')%nat.
Proof.
  intros Hk Hk'. destruct (k =? k')%nat eqn:E; bool_to_prop.
  - subst. apply Nat.eqb_refl.
  - apply Nat.eqb_neq. intros He. apply E. by eapply offset_inj.
Qed.

Lemma ring_put_ok r m :
  ring_ok r -> ring_full r = false -> ring_ok (ring_put r m) /\ contents (ring_put r m) = contents r ++ [m].
Proof.
  intros [H1 H2 H3 H4] Hf. unfold ring_full in Hf. bool_to_prop. split.
  - split; simpl; try lia. rewrite H4, Nat.Div0.add_mod_idemp_l. f_equal. lia.
  - apply list_eq. intros k. rewrite lookup_contents. cbn [rg_count ring_put]. unfold ring_at. cbn [rg_buf rg_head rg_size ring_put].
    rewrite H4. destruct (k <? rg_count r + 1)%nat eqn:E; bool_to_prop.
    + rewrite offset_eqb by lia. destruct (k =? rg_count r)%nat eqn:Ek; bool_to_prop.
      * subst. rewrite lookup_app_r, length_contents, Nat.sub_diag by (rewrite length_contents; lia). done.
      * rewrite lookup_app_l, lookup_contents by (rewrite length_contents; lia).
        by replace (k <? rg_count r)%nat with true by (symmetry; apply Nat.ltb_lt; lia).
    + symmetry. apply lookup_ge_None. rewrite length_app, length_contents. simpl. lia.
Qed.

Lemma ring_shift_rest n k r :
  rg_size (ring_shift n k r) = rg_size r /\ rg_head (ring_shift n k r) = rg_head r.
Proof. revert k r; induction n as [|n IH]; intros k r; [done|]. cbn [ring_shift].
  by destruct (IH (S k) (mk_ring (fun i => if (i =? (rg_head r + k) mod rg_size r)%nat
    then rg_buf r ((rg_head r + k + 1) mod rg_size r) else rg_buf r i)%nat (rg_size r) (rg_head r)
    (rg_tail r) (rg_count r))) as [-> ->].
Qed.

Lemma ring_shift_at n k r j :
  (k + n < rg_size r)%nat -> (j < rg_size r)%nat ->
  ring_at (ring_shift n k r) j = if ((k <=? j) && (j <? k + n))%nat then ring_at r (j + 1) else ring_at r j.
Proof.
  revert k r; induction n as [|n IH]; intros k r Hn Hj; cbn [ring_shift].
  { by replace ((k <=? j) && (j <? k + 0))%nat with false by lia. }
  set (r1 := mk_ring _ _ _ _ _).
  assert (Hr1 : forall i, (i < rg_size r)%nat -> ring_at r1 i = if (i =? k)%nat then ring_at r (k + 1) else ring_at r i).
  { intros i Hi. unfold ring_at, r1. cbn [rg_buf rg_head rg_size]. rewrite offset_eqb by lia.
    by rewrite Nat.add_assoc. }
  rewrite IH by (cbn [rg_size r1]; lia).
  destruct ((S k <=? j) && (j <? S k + n))%nat eqn:E; bool_to_prop.
  - rewrite Hr1 by lia. replace (j + 1 =? k)%nat with false by lia.
    by replace ((k <=? j) && (j <? k + S n))%nat with true by lia.
  - rewrite Hr1 by lia. destruct (j =? k)%nat eqn:Ek; bool_to_prop.
    + subst. by replace ((k <=? k) && (k <? k + S n))%nat with true by lia.
    + by replace ((k <=? j) && (j <? k + S n))%nat with false by lia.
Qed.

Lemma ring_take_ok r pos :
  ring_ok r -> (pos < rg_count r)%nat ->
  ring_ok (ring_take r pos) /\ contents (ring_take r pos) = delete pos (contents r).
Proof.
  intros [H1 H2 H3 H4] Hp. unfold ring_take. destruct (pos =? 0)%nat eqn:E; bool_to_prop.
  - subst. split.
    + split; simpl; try lia; try (apply Nat.mod_upper_bound; lia).
      rewrite H4, Nat.Div0.add_mod_idemp_l. f_equal. lia.
    + apply list_eq. intros k. rewrite lookup_contents, list_lookup_delete_ge, lookup_contents by lia.
      cbn [rg_count]. unfold ring_at. cbn [rg_buf rg_head rg_size ring_put].
      rewrite Nat.Div0.add_mod_idemp_l. replace (rg_head r + 1 + k)%nat with (rg_head r + S k)%nat by lia.
      by replace (k <? rg_count r - 1)%nat with (S k <? rg_count r)%nat by lia.
  - split.
    + split; simpl; try lia. rewrite H4.
      destruct ((rg_head r + rg_count r) mod rg_size r =? 0)%nat eqn:Et; bool_to_prop.
      * pose proof (Nat.div_mod_eq (rg_head r + rg_count r) (rg_size r)).
        set (d := ((rg_head r + rg_count r) / rg_size r)%nat) in *.
        assert (d <> 0)%nat by (intros Hd; rewrite Hd in *; lia).
        apply Nat.mod_unique with (q := (d - 1)%nat); [lia|]. nia.
      * pose proof (Nat.div_mod_eq (rg_head r + rg_count r) (rg_size r)).
        pose proof (Nat.mod_upper_bound (rg_head r + rg_count r) (rg_size r) ltac:(lia)).
        apply Nat.mod_unique with (q := ((rg_head r + rg_count r) / rg_size r)%nat); lia.
    + apply list_eq. intros k. rewrite lookup_contents. cbn [rg_count].
      destruct (ring_shift_rest (rg_count r - 1 - pos) pos r) as [Es Eh].
      destruct (k <? rg_count r - 1)%nat eqn:Ek; bool_to_prop.
      * assert (Hat : ring_at (mk_ring (rg_buf (ring_shift (rg_count r - 1 - pos) pos r)) (rg_size r) (rg_head r)
                        (if (rg_tail r =? 0)%nat then rg_size r - 1 else rg_tail r - 1)%nat (rg_count r - 1)) k =
                      ring_at (ring_shift (rg_count r - 1 - pos) pos r) k).
        { unfold ring_at. cbn [rg_buf rg_head rg_size]. by rewrite Es, Eh. }
        rewrite Hat, ring_shift_at by lia.
        destruct ((pos <=? k) && (k <? pos + (rg_count r - 1 - pos)))%nat eqn:Ep; bool_to_prop.
        -- rewrite list_lookup_delete_ge, lookup_contents by lia.
           replace (S k <? rg_count r)%nat with true by lia. by rewrite Nat.add_1_r.
        -- rewrite list_lookup_delete_lt, lookup_contents by lia.
           by replace (k <? rg_count r)%nat with true by lia.
      * symmetry. apply lookup_ge_None. rewrite length_delete, length_contents by (rewrite lookup_contents;
          by replace (pos <? rg_count r)%nat with true by lia). lia.
Qed.

(** ** The IPC invariant *)
Section IpcCorrect.
Context {A : Type} `{!Allocator A}.
Implicit Types x : ipc A.

Record ipc_ok x : Prop := {
  x_ports : forall i, ipc_port_used x i = true -> ring_ok (p_ring (ipc_ports x i));
  x_mboxes : forall i, (i < TCB_MAX_TASKS)%nat ->
    ring_ok (mailboxes x i) /\ rg_size (mailboxes x i) = TASK_MAILBOX_SIZE;
  x_tasks : exists l, sched_inv (tasks x) l
}.

(** [x'] has the queues of [x]; only tasks differ. *)
Definition same_queues x x' : Prop :=
  ipc_ports x' = ipc_ports x /\ ipc_port_used x' = ipc_port_used x /\ mailboxes x' = mailboxes x.

Lemma mbox_idx_bound tid : (tid_to_mbox_idx tid < TCB_MAX_TASKS)%nat.
Proof.
  unfold tid_to_mbox_idx, TCB_MAX_TASKS. case_if; [lia|].
  pose proof (Z.mod_pos_bound tid (Z.of_nat 256)). lia.
Qed.

Lemma set_wait_ok x i w st :
  ipc_ok x -> st <> TASK_STATE_FREE -> st <> TASK_STATE_RUNNING -> ipc_ok (set_wait i w st x).
Proof.
  intros [H1 H2 [l Hl]] Hs1 Hs2. split; try done. exists l. unfold set_wait. cbn [tasks set_tasks].
  apply set_state_inv; [|done|done]. by apply inert_upd.
Qed.

Lemma wake_sender_ok rtid space tid x :
  ipc_ok x -> ipc_ok (wake_sender rtid space tid x).
Proof. intros Hx. unfold wake_sender. case_match; [|done]. case_if; [by apply set_wait_ok|done]. Qed.

Lemma wake_senders_ok n tid rtid space x :
  ipc_ok x -> ipc_ok (wake_senders n tid rtid space x).
Proof.
  revert tid x; induction n as [|n IH]; intros tid x Hx; [done|]. cbn [wake_senders].
  by apply IH, wake_sender_ok.
Qed.

Lemma wake_senders_queues n tid rtid space x : same_queues x (wake_senders n tid rtid space x).
Proof.
  revert tid x; induction n as [|n IH]; intros tid x; [done|]. cbn [wake_senders].
  destruct (IH (tid + 1) (wake_sender rtid space tid x)) as (E1 & E2 & E3).
  unfold same_queues. rewrite E1, E2, E3. unfold wake_sender. case_match; [|done]. case_if; done.
Qed.

(** A queue that a task can be directed to is well formed. *)
Definition valid_queue x (q : qref) : Prop :=
  match q with QPort i => ipc_port_used x i = true | QMbox i => (i < TCB_MAX_TASKS)%nat end.

Lemma queue_of_valid x t : valid_queue x (queue_of x t).
Proof.
  unfold queue_of. destruct (find_port_for_task x t) as [i|] eqn:E; [|apply mbox_idx_bound].
  apply find_from_Some in E as (_ & Hi & _). by bool_to_prop.
Qed.

Lemma queue_ring_ok x q : ipc_ok x -> valid_queue x q -> ring_ok (get_queue x q).
Proof. intros Hx Hq. destruct q; cbn in *; [by apply Hx|by apply (x_mboxes _ Hx)]. Qed.

Lemma queue_full_ring x q :
  ipc_ok x -> valid_queue x q -> queue_full x q = ring_full (get_queue x q).
Proof.
  intros Hx Hq. destruct q as [i|i]; [done|]. cbn [queue_full get_queue]. unfold ring_full.
  by destruct (x_mboxes _ Hx i Hq) as [_ ->].
Qed.

Lemma put_queue_ok x q r :
  ipc_ok x -> valid_queue x q -> ring_ok r -> rg_size r = rg_size (get_queue x q) ->
  ipc_ok (put_queue q r x) /\ get_queue (put_queue q r x) q = r /\
  (forall q', q' <> q -> get_queue (put_queue q r x) q' = get_queue x q') /\
  tasks (put_queue q r x) = tasks x.
Proof.
  intros [H1 H2 H3] Hq Hr Hs. destruct q as [i|i]; cbn [put_queue get_queue valid_queue] in *.
  - split_and!; try done.
    + split; [|done|done]. intros j Hj. cbn. destruct (j =? i)%nat eqn:E; [done|]. by apply H1.
    + cbn. by rewrite Nat.eqb_refl.
    + intros [j|j] Hne; cbn; [|done]. destruct (j =? i)%nat eqn:E; bool_to_prop; [congruence|done].
  - split_and!; try done.
    + split; [done| |done]. intros j Hj. cbn. destruct (j =? i)%nat eqn:E; [|by apply H2].
      split; [done|]. rewrite Hs. by apply H2.
    + cbn. by rewrite Nat.eqb_refl.
    + intros [j|j] Hne; cbn; [done|]. destruct (j =? i)%nat eqn:E; bool_to_prop; [congruence|done].
Qed.

Lemma ring_put_size r m : rg_size (ring_put r m) = rg_size r.
Proof. done. Qed.
Lemma ring_take_size r pos : rg_size (ring_take r pos) = rg_size r.
Proof. unfold ring_take. by case_if. Qed.

Lemma deliver_ok x q t sender m :
  ipc_ok x -> valid_queue x q -> queue_full x q = false ->
  ipc_ok (deliver q t sender m x) /\
  contents (get_queue (deliver q t sender m x) q) = contents (get_queue x q) ++ [m] /\
  (forall q', q' <> q -> get_queue (deliver q t sender m x) q' = get_queue x q') /\
  (awaits x t sender = true -> task_is (deliver q t sender m x) t TASK_STATE_READY = true).
Proof.
  intros Hx Hq Hf. rewrite queue_full_ring in Hf by done.
  destruct (ring_put_ok _ m (queue_ring_ok x q Hx Hq) Hf) as [Hr Hc].
  destruct (put_queue_ok x q _ Hx Hq Hr (ring_put_size _ _)) as (Hx1 & Hg & Ho & Ht).
  unfold deliver. cbv zeta. destruct (awaits x t sender) eqn:Ea.
  - split_and!; [by apply set_wait_ok| | |].
    + destruct q; cbn [get_queue set_wait set_tasks ipc_ports mailboxes] in *; by rewrite Hg.
    + intros q' Hne. rewrite <- (Ho q' Hne). by destruct q'.
    + intros _. unfold task_is, is_state, state_of, set_wait, tcb_set_state. cbn [tasks set_tasks].
      apply bool_decide_eq_true_2. pool_case.
  - split_and!; [done|by rewrite Hg|done|done].
Qed.

Lemma send_ok x from to_ msg : ipc_ok x -> ipc_ok (snd (ipc_send from to_ msg x)).
Proof.
  intros Hx. unfold ipc_send. destruct from as [from|], to_ as [to_|], msg as [msg|]; try done.
  destruct (tcb_get_by_tid _ (tid_of x from)) as [f|]; [|done].
  destruct (tcb_get_by_tid _ (tid_of x to_)) as [t|]; [|done].
  repeat (case_if; [done|]). case_if.
  - case_if; [done|]. by apply set_wait_ok.
  - cbn [snd]. apply deliver_ok; [done|apply queue_of_valid|done].
Qed.

Lemma ring_search_pos r from_tid pos :
  ring_search r from_tid = Some pos ->
  (pos < rg_count r)%nat /\ (from_tid <> -1 -> sender_tid (ring_at r pos) = from_tid) /\
  (from_tid = -1 -> pos = 0%nat) /\
  (from_tid <> -1 -> forall k, (k < pos)%nat -> sender_tid (ring_at r k) <> from_tid).
Proof.
  unfold ring_search. case_if; [done|]. bool_to_prop. case_if; bool_to_prop.
  - intros [= <-]. split_and!; try done. lia.
  - intros (Hp & Hs & Hk)%find_from_Some. bool_to_prop. split_and!; [lia|done|done|].
    intros _ k Hlt. specialize (Hk k ltac:(lia)). by bool_to_prop.
Qed.

Lemma recv_ok x task from_tid : ipc_ok x -> ipc_ok (snd (ipc_recv task from_tid x)).
Proof.
  intros Hx. unfold ipc_recv. destruct task as [task|]; [|done].
  destruct (tcb_get_by_tid _ _) as [t|]; [|done]. case_if; [done|].
  pose proof (queue_of_valid x task) as Hv. cbv zeta.
  destruct (ring_search _ from_tid) as [pos|] eqn:E; [|by apply set_wait_ok]. cbn [snd].
  apply ring_search_pos in E as (Hp & _).
  unfold wake_sender_waiters_for_receiver. apply wake_senders_ok.
  destruct (ring_take_ok _ pos (queue_ring_ok x _ Hx Hv) Hp) as [Hr _].
  destruct (put_queue_ok x _ _ Hx Hv Hr (ring_take_size _ _)) as (Hx1 & _).
  case_if; [by apply set_wait_ok|done].
Qed.

Lemma try_recv_ok x task from_tid : ipc_ok x -> ipc_ok (snd (ipc_try_recv task from_tid x)).
Proof.
  intros Hx. unfold ipc_try_recv. destruct task as [t|]; [|done].
  destruct (tcb_get_by_tid _ _); [|done]. destruct (ring_search _ _); [|done]. by apply recv_ok.
Qed.

Lemma reply_ok x to_ reply : ipc_ok x -> ipc_ok (snd (ipc_reply to_ reply x)).
Proof.
  intros Hx. unfold ipc_reply. destruct to_ as [to_|], reply as [reply|]; try done.
  destruct (tcb_get_by_tid _ (tid_of x to_)) as [d|]; [|done]. case_if; [done|].
  assert (Hd : ipc_ok (snd (reply_direct d reply x))).
  { unfold reply_direct. cbv zeta. case_if; [done|]. cbn [snd]. apply deliver_ok; [done|apply queue_of_valid|done]. }
  case_match; [|done]. case_if; [by apply send_ok|done].
Qed.

Lemma wakeup_waiters_ok x id : ipc_ok x -> ipc_ok (ipc_wakeup_waiters id x).
Proof.
  intros Hx. unfold ipc_wakeup_waiters. destruct (port_index x id) as [i|]; [|done]. cbv zeta.
  destruct (p_owner (ipc_ports x i)) as [o|]; [|by case_if].
  set (x1 := if task_is x o TASK_STATE_BLOCKED && _ then _ else x).
  assert (Hx1 : ipc_ok x1).
  { unfold x1. case_if; [|done]. case_if; [by apply set_wait_ok|done]. }
  clearbody x1. destruct (rg_count _ <? rg_size _)%nat; [by apply wake_senders_ok|done].
Qed.

Lemma wakeup_waiters_queues x id : same_queues x (ipc_wakeup_waiters id x).
Proof.
  unfold ipc_wakeup_waiters. destruct (port_index x id) as [i|]; [|done]. cbv zeta.
  destruct (p_owner (ipc_ports x i)) as [o|]; [|by case_if].
  set (x1 := if task_is x o TASK_STATE_BLOCKED && _ then _ else x).
  assert (Hx1 : same_queues x x1) by (unfold x1; repeat case_if; done).
  clearbody x1. case_if; [|done]. destruct Hx1 as (E1 & E2 & E3).
  destruct (wake_senders_queues TID_SCAN 1 (tid_of x1 o) (fun _ => true) x1) as (F1 & F2 & F3).
  unfold same_queues. rewrite F1, F2, F3. exact (conj E1 (conj E2 E3)).
Qed.

Lemma empty_ring_ok n : (0 < n <= IPC_QUEUE_SIZE)%nat -> ring_ok (empty_ring n).
Proof.
  intros Hn. split; cbn [empty_ring rg_size rg_head rg_count rg_tail]; try lia. by rewrite Nat.Div0.mod_0_l.
Qed.

Lemma create_port_ok x name n : ipc_ok x -> ipc_ok (snd (ipc_create_port name n x)).
Proof.
  intros [H1 H2 H3]. unfold ipc_create_port. cbv zeta.
  destruct (find_from _ 0 IPC_MAX_PORTS) as [i|]; [|by split]. split; [|done|done].
  intros j. cbn [snd upd_port set_used ipc_ports ipc_port_used].
  destruct (j =? i)%nat eqn:E; bool_to_prop; [|apply H1]. intros _. cbn [p_ring].
  apply empty_ring_ok. unfold IPC_QUEUE_SIZE.
  destruct ((n =? 0) || (16 <? n))%nat eqn:En; bool_to_prop; lia.
Qed.

Lemma destroy_port_ok x id : ipc_ok x -> ipc_ok (ipc_destroy_port id x).
Proof.
  intros Hx. unfold ipc_destroy_port. destruct (port_index x id) as [i|]; [|done].
  destruct (wakeup_waiters_ok x id Hx) as [H1 H2 H3]. cbv zeta. split; [|done|done].
  intros j. cbn. destruct (j =? i)%nat eqn:E; [done|]. apply H1.
Qed.

Lemma set_owner_ok x i o : ipc_ok x -> ipc_ok (upd_port i (set_owner o) x).
Proof.
  intros [H1 H2 H3]. split; [|done|done]. intros j Hj. cbn. specialize (H1 j Hj).
  destruct (j =? i)%nat eqn:E; bool_to_prop; [by subst|done].
Qed.

(** ** Every sequence of IPC calls *)

Inductive ipc_op :=
  | OpCreatePort (name : option (list Z)) (size : nat)
  | OpDestroyPort (id : Z)
  | OpBind (task : option nat) (id : Z)
  | OpUnbind (task : option nat) (id : Z)
  | OpWait (task : option nat) (from_tid : Z)
  | OpWaiting (task : option nat)
  | OpWakeup (id : Z)
  | OpSend (from to_ : option nat) (msg : option message)
  | OpTrySend (from to_ : option nat) (msg : option message)
  | OpReply (to_ : option nat) (msg : option message)
  | OpPortSend (id : Z) (from : option nat) (msg : option message)
  | OpRecv (task : option nat) (from_tid : Z)
  | OpTryRecv (task : option nat) (from_tid : Z)
  | OpPortRecv (id : Z) (task : option nat) (from_tid : Z).

Definition ipc_exec (o : ipc_op) x : ipc A :=
  match o with
  | OpCreatePort name size => snd (ipc_create_port name size x)
  | OpDestroyPort id => ipc_destroy_port id x
  | OpBind task id => snd (ipc_bind_port task id x)
  | OpUnbind task id => snd (ipc_unbind_port task id x)
  | OpWait task from_tid => ipc_wait_for_message task from_tid x
  | OpWaiting task => ipc_waiting_task task x
  | OpWakeup id => ipc_wakeup_waiters id x
  | OpSend from to_ msg => snd (ipc_send from to_ msg x)
  | OpTrySend from to_ msg => snd (ipc_try_send from to_ msg x)
  | OpReply to_ msg => snd (ipc_reply to_ msg x)
  | OpPortSend id from msg => snd (ipc_port_send id from msg x)
  | OpRecv task from_tid => snd (ipc_recv task from_tid x)
  | OpTryRecv task from_tid => snd (ipc_try_recv task from_tid x)
  | OpPortRecv id task from_tid => snd (ipc_port_recv id task from_tid x)
  end.

Lemma exec_ok o x : ipc_ok x -> ipc_ok (ipc_exec o x).
Proof.
  intros Hx. destruct o; cbn [ipc_exec].
  - by apply create_port_ok.
  - by apply destroy_port_ok.
  - unfold ipc_bind_port. repeat case_match; try done; by apply set_owner_ok.
  - unfold ipc_unbind_port. repeat case_match; try done; by apply set_owner_ok.
  - unfold ipc_wait_for_message. case_match; [by apply set_wait_ok|done].
  - unfold ipc_waiting_task. case_match; [|done]. case_if; [by apply set_wait_ok|done].
  - by apply wakeup_waiters_ok.
  - by apply send_ok.
  - unfold ipc_try_send. repeat case_match; try done. by apply send_ok.
  - by apply reply_ok.
  - unfold ipc_port_send. repeat case_match; try done. by apply send_ok.
  - by apply recv_ok.
  - by apply try_recv_ok.
  - unfold ipc_port_recv. repeat case_match; try done. by apply recv_ok.
Qed.

(** C6. Whatever IPC calls are made, in any order and with any arguments, every
    port in use and every mailbox stays a well-formed ring (indices in range,
    tail = head + count modulo the size, never more messages than slots), and
    the scheduler's invariant holds. *)
Theorem ipc_invariant x ops : ipc_ok x -> ipc_ok (fold_left (fun x o => ipc_exec o x) ops x).
Proof. revert x; induction ops as [|o ops IH]; intros x Hx; [done|]. simpl. by apply IH, exec_ok. Qed.


Lemma recv_lem x task t from_tid :
  ipc_ok x -> tcb_get_by_tid (tasks x) (tid_of x task) = Some t -> live_task x t = true ->
  let q := queue_of x task in
  let '(ret, out, x') := ipc_recv (Some task) from_tid x in
  match ring_search (get_queue x q) from_tid with
  | None => ret = -1 /\ out = None /\ same_queues x x' /\ task_is x' t TASK_STATE_BLOCKED = true
  | Some pos => ret = 0 /\ out = contents (get_queue x q) !! pos /\ out <> None /\
      contents (get_queue x' q) = delete pos (contents (get_queue x q)) /\
      (forall q', q' <> q -> get_queue x' q' = get_queue x q')
  end.
Proof.
  intros Hx Ht Hlt. cbv zeta. unfold ipc_recv. rewrite Ht, Hlt. cbn [negb]. cbv zeta.
  pose proof (queue_of_valid x task) as Hv. set (q := queue_of x task) in *.
  destruct (ring_search (get_queue x q) from_tid) as [pos|] eqn:E.
  2:{ split_and!; try done. unfold task_is, is_state, state_of, set_wait, tcb_set_state.
      cbn [tasks set_tasks]. apply bool_decide_eq_true_2. pool_case. }
  destruct (ring_search_pos _ _ _ E) as (Hp & _).
  destruct (ring_take_ok _ pos (queue_ring_ok x _ Hx Hv) Hp) as [Hr Hc].
  destruct (put_queue_ok x _ _ Hx Hv Hr (ring_take_size _ _)) as (_ & Hg & Ho & _).
  set (x1 := put_queue q _ x) in *. set (x2 := if task_is x1 t _ then _ else x1).
  assert (Hq : forall q', get_queue (wake_sender_waiters_for_receiver t x2) q' = get_queue x1 q').
  { unfold wake_sender_waiters_for_receiver. intros q'.
    destruct (wake_senders_queues TID_SCAN 1 (tid_of x2 t) (has_space t) x2) as (E1 & E2 & E3).
    unfold get_queue. rewrite E1, E3. unfold x2. by case_if. }
  rewrite lookup_contents. replace (pos <? rg_count (get_queue x q))%nat with true by lia.
  split_and!; try done; [by rewrite Hq, Hg|]. intros q' Hne. rewrite Hq. by apply Ho.
Qed.

(** [ipc_recv] by a live task.  If a queued message is acceptable (any, or from
    the sender asked for) it returns 0 with the oldest acceptable message,
    removes exactly that message, keeps the order of the others and touches no
    other queue; otherwise it returns -1, the task is BLOCKED and no queue
    changes. *)
Theorem ipc_recv_takes_oldest x task t from_tid :
  ipc_ok x -> tcb_get_by_tid (tasks x) (tid_of x task) = Some t -> live_task x t = true ->
  let q := queue_of x task in
  let old := contents (get_queue x q) in
  let ok m := (from_tid =? -1) || (sender_tid m =? from_tid) in
  let '(ret, out, x') := ipc_recv (Some task) from_tid x in
  (exists pos m, old !! pos = Some m /\ ok m = true /\ (forall k m', (k < pos)%nat -> old !! k = Some m' -> ok m' = false) /\
     ret = 0 /\ out = Some m /\ contents (get_queue x' q) = delete pos old /\
     (forall q', q' <> q -> get_queue x' q' = get_queue x q')) \/
  (Forall (fun m => ok m = false) old /\ ret = -1 /\ out = None /\ same_queues x x' /\
     task_is x' t TASK_STATE_BLOCKED = true).
Proof.
  intros Hx Ht Hlt. cbv zeta. pose proof (recv_lem x task t from_tid Hx Ht Hlt) as Hr. cbv zeta in Hr.
  destruct (ipc_recv (Some task) from_tid x) as [[ret out] x'].
  set (r := get_queue x (queue_of x task)) in *.
  destruct (ring_search r from_tid) as [pos|] eqn:E.
  - left. destruct Hr as (-> & -> & Hout & Hc & Ho). destruct (ring_search_pos _ _ _ E) as (Hp & Hs & H0 & Hk).
    exists pos, (ring_at r pos). assert (Hl : contents r !! pos = Some (ring_at r pos)).
    { rewrite lookup_contents. by replace (pos <? rg_count r)%nat with true by lia. }
    rewrite Hl. split_and!; try done.
    + destruct (from_tid =? -1) eqn:Ef; bool_to_prop; [done|]. rewrite Hs by done. by rewrite Z.eqb_refl.
    + intros k m' Hkp. rewrite lookup_contents. case_if; [|done]. intros [= <-].
      destruct (from_tid =? -1) eqn:Ef; bool_to_prop; [rewrite (H0 Ef) in Hkp; lia|].
      cbn [orb]. apply Z.eqb_neq. by apply Hk.
  - right. split; [|done]. apply Forall_lookup. intros k m. rewrite lookup_contents. case_if; [|done].
    intros [= <-]. bool_to_prop. unfold ring_search in E.
    replace (rg_count r =? 0)%nat with false in E by lia. destruct (from_tid =? -1); [done|].
    cbn [orb]. apply (find_from_None _ _ _ E k). lia.
Qed.

(** [ipc_try_recv] never blocks: when it does not return a message the whole
    state is as before. *)
Theorem ipc_try_recv_never_blocks x task from_tid ret out x' :
  ipc_ok x -> ipc_try_recv task from_tid x = (ret, out, x') -> ret <> 0 -> x' = x /\ out = None /\ ret = -1.
Proof.
  intros Hx. unfold ipc_try_recv. destruct task as [t0|]; [|by intros [= <- <- <-]].
  destruct (tcb_get_by_tid (tasks x) (tid_of x t0)) as [t|] eqn:Et; [|by intros [= <- <- <-]].
  destruct (ring_search (get_queue x (queue_of x t0)) from_tid) as [pos|] eqn:Es; [|by intros [= <- <- <-]].
  unfold ipc_recv. rewrite Et. destruct (live_task x t); cbn [negb]; [|by intros [= <- <- <-]].
  cbv zeta. rewrite Es. intros Heq Hne. exfalso. apply Hne.
  apply (f_equal (fun r => fst (fst r))) in Heq. exact (eq_sym Heq).
Qed.

(** Mailboxes are chosen by the tid modulo 256, so two tasks without ports
    whose tids differ by 256 share one: a message sent to the first is handed
    to the second when that one receives first. *)
Theorem mailbox_collision x from i j m :
  ipc_ok x -> find_port_for_task x i = None -> find_port_for_task x j = None ->
  0 <= tid_of x i -> tid_of x j = tid_of x i + 256 ->
  tcb_get_by_tid (tasks x) (tid_of x from) = Some from -> live_task x from = true ->
  tcb_get_by_tid (tasks x) (tid_of x i) = Some i -> live_task x i = true ->
  task_is x i TASK_STATE_BLOCKED = false ->
  tcb_get_by_tid (tasks x) (tid_of x j) = Some j -> live_task x j = true ->
  contents (mailboxes x (tid_to_mbox_idx (tid_of x i))) = [] ->
  let x1 := snd (ipc_send (Some from) (Some i) (Some m) x) in
  snd (fst (ipc_recv (Some j) (-1) x1)) = Some (set_parties (tid_of x from) (tid_of x i) m).
Proof.
  intros Hx Hpi Hpj Hti Htj Hgf Hlf Hgi Hli Hbi Hgj Hlj Hc x1.
  assert (Hidx : tid_to_mbox_idx (tid_of x j) = tid_to_mbox_idx (tid_of x i)).
  { unfold tid_to_mbox_idx, TCB_MAX_TASKS. rewrite Htj. replace (tid_of x i <? 0) with false by lia.
    replace (tid_of x i + 256 <? 0) with false by lia. f_equal. change (Z.of_nat 256) with 256. zlia. }
  set (q := QMbox (tid_to_mbox_idx (tid_of x i))).
  assert (Hq : queue_of x i = q) by (unfold queue_of; by rewrite Hpi).
  assert (Hfull : queue_full x q = false).
  { cbn. apply (f_equal length) in Hc. rewrite length_contents in Hc. simpl in Hc. rewrite Hc. done. }
  set (km := set_parties (tid_of x from) (tid_of x i) m).
  assert (E1 : x1 = put_queue q (ring_put (get_queue x q) km) x).
  { unfold x1, ipc_send. rewrite Hgf, Hgi, Hlf, Hli. cbn [negb]. cbv zeta. rewrite Hq, Hfull. cbn [snd].
    unfold deliver, awaits. rewrite Hbi. done. }
  rewrite queue_full_ring in Hfull by (done || apply mbox_idx_bound).
  destruct (ring_put_ok _ km (queue_ring_ok x q Hx (mbox_idx_bound _)) Hfull) as [Hr Hcm].
  destruct (put_queue_ok x q _ Hx (mbox_idx_bound _) Hr (ring_put_size _ _)) as (Hx1 & Hg & _ & Ht).
  rewrite <- E1 in Hx1, Hg, Ht. assert (Hqj : queue_of x1 j = q).
  { unfold queue_of. replace (find_port_for_task x1 j) with (find_port_for_task x j) by (rewrite E1; done).
    rewrite Hpj. unfold tid_of. rewrite Ht. fold (tid_of x j). by rewrite Hidx. }
  pose proof (recv_lem x1 j j (-1) Hx1) as Hrl. cbv zeta in Hrl. unfold tid_of, live_task, task_is in Hrl.
  rewrite Ht in Hrl. specialize (Hrl Hgj Hlj). rewrite Hqj, Hg in Hrl.
  destruct (ipc_recv (Some j) (-1) x1) as [[ret out] x2]. cbn [fst snd].
  change (get_queue x q) with (mailboxes x (tid_to_mbox_idx (tid_of x i))) in *. rewrite Hc in Hcm.
  assert (Hsr : ring_search (ring_put (mailboxes x (tid_to_mbox_idx (tid_of x i))) km) (-1) = Some 0%nat).
  { unfold ring_search. cbn [rg_count ring_put]. by replace (_ + 1 =? 0)%nat with false by lia. }
  rewrite Hsr, Hcm in Hrl. by destruct Hrl as (_ & -> & _).
Qed.

End IpcCorrect.

(** ** From boot, and the theorems on a concrete system *)
Section IpcBoot.
Context {A : Type} `{!Allocator A}.

Definition zero_port : port := mk_port 0 (replicate 32 0) None (empty_ring IPC_QUEUE_SIZE).
Definition ipc_boot (s : sched A) : ipc A :=
  mk_ipc s (fun _ => zero_port) (fun _ => false) (fun _ => empty_ring TASK_MAILBOX_SIZE).

Lemma init_ports_rest n i (x : ipc A) :
  (forall j, ipc_port_used x j = false) ->
  (forall j, ipc_port_used (init_ports n i x) j = false) /\ mailboxes (init_ports n i x) = mailboxes x /\
  tasks (init_ports n i x) = tasks x.
Proof.
  revert i x; induction n as [|n IH]; intros i x Hu; [done|]. cbn [init_ports].
  destruct (IH (S i) (init_port i x)) as (H1 & H2 & H3).
  { intros j. cbn. by destruct (j =? i)%nat. }
  split; [exact H1|]. rewrite H2, H3. split; reflexivity.
Qed.

Lemma init_mailboxes_rest n i (x : ipc A) :
  (forall j, mailboxes x j = empty_ring TASK_MAILBOX_SIZE) ->
  (forall j, mailboxes (init_mailboxes n i x) j = empty_ring TASK_MAILBOX_SIZE) /\
  ipc_port_used (init_mailboxes n i x) = ipc_port_used x /\ tasks (init_mailboxes n i x) = tasks x.
Proof.
  revert i x; induction n as [|n IH]; intros i x Hu; [done|]. cbn [init_mailboxes].
  destruct (IH (S i) (upd_mailbox i (fun _ => empty_ring TASK_MAILBOX_SIZE) x)) as (H1 & H2 & H3).
  { intros j. cbn [mailboxes upd_mailbox]. by destruct (j =? i)%nat. }
  split; [exact H1|]. rewrite H2, H3. split; reflexivity.
Qed.

Lemma ipc_init_ok_gen n k s l : sched_inv s l -> ipc_ok (init_mailboxes n 0 (init_ports k 0 (ipc_boot s))).
Proof.
  intros Hs. destruct (init_ports_rest k 0 (ipc_boot s)) as (H1 & H2 & H3); [done|].
  destruct (init_mailboxes_rest n 0 (init_ports k 0 (ipc_boot s))) as (H4 & H5 & H6).
  { intros j. by rewrite H2. }
  split.
  - intros i. rewrite H5, H1. discriminate.
  - intros i _. rewrite H4. split; [apply empty_ring_ok; unfold TASK_MAILBOX_SIZE, IPC_QUEUE_SIZE; lia|done].
  - exists l. by rewrite H6, H3.
Qed.

Lemma ipc_init_ok s l : sched_inv s l -> ipc_ok (ipc_init (ipc_boot s)).
Proof. intros Hs. unfold ipc_init. by apply (ipc_init_ok_gen TCB_MAX_TASKS IPC_MAX_PORTS s l). Qed.

End IpcBoot.

Section IpcWitnesses.
#[local] Instance kernel_allocator : Allocator heap := heap_allocator 0x200000 eq_refl eq_refl.

(** Three READY tasks with tids 1, 2 and 257, none queued. *)
Definition task_with (tid : Z) : tcb := set_state TASK_STATE_READY (set_tid tid zero_tcb).
Definition s_tasks : sched heap :=
  mk_sched (fun i => match i with
                     | 0 => task_with 1 | 1 => task_with 2 | 2 => task_with 257 | _ => zero_tcb
                     end%nat) 258 None None None 0 true None false h_ready.

Lemma s_tasks_inv : sched_inv s_tasks [].
Proof.
  assert (Hp : forall i, t_next (task_pool s_tasks i) = None /\ t_prev (task_pool s_tasks i) = None /\
    t_kernel_stack (task_pool s_tasks i) = 0 /\ t_tid (task_pool s_tasks i) < 258 /\
    state_of s_tasks i <> TASK_STATE_RUNNING) by (intros [|[|[|i]]]; done).
  split; [split|split]; try done.
  - split; try done; [constructor|]. intros i _. destruct (Hp i) as (? & ? & _). done.
  - intros i Hi. by apply not_elem_of_nil in Hi.
  - intros i. apply Hp.
  - intros [|[|[|i]]] [|[|[|j]]]; done.
  - exists bs_ready. apply ready_inv.
  - intros i Hi. by destruct (Hp i) as (_ & _ & ? & _).
  - intros i j _ Hi. by destruct (Hp i) as (_ & _ & ? & _).
  - intros i Hi. by destruct (Hp i) as (_ & _ & _ & _ & ?).
Qed.

Definition x_demo : ipc heap := ipc_boot s_tasks.
Lemma x_demo_ok : ipc_ok x_demo.
Proof. exact (ipc_init_ok_gen 0 0 s_tasks [] s_tasks_inv). Qed.

Definition demo_msg : message := mk_message 0 0 1 42 [0xDEADBEEF; 0xCAFEBABE; 0x12345678; 0x87654321] 0.

Lemma ipc_invariant_witness :
  ipc_ok (fold_left (fun x o => ipc_exec o x)
    [OpCreatePort None 2; OpBind (Some 1%nat) 0; OpSend (Some 0%nat) (Some 1%nat) (Some demo_msg)] x_demo).
Proof. apply (ipc_invariant x_demo). exact x_demo_ok. Defined.


Lemma ipc_recv_takes_oldest_witness :
  let x1 := snd (ipc_send (Some 0%nat) (Some 1%nat) (Some demo_msg) x_demo) in
  ipc_ok x1 /\ snd (fst (ipc_recv (Some 1%nat) 1 x1)) = Some (set_parties 1 2 demo_msg).
Proof.
  intros x1. assert (Hx1 : ipc_ok x1) by (apply send_ok, x_demo_ok). split; [exact Hx1|].
  pose proof (ipc_recv_takes_oldest x1 1 1 1 Hx1 eq_refl eq_refl) as H. cbv zeta in H.
  destruct (ipc_recv (Some 1%nat) 1 x1) as [[ret out] x2].
  change (contents (get_queue x1 (queue_of x1 1))) with [set_parties 1 2 demo_msg] in H.
  destruct H as [(pos & m & Hl & _ & _ & _ & -> & _)|[Hn _]].
  - cbn [fst snd]. destruct pos; [|done]. by injection Hl as <-.
  - by apply Forall_cons in Hn as [? _].
Defined.

Lemma ipc_try_recv_never_blocks_witness :
  snd (ipc_try_recv (Some 1%nat) (-1) x_demo) = x_demo.
Proof.
  destruct (ipc_try_recv (Some 1%nat) (-1) x_demo) as [[ret out] x'] eqn:E.
  apply (ipc_try_recv_never_blocks x_demo (Some 1%nat) (-1) ret out x' x_demo_ok E).
  apply (f_equal (fun r => fst (fst r))) in E. cbn [fst] in E. rewrite <- E. discriminate.
Defined.

Lemma mailbox_collision_witness :
  let x1 := snd (ipc_send (Some 1%nat) (Some 0%nat) (Some demo_msg) x_demo) in
  snd (fst (ipc_recv (Some 2%nat) (-1) x1)) = Some (set_parties 2 1 demo_msg).
Proof.
  apply (mailbox_collision x_demo 1 0 2 demo_msg x_demo_ok); try reflexivity. vm_compute. discriminate.
Defined.

End IpcWitnesses.
