(* ===== verification/VmMap.v ===== *)
(** * xnu_memory.c, VM maps

    A [vm_map] keeps its entries in a doubly linked list sorted by start
    address; the model is that list, read along [next] ([VmLinks.v] has the
    pointers and shows that they follow it).  Entries are kmalloc'd:
    [e_ptr] is the block, and allocation and release go through the interface
    of [Alloc.v].  Addresses are 32-bit ([mach_vm_address_t]), and sums wrap as
    in the code.  [None] means that a call does not return (lock held). *)
From S2P Require Import Prelude Mem LibString Alloc Heap.

Definition KERN_SUCCESS : Z := 0.
Definition KERN_NOT_FOUND : Z := 5.
Definition KERN_NO_SPACE : Z := 6.
Definition KERN_RESOURCE_SHORTAGE : Z := 7.
Definition KERN_FAILURE : Z := 9.
Definition KERN_INVALID_ARGUMENT : Z := 10.
Definition PAGE_SIZE : Z := 4096.
Definition sizeof_entry : Z := 32.

Record entry := mk_entry {
  e_ptr : Z; e_start : Z; e_end : Z; e_prot : Z; e_inherit : Z; e_mapped : bool; e_wired : bool
}.
Definition set_start (v : Z) (e : entry) : entry :=
  mk_entry (e_ptr e) v (e_end e) (e_prot e) (e_inherit e) (e_mapped e) (e_wired e).
Definition set_end (v : Z) (e : entry) : entry :=
  mk_entry (e_ptr e) (e_start e) v (e_prot e) (e_inherit e) (e_mapped e) (e_wired e).
Definition set_prot (v : Z) (e : entry) : entry :=
  mk_entry (e_ptr e) (e_start e) (e_end e) v (e_inherit e) (e_mapped e) (e_wired e).
Definition set_ptr (v : Z) (e : entry) : entry :=
  mk_entry v (e_start e) (e_end e) (e_prot e) (e_inherit e) (e_mapped e) (e_wired e).

Record vm_map := mk_map {
  entries : list entry; num_entries : Z; map_size : Z; map_base : Z; ref_count : Z; map_lock : Z
}.
Definition with_entries (es : list entry) (n : Z) (m : vm_map) : vm_map :=
  mk_map es n (map_size m) (map_base m) (ref_count m) (map_lock m).

Definition vm_map_init (m : option vm_map) (base size : Z) : Z * option vm_map :=
  match m with
  | None => (KERN_INVALID_ARGUMENT, None)
  | Some m => if size =? 0 then (KERN_INVALID_ARGUMENT, Some m)
              else (KERN_SUCCESS, Some (mk_map [] 0 size base 1 0))
  end.

(** [while (e) { if (cur + size <= e->start) break;
                 if (cur < e->end) cur = align_up(e->end, align); e = e->next; }] *)
Fixpoint find_gap (cur size align : Z) (es : list entry) : Z :=
  match es with
  | [] => cur
  | e :: es' =>
      if u32 (cur + size) <=? e_start e then cur
      else find_gap (if cur <? e_end e then align_up (e_end e) align else cur) size align es'
  end.

(** No entry meets [a, a + size). *)
Definition fits (a size : Z) (es : list entry) : bool :=
  forallb (fun e => (u32 (a + size) <=? e_start e) || (e_end e <=? a)) es.

Fixpoint insert_sorted (ne : entry) (es : list entry) : list entry :=
  match es with
  | [] => [ne]
  | e :: es' => if e_start e <? e_start ne then e :: insert_sorted ne es' else ne :: es
  end.

(** The address chosen by [vm_map_enter], or its error. *)
Definition choose_address (m : vm_map) (req size mask flags : Z) : Z + Z :=
  let align := if negb (mask =? 0) then u32 (mask + 1) else PAGE_SIZE in
  let align := if negb (Z.land align (u32 (align - 1)) =? 0) then PAGE_SIZE else align in
  let anywhere := negb (Z.land flags 1 =? 0) || (req =? 0) in
  if anywhere then
    let cur := find_gap (align_up (map_base m) align) size align (entries m) in
    if u32 (map_base m + map_size m) <? u32 (cur + size) then inl KERN_NO_SPACE else inr cur
  else
    let a := align_up req align in
    if (a <? map_base m) || (u32 (map_base m + map_size m) <? u32 (a + size)) then inl KERN_INVALID_ARGUMENT
    else if fits a size (entries m) then inr a else inl KERN_NO_SPACE.

(** [vaddr >= e->start && vaddr < e->end] *)
Definition covers (e : entry) (a : Z) : bool := (e_start e <=? a) && (a <? e_end e).

Definition vm_map_lookup (m : vm_map) (addr : Z) : option (Z * option entry) :=
  if negb (map_lock m =? 0) then None else
  Some (match List.find (fun e => covers e addr) (entries m) with
        | Some e => (KERN_SUCCESS, Some e)
        | None => (KERN_NOT_FOUND, None)
        end).

Section VmMap.
Context {A : Type} `{!Allocator A}.

(** Returns the code, the address written back to the caller, the map and the heap. *)
Definition vm_map_enter (m : vm_map) (addr size mask flags prot inherit : Z) (h : A)
  : option (Z * Z * vm_map * A) :=
  if size =? 0 then Some (KERN_INVALID_ARGUMENT, addr, m, h) else
  let size := align_up size PAGE_SIZE in
  if size =? 0 then Some (KERN_INVALID_ARGUMENT, addr, m, h) else
  if negb (map_lock m =? 0) then None else
  match choose_address m addr size mask flags with
  | inl err => Some (err, addr, m, h)
  | inr chosen =>
      '(ne, h1) ← a_alloc h sizeof_entry;
      if ne =? 0 then Some (KERN_RESOURCE_SHORTAGE, addr, m, h1) else
      let e := mk_entry ne chosen (u32 (chosen + size)) prot inherit true false in
      Some (KERN_SUCCESS, chosen,
            with_entries (insert_sorted e (entries m)) (u32 (num_entries m + 1)) m, h1)
  end.

(** The loop of [vm_map_remove]: code, entries, count and heap. *)
Fixpoint remove_loop (s t : Z) (es : list entry) (n : Z) (h : A) : option (Z * list entry * Z * A) :=
  match es with
  | [] => Some (KERN_SUCCESS, [], n, h)
  | e :: es' =>
      if (e_end e <=? s) || (t <=? e_start e) then
        '(r, es2, n2, h2) ← remove_loop s t es' n h; Some (r, e :: es2, n2, h2)
      else if (s <=? e_start e) && (e_end e <=? t) then
        h1 ← a_free h (e_ptr e);
        remove_loop s t es' (u32 (n - 1)) h1
      else if (e_start e <? s) && (t <? e_end e) then
        '(rgt, h1) ← a_alloc h sizeof_entry;
        if rgt =? 0 then Some (KERN_RESOURCE_SHORTAGE, e :: es', n, h1) else
        '(r, es2, n2, h2) ← remove_loop s t es' (u32 (n + 1)) h1;
        Some (r, set_end s e :: set_ptr rgt (set_start t e) :: es2, n2, h2)
      else if s <=? e_start e then
        '(r, es2, n2, h2) ← remove_loop s t es' n h; Some (r, set_start t e :: es2, n2, h2)
      else
        '(r, es2, n2, h2) ← remove_loop s t es' n h; Some (r, set_end s e :: es2, n2, h2)
  end.

Definition vm_map_remove (m : vm_map) (s t : Z) (h : A) : option (Z * vm_map * A) :=
  if t <=? s then Some (KERN_INVALID_ARGUMENT, m, h) else
  if (s <? map_base m) || (u32 (map_base m + map_size m) <? t) then Some (KERN_INVALID_ARGUMENT, m, h) else
  if negb (map_lock m =? 0) then None else
  '(r, es, n, h1) ← remove_loop s t (entries m) (num_entries m) h;
  Some (r, with_entries es n m, h1).

(** Splitting [e] at [v]: [e] keeps the left part, a new entry gets the right. *)
Definition split_at (v : Z) (e : entry) (n : Z) (h : A) : option (option (entry * entry) * Z * A) :=
  '(rgt, h1) ← a_alloc h sizeof_entry;
  if rgt =? 0 then Some (None, n, h1)
  else Some (Some (set_end v e, set_ptr rgt (set_start v e)), u32 (n + 1), h1).

(** [if (e->start < s)]: split, and go on with the right part. *)
Definition split_left (s : Z) (e : entry) (n : Z) (h : A) : option (option (list entry * entry) * Z * A) :=
  if e_start e <? s then
    '(r, n1, h1) ← split_at s e n h; Some (match r with Some (l, rgt) => Some ([l], rgt) | None => None end, n1, h1)
  else Some (Some ([], e), n, h).

(** [if (e->end > t)]: split, and keep the left part. *)
Definition split_right (t : Z) (e : entry) (n : Z) (h : A) : option (option (entry * list entry) * Z * A) :=
  if t <? e_end e then
    '(r, n1, h1) ← split_at t e n h; Some (match r with Some (l, rgt) => Some (l, [rgt]) | None => None end, n1, h1)
  else Some (Some (e, []), n, h).

(** The loop of [vm_map_protect]; [acc] holds the entries already passed, last
    first.  An entry split off on the right is visited next, as in the code. *)
Fixpoint protect_loop (fuel : nat) (s t prot : Z) (acc es : list entry) (n : Z) (found : bool) (h : A)
  : option (Z * list entry * Z * A) :=
  match fuel, es with
  | O, _ => None
  | S _, [] => Some (if found then KERN_SUCCESS else KERN_NOT_FOUND, rev acc, n, h)
  | S f, e :: es' =>
      if (e_end e <=? s) || (t <=? e_start e) then protect_loop f s t prot (e :: acc) es' n found h else
      '(r1, n1, h1) ← split_left s e n h;
      match r1 with
      | None => Some (KERN_RESOURCE_SHORTAGE, rev acc ++ e :: es', n1, h1)
      | Some (pre, e1) =>
          '(r2, n2, h2) ← split_right t e1 n1 h1;
          match r2 with
          | None => Some (KERN_RESOURCE_SHORTAGE, rev (pre ++ acc) ++ e1 :: es', n2, h2)
          | Some (mid, suf) =>
              protect_loop f s t prot (set_prot prot mid :: pre ++ acc) (suf ++ es') n2 true h2
          end
      end
  end.

Definition vm_map_protect (m : vm_map) (s t new_prot : Z) (h : A) : option (Z * vm_map * A) :=
  if t <=? s then Some (KERN_INVALID_ARGUMENT, m, h) else
  if negb (map_lock m =? 0) then None else
  '(r, es, n, h1) ← protect_loop (2 * length (entries m) + 1) s t new_prot [] (entries m)
                      (num_entries m) false h;
  Some (r, with_entries es n m, h1).

End VmMap.

(** ** The abstract map: address to protection *)

(** The protection of address [a], when it is mapped. *)
Definition mapped (es : list entry) (a : Z) : option Z :=
  e_prot <$> List.find (fun e => covers e a) es.

(** Sorted, disjoint, non-empty entries between [lo] and [hi]. *)
Fixpoint sorted_from (lo hi : Z) (es : list entry) : Prop :=
  match es with
  | [] => True
  | e :: es' => lo <= e_start e < e_end e /\ e_end e <= hi /\ sorted_from (e_end e) hi es'
  end.

Lemma mapped_cons e es a : mapped (e :: es) a = if covers e a then Some (e_prot e) else mapped es a.
Proof. unfold mapped. simpl. by destruct (covers e a). Qed.

Lemma sorted_from_weaken lo lo' hi es : lo' <= lo -> sorted_from lo hi es -> sorted_from lo' hi es.
Proof. destruct es; simpl; [done|]. intros ? (? & ? & ?). split_and!; try done; lia. Qed.

Lemma mapped_low lo hi es a : sorted_from lo hi es -> a < lo -> mapped es a = None.
Proof.
  revert lo; induction es as [|e es IH]; intros lo Hs Ha; [done|]. destruct Hs as (? & ? & Hs).
  rewrite mapped_cons. unfold covers. replace (_ && _) with false by lia. apply (IH (e_end e)); [done|lia].
Qed.

Lemma mapped_high lo hi es a : sorted_from lo hi es -> hi <= a -> mapped es a = None.
Proof.
  revert lo; induction es as [|e es IH]; intros lo Hs Ha; [done|]. destruct Hs as (? & ? & Hs).
  rewrite mapped_cons. unfold covers. replace (_ && _) with false by lia. by apply (IH (e_end e)).
Qed.

Lemma mapped_app es1 es2 a :
  mapped (es1 ++ es2) a = match mapped es1 a with Some p => Some p | None => mapped es2 a end.
Proof.
  induction es1 as [|e es1 IH]; [done|]. cbn [app]. rewrite !mapped_cons. case_if; [done|]. exact IH.
Qed.

Lemma mapped_insert lo hi ne es a :
  sorted_from lo hi es ->
  Forall (fun e => e_end ne <= e_start e \/ e_end e <= e_start ne) es ->
  mapped (insert_sorted ne es) a = if covers ne a then Some (e_prot ne) else mapped es a.
Proof.
  revert lo; induction es as [|e es IH]; intros lo Hs Hd; [by cbn [insert_sorted]; rewrite mapped_cons|].
  apply Forall_cons in Hd as [Hd1 Hd]. destruct Hs as (? & ? & Hs). cbn [insert_sorted].
  case_if; [|by rewrite mapped_cons]. rewrite !mapped_cons, (IH (e_end e)) by done.
  unfold covers. bool_to_prop. repeat case_if; bool_to_prop; try done; lia.
Qed.

Lemma sorted_insert lo hi ne es :
  sorted_from lo hi es -> lo <= e_start ne < e_end ne -> e_end ne <= hi ->
  Forall (fun e => e_end ne <= e_start e \/ e_end e <= e_start ne) es ->
  sorted_from lo hi (insert_sorted ne es).
Proof.
  revert lo; induction es as [|e es IH]; intros lo Hs H1 H2 Hd; [done|].
  apply Forall_cons in Hd as [Hd1 Hd]. destruct Hs as (? & ? & Hs). cbn [insert_sorted].
  case_if; bool_to_prop; cbn [sorted_from]; split_and!; try done; try lia.
  apply IH; try done. lia.
Qed.

Lemma sorted_app lo mid hi l1 l2 :
  sorted_from lo mid l1 -> sorted_from mid hi l2 -> lo <= mid <= hi -> sorted_from lo hi (l1 ++ l2).
Proof.
  revert lo; induction l1 as [|e l1 IH]; intros lo H1 H2 Hm; cbn [app].
  - eapply sorted_from_weaken; [|done]. lia.
  - destruct H1 as (? & ? & H1). cbn [sorted_from]. split_and!; try lia. apply IH; try done. lia.
Qed.

Lemma insert_sorted_perm ne es :
  map e_ptr (insert_sorted ne es) ≡ₚ e_ptr ne :: map e_ptr es /\
  length (insert_sorted ne es) = S (length es).
Proof.
  induction es as [|e es [IHp IHl]]; [done|]. cbn [insert_sorted]. case_if; [|done]. cbn [map length].
  rewrite IHp, IHl. split; [apply Permutation_swap|done].
Qed.

(** ** The heap blocks behind the entries *)
Section VmHeap.
Context {A : Type} `{!Allocator A}.
Implicit Types h : A.

Record heap_has h (ptrs : list Z) : Prop := {
  hh_ok : a_ok h;
  hh_nodup : NoDup ptrs;
  hh_owned : Forall (fun q => exists r, a_owned h q r /\ sizeof_entry <= r) ptrs
}.

#[export] Instance heap_has_perm h : Proper ((≡ₚ) ==> iff) (heap_has h).
Proof.
  assert (Hh : forall l1 l2, l1 ≡ₚ l2 -> heap_has h l1 -> heap_has h l2).
  { intros l1 l2 Hp [H1 H2 H3]. split; [done|by rewrite <- Hp|by rewrite <- Hp]. }
  intros l1 l2 Hp. split; apply Hh; [done|by symmetry].
Qed.

(** Distinct blocks of at least 32 bytes: at most 2^27 of them. *)
Lemma heap_has_length h ptrs : heap_has h ptrs -> Z.of_nat (length ptrs) <= 2 ^ 27.
Proof.
  intros [H1 H2 H3]. rewrite Forall_forall in H3.
  assert (Hb : forall q, q ∈ ptrs -> 0 < q < 2 ^ 32).
  { intros q Hq. destruct (H3 q Hq) as (r & Ho & Hr). destruct (a_owned_range _ _ _ H1 Ho). lia. }
  pose proof (bounded_nodup_length (map (fun q => Z.to_nat (q / 32)) ptrs) (Z.to_nat (2 ^ 27))) as Hl.
  rewrite length_map in Hl. enough ((length ptrs <= Z.to_nat (2 ^ 27))%nat) by lia. apply Hl.
  - apply (NoDup_fmap_2_strong (fun q => Z.to_nat (q / 32))); [|done]. intros q q' Hq Hq' He.
    pose proof (Hb q Hq). pose proof (Hb q' Hq').
    destruct (H3 q Hq) as (r & Ho & Hr), (H3 q' Hq') as (r' & Ho' & Hr'). unfold sizeof_entry in *.
    destruct (a_owned_disjoint _ _ _ _ _ H1 Ho Ho') as [[? _]|[?|?]]; [done|zlia|zlia].
  - apply Forall_forall. intros k Hk. apply list_elem_of_In, List.in_map_iff in Hk as (q & <- & Hq).
    apply list_elem_of_In in Hq. specialize (Hb q Hq). zlia.
Qed.

Lemma alloc_entry h ptrs :
  heap_has h ptrs ->
  a_alloc h sizeof_entry = Some (0, h) \/
  exists q h', a_alloc h sizeof_entry = Some (q, h') /\ 0 < q /\ heap_has h' (q :: ptrs).
Proof.
  intros [H1 H2 H3].
  destruct (a_alloc_spec h sizeof_entry H1) as [?|(q & r & h' & Ha & Hok & Hq & Hr & Ho & Hd & _)];
    [unfold sizeof_entry; lia|by left|right].
  exists q, h'. split; [done|]. split; [done|].
  assert (Hin : forall q', q' ∈ ptrs -> exists r', a_owned h q' r' /\ sizeof_entry <= r').
  { intros q' Hq'. rewrite Forall_forall in H3. by apply H3. }
  split; [done| |].
  - apply NoDup_cons. split; [|done]. intros Hx. destruct (Hin q Hx) as (r' & Ho' & Hr').
    specialize (Hd q r' Ho'). unfold sizeof_entry in *. lia.
  - apply Forall_cons. split; [exists r; split; [apply Ho; by right|done]|].
    apply Forall_forall. intros q' Hq'. destruct (Hin q' Hq') as (r' & ? & ?).
    exists r'. split; [apply Ho; by left|done].
Qed.

Lemma free_entry h q ptrs :
  heap_has h (q :: ptrs) -> exists h', a_free h q = Some h' /\ heap_has h' ptrs.
Proof.
  intros [H1 H2 H3]. apply Forall_cons in H3 as [(r & Ho & Hr) H3]. apply NoDup_cons in H2 as [Hq H2].
  destruct (a_free_spec h q r H1 Ho) as (h' & Hf & Hok & Ho' & _); [unfold sizeof_entry in *; lia|].
  exists h'. split; [done|]. split; [done|done|]. apply Forall_forall. intros q' Hq'.
  rewrite Forall_forall in H3. destruct (H3 q' Hq') as (r' & ? & ?). exists r'. split; [|done].
  apply Ho'. split; [done|]. by intros ->.
Qed.

(** [h] holds the entries [es], beside the blocks [frame] of others. *)
Definition holds h (frame : list Z) (es : list entry) : Prop := heap_has h (map e_ptr es ++ frame).

Lemma holds_cons h frame e es : holds h frame (e :: es) <-> holds h (e_ptr e :: frame) es.
Proof.
  unfold holds. cbn [map app]. split; intros H.
  - by rewrite <- Permutation_middle.
  - by rewrite <- Permutation_middle in H.
Qed.

Lemma holds_app h frame l1 l2 : holds h frame (l1 ++ l2) <-> holds h (map e_ptr l1 ++ frame) l2.
Proof.
  unfold holds. rewrite map_app. split; intros H; (eapply heap_has_perm; [|exact H]); solve_Permutation.
Qed.

(** ** vm_map_remove *)

Definition cut (s t : Z) (f : Z -> option Z) (a : Z) : option Z :=
  if (s <=? a) && (a <? t) then None else f a.

(** A goal about [covers] and [cut] at an address, by cases on the comparisons. *)
Ltac cover_cases :=
  unfold cut; rewrite ?mapped_cons; unfold covers; cbn [e_start e_end e_prot set_start set_end set_ptr set_prot];
  repeat case_if; bool_to_prop; try done; try lia.

Lemma remove_loop_spec s t es :
  forall lo hi n h frame, s < t -> sorted_from lo hi es -> holds h frame es ->
  0 <= n - Z.of_nat (length es) -> n < 2 ^ 32 -> (lo < s -> n + 1 < 2 ^ 32) ->
  exists r es' n' h', remove_loop s t es n h = Some (r, es', n', h') /\ holds h' frame es' /\
    sorted_from lo hi es' /\ n' - Z.of_nat (length es') = n - Z.of_nat (length es) /\
    (s <= lo -> r = KERN_SUCCESS) /\
    (r = KERN_SUCCESS /\ (forall a, mapped es' a = cut s t (mapped es) a) \/
     r = KERN_RESOURCE_SHORTAGE /\ forall a, mapped es' a = mapped es a).
Proof.
  induction es as [|e es IH]; intros lo hi n h frame Hst Hs Hh Hn Hn1 Hn2.
  { exists KERN_SUCCESS, [], n, h. split_and!; try done. left. split; [done|]. intros a. unfold cut. by case_if. }
  destruct Hs as (Hlo & Hhi & Hs). cbn [remove_loop]. cbn [length] in *.
  pose proof (proj1 (holds_cons _ _ _ _) Hh) as Hh'.
  destruct ((e_end e <=? s) || (t <=? e_start e)) eqn:E1.
  { destruct (IH (e_end e) hi n h (e_ptr e :: frame)) as (r & es' & n' & h' & -> & Hh2 & Hs2 & Hn' & Hsl & Hr);
      try done; try lia.
    exists r, (e :: es'), n', h'. split_and!; try done; [by apply holds_cons|cbn [length]; lia|intros; apply Hsl; lia|].
    destruct Hr as [[-> Hm]|[-> Hm]]; [left|right]; (split; [done|]); intros a; rewrite !mapped_cons, Hm; [|done].
    cover_cases. }
  bool_to_prop.
  assert (Hcut : forall a, e_end e <= a -> cut s t (mapped (e :: es)) a = cut s t (mapped es) a).
  { intros a Ha. cover_cases. }
  assert (Hlow : forall a, a < e_end e -> mapped es a = None) by (intros a; by apply (mapped_low _ _ _ _ Hs)).
  destruct ((s <=? e_start e) && (e_end e <=? t)) eqn:E2; bool_to_prop.
  { destruct (free_entry h (e_ptr e) (map e_ptr es ++ frame) Hh) as (h1 & -> & Hh1).
    cbn [mbind option_bind]. rewrite u32_small by lia.
    destruct (IH (e_end e) hi (n - 1) h1 frame) as (r & es' & n' & h' & -> & Hh2 & Hs2 & Hn' & Hsl & Hr);
      try done; try lia.
    exists r, es', n', h'. split_and!; try done; [eapply sorted_from_weaken; [|done]; lia|lia|intros; apply Hsl; lia|].
    left. rewrite Hsl in * by lia. split; [done|]. destruct Hr as [[_ Hm]|[? _]]; [|done].
    intros a. rewrite Hm. cover_cases; rewrite ?Hlow by lia; done. }
  destruct ((e_start e <? s) && (t <? e_end e)) eqn:E3; bool_to_prop.
  { destruct (alloc_entry h _ Hh) as [Ha|(q & h1 & Ha & Hq & Hh1)]; rewrite Ha; cbn [mbind option_bind].
    - exists KERN_RESOURCE_SHORTAGE, (e :: es), n, h. split_and!; try done; [lia|by right].
    - replace (q =? 0) with false by lia. rewrite u32_small by lia.
      destruct (IH (e_end e) hi (n + 1) h1 (q :: e_ptr e :: frame)) as (r & es' & n' & h' & -> & Hh2 & Hs2 & Hn' & Hsl & Hr);
        try done; try lia.
      { unfold holds in *. cbn [map app] in Hh1. eapply heap_has_perm; [|exact Hh1]. solve_Permutation. }
      cbn [mbind option_bind]. eexists r, _, n', h'. split; [done|]. split_and!.
      + do 2 apply holds_cons. cbn [e_ptr set_end set_ptr]. exact Hh2.
      + cbn [sorted_from]. cbn [e_start e_end set_end set_ptr set_start]. split_and!; try lia. exact Hs2.
      + cbn [length]. lia.
      + intros; apply Hsl; lia.
      + left. rewrite Hsl in * by lia. split; [done|]. destruct Hr as [[_ Hm]|[? _]]; [|done].
        intros a. rewrite !mapped_cons, Hm. cover_cases; rewrite ?Hlow by lia; done. }
  destruct (IH (e_end e) hi n h (e_ptr e :: frame)) as (r & es' & n' & h' & -> & Hh2 & Hs2 & Hn' & Hsl & Hr);
    try done; try lia.
  cbn [mbind option_bind]. rewrite Hsl in * by lia. destruct Hr as [[_ Hm]|[? _]]; [|done].
  destruct (s <=? e_start e) eqn:E4; bool_to_prop; (eexists _, _, n', h'; split; [done|]; split_and!;
    [by apply holds_cons|cbn [sorted_from]; cbn [e_start e_end set_end set_start]; split_and!; try lia; try done;
     (eapply sorted_from_weaken; [|done]; cbn; lia)|cbn [length]; lia|done|left; split; [done|]]).
  all: intros a; rewrite !mapped_cons, Hm; cover_cases; rewrite ?Hlow by lia; done.
Qed.

(** ** vm_map_protect *)

(** [f] with the mapped addresses of [s, t) repainted. *)
Definition paint (s t prot : Z) (f : Z -> option Z) (a : Z) : option Z :=
  if (s <=? a) && (a <? t) then (match f a with Some _ => Some prot | None => None end) else f a.

(** Iterations left: an entry that starts before [t] may be split and leave a
    remainder to visit. *)
Definition weight (t : Z) (es : list entry) : nat :=
  foldr (fun e w => (w + if (t <=? e_start e)%Z then 1 else 2)%nat) 0%nat es.

Lemma weight_app t l1 l2 : weight t (l1 ++ l2) = (weight t l1 + weight t l2)%nat.
Proof.
  induction l1 as [|e l1 IH]; [done|]. cbn [app weight foldr]. fold (weight t (l1 ++ l2)) (weight t l1). lia.
Qed.
Lemma weight_after t l : Forall (fun e => t <= e_start e) l -> weight t l = length l.
Proof.
  induction 1 as [|e l He Hl IH]; [done|]. cbn [weight foldr length]. fold (weight t l). rewrite IH.
  case_if; bool_to_prop; lia.
Qed.

Lemma weight_bound t es : (weight t es <= 2 * length es)%nat.
Proof. induction es as [|e es IH]; [done|]. cbn [weight foldr length]. fold (weight t es). case_if; lia. Qed.

Lemma split_at_spec v e n h frame es :
  holds h frame (e :: es) -> 0 <= n < 2 ^ 31 ->
  split_at v e n h = Some (None, n, h) \/
  exists q h', split_at v e n h = Some (Some (set_end v e, set_ptr q (set_start v e)), n + 1, h') /\
    holds h' (e_ptr e :: frame) (set_ptr q (set_start v e) :: es).
Proof.
  intros Hh Hn. unfold split_at.
  destruct (alloc_entry h _ Hh) as [->|(q & h1 & -> & Hq & Hh1)]; cbn [mbind option_bind]; [by left|right].
  replace (q =? 0) with false by lia. rewrite u32_small by lia. exists q, h1. split_and!; try done.
  unfold holds in *. cbn [map app e_ptr set_ptr] in *. eapply heap_has_perm; [|exact Hh1]. solve_Permutation.
Qed.

Lemma split_left_spec s e n h frame es :
  holds h frame (e :: es) -> 0 <= n < 2 ^ 31 -> e_start e < e_end e -> s < e_end e ->
  split_left s e n h = Some (None, n, h) \/
  exists pre e1 h1, split_left s e n h = Some (Some (pre, e1), n + Z.of_nat (length pre), h1) /\
    holds h1 (map e_ptr pre ++ frame) (e1 :: es) /\ rev pre = pre /\ (length pre <= 1)%nat /\
    e_start e1 = Z.max s (e_start e) /\ e_start e1 < e_end e1 /\ e_end e1 = e_end e /\ e_prot e1 = e_prot e /\
    sorted_from (e_start e) (e_start e1) pre /\
    forall a, mapped pre a = if covers e a && (a <? e_start e1) then Some (e_prot e) else None.
Proof.
  intros Hh Hn He Hs. unfold split_left. destruct (e_start e <? s) eqn:E; bool_to_prop.
  - destruct (split_at_spec s e n h frame es Hh Hn) as [->|(q & h1 & -> & Hh1)]; cbn [mbind option_bind]; [by left|right].
    eexists [_], _, h1. split; [done|]. split_and!; try done;
      cbn [length sorted_from e_start e_end set_end set_ptr set_start]; try lia.
    intros a. cover_cases.
  - right. exists [], e, h. cbn [length]. rewrite Z.add_0_r. split_and!; try done; try lia.
    intros a. unfold covers. case_if; [|done]. bool_to_prop. lia.
Qed.

Lemma split_right_spec t e n h frame es :
  holds h frame (e :: es) -> 0 <= n < 2 ^ 31 -> e_start e < e_end e -> e_start e < t ->
  split_right t e n h = Some (None, n, h) \/
  exists mid suf h1, split_right t e n h = Some (Some (mid, suf), n + Z.of_nat (length suf), h1) /\
    holds h1 (e_ptr mid :: frame) (suf ++ es) /\
    e_start mid = e_start e /\ e_end mid = Z.min t (e_end e) /\ e_prot mid = e_prot e /\
    (forall hi, sorted_from (e_end e) hi es -> e_end e <= hi -> sorted_from (e_end mid) hi (suf ++ es)) /\
    Forall (fun e' => t <= e_start e') suf /\ (length suf <= 1)%nat /\
    forall a, mapped suf a = if covers e a && (t <=? a) then Some (e_prot e) else None.
Proof.
  intros Hh Hn He Hs. unfold split_right. destruct (t <? e_end e) eqn:E; bool_to_prop.
  - destruct (split_at_spec t e n h frame es Hh Hn) as [->|(q & h1 & -> & Hh1)]; cbn [mbind option_bind]; [by left|right].
    eexists _, [_], h1. split; [done|]. split_and!; try done; cbn [e_start e_end set_end length]; try lia.
    + apply Forall_singleton. cbn. lia.
    + intros a. cover_cases.
  - right. exists e, [], h. cbn [length app]. rewrite Z.add_0_r. split_and!; try done; try lia.
    + by apply holds_cons in Hh.
    + intros a. unfold covers. case_if; [|done]. bool_to_prop. lia.
Qed.

Lemma holds_length h frame es :
  holds h frame es -> Z.of_nat (length es) + Z.of_nat (length frame) <= 2 ^ 27.
Proof. intros H%heap_has_length. rewrite length_app, length_map in H. lia. Qed.

(** What the loop makes of the entries [es] still to visit. *)
Definition protected (s t prot : Z) (es out : list entry) (r : Z) (found : bool) : Prop :=
  r = (if found || existsb (fun e => negb ((e_end e <=? s) || (t <=? e_start e))) es
       then KERN_SUCCESS else KERN_NOT_FOUND) /\ (forall a, mapped out a = paint s t prot (mapped es) a) \/
  r = KERN_RESOURCE_SHORTAGE /\
    forall a, mapped out a = mapped es a \/ (s <= a < t /\ is_Some (mapped es a) /\ mapped out a = Some prot).

Lemma protect_loop_spec fuel s t prot :
  forall acc es n found h frame lo hi, s < t -> sorted_from lo hi es -> holds h frame es ->
  0 <= n <= Z.of_nat (length es) + Z.of_nat (length frame) -> (weight t es < fuel)%nat ->
  exists r out n' h', protect_loop fuel s t prot acc es n found h = Some (r, rev acc ++ out, n', h') /\
    holds h' frame out /\ sorted_from lo hi out /\
    n' - Z.of_nat (length out) = n - Z.of_nat (length es) /\ protected s t prot es out r found.
Proof.
  induction fuel as [|f IH]; intros acc es n found h frame lo hi Hst Hs Hh Hn Hf; [lia|].
  pose proof (holds_length _ _ _ Hh) as Hlen.
  destruct es as [|e es]; cbn [protect_loop].
  { exists (if found then KERN_SUCCESS else KERN_NOT_FOUND), [], n, h. rewrite app_nil_r.
    split_and!; try done. left. cbn [existsb]. rewrite orb_false_r. split; [done|].
    intros a. unfold paint. by case_if. }
  destruct Hs as (Hlo & Hhi & Hs). cbn [weight foldr] in Hf. fold (weight t es) in Hf. cbn [length] in *.
  pose proof (proj1 (holds_cons _ _ _ _) Hh) as Hh'.
  assert (Hlow : forall a, a < e_end e -> mapped es a = None) by (intros a; by apply (mapped_low _ _ _ _ Hs)).
  destruct ((e_end e <=? s) || (t <=? e_start e)) eqn:E1.
  { destruct (IH (e :: acc) es n found h (e_ptr e :: frame) (e_end e) hi) as (r & out & n' & h' & -> & Hh2 & Hs2 & Hn' & Hp);
      try done; [cbn [length]; lia|destruct (t <=? e_start e); lia|].
    exists r, (e :: out), n', h'. cbn [rev]. rewrite <- app_assoc.
    split_and!; try done; [by apply holds_cons|cbn [length]; lia|].
    destruct Hp as [[-> Hm]|[-> Hm]]; [left|right].
    - split; [cbn [existsb]; by rewrite E1|]. intros a. unfold paint. rewrite !mapped_cons, Hm. unfold paint, covers.
      repeat case_if; bool_to_prop; try done; try lia.
    - split; [done|]. intros a. rewrite !mapped_cons. case_if; [by left|apply Hm]. }
  assert (Hw : (weight t es + 2 < S f)%nat) by (bool_to_prop; destruct (t <=? e_start e) eqn:Ew; bool_to_prop; lia).
  bool_to_prop.
  destruct (split_left_spec s e n h frame es Hh) as [->|(pre & e1 & h1 & -> & Hh1 & Hrev & Hpl & He1 & He1b & He1e & He1p & Hsp & Hmp)];
    [lia|lia|lia| |]; cbn [mbind option_bind].
  { exists KERN_RESOURCE_SHORTAGE, (e :: es), n, h. split_and!; try done; try (cbn [length]; lia). right. split; [done|]. by left. }
  destruct (split_right_spec t e1 (n + Z.of_nat (length pre)) h1 _ es Hh1)
    as [->|(mid & suf & h2 & -> & Hh2 & Hms & Hme & Hmp2 & Hsorted & Hsuf & Hsl & Hmsuf)];
    [lia|lia|lia| |]; cbn [mbind option_bind].
  { exists KERN_RESOURCE_SHORTAGE, (pre ++ e1 :: es), (n + Z.of_nat (length pre)), h1.
    rewrite rev_app_distr, Hrev, <- app_assoc. split_and!; try done.
    - by apply holds_app.
    - eapply (sorted_app _ (e_start e1)); [eapply sorted_from_weaken; [|exact Hsp]; lia| |lia].
      cbn [sorted_from]. rewrite He1e. split_and!; try lia. done.
    - rewrite length_app. cbn [length]. lia.
    - right. split; [done|]. intros a. left. rewrite mapped_app, !mapped_cons, Hmp, He1p. cover_cases. }
  rewrite He1e in Hsorted.
  destruct (IH (set_prot prot mid :: pre ++ acc) (suf ++ es) (n + Z.of_nat (length pre) + Z.of_nat (length suf)) true
    h2 (e_ptr mid :: map e_ptr pre ++ frame) (e_end mid) hi) as (r & out & n' & h' & -> & Hh3 & Hs3 & Hn' & Hp);
    try done.
  { by apply Hsorted. }
  { rewrite length_app. cbn [length]. rewrite length_app, length_map. lia. }
  { rewrite weight_app, weight_after by done. lia. }
  exists r, (pre ++ set_prot prot mid :: out), n', h'. cbn [rev]. rewrite rev_app_distr, Hrev, <- !app_assoc.
  split_and!; try done.
  - apply holds_app, holds_cons. done.
  - eapply (sorted_app _ (e_start e1)); [eapply sorted_from_weaken; [|exact Hsp]; lia| |lia].
    cbn [sorted_from e_start e_end set_prot]. split_and!; try lia. done.
  - rewrite length_app in *. cbn [length]. lia.
  - assert (Hme2 : forall a, mapped (pre ++ set_prot prot mid :: out) a =
      if covers e a then (if a <? e_start e1 then Some (e_prot e) else
                          if a <? t then Some prot else mapped out a) else mapped out a).
    { intros a. rewrite mapped_app, mapped_cons, Hmp. unfold covers. cbn [e_start e_end e_prot set_prot].
      repeat case_if; bool_to_prop; try done; try lia. }
    assert (Hmo : forall a, mapped (suf ++ es) a =
      if covers e1 a && (t <=? a) then Some (e_prot e) else mapped es a).
    { intros a. rewrite mapped_app, Hmsuf, He1p. by case_if. }
    destruct Hp as [[-> Hm]|[-> Hm]]; [left|right]; split.
    + cbn [existsb orb]. replace (negb ((e_end e <=? s) || (t <=? e_start e))) with true by lia.
      by rewrite orb_true_r.
    + intros a. rewrite Hme2, Hm. unfold paint. rewrite Hmo, !mapped_cons. unfold covers.
      repeat case_if; bool_to_prop; try done; try lia; rewrite ?Hlow by lia; done.
    + done.
    + intros a. specialize (Hm a). rewrite Hme2, mapped_cons. rewrite Hmo in Hm.
      destruct (covers e a) eqn:Ec; unfold covers in *; bool_to_prop.
      * destruct (a <? e_start e1) eqn:Ea; bool_to_prop; [by left|].
        destruct (a <? t) eqn:Et; bool_to_prop; [right; split_and!; [lia|lia|by eexists|done]|].
        by replace ((e_start e1 <=? a) && (a <? e_end e1) && (t <=? a)) with true in Hm by lia.
      * by replace ((e_start e1 <=? a) && (a <? e_end e1) && (t <=? a)) with false in Hm by lia.
Qed.

End VmHeap.

(** ** The operations on a well-formed map *)
Section VmCorrect.
Context {A : Type} `{!Allocator A}.
Implicit Types h : A.

Record vm_inv (m : vm_map) h : Prop := {
  vi_range : 0 < map_base m /\ 0 < map_size m /\ map_base m + map_size m < 2 ^ 32;
  vi_sorted : sorted_from (map_base m) (map_base m + map_size m) (entries m);
  vi_count : num_entries m = Z.of_nat (length (entries m));
  vi_lock : map_lock m = 0;
  vi_heap : heap_has h (map e_ptr (entries m))
}.

Lemma vm_inv_holds m h : vm_inv m h -> holds h [] (entries m).
Proof. intros Hi. unfold holds. rewrite app_nil_r. apply Hi. Qed.

Lemma vm_inv_small m h : vm_inv m h -> 0 <= num_entries m <= 2 ^ 27.
Proof.
  intros Hi. rewrite (vi_count _ _ Hi). pose proof (holds_length _ _ _ (vm_inv_holds _ _ Hi)) as Hl.
  cbn [length] in Hl. lia.
Qed.

Lemma with_entries_inv m h es h' :
  vm_inv m h -> sorted_from (map_base m) (map_base m + map_size m) es -> holds h' [] es ->
  vm_inv (with_entries es (Z.of_nat (length es)) m) h'.
Proof. intros [] Hs Hh. split; try done. unfold holds in Hh. by rewrite app_nil_r in Hh. Qed.


(** [vm_map_protect] gives the new protection to exactly the mapped addresses
    of the range, splitting the entries at its ends, and leaves every other
    address alone; it reports KERN_NOT_FOUND when no entry meets the range.
    If a split cannot be allocated, no address is mapped or unmapped and
    protections change only inside the range. *)
Theorem vm_map_protect_paints m h s t prot :
  vm_inv m h -> s < t ->
  exists r m' h', vm_map_protect m s t prot h = Some (r, m', h') /\ vm_inv m' h' /\
    protected s t prot (entries m) (entries m') r false.
Proof.
  intros Hi Hst. pose proof (vm_inv_small _ _ Hi) as Hn. unfold vm_map_protect.
  replace (t <=? s) with false by lia. rewrite (vi_lock _ _ Hi). cbn [Z.eqb negb].
  destruct (protect_loop_spec (2 * length (entries m) + 1) s t prot [] (entries m) (num_entries m) false h []
    _ _ Hst (vi_sorted _ _ Hi) (vm_inv_holds _ _ Hi)) as (r & es & n & h' & -> & Hh & Hs & Hnn & Hp).
  { rewrite (vi_count _ _ Hi). cbn [length]. lia. }
  { pose proof (weight_bound t (entries m)). lia. }
  cbn [mbind option_bind rev app]. rewrite (vi_count _ _ Hi) in Hnn.
  replace n with (Z.of_nat (length es)) by lia.
  exists r, (with_entries es (Z.of_nat (length es)) m), h'. split; [done|]. split; [by eapply with_entries_inv|done].
Qed.

Lemma align_up_bounds v k :
  0 <= v -> 0 <= k < 32 -> v + 2 ^ k <= 2 ^ 32 ->
  v <= align_up v (2 ^ k) < v + 2 ^ k /\ align_up v (2 ^ k) mod 2 ^ k = 0.
Proof.
  intros Hv Hk Hb. assert (0 < 2 ^ k) by lia. rewrite align_up_pow2, u32_small by lia.
  rewrite Z.mod_mul by lia. pose proof (Z.div_mod (v + (2 ^ k - 1)) (2 ^ k)).
  pose proof (Z.mod_pos_bound (v + (2 ^ k - 1)) (2 ^ k)). lia.
Qed.

(** First fit: the gap found lies after [cur], is aligned and meets no entry. *)
Lemma find_gap_spec es lo hi cur size k :
  sorted_from lo hi es -> 0 <= cur -> 0 < size -> 0 <= k < 32 -> cur mod 2 ^ k = 0 ->
  0 <= lo -> cur <= hi + 2 ^ k -> hi + 2 ^ k + size < 2 ^ 32 ->
  let a := find_gap cur size (2 ^ k) es in
  cur <= a <= hi + 2 ^ k /\ a mod 2 ^ k = 0 /\ Forall (fun e => a + size <= e_start e \/ e_end e <= a) es.
Proof.
  revert lo cur; induction es as [|e es IH]; intros lo cur Hs Hc Hsz Hk Hm Hlo Hch Hb; cbn [find_gap].
  { split_and!; try done; try lia. }
  destruct Hs as (? & ? & Hs). rewrite u32_small by lia. case_if; bool_to_prop.
  - split_and!; [lia|lia|done|]. apply Forall_cons. split; [by left|].
    clear IH. revert e Hs H H0 Heqb. induction es as [|e2 es IH2]; intros e Hs He1 He2 Heq; [constructor|].
    destruct Hs as (? & ? & Hs). apply Forall_cons. split; [left; lia|]. apply (IH2 e2); try done; lia.
  - set (cur' := if cur <? e_end e then align_up (e_end e) (2 ^ k) else cur).
    assert (Hc' : cur <= cur' <= hi + 2 ^ k /\ e_end e <= cur' /\ cur' mod 2 ^ k = 0).
    { unfold cur'. case_if; bool_to_prop; [|split_and!; try done; lia].
      destruct (align_up_bounds (e_end e) k) as [? ?]; [lia|lia|lia|]. split_and!; try done; lia. }
    destruct (IH (e_end e) cur') as (Hr & Hm' & Hf); try done; try lia.
    split_and!; try done; try lia. apply Forall_cons. split; [right; lia|done].
Qed.

(** An aligned address at or after [v] is at or after [align_up v]. *)
Lemma align_up_least v k x :
  0 <= v -> 0 <= k < 32 -> v + 2 ^ k <= 2 ^ 32 -> v <= x -> x mod 2 ^ k = 0 -> align_up v (2 ^ k) <= x.
Proof.
  intros Hv Hk Hb Hx Hm. assert (0 < 2 ^ k) by lia.
  destruct (align_up_bounds v k Hv Hk Hb) as [Hr Hm2].
  apply Z.mod_divide in Hm as [p Hp]; [|lia]. apply Z.mod_divide in Hm2 as [q Hq]; [|lia].
  rewrite Hp, Hq in *. assert (q < p + 1) by nia. nia.
Qed.

(** First fit, the other half: every aligned address passed over meets an entry. *)
Lemma find_gap_first es lo hi cur size k x :
  sorted_from lo hi es -> 0 <= cur -> 0 < size -> 0 <= k < 32 ->
  0 <= lo -> cur <= hi + 2 ^ k -> hi + 2 ^ k + size < 2 ^ 32 ->
  cur <= x -> x mod 2 ^ k = 0 -> x < find_gap cur size (2 ^ k) es ->
  Exists (fun e => e_start e < x + size /\ x < e_end e) es.
Proof.
  revert lo cur; induction es as [|e es IH]; intros lo cur Hs Hc Hsz Hk Hlo Hch Hb Hx Hm; cbn [find_gap]; [lia|].
  destruct Hs as (? & ? & Hs). rewrite u32_small by lia. case_if; bool_to_prop; [lia|]. intros Hg.
  destruct (decide (x < e_end e)); [by apply Exists_cons_hd; lia|]. apply Exists_cons_tl.
  destruct (align_up_bounds (e_end e) k) as [? _]; [lia|lia|lia|].
  pose proof (align_up_least (e_end e) k x).
  eapply (IH (e_end e) _ Hs); [..|exact Hg]; try done; try lia; case_if; lia.
Qed.

Lemma mapped_covered es e b : e ∈ es -> covers e b = true -> mapped es b <> None.
Proof.
  intros He Hc. unfold mapped. destruct (List.find _ es) as [e'|] eqn:E; [done|].
  apply list_elem_of_In in He. pose proof (List.find_none _ _ E e He) as Hn. cbn beta in Hn. congruence.
Qed.

Lemma meets_mapped es a n lo hi :
  sorted_from lo hi es -> 0 < n -> Exists (fun e => e_start e < a + n /\ a < e_end e) es ->
  exists b, a <= b < a + n /\ mapped es b <> None.
Proof.
  intros Hs Hn (e & He & H1 & H2)%Exists_exists.
  assert (Hlt : e_start e < e_end e).
  { revert lo Hs. induction es as [|e' es IH]; intros lo Hs; [by apply not_elem_of_nil in He|].
    destruct Hs as (? & _ & Hs). apply elem_of_cons in He as [->|He]; [lia|by eapply IH]. }
  exists (Z.max a (e_start e)). split; [lia|]. apply (mapped_covered es e); [done|]. unfold covers. lia.
Qed.

Lemma fits_exact m h a n :
  vm_inv m h -> 0 <= a -> 0 < n -> a + n < 2 ^ 32 ->
  if fits a n (entries m) then Forall (fun e => a + n <= e_start e \/ e_end e <= a) (entries m)
  else Exists (fun e => e_start e < a + n /\ a < e_end e) (entries m).
Proof.
  intros _ Ha Hn Hb. unfold fits. rewrite u32_small by lia.
  induction (entries m) as [|e es IH]; cbn [forallb]; [constructor|].
  destruct ((a + n <=? e_start e) || (e_end e <=? a)) eqn:E; cbn [andb].
  - destruct (forallb _ es); [apply Forall_cons; split; [lia|done]|by apply Exists_cons_tl].
  - apply Exists_cons_hd. lia.
Qed.

(** [mask] asks for the alignment [2 ^ k]. *)
Definition mask_align (mask k : Z) : Prop := mask = 0 /\ k = 12 \/ mask = 2 ^ k - 1 /\ 1 <= k < 32.

Lemma mask_align_value mask k : mask_align mask k ->
  0 <= k < 32 /\
  (let align := if negb (mask =? 0) then u32 (mask + 1) else PAGE_SIZE in
   if negb (Z.land align (u32 (align - 1)) =? 0) then PAGE_SIZE else align) = 2 ^ k.
Proof.
  intros [[-> ->]|[-> Hk]]; [done|]. split; [lia|]. cbv zeta. pose proof (Z.pow_gt_1 2 k).
  assert (2 ^ k < 2 ^ 32) by (apply Z.pow_lt_mono_r; lia).
  replace (2 ^ k - 1 =? 0) with false by lia. cbn [negb].
  replace (2 ^ k - 1 + 1) with (2 ^ k) by lia. rewrite (u32_small (2 ^ k)) by lia.
  rewrite land_pow2_pred by lia. done.
Qed.

(** [n] bytes at [x] are free: aligned, inside the map and unmapped. *)
Definition room (m : vm_map) (n k x : Z) : Prop :=
  x mod 2 ^ k = 0 /\ map_base m <= x /\ x + n <= map_base m + map_size m /\
  forall b, x <= b < x + n -> mapped (entries m) b = None.

Lemma room_disjoint m n k x :
  x mod 2 ^ k = 0 -> map_base m <= x -> x + n <= map_base m + map_size m ->
  Forall (fun e => x + n <= e_start e \/ e_end e <= x) (entries m) -> room m n k x.
Proof.
  intros H1 H2 H3 Hf. split_and!; try done. intros b Hb.
  destruct (mapped (entries m) b) as [p|] eqn:Eb; [|done]. exfalso.
  unfold mapped in Eb. destruct (List.find _ _) as [e'|] eqn:Ef; [|done].
  apply List.find_some in Ef as [Hin Hcov]. rewrite Forall_forall in Hf.
  apply list_elem_of_In in Hin. specialize (Hf e' Hin). unfold covers in Hcov. bool_to_prop. lia.
Qed.

Lemma room_free m h n k x :
  vm_inv m h -> 0 < n -> room m n k x -> ~ Exists (fun e => e_start e < x + n /\ x < e_end e) (entries m).
Proof.
  intros Hi Hn (_ & _ & _ & Hu) He. destruct (meets_mapped _ _ _ _ _ (vi_sorted _ _ Hi) Hn He) as (b & Hb & Hm).
  by apply Hm, Hu.
Qed.

(** The caller leaves the choice of the address to the map. *)
Definition anywhere (flags addr : Z) : Prop := Z.land flags 1 <> 0 \/ addr = 0.

(** The choice is the lowest room when the map chooses, the requested address
    rounded up otherwise, and fails exactly when there is none. *)
Lemma choose_spec m h addr n mask flags k :
  vm_inv m h -> mask_align mask k -> 0 < n -> 0 <= addr -> addr + 2 ^ k + n < 2 ^ 32 ->
  map_base m + map_size m + 2 ^ k + n < 2 ^ 32 ->
  match choose_address m addr n mask flags with
  | inr a =>
      room m n k a /\ Forall (fun e => a + n <= e_start e \/ e_end e <= a) (entries m) /\
      (anywhere flags addr -> forall x, room m n k x -> a <= x) /\
      (~ anywhere flags addr -> a = align_up addr (2 ^ k))
  | inl r =>
      anywhere flags addr /\ r = KERN_NO_SPACE /\ (forall x, ~ room m n k x) \/
      ~ anywhere flags addr /\
        let x := align_up addr (2 ^ k) in
        (r = KERN_INVALID_ARGUMENT /\ (x < map_base m \/ map_base m + map_size m < x + n) \/
         r = KERN_NO_SPACE /\ exists b, x <= b < x + n /\ mapped (entries m) b <> None)
  end.
Proof.
  intros Hi Hmask Hn Haddr Hw1 Hw2. pose proof (vi_range _ _ Hi) as (? & ? & ?). unfold choose_address.
  destruct (mask_align_value _ _ Hmask) as [Hk Hal]. cbv zeta in Hal |- *. rewrite Hal.
  assert (0 < 2 ^ k) by lia. rewrite (u32_small (map_base m + _)) by lia. unfold anywhere.
  destruct (negb (Z.land flags 1 =? 0) || (addr =? 0)) eqn:Ean.
  - assert (Han : Z.land flags 1 <> 0 \/ addr = 0) by lia.
    destruct (align_up_bounds (map_base m) k) as [Hb Hm]; [lia|lia|lia|].
    destruct (find_gap_spec (entries m) _ _ (align_up (map_base m) (2 ^ k)) n k (vi_sorted _ _ Hi))
      as (Hr & Hm2 & Hf); try done; try lia.
    set (g := find_gap _ n (2 ^ k) _) in *. rewrite u32_small by lia.
    assert (Hfirst : forall x, room m n k x -> g <= x).
    { intros x Hx. destruct (decide (g <= x)) as [|Hlt]; [done|]. exfalso.
      apply (room_free m h n k x Hi Hn Hx). destruct Hx as (Hxm & Hxb & _).
      apply (find_gap_first _ _ _ (align_up (map_base m) (2 ^ k)) n k x (vi_sorted _ _ Hi)); fold g; try done; try lia.
      by apply align_up_least; lia. }
    case_if; bool_to_prop.
    + left. split_and!; try done. intros x Hx. pose proof (Hfirst x Hx). destruct Hx as (_ & _ & ? & _). lia.
    + split_and!; try done. apply room_disjoint; try done; lia.
  - assert (Han : ~ (Z.land flags 1 <> 0 \/ addr = 0)) by lia.
    destruct (align_up_bounds addr k) as [Hb Hm]; [lia|lia|lia|].
    set (g := align_up addr (2 ^ k)) in *. rewrite u32_small by lia.
    destruct ((g <? map_base m) || (map_base m + map_size m <? g + n)) eqn:Eo;
      [right; split; [done|]; left; split; [done|lia]|].
    pose proof (fits_exact m h g n Hi) as Hx. destruct (fits g n (entries m)).
    + assert (Hd : Forall (fun e => g + n <= e_start e \/ e_end e <= g) (entries m)) by (apply Hx; lia).
      split_and!; try done. apply room_disjoint; try done; lia.
    + right. split; [done|]. right. split; [done|].
      eapply meets_mapped; [exact (vi_sorted _ _ Hi)|done|]. apply Hx; lia.
Qed.

(** C38. [vm_map_enter] with a non-zero size, a mask that is 0 or [2^k - 1], and
    sums that stay below 2^32.  It succeeds with a range of the page-rounded
    size that is aligned, inside the map and was unmapped, the lowest such
    range when the map may choose and the requested address rounded up
    otherwise; exactly that range is then mapped with the requested protection,
    every other address keeps its mapping and the map stays well formed.  It
    fails, leaving the map and the caller's address alone, only when no such
    range exists (KERN_NO_SPACE), when the requested one is outside the map
    (KERN_INVALID_ARGUMENT) or partly mapped (KERN_NO_SPACE), or when the heap
    has no block for the entry (KERN_RESOURCE_SHORTAGE). *)
Theorem vm_map_enter_maps m h addr size mask flags prot inherit k :
  vm_inv m h -> mask_align mask k -> 0 < size -> size + 4095 < 2 ^ 32 ->
  let n := align_up size PAGE_SIZE in
  0 <= addr -> addr + 2 ^ k + n < 2 ^ 32 -> map_base m + map_size m + 2 ^ k + n < 2 ^ 32 ->
  exists r a m' h', vm_map_enter m addr size mask flags prot inherit h = Some (r, a, m', h') /\ vm_inv m' h' /\
    (r = KERN_SUCCESS /\ size <= n < size + 4096 /\ room m n k a /\
     (anywhere flags addr -> forall x, room m n k x -> a <= x) /\
     (~ anywhere flags addr -> a = align_up addr (2 ^ k)) /\
     (forall b, mapped (entries m') b = if (a <=? b) && (b <? a + n) then Some prot else mapped (entries m) b) \/
     a = addr /\ m' = m /\
     (r = KERN_RESOURCE_SHORTAGE /\ a_alloc h sizeof_entry = Some (0, h) \/
      anywhere flags addr /\ r = KERN_NO_SPACE /\ (forall x, ~ room m n k x) \/
      ~ anywhere flags addr /\
        let x := align_up addr (2 ^ k) in
        (r = KERN_INVALID_ARGUMENT /\ (x < map_base m \/ map_base m + map_size m < x + n) \/
         r = KERN_NO_SPACE /\ exists b, x <= b < x + n /\ mapped (entries m) b <> None))).
Proof.
  intros Hi Hmask Hs Hs2 n Haddr Hw1 Hw2. pose proof (vm_inv_small _ _ Hi) as Hnum.
  destruct (align_up_bounds size 12) as [Hn _]; [lia|lia|lia|]. change (align_up size (2 ^ 12)) with n in Hn.
  unfold vm_map_enter. replace (size =? 0) with false by lia. fold n. replace (n =? 0) with false by lia.
  rewrite (vi_lock _ _ Hi). cbn [Z.eqb negb].
  pose proof (choose_spec m h addr n mask flags k Hi Hmask ltac:(lia) Haddr Hw1 Hw2) as Hch.
  destruct (choose_address m addr n mask flags) as [err|a].
  { exists err, addr, m, h. split_and!; try done. right. split_and!; try done. by right. }
  destruct Hch as (Hroom & Hf & Hlow & Hfix). pose proof Hroom as (_ & Hlo & Hhi & _).
  pose proof (vi_range _ _ Hi) as (? & ? & ?).
  destruct (alloc_entry h _ (vi_heap _ _ Hi)) as [Ha|(q & h' & Ha & Hq & Hh)]; rewrite Ha; cbn [mbind option_bind].
  { exists KERN_RESOURCE_SHORTAGE, addr, m, h. split_and!; try done. right. split_and!; try done. by left. }
  replace (q =? 0) with false by lia. rewrite (u32_small (a + n)), u32_small by lia.
  set (e := mk_entry q a (a + n) prot inherit true false).
  assert (Hd : Forall (fun e' => e_end e <= e_start e' \/ e_end e' <= e_start e) (entries m)) by exact Hf.
  eexists _, a, _, h'. split; [done|]. split.
  - pose proof (sorted_insert _ _ e _ (vi_sorted _ _ Hi)) as Hsi.
    destruct (insert_sorted_perm e (entries m)) as [Hp Hlen].
    replace (num_entries m + 1) with (Z.of_nat (length (insert_sorted e (entries m))))
      by (rewrite Hlen, (vi_count _ _ Hi); lia).
    eapply with_entries_inv; [done|apply Hsi; [cbn [e e_start e_end]; lia|cbn [e e_start e_end]; lia|done]|].
    unfold holds. rewrite app_nil_r. by rewrite Hp.
  - left. split_and!; try done; try lia. intros b. cbn [entries with_entries].
    by rewrite (mapped_insert _ _ _ _ _ (vi_sorted _ _ Hi) Hd).
Qed.

(** [vm_map_lookup] on a well-formed map finds the entry that contains the
    address, and reports KERN_NOT_FOUND exactly for unmapped addresses. *)
Theorem vm_map_lookup_exact m h a :
  vm_inv m h ->
  exists r e, vm_map_lookup m a = Some (r, e) /\
    match e with
    | Some e => r = KERN_SUCCESS /\ e ∈ entries m /\ e_start e <= a < e_end e /\ mapped (entries m) a = Some (e_prot e)
    | None => r = KERN_NOT_FOUND /\ forall e, e ∈ entries m -> ~ (e_start e <= a < e_end e)
    end.
Proof.
  intros Hi. unfold vm_map_lookup. rewrite (vi_lock _ _ Hi). cbn [Z.eqb negb].
  unfold mapped. destruct (List.find _ (entries m)) as [e|] eqn:E.
  - eexists _, (Some e). split; [done|]. apply List.find_some in E as [Hin Hc]. unfold covers in Hc. bool_to_prop.
    split_and!; try done. by apply list_elem_of_In.
  - eexists _, None. split; [done|]. split; [done|]. intros e Hin. apply list_elem_of_In in Hin.
    pose proof (List.find_none _ _ E e Hin) as Hc. cbn in Hc. unfold covers in Hc. bool_to_prop. lia.
Qed.

End VmCorrect.

(** ** A concrete map: 16 MiB at 256 MiB, on the heap at 2 MiB *)

Section VmWitness.
#[local] Instance map_allocator : Allocator heap := heap_allocator 0x200000 eq_refl eq_refl.

Definition vm_empty : vm_map := mk_map [] 0 0x1000000 0x10000000 1 0.
Definition vm_one : vm_map := with_entries [mk_entry 0x200010 0x10000000 0x10004000 3 0 true false] 1 vm_empty.

Lemma heap_has_one : exists h, a_alloc h_ready sizeof_entry = Some (0x200010, h) /\ heap_has h [0x200010].
Proof.
  assert (H0 : heap_has h_ready []) by (split; [by exists bs_ready; apply ready_inv|constructor|constructor]).
  destruct (kmalloc_first_fit_lem 0x200000 eq_refl eq_refl h_ready bs_ready 32 ready_inv) as (h' & Hk & _); [done|].
  destruct (alloc_entry h_ready [] H0) as [Ha|(q & h2 & Ha & _ & Hh)];
    change (a_alloc h_ready sizeof_entry) with (kmalloc 0x200000 h_ready 32) in Ha.
  - rewrite Hk in Ha. done.
  - rewrite Hk in Ha. injection Ha as <- <-. exists h'. split; [exact Hk|exact Hh].
Qed.

Lemma vm_empty_inv : vm_inv vm_empty h_ready.
Proof.
  split; [done|done|done|done|]. split; [by exists bs_ready; apply ready_inv|constructor|constructor].
Qed.

Lemma vm_one_inv : exists h, vm_inv vm_one h.
Proof. destruct heap_has_one as (h & _ & Hh). exists h. split; try done. Qed.


Lemma vm_map_protect_paints_witness : exists h r m' h',
  vm_map_protect vm_one 0x10001000 0x10002000 1 h = Some (r, m', h') /\ vm_inv m' h'.
Proof.
  destruct vm_one_inv as [h Hh].
  destruct (vm_map_protect_paints vm_one h 0x10001000 0x10002000 1 Hh ltac:(done)) as (r & m' & h' & He & Hi & _).
  by exists h, r, m', h'.
Defined.

Lemma vm_empty_room : room vm_empty 8192 12 0x10000000.
Proof. by split_and!. Qed.

(** 5000 bytes anywhere in an empty map: two pages at its base. *)
Lemma vm_map_enter_maps_witness : exists m' h',
  vm_map_enter vm_empty 0 5000 0 1 3 0 h_ready = Some (KERN_SUCCESS, 0x10000000, m', h') /\ vm_inv m' h' /\
  mapped (entries m') 0x10001FFF = Some 3 /\ mapped (entries m') 0x10002000 = None.
Proof.
  assert (Han : anywhere 1 0) by (left; done).
  destruct (vm_map_enter_maps vm_empty h_ready 0 5000 0 1 3 0 12 vm_empty_inv ltac:(by left) ltac:(done) ltac:(done)
    ltac:(done) ltac:(done) ltac:(done)) as (r & a & m' & h' & He & Hi & Hc).
  change (align_up 5000 PAGE_SIZE) with 8192 in Hc.
  destruct Hc as [(-> & _ & (_ & Hb & _) & Hlow & _ & Hm)|(-> & -> & [[_ Hz]|[(_ & _ & Hno)|[Hn _]]])].
  - assert (a = 0x10000000) as -> by (pose proof (Hlow Han _ vm_empty_room); cbn [map_base vm_empty] in Hb; lia).
    exists m', h'. split; [exact He|]. split; [exact Hi|]. split; rewrite Hm; reflexivity.
  - exfalso. destruct heap_has_one as (h & Ha & _). rewrite Ha in Hz. discriminate Hz.
  - exfalso. exact (Hno _ vm_empty_room).
  - exfalso. exact (Hn Han).
Defined.

Lemma vm_map_lookup_exact_witness : exists r e, vm_map_lookup vm_one 0x10001234 = Some (r, e).
Proof.
  destruct vm_one_inv as [h Hh].
  destruct (vm_map_lookup_exact vm_one h 0x10001234 Hh) as (r & e & He & _). by exists r, e.
Defined.

(** Without the bound on the sums: a request of [2^32 - base] bytes, far larger
    than the map, is granted, and the new entry ends at address 0. *)
Lemma vm_map_enter_end_wraps : exists h,
  vm_map_enter vm_empty 0 0xF0000000 0 1 3 0 h_ready =
  Some (KERN_SUCCESS, 0x10000000, with_entries [mk_entry 0x200010 0x10000000 0 3 0 true false] 1 vm_empty, h).
Proof.
  destruct heap_has_one as (h & Ha & _). exists h. unfold vm_map_enter.
  replace (choose_address vm_empty 0 (align_up 0xF0000000 PAGE_SIZE) 0 1) with (@inr Z Z 0x10000000) by done.
  rewrite Ha. done.
Qed.

End VmWitness.
