(* ===== verification/VmLinks.v ===== *)
(** * xnu_memory.c, the links of VM map entries

    [VmMap.v] takes the entries of a map as a list.  In memory they are linked both
    ways: [entries] of the map is the first one, and every entry has a [next] and a
    [prev].  Here are the places where the code changes these pointers (linking a new
    entry in address order, unlinking a removed one, linking the right part of a
    split one behind the left part), and the proof that they do to the links what
    [VmMap.v] does to the list.  Pointers are addresses, 0 is NULL. *)
From S2P Require Import Prelude Mem LibString Alloc Heap VmMap.

Record links := mk_links { v_first : Z; v_next : Z -> Z; v_prev : Z -> Z }.
Definition put (f : Z -> Z) (p v : Z) : Z -> Z := fun q => if q =? p then v else f q.
Definition set_first (v : Z) (s : links) : links := mk_links v (v_next s) (v_prev s).
Definition set_next (p v : Z) (s : links) : links := mk_links (v_first s) (put (v_next s) p v) (v_prev s).
Definition set_prev (p v : Z) (s : links) : links := mk_links (v_first s) (v_next s) (put (v_prev s) p v).

(** [while (cur && cur->start < chosen) { prev = cur; cur = cur->next; }] *)
Fixpoint walk_entries (fuel : nat) (start : Z -> Z) (chosen p cur : Z) (s : links) : Z * Z :=
  match fuel with
  | O => (p, cur)
  | S n => if negb (cur =? 0) && (start cur <? chosen) then walk_entries n start chosen cur (v_next s cur) s else (p, cur)
  end.
(** The insertion of [vm_map_enter]. *)
Definition link_sorted (fuel : nat) (start : Z -> Z) (chosen ne : Z) (s : links) : links :=
  let '(p, cur) := walk_entries fuel start chosen 0 (v_first s) s in
  let s := set_prev ne p (set_next ne cur s) in
  let s := if negb (p =? 0) then set_next p ne s else set_first ne s in
  if negb (cur =? 0) then set_prev cur ne s else s.

(** The removal of [vm_map_remove]. *)
Definition unlink_entry (e : Z) (s : links) : links :=
  let s := if negb (v_prev s e =? 0) then set_next (v_prev s e) (v_next s e) s else set_first (v_next s e) s in
  if negb (v_next s e =? 0) then set_prev (v_next s e) (v_prev s e) s else s.

(** A split of [vm_map_remove] or [vm_map_protect]; [*right = *e] copies the links too. *)
Definition link_right (e right : Z) (s : links) : links :=
  let s := set_prev right (v_prev s e) (set_next right (v_next s e) s) in
  let s := set_next right (v_next s e) (set_prev right e s) in
  let s := if negb (v_next s e =? 0) then set_prev (v_next s e) right s else s in
  set_next e right s.

(** ** Linked lists *)

Definition front (l : list Z) (d : Z) : Z := default d (head l).
Definition back (l : list Z) (d : Z) : Z := default d (last l).

(** [l] is linked in this order, [b] before it and [a] behind it. *)
Fixpoint chain (s : links) (b : Z) (l : list Z) (a : Z) : Prop :=
  match l with
  | [] => True
  | p :: l' => p <> 0 /\ v_prev s p = b /\ v_next s p = front l' a /\ chain s p l' a
  end.
Definition linked (s : links) (l : list Z) : Prop := v_first s = front l 0 /\ chain s 0 l 0 /\ NoDup l.

Lemma front_app l1 l2 d : front (l1 ++ l2) d = front l1 (front l2 d).
Proof. by destruct l1. Qed.
Lemma back_cons p l d : back (p :: l) d = back l p.
Proof. unfold back. rewrite last_cons. by destruct (last l). Qed.
Lemma back_snoc l p d : back (l ++ [p]) d = p.
Proof. unfold back. by rewrite last_snoc. Qed.

Lemma chain_app s l1 : forall b l2 a, chain s b (l1 ++ l2) a <-> chain s b l1 (front l2 a) /\ chain s (back l1 b) l2 a.
Proof.
  induction l1 as [|p l1 IH]; intros b l2 a; [cbn; tauto|]. cbn [chain app]. rewrite front_app, IH, back_cons. tauto.
Qed.

Lemma chain_frame s s' l : forall b a,
  (forall p, p ∈ l -> v_next s' p = v_next s p /\ v_prev s' p = v_prev s p) -> chain s b l a -> chain s' b l a.
Proof.
  induction l as [|p l IH]; intros b a H; [done|]. cbn [chain]. intros (H1 & H2 & H3 & H4).
  destruct (H p) as [-> ->]; [by left|].
  split_and!; try done. apply IH; [|done]. intros q Hq. apply H. by right.
Qed.

Lemma chain_nonzero s l : forall b a p, chain s b l a -> p ∈ l -> p <> 0.
Proof.
  induction l as [|q l IH]; intros b a p; [by intros _ ?%not_elem_of_nil|].
  intros (Hq & _ & _ & Hc) [->|Hp]%elem_of_cons; [done|by eapply IH].
Qed.

Lemma put_eq f p v : put f p v p = v.
Proof. unfold put. by rewrite Z.eqb_refl. Qed.
Lemma put_ne f p v q : q <> p -> put f p v q = f q.
Proof. intros H. unfold put. by destruct (Z.eqb_spec q p). Qed.

Lemma chain_set_next s b l a p v : p ∉ l -> chain s b l a -> chain (set_next p v s) b l a.
Proof. intros Hp. apply chain_frame. intros q Hq. split; [|done]. apply put_ne. by intros ->. Qed.
Lemma chain_set_prev s b l a p v : p ∉ l -> chain s b l a -> chain (set_prev p v s) b l a.
Proof. intros Hp. apply chain_frame. intros q Hq. split; [done|]. apply put_ne. by intros ->. Qed.
Lemma chain_set_first s b l a v : chain s b l a -> chain (set_first v s) b l a.
Proof. by apply chain_frame. Qed.

(** New ends for a chain: its last entry gets another [next], its first another [prev]. *)
Lemma chain_new_back s b l p a a' : NoDup (l ++ [p]) -> chain s b (l ++ [p]) a -> chain (set_next p a' s) b (l ++ [p]) a'.
Proof.
  intros (_ & Hd & _)%NoDup_app. assert (p ∉ l) as Hp by (intros H; by apply (Hd p H), list_elem_of_singleton).
  rewrite !chain_app. intros [H1 (H2 & H3 & _)]. split; [by apply chain_set_next|]. cbn. split_and!; try done. apply put_eq.
Qed.
Lemma chain_new_front s b b' p l a : NoDup (p :: l) -> chain s b (p :: l) a -> chain (set_prev p b' s) b' (p :: l) a.
Proof.
  intros [Hp _]%NoDup_cons (H1 & H2 & H3 & H4). cbn. split_and!; try done; [apply put_eq|by apply chain_set_prev].
Qed.

(** [if (p) p->next = v; else map->entries = v;] behind the entries [l1]. *)
Definition attach_back (p v : Z) (s : links) : links := if negb (p =? 0) then set_next p v s else set_first v s.
(** [if (c) c->prev = v;] before the entries [l2]. *)
Definition attach_front (c v : Z) (s : links) : links := if negb (c =? 0) then set_prev c v s else s.

Lemma attach_back_spec s l1 a v : chain s 0 l1 a -> NoDup l1 -> v_first s = front l1 a ->
  let s' := attach_back (back l1 0) v s in chain s' 0 l1 v /\ v_first s' = front l1 v.
Proof.
  intros Hc Hn Hf. cbv zeta. unfold attach_back. destruct l1 as [|p l1 _] using rev_ind; [done|]. rewrite back_snoc.
  assert (p <> 0) as Hp by (eapply chain_nonzero; [done|]; apply elem_of_app; right; by left).
  destruct (Z.eqb_spec p 0); [done|]. cbn [negb]. split; [by eapply chain_new_back|]. cbn. rewrite Hf. by destruct l1.
Qed.
Lemma attach_back_other s l1 v q : q ∉ l1 -> v_next (attach_back (back l1 0) v s) q = v_next s q \/ q = 0.
Proof.
  intros Hq. unfold attach_back. destruct (Z.eqb_spec (back l1 0) 0) as [|H]; cbn [negb]; [by left|]. left. apply put_ne.
  intros ->. apply Hq. unfold back in *. destruct (last l1) as [x|] eqn:E; [|done]. apply last_Some in E as [l ->]. apply elem_of_app. right. by left.
Qed.
Lemma attach_back_prev p v s : v_prev (attach_back p v s) = v_prev s.
Proof. unfold attach_back. by destruct (negb _). Qed.
Lemma attach_back_frame s l1 v b l2 a : (forall q, q ∈ l2 -> q ∉ l1) -> chain s b l2 a -> chain (attach_back (back l1 0) v s) b l2 a.
Proof.
  intros Hd Hc. apply (chain_frame s); [|done]. intros q Hq. rewrite attach_back_prev. split; [|done].
  destruct (attach_back_other s l1 v q (Hd q Hq)) as [H| ->]; [done|]. by destruct (chain_nonzero _ _ _ _ _ Hc Hq).
Qed.

Lemma attach_front_spec s b v l2 : chain s b l2 0 -> NoDup l2 -> chain (attach_front (front l2 0) v s) v l2 0.
Proof.
  intros Hc Hn. unfold attach_front. destruct l2 as [|p l2]; [done|]. change (front (p :: l2) 0) with p.
  destruct (Z.eqb_spec p 0); [by destruct Hc|]. cbn [negb]. by eapply chain_new_front.
Qed.
Lemma attach_front_keeps c v s : v_first (attach_front c v s) = v_first s /\ v_next (attach_front c v s) = v_next s.
Proof. unfold attach_front. by destruct (negb _). Qed.
Lemma attach_front_frame s l2 v b l1 a : (forall q, q ∈ l1 -> q ∉ l2) -> chain s b l1 a -> chain (attach_front (front l2 0) v s) b l1 a.
Proof.
  intros Hd Hc. unfold attach_front. destruct l2 as [|p l2]; [done|]. change (front (p :: l2) 0) with p.
  destruct (negb _); [|done]. apply chain_set_prev; [|done]. intros H. apply (Hd p H). by left.
Qed.

(** ** Unlinking *)

Lemma unlink_entry_spec s l1 e l2 : linked s (l1 ++ e :: l2) -> linked (unlink_entry e s) (l1 ++ l2).
Proof.
  intros (Hf & Hc & Hn). apply chain_app in Hc as [H1 (He & Hp & Hx & H2)].
  apply NoDup_app in Hn as (N1 & Nd & [Ne N2]%NoDup_cons).
  assert (unlink_entry e s = attach_front (front l2 0) (back l1 0) (attach_back (back l1 0) (front l2 0) s)) as ->.
  { unfold unlink_entry, attach_front, attach_back. rewrite Hp, Hx. destruct (negb (back l1 0 =? 0)) eqn:E; cbn [v_next v_prev set_next set_first]; [|by rewrite Hx, Hp].
    rewrite put_ne, Hx, Hp; [done|]. intros ->. apply (Nd (back l1 0)); [|by left]. unfold back in *.
    destruct (last l1) as [x|] eqn:El; [|done]. apply last_Some in El as [l ->]. apply elem_of_app. right. by left. }
  assert (forall q, q ∈ l1 -> q ∉ l2) as Hd by (intros q Hq Hq2; apply (Nd q Hq); by right).
  destruct (attach_back_spec s l1 _ (front l2 0) H1 N1) as [C1 F1]; [by rewrite Hf, front_app|].
  split; [|split].
  - rewrite (proj1 (attach_front_keeps _ _ _)), F1. by rewrite front_app.
  - apply chain_app. split; [by apply attach_front_frame|]. eapply attach_front_spec; [|done].
    apply attach_back_frame; [|done]. intros q Hq Hq1. by apply (Hd q).
  - apply NoDup_app. split_and!; done.
Qed.

(** ** Linking the right part of a split *)

Lemma link_right_spec s l1 e right l2 : right <> 0 -> right ∉ l1 ++ e :: l2 -> linked s (l1 ++ e :: l2) ->
  linked (link_right e right s) (l1 ++ e :: right :: l2).
Proof.
  intros Hr Hnew (Hf & Hc & Hn). apply chain_app in Hc as [H1 (He & Hp & Hx & H2)].
  apply NoDup_app in Hn as (N1 & Nd & [Ne N2]%NoDup_cons). apply not_elem_of_app in Hnew as [R1 [Re R2]%not_elem_of_cons].
  assert (e ∉ l1) as E1 by (intros H; apply (Nd e H); by left).
  set (s0 := set_next right (v_next s e) (set_prev right e (set_prev right (v_prev s e) (set_next right (v_next s e) s)))).
  assert (v_next s0 e = front l2 0 /\ v_prev s0 e = back l1 0 /\ v_next s0 right = front l2 0 /\ v_prev s0 right = e) as (X1 & X2 & X3 & X4).
  { unfold s0. cbn [v_next v_prev set_next set_prev]. rewrite !put_eq, !put_ne by done. done. }
  assert (forall l, right ∉ l -> forall b a, chain s b l a -> chain s0 b l a) as Hfr.
  { intros l Hl b a Hl2. unfold s0. by repeat (apply chain_set_next || apply chain_set_prev). }
  assert (link_right e right s = set_next e right (attach_front (front l2 0) right s0)) as ->.
  { assert (v_next (set_prev right (v_prev s e) (set_next right (v_next s e) s)) e = v_next s e) as Es by (cbn; by rewrite put_ne).
    unfold link_right, attach_front. cbv zeta. rewrite Es. fold s0. by rewrite X1. }
  assert (forall q, q ∈ l1 -> q ∉ l2) as Hd by (intros q Hq Hq2; apply (Nd q Hq); by right).
  split; [|split].
  - cbn [v_first set_next]. rewrite (proj1 (attach_front_keeps _ _ _)). unfold s0. cbn [v_first set_next set_prev]. by rewrite Hf, !front_app.
  - apply chain_app. split; [apply chain_set_next; [done|]; apply attach_front_frame; [done|]; by apply Hfr|].
    assert (chain (attach_front (front l2 0) right s0) right l2 0) as C2 by (eapply attach_front_spec; [by apply Hfr|done]).
    assert (forall q, q ∉ l2 -> v_prev (attach_front (front l2 0) right s0) q = v_prev s0 q) as Hpv.
    { intros q Hq. unfold attach_front. destruct l2 as [|c l2]; [done|]. change (front (c :: l2) 0) with c. destruct (negb _); [|done].
      apply put_ne. intros ->. apply Hq. by left. }
    cbn [chain]. split_and!; try done; cbn [v_next v_prev set_next].
    + by rewrite (Hpv e Ne).
    + by rewrite put_eq.
    + by rewrite (Hpv right R2).
    + rewrite put_ne by done. by rewrite (proj2 (attach_front_keeps _ _ _)).
    + by apply chain_set_next.
  - apply NoDup_app. split_and!; [done| |].
    + intros q Hq [->|[->|Hq2]%elem_of_cons]%elem_of_cons; [done|done|by apply (Hd q)].
    + apply NoDup_cons. split; [|by apply NoDup_cons]. intros [->|?]%elem_of_cons; done.
Qed.

(** ** Linking in address order *)

(** The new entry goes between [l1] and [l2]. *)
Lemma link_between s l1 l2 ne : ne <> 0 -> ne ∉ l1 ++ l2 -> linked s (l1 ++ l2) ->
  let s1 := set_prev ne (back l1 0) (set_next ne (front l2 0) s) in
  linked (attach_front (front l2 0) ne (attach_back (back l1 0) ne s1)) (l1 ++ ne :: l2).
Proof.
  intros Hz Hnew (Hf & Hc & Hn) s1. apply chain_app in Hc as [H1 H2]. apply NoDup_app in Hn as (N1 & Nd & N2).
  apply not_elem_of_app in Hnew as [R1 R2].
  assert (chain s1 0 l1 (front l2 0) /\ chain s1 (back l1 0) l2 0) as [C1 C2] by (split; by apply chain_set_prev, chain_set_next).
  destruct (attach_back_spec s1 l1 _ ne C1 N1) as [D1 F1]; [unfold s1; cbn; by rewrite Hf, front_app|].
  assert (forall q, q ∈ l2 -> q ∉ l1) as Hd by (intros q Hq Hq1; by apply (Nd q)).
  pose proof (attach_back_frame s1 l1 ne _ _ _ Hd C2) as D2. set (s2 := attach_back (back l1 0) ne s1) in *.
  pose proof (attach_front_spec s2 _ ne l2 D2 N2) as G2. pose proof (attach_front_frame s2 l2 ne _ _ _ Nd D1) as G1.
  destruct (attach_front_keeps (front l2 0) ne s2) as [K1 K2]. split; [|split].
  - rewrite K1, F1. by rewrite front_app.
  - apply chain_app. split; [done|]. cbn [chain]. split_and!; [done| | |done].
    + trans (v_prev s2 ne); [|unfold s2; rewrite attach_back_prev; apply put_eq]. unfold attach_front.
      destruct l2 as [|c l2]; [done|]. change (front (c :: l2) 0) with c. destruct (negb _); [|done]. apply put_ne. intros ->. apply R2. by left.
    + rewrite K2. destruct (attach_back_other s1 l1 ne ne R1) as [H|]; [|done]. unfold s2. rewrite H. apply put_eq.
  - apply NoDup_app. split_and!; [done| |by apply NoDup_cons]. intros q Hq [->|Hq2]%elem_of_cons; [done|by apply (Nd q)].
Qed.

Lemma walk_entries_spec s start ne es : forall b fuel,
  chain s b (map e_ptr es) 0 -> (forall e, e ∈ es -> start (e_ptr e) = e_start e) -> (length es <= fuel)%nat ->
  exists l1 l2, es = l1 ++ l2 /\ insert_sorted ne es = l1 ++ ne :: l2 /\
    walk_entries fuel start (e_start ne) b (front (map e_ptr es) 0) s = (back (map e_ptr l1) b, front (map e_ptr l2) 0).
Proof.
  induction es as [|e es IH]; intros b fuel Hc Hs Hl.
  { exists [], []. split; [done|]. split; [done|]. by destruct fuel. }
  destruct fuel as [|fuel]; [cbn in Hl; lia|]. destruct Hc as (He & _ & Hx & Hc). cbn [walk_entries insert_sorted map].
  change (front (e_ptr e :: _) 0) with (e_ptr e). rewrite (Hs e) by (by left). destruct (Z.eqb_spec (e_ptr e) 0); [done|]. cbn [negb andb].
  destruct (Z.ltb_spec (e_start e) (e_start ne)).
  - destruct (IH (e_ptr e) fuel Hc) as (l1 & l2 & -> & Hi & Hw); [intros x Hx2; apply Hs; by right|cbn in Hl; lia|].
    exists (e :: l1), l2. split; [done|]. split; [by rewrite Hi|]. rewrite Hx, Hw. cbn [map]. by rewrite back_cons.
  - by exists [], (e :: es).
Qed.

(** C7. The entries of a VM map are linked both ways in the order of the list that
    stands for them.  Linking a new entry in address order as [vm_map_enter] does,
    unlinking a removed entry through its [prev] and [next], and linking the right part of a
    split entry behind its left part keep that: afterwards the links are those
    of the list with the entry inserted, deleted or added behind.  An entry linked in
    is not NULL and not in the map before. *)
Theorem entry_links_follow_list s ne es start fuel :
  linked s (map e_ptr es) -> e_ptr ne <> 0 -> e_ptr ne ∉ map e_ptr es ->
  (forall x, x ∈ es -> start (e_ptr x) = e_start x) -> (length es <= fuel)%nat ->
  linked (link_sorted fuel start (e_start ne) (e_ptr ne) s) (map e_ptr (insert_sorted ne es)) /\
  forall l1 e l2, es = l1 ++ e :: l2 ->
    linked (unlink_entry (e_ptr e) s) (map e_ptr (l1 ++ l2)) /\
    linked (link_right (e_ptr e) (e_ptr ne) s) (map e_ptr (l1 ++ e :: ne :: l2)).
Proof.
  intros Hl Hz Hnew Hs Hfuel. split.
  - destruct (walk_entries_spec s start ne es 0 fuel) as (k1 & k2 & He & -> & Hw); [apply Hl|done|done|]. unfold link_sorted.
    rewrite (proj1 Hl), Hw. rewrite He, map_app in Hl, Hnew. rewrite map_app. by apply link_between.
  - intros l1 e l2 ->. rewrite map_app in *. rewrite map_app. split; [by apply unlink_entry_spec|by apply link_right_spec].
Qed.

(** Two entries, and a third between them. *)
Definition entry_a : entry := mk_entry 0x100 0x10000 0x12000 3 0 true false.
Definition entry_b : entry := mk_entry 0x200 0x20000 0x22000 3 0 true false.
Definition entry_c : entry := mk_entry 0x300 0x14000 0x15000 3 0 true false.
Definition links_ab : links :=
  mk_links 0x100 (fun p => if p =? 0x100 then 0x200 else 0) (fun p => if p =? 0x200 then 0x100 else 0).
Definition start_ab (p : Z) : Z := if p =? 0x100 then 0x10000 else if p =? 0x200 then 0x20000 else 0.

Lemma links_ab_linked : linked links_ab [0x100; 0x200].
Proof. split; [done|]. split; [cbn; lia|]. apply (bool_decide_unpack _). by vm_compute. Qed.

Lemma entry_links_follow_list_witness :
  linked (link_sorted 2 start_ab 0x14000 0x300 links_ab) [0x100; 0x300; 0x200] /\
  linked (unlink_entry 0x100 links_ab) [0x200] /\ linked (link_right 0x200 0x300 links_ab) [0x100; 0x200; 0x300].
Proof.
  destruct (entry_links_follow_list links_ab entry_c [entry_a; entry_b] start_ab 2 links_ab_linked) as [H1 H2].
  - by vm_compute.
  - apply (bool_decide_unpack _). by vm_compute.
  - by intros x [->|[->|H%not_elem_of_nil]%elem_of_cons]%elem_of_cons.
  - cbn. lia.
  - split; [exact H1|]. split; [exact (proj1 (H2 [] entry_a [entry_b] eq_refl))|exact (proj2 (H2 [entry_a] entry_b [] eq_refl))].
Defined.
