(* ===== verification/Pmap.v ===== *)
(** * xnu_memory.c, physical pages

    The page descriptors and the free stack live in two kmalloc'd arrays; the
    model keeps them as lists with the pointers kmalloc returned.  Descriptors
    are also linked in a free list; a [phys_page_t *] into the array is the
    index of the descriptor.  [None] means that a call does not return: the
    lock is held, or the walk along the free list does not end. *)
From S2P Require Import Prelude Mem LibString Alloc Heap VmMap.

Definition PMAP_MAX_PAGES : Z := 16384.
Definition NO_PAGE : Z := 0xFFFFFFFF.
Definition sizeof_page : Z := 20.

Record page := mk_page {
  frame_number : Z; p_ref_count : Z; is_free : bool; is_wired : bool; p_next : option nat
}.
Definition zero_page : page := mk_page 0 0 false false None.
Definition set_next (n : option nat) (p : page) : page :=
  mk_page (frame_number p) (p_ref_count p) (is_free p) (is_wired p) n.
Definition set_usage (fr : bool) (rc : Z) (p : page) : page :=
  mk_page (frame_number p) rc fr (is_wired p) (p_next p).

(** [phys_mem], [pmap_initialized] and the three variables of the stack. *)
Record pmap := mk_pmap {
  pages : list page; pages_ptr : Z; total_pages : Z; free_pages : Z; free_list : option nat; p_lock : Z;
  pmap_initialized : bool; free_stack : list Z; stack_ptr : Z; stack_top : Z; stack_cap : Z
}.
Definition pmap_boot : pmap := mk_pmap [] 0 0 0 None 0 false [] 0 0 0.

(** [for (i = 0; i < total; i++) { pages[i].frame_number = i; ... }] *)
Fixpoint init_pages (n i : nat) (ps : list page) : list page :=
  match n with
  | O => ps
  | S n' => init_pages n' (S i) (<[i := mk_page (Z.of_nat i) 0 (negb (i =? 0)%nat) false None]> ps)
  end.

(** [for (f = 1; f < total; f++) { stack[top++] = f; free_pages++; }] *)
Fixpoint push_frames (n f : nat) (st : list Z) (top fp : Z) : list Z * Z * Z :=
  match n with
  | O => (st, top, fp)
  | S n' => push_frames n' (S f) (<[Z.to_nat top := Z.of_nat f]> st) (u32 (top + 1)) (u32 (fp + 1))
  end.

(** [for (f = 1; f < total; f++) { pages[f].next = free_list; free_list = &pages[f]; }] *)
Fixpoint link_frames (n f : nat) (ps : list page) (fl : option nat) : list page * option nat :=
  match n with
  | O => (ps, fl)
  | S n' => link_frames n' (S f) (alter (set_next fl) f ps) (Some f)
  end.

(** [while (cur && cur->next != pg) cur = cur->next]; [None]: out of steps. *)
Fixpoint find_pred (fuel : nat) (ps : list page) (cur : option nat) (pg : nat) : option (option nat) :=
  match fuel with
  | O => None
  | S fl =>
      match cur with
      | None => Some None
      | Some c =>
          let nx := p_next (default zero_page (ps !! c)) in
          if bool_decide (nx = Some pg) then Some (Some c) else find_pred fl ps nx pg
      end
  end.

Section Pmap.
Context (kernel_heap : Z).

Definition pmap_init (p : pmap) (h : heap) (mem_size : Z) : option (Z * pmap * heap) :=
  if pmap_initialized p then Some (KERN_SUCCESS, p, h) else
  if mem_size =? 0 then Some (KERN_INVALID_ARGUMENT, p, h) else
  let h := if heap_initialized h then h else heap_init kernel_heap h in
  let total := mem_size / PAGE_SIZE in
  let p0 := mk_pmap (pages p) (pages_ptr p) total (free_pages p) (free_list p) (p_lock p) false
              (free_stack p) (stack_ptr p) (stack_top p) (stack_cap p) in
  if total =? 0 then Some (KERN_INVALID_ARGUMENT, p0, h) else
  let total := if PMAP_MAX_PAGES <? total then PMAP_MAX_PAGES else total in
  let n := Z.to_nat total in
  '(q, h1) ← kmalloc kernel_heap h (u32 (sizeof_page * total));
  if q =? 0 then
    Some (KERN_RESOURCE_SHORTAGE,
          mk_pmap [] 0 total 0 None 0 false (free_stack p) (stack_ptr p) (stack_top p) (stack_cap p), h1) else
  let ps := replicate n zero_page in
  let h1 := with_hmem h1 (snd (lib_memset (hmem h1) q 0 (u32 (sizeof_page * total)))) in
  '(q2, h2) ← kmalloc kernel_heap h1 (u32 (4 * total));
  if q2 =? 0 then
    h3 ← kfree kernel_heap h2 q;
    Some (KERN_RESOURCE_SHORTAGE,
          mk_pmap [] 0 total 0 None 0 false [] 0 (stack_top p) total, h3) else
  let raw := map (fun i => load32 (hmem h2) (q2 + 4 * Z.of_nat i)) (seq 0 n) in
  let ps1 := init_pages n 0 ps in
  let '(st, top, fp) := push_frames (n - 1) 1 raw 0 0 in
  let '(ps2, fl) := link_frames (n - 1) 1 ps1 None in
  Some (KERN_SUCCESS, mk_pmap ps2 q total fp fl 0 true st q2 top total, h2).
End Pmap.

Definition pmap_alloc_page (p : pmap) : option (Z * pmap) :=
  if negb (pmap_initialized p) then Some (NO_PAGE, p) else
  if negb (p_lock p =? 0) then None else
  if (free_pages p =? 0) || (stack_top p =? 0) then Some (NO_PAGE, p) else
  let top := u32 (stack_top p - 1) in
  let frame := free_stack p !!! Z.to_nat top in
  let p1 := mk_pmap (pages p) (pages_ptr p) (total_pages p) (free_pages p) (free_list p) (p_lock p)
              true (free_stack p) (stack_ptr p) top (stack_cap p) in
  if total_pages p <=? frame then Some (NO_PAGE, p1) else
  let i := Z.to_nat frame in
  let pg := default zero_page (pages p !! i) in
  if negb (is_free pg) then Some (NO_PAGE, p1) else
  let ps := <[i := set_usage false 1 pg]> (pages p) in
  '(ps1, fl) ←
    (if bool_decide (free_list p = Some i) then Some (ps, p_next pg)
     else r ← find_pred (S (length ps)) ps (free_list p) i;
          Some (match r with Some c => alter (set_next (p_next pg)) c ps | None => ps end, free_list p));
  Some (frame, mk_pmap (alter (set_next None) i ps1) (pages_ptr p) (total_pages p) (u32 (free_pages p - 1)) fl
                 (p_lock p) true (free_stack p) (stack_ptr p) top (stack_cap p)).

Definition pmap_free_page (p : pmap) (frame : Z) : option (Z * pmap) :=
  if negb (pmap_initialized p) then Some (KERN_INVALID_ARGUMENT, p) else
  if total_pages p <=? frame then Some (KERN_INVALID_ARGUMENT, p) else
  if frame =? 0 then Some (KERN_INVALID_ARGUMENT, p) else
  if negb (p_lock p =? 0) then None else
  let i := Z.to_nat frame in
  let pg := default zero_page (pages p !! i) in
  if is_free pg then Some (KERN_INVALID_ARGUMENT, p) else
  let ps := <[i := set_usage true 0 pg]> (pages p) in
  if stack_cap p <=? stack_top p then
    Some (KERN_FAILURE,
          mk_pmap ps (pages_ptr p) (total_pages p) (free_pages p) (free_list p) (p_lock p) true
            (free_stack p) (stack_ptr p) (stack_top p) (stack_cap p)) else
  Some (KERN_SUCCESS,
        mk_pmap (alter (set_next (free_list p)) i ps) (pages_ptr p) (total_pages p) (u32 (free_pages p + 1))
          (Some i) (p_lock p) true (<[Z.to_nat (stack_top p) := frame]> (free_stack p)) (stack_ptr p)
          (u32 (stack_top p + 1)) (stack_cap p)).

(** [pmap_enter] and [pmap_remove] only check that [vaddr] is mapped. *)
Definition pmap_enter (p : pmap) (m : option vm_map) (vaddr paddr prot : Z) : option Z :=
  match m with
  | None => Some KERN_INVALID_ARGUMENT
  | Some m =>
      if negb (pmap_initialized p) then Some KERN_INVALID_ARGUMENT else
      if (u32 (total_pages p * PAGE_SIZE) <=? paddr) && (total_pages p <=? paddr) &&
         (total_pages p <=? paddr) then Some KERN_INVALID_ARGUMENT else
      if negb (map_lock m =? 0) then None else
      Some (match List.find (fun e => covers e vaddr) (entries m) with
            | Some _ => KERN_SUCCESS | None => KERN_NOT_FOUND end)
  end.

Definition pmap_remove (m : option vm_map) (vaddr : Z) : option Z :=
  match m with
  | None => Some KERN_INVALID_ARGUMENT
  | Some m =>
      if negb (map_lock m =? 0) then None else
      Some (match List.find (fun e => covers e vaddr) (entries m) with
            | Some _ => KERN_SUCCESS | None => KERN_NOT_FOUND end)
  end.

(** ** The abstract manager: a LIFO list of free frames *)

Inductive pmap_op := AllocPage | FreePage (frame : Z).

Definition pmap_exec (op : pmap_op) (p : pmap) : option (Z * pmap) :=
  match op with AllocPage => pmap_alloc_page p | FreePage f => pmap_free_page p f end.

Fixpoint pmap_run (ops : list pmap_op) (p : pmap) : option (list Z * pmap) :=
  match ops with
  | [] => Some ([], p)
  | op :: ops' => '(r, p1) ← pmap_exec op p; '(rs, p2) ← pmap_run ops' p1; Some (r :: rs, p2)
  end.

Definition spec_exec (total : Z) (op : pmap_op) (l : list nat) : Z * list nat :=
  match op with
  | AllocPage => match l with [] => (NO_PAGE, []) | f :: l' => (Z.of_nat f, l') end
  | FreePage f =>
      if (f =? 0) || (total <=? f) || bool_decide (Z.to_nat f ∈ l) then (KERN_INVALID_ARGUMENT, l)
      else (KERN_SUCCESS, Z.to_nat f :: l)
  end.

Fixpoint spec_run (total : Z) (ops : list pmap_op) (l : list nat) : list Z * list nat :=
  match ops with
  | [] => ([], l)
  | op :: ops' => let '(r, l1) := spec_exec total op l in
                  let '(rs, l2) := spec_run total ops' l1 in (r :: rs, l2)
  end.

Lemma alter_insert_eq {X} (f : X -> X) (l : list X) i x : alter f i (<[i := x]> l) = <[i := f x]> l.
Proof. revert i; induction l as [|y l IH]; intros [|i]; [done|done|done|]. cbn. f_equal. apply IH. Qed.

(** The free list from [hd] runs through the frames [l]. *)
Fixpoint chain (ps : list page) (hd : option nat) (l : list nat) : Prop :=
  match l with
  | [] => hd = None
  | f :: l' => hd = Some f /\ exists pg, ps !! f = Some pg /\ chain ps (p_next pg) l'
  end.

Lemma chain_insert ps hd l i pg : i ∉ l -> chain ps hd l -> chain (<[i := pg]> ps) hd l.
Proof.
  revert hd; induction l as [|f l IH]; intros hd Hi Hc; [done|]. apply not_elem_of_cons in Hi as [? ?].
  destruct Hc as (-> & pf & Hf & Hc). split; [done|]. exists pf. split; [by rewrite list_lookup_insert_ne|by apply IH].
Qed.

Record pmap_rel (p : pmap) (l : list nat) : Prop := {
  pr_init : pmap_initialized p = true;
  pr_lock : p_lock p = 0;
  pr_total : 1 <= total_pages p <= PMAP_MAX_PAGES;
  pr_pages : length (pages p) = Z.to_nat (total_pages p);
  pr_stack : length (free_stack p) = Z.to_nat (total_pages p);
  pr_cap : stack_cap p = total_pages p;
  pr_top : stack_top p = Z.of_nat (length l);
  pr_count : free_pages p = Z.of_nat (length l);
  pr_nodup : NoDup l;
  pr_range : Forall (fun f => 1 <= Z.of_nat f < total_pages p) l;
  pr_order : take (length l) (free_stack p) = Z.of_nat <$> rev l;
  pr_free : forall i pg, pages p !! i = Some pg ->
              frame_number pg = Z.of_nat i /\ is_free pg = bool_decide (i ∈ l);
  pr_chain : chain (pages p) (free_list p) l
}.

(** Frame 0 is never free, so the list is shorter than the stack. *)
Lemma pmap_rel_room p l : pmap_rel p l -> Z.of_nat (length l) < total_pages p.
Proof.
  intros []. pose proof (bounded_nodup_length (0%nat :: l) (Z.to_nat (total_pages p))) as Hb.
  cbn [length] in Hb. enough (S (length l) <= Z.to_nat (total_pages p))%nat by lia. apply Hb.
  - apply NoDup_cons. split; [|done]. intros H0. rewrite Forall_forall in pr_range0.
    specialize (pr_range0 _ H0). lia.
  - apply Forall_cons. split; [lia|]. eapply Forall_impl; [done|]. cbn. lia.
Qed.

Lemma pmap_alloc_refines p l :
  pmap_rel p l ->
  exists p', pmap_alloc_page p = Some (fst (spec_exec (total_pages p) AllocPage l), p') /\
    pmap_rel p' (snd (spec_exec (total_pages p) AllocPage l)) /\ total_pages p' = total_pages p.
Proof.
  intros R. pose proof (pmap_rel_room _ _ R) as Hroom. pose proof R as []. unfold pmap_alloc_page.
  rewrite pr_init0, pr_lock0, pr_count0, pr_top0. cbn [negb Z.eqb]. unfold PMAP_MAX_PAGES in *.
  destruct l as [|f l]; cbn [spec_exec fst snd].
  { exists p. by split_and!. }
  cbn [length] in *. replace (Z.of_nat (S (length l)) =? 0) with false by lia. cbn [orb].
  rewrite (u32_small (_ - 1)) by lia. replace (Z.to_nat (Z.of_nat (S (length l)) - 1)) with (length l) by lia.
  assert (Hst : free_stack p !! length l = Some (Z.of_nat f)).
  { rewrite <- (lookup_take_lt _ (S (length l))), pr_order0 by lia. cbn [rev].
    rewrite fmap_app, lookup_app_r by (rewrite length_fmap, length_rev; lia).
    by rewrite length_fmap, length_rev, Nat.sub_diag. }
  rewrite (list_lookup_total_correct _ _ _ Hst). apply Forall_cons in pr_range0 as [Hf Hrange].
  apply NoDup_cons in pr_nodup0 as [Hn Hnd].
  replace (total_pages p <=? Z.of_nat f) with false by lia. rewrite Nat2Z.id.
  destruct pr_chain0 as (Hfl & pg & Hpg & Hc). rewrite Hpg. cbn [default from_option id].
  destruct (pr_free0 _ _ Hpg) as [Hnum Hfree]. rewrite Hfree, bool_decide_eq_true_2 by left. cbn [negb].
  rewrite Hfl, bool_decide_eq_true_2 by done. cbn [mbind option_bind].
  eexists. split; [done|]. split; [|done]. unfold set_usage.
  rewrite alter_insert_eq. cbn [set_next].
  split; cbn [pmap_initialized p_lock total_pages pages free_stack stack_cap stack_top free_pages free_list];
    try done; try lia.
  - by rewrite length_insert.
  - cbn [rev] in pr_order0. rewrite fmap_app in pr_order0.
    apply (f_equal (take (length l))) in pr_order0. rewrite take_take, Nat.min_l in pr_order0 by lia.
    rewrite pr_order0, take_app_le, take_ge by (rewrite length_fmap, length_rev; lia). done.
  - intros i pi Hi. destruct (decide (i = f)) as [->|Hne].
    + rewrite list_lookup_insert_eq in Hi by (by apply lookup_lt_Some in Hpg). injection Hi as <-. cbn.
      split; [done|]. by rewrite bool_decide_eq_false_2.
    + rewrite list_lookup_insert_ne in Hi by done. destruct (pr_free0 _ _ Hi) as [? ->]. split; [done|].
      apply bool_decide_ext. rewrite elem_of_cons. tauto.
  - by apply chain_insert.
Qed.

Lemma pmap_free_refines p l frame :
  pmap_rel p l -> 0 <= frame ->
  exists p', pmap_free_page p frame = Some (fst (spec_exec (total_pages p) (FreePage frame) l), p') /\
    pmap_rel p' (snd (spec_exec (total_pages p) (FreePage frame) l)) /\ total_pages p' = total_pages p.
Proof.
  intros R Hf0. pose proof (pmap_rel_room _ _ R) as Hroom. pose proof R as []. unfold pmap_free_page, PMAP_MAX_PAGES in *.
  rewrite pr_init0, pr_lock0, pr_top0, pr_count0, pr_cap0. cbn [spec_exec negb Z.eqb].
  destruct (total_pages p <=? frame) eqn:E1; bool_to_prop; [rewrite orb_true_r; by exists p|].
  destruct (frame =? 0) eqn:E2; bool_to_prop; [by exists p|]. cbn [orb].
  destruct (lookup_lt_is_Some_2 (pages p) (Z.to_nat frame)) as [pg Hpg]; [lia|].
  rewrite Hpg. cbn [default from_option id]. destruct (pr_free0 _ _ Hpg) as [Hnum Hfree]. rewrite Hfree.
  case_bool_decide as Hin; [by exists p|]. replace (total_pages p <=? _) with false by lia. cbn [fst snd].
  eexists. split; [done|]. split; [|done]. unfold set_usage.
  assert (Hlt : (Z.to_nat frame < length (pages p))%nat) by (by apply lookup_lt_Some in Hpg).
  rewrite alter_insert_eq. cbn [set_next].
  split; cbn [pmap_initialized p_lock total_pages pages free_stack stack_cap stack_top free_pages free_list length];
    try done; try lia.
  - by rewrite length_insert.
  - by rewrite length_insert.
  - rewrite u32_small; lia.
  - rewrite u32_small; lia.
  - by apply NoDup_cons.
  - apply Forall_cons. split; [lia|done].
  - rewrite Nat2Z.id. cbn [rev]. rewrite fmap_app, <- pr_order0. cbn.
    rewrite (take_S_r _ _ frame) by (apply list_lookup_insert_eq; lia).
    rewrite take_insert_ge by lia. by rewrite Z2Nat.id.
  - intros i pi Hi. destruct (decide (i = Z.to_nat frame)) as [->|Hne].
    + rewrite list_lookup_insert_eq in Hi by done. injection Hi as <-. cbn.
      split; [done|]. by rewrite bool_decide_eq_true_2 by left.
    + rewrite list_lookup_insert_ne in Hi by done. destruct (pr_free0 _ _ Hi) as [? ->]. split; [done|].
      apply bool_decide_ext. rewrite elem_of_cons. tauto.
  - split; [done|]. eexists. rewrite list_lookup_insert_eq by done. split; [done|]. by apply chain_insert.
Qed.

(** ** Initialisation *)

Lemma init_pages_lookup n i ps j pg :
  init_pages n i ps !! j = Some pg -> (i <= j < i + n)%nat ->
  pg = mk_page (Z.of_nat j) 0 (negb (j =? 0)%nat) false None.
Proof.
  revert i ps; induction n as [|n IH]; intros i ps Hj Hr; [lia|]. cbn [init_pages] in Hj.
  destruct (decide (j = i)) as [->|]; [|apply (IH (S i)) in Hj; [done|lia]].
  clear IH. assert (Hk : forall n k ps, (i < k)%nat -> init_pages n k ps !! i = ps !! i).
  { intros m; induction m as [|m IH]; intros k qs Hk; [done|]. cbn [init_pages].
    rewrite IH by lia. by rewrite list_lookup_insert_ne by lia. }
  rewrite Hk in Hj by lia. apply list_lookup_insert_Some in Hj as [(_ & <- & _)|[]]; done.
Qed.

Lemma init_pages_length n i ps : length (init_pages n i ps) = length ps.
Proof. revert i ps; induction n as [|n IH]; intros i ps; [done|]. cbn [init_pages]. by rewrite IH, length_insert. Qed.

Lemma push_frames_spec n f st k :
  (k + n <= length st)%nat -> Z.of_nat (length st) < 2 ^ 32 ->
  exists st', push_frames n f st (Z.of_nat k) (Z.of_nat k) = (st', Z.of_nat (k + n), Z.of_nat (k + n)) /\
    length st' = length st /\ take (k + n) st' = take k st ++ (Z.of_nat <$> seq f n).
Proof.
  revert f st k; induction n as [|n IH]; intros f st k Hk Hl.
  { exists st. cbn. by rewrite Nat.add_0_r, app_nil_r. }
  cbn [push_frames]. rewrite u32_small by lia. replace (Z.of_nat k + 1) with (Z.of_nat (S k)) by lia.
  rewrite Nat2Z.id. destruct (IH (S f) (<[k := Z.of_nat f]> st) (S k)) as (st' & -> & Hlen & Ht);
    rewrite ?length_insert in *; try lia.
  exists st'. replace (k + S n)%nat with (S k + n)%nat by lia. split_and!; [done|done|]. rewrite Ht.
  rewrite (take_S_r _ _ (Z.of_nat f)) by (apply list_lookup_insert_eq; lia).
  rewrite take_insert_ge by lia. by rewrite <- app_assoc.
Qed.

Lemma link_frames_spec n f ps fl l :
  chain ps fl l -> Forall (fun i => i < f)%nat l -> (f + n <= length ps)%nat ->
  exists ps' fl', link_frames n f ps fl = (ps', fl') /\ length ps' = length ps /\
    chain ps' fl' (rev (seq f n) ++ l) /\
    forall i pg, ps' !! i = Some pg -> exists pg0, ps !! i = Some pg0 /\
      frame_number pg = frame_number pg0 /\ is_free pg = is_free pg0.
Proof.
  revert f ps fl l; induction n as [|n IH]; intros f ps fl l Hc Hl Hb.
  { exists ps, fl. split_and!; try done. intros i pg Hi. by exists pg. }
  cbn [link_frames]. destruct (lookup_lt_is_Some_2 ps f) as [pg Hpg]; [lia|].
  assert (Ha : alter (set_next fl) f ps = <[f := set_next fl pg]> ps).
  { rewrite <- (list_insert_id ps f pg) at 1 by done. apply alter_insert_eq. }
  rewrite Ha. destruct (IH (S f) (<[f := set_next fl pg]> ps) (Some f) (f :: l)) as (ps' & fl' & -> & Hlen & Hch & Hsame).
  - split; [done|]. exists (set_next fl pg). split; [apply list_lookup_insert_eq; lia|]. cbn.
    apply chain_insert; [|done]. intros Hin. rewrite Forall_forall in Hl. specialize (Hl _ Hin). lia.
  - apply Forall_cons. split; [lia|]. eapply Forall_impl; [done|]. cbn. lia.
  - rewrite length_insert. lia.
  - exists ps', fl'. rewrite length_insert in Hlen. split_and!; [done|done| |].
    + cbn [seq rev]. by rewrite <- app_assoc.
    + intros i pi Hi. destruct (Hsame i pi Hi) as (pg0 & H0 & ? & ?).
      apply list_lookup_insert_Some in H0 as [(<- & <- & _)|[_ H0]]; [by exists pg|by exists pg0].
Qed.

(** The list pmap_init builds: the highest frame first. *)
Definition all_frames (total : Z) : list nat := rev (seq 1 (Z.to_nat total - 1)).

Lemma pmap_init_rel total q q2 (raw : list Z) st top fp ps fl :
  1 <= total <= PMAP_MAX_PAGES -> length raw = Z.to_nat total ->
  push_frames (Z.to_nat total - 1) 1 raw 0 0 = (st, top, fp) ->
  link_frames (Z.to_nat total - 1) 1 (init_pages (Z.to_nat total) 0 (replicate (Z.to_nat total) zero_page)) None = (ps, fl) ->
  pmap_rel (mk_pmap ps q total fp fl 0 true st q2 top total) (all_frames total).
Proof.
  intros Ht Hraw Hp Hl. unfold PMAP_MAX_PAGES in *.
  destruct (push_frames_spec (Z.to_nat total - 1) 1 raw 0) as (st' & Hp' & Hst & Htk); [lia|lia|].
  change (Z.of_nat 0) with 0 in Hp'. rewrite Hp in Hp'. injection Hp' as <- -> ->.
  destruct (link_frames_spec (Z.to_nat total - 1) 1 (init_pages (Z.to_nat total) 0 (replicate (Z.to_nat total) zero_page))
    None []) as (ps' & fl' & Hl' & Hlen & Hch & Hsame); [done|constructor|rewrite init_pages_length, length_replicate; lia|].
  rewrite Hl in Hl'. injection Hl' as <- <-. rewrite init_pages_length, length_replicate in Hlen.
  rewrite app_nil_r in Hch. unfold all_frames.
  assert (Hel : forall i, i ∈ rev (seq 1 (Z.to_nat total - 1)) <-> (1 <= i < Z.to_nat total)%nat).
  { intros i. rewrite list_elem_of_In, <- in_rev, in_seq. lia. }
  split; cbn [pmap_initialized p_lock total_pages pages free_stack stack_cap stack_top free_pages free_list];
    rewrite ?length_rev, ?length_seq; try done; try lia.
  - apply NoDup_ListNoDup, NoDup_rev, seq_NoDup.
  - apply Forall_forall. intros i Hi. apply Hel in Hi. lia.
  - rewrite rev_involutive. exact Htk.
  - intros i pg Hi. destruct (Hsame i pg Hi) as (pg0 & H0 & -> & ->).
    apply lookup_lt_Some in Hi. apply init_pages_lookup in H0; [|lia]. rewrite H0. cbn. split; [done|].
    symmetry. destruct i; [apply bool_decide_eq_false_2|apply bool_decide_eq_true_2]; rewrite Hel; lia.
Qed.

Lemma pmap_run_refines ops p l :
  pmap_rel p l -> Forall (fun op => match op with FreePage f => 0 <= f | _ => True end) ops ->
  exists p', pmap_run ops p = Some (fst (spec_run (total_pages p) ops l), p') /\
    pmap_rel p' (snd (spec_run (total_pages p) ops l)).
Proof.
  revert p l; induction ops as [|op ops IH]; intros p l R Ho; [by exists p|].
  apply Forall_cons in Ho as [Hop Ho]. cbn [pmap_run spec_run].
  assert (H1 : exists p', pmap_exec op p = Some (fst (spec_exec (total_pages p) op l), p') /\
    pmap_rel p' (snd (spec_exec (total_pages p) op l)) /\ total_pages p' = total_pages p)
    by (destruct op; [by apply pmap_alloc_refines|by apply pmap_free_refines]).
  destruct H1 as (p1 & -> & R1 & Ht). cbn [mbind option_bind].
  destruct (IH p1 _ R1 Ho) as (p2 & -> & R2). rewrite Ht in *. cbn [mbind option_bind]. exists p2.
  destruct (spec_exec _ op l) as [r l1]. cbn [fst snd] in *. by destruct (spec_run _ ops l1).
Qed.

Section PmapCorrect.
Context (kernel_heap : Z) (heap_pos : 0 < kernel_heap) (heap_fits : kernel_heap + KERNEL_HEAP_SIZE < 2 ^ 32).
#[local] Instance pmap_allocator : Allocator heap := heap_allocator kernel_heap heap_pos heap_fits.

(** [pmap_init] ends, and keeps the heap and every block of it; when it succeeds
    all frames but frame 0 are free. *)
Lemma pmap_init_starts h mem_size :
  a_ok h -> 0 <= mem_size < 2 ^ 32 ->
  exists r p h', pmap_init kernel_heap pmap_boot h mem_size = Some (r, p, h') /\ a_ok h' /\
    (forall q n, a_owned h q n -> 0 < n -> a_owned h' q n) /\
    ((r = KERN_INVALID_ARGUMENT /\ mem_size < PAGE_SIZE \/ r = KERN_RESOURCE_SHORTAGE) /\ pmap_initialized p = false \/
     r = KERN_SUCCESS /\ total_pages p = Z.min (mem_size / PAGE_SIZE) PMAP_MAX_PAGES /\ pmap_rel p (all_frames (total_pages p))).
Proof.
  intros Hok Hsz. pose proof Hok as [bs (Hini & _)]. unfold pmap_init. cbn [pmap_initialized pmap_boot]. rewrite Hini.
  destruct (mem_size =? 0) eqn:E0; bool_to_prop.
  { subst. eexists _, _, h. split; [done|]. split; [done|]. split; [done|]. left. split; [by left|done]. }
  destruct (mem_size / PAGE_SIZE =? 0) eqn:E1; bool_to_prop; unfold PAGE_SIZE in *.
  { eexists _, _, h. split; [done|]. split; [done|]. split; [done|]. left. split; [left; split; [done|zlia]|done]. }
  unfold PMAP_MAX_PAGES. set (total := if 16384 <? mem_size / 4096 then 16384 else mem_size / 4096).
  assert (Ht : total = Z.min (mem_size / 4096) 16384) by (unfold total; case_if; bool_to_prop; lia).
  assert (Htr : 1 <= total <= 16384) by zlia. clearbody total. unfold sizeof_page.
  rewrite !(u32_small (_ * total)) by lia.
  destruct (a_alloc_spec h (20 * total) Hok) as [Ha|(q & r & h1 & Ha & Hok1 & Hq & Hr & Ho & Hdis & _)]; [lia| |];
    change (a_alloc h (20 * total)) with (kmalloc kernel_heap h (20 * total)) in Ha; rewrite Ha; cbn [mbind option_bind].
  { eexists _, _, h. split; [done|]. split; [done|]. split; [done|]. left. split; [by right|done]. }
  replace (q =? 0) with false by lia.
  destruct (memset_owned h1 q r 0 (20 * total) Hok1) as [Hok1' Ho1]; [apply Ho; by right|lia|].
  cbn zeta in Hok1', Ho1. change (a_write h1 _) with (with_hmem h1 (snd (lib_memset (hmem h1) q 0 (20 * total)))) in *.
  set (h1' := with_hmem h1 _) in *.
  destruct (a_alloc_spec h1' (4 * total) Hok1') as [Ha2|(q2 & r2 & h2 & Ha2 & Hok2 & Hq2 & _ & Ho2 & _)]; [lia| |];
    change (a_alloc h1' (4 * total)) with (kmalloc kernel_heap h1' (4 * total)) in Ha2; rewrite Ha2; cbn [mbind option_bind].
  { destruct (a_free_spec h1' q r Hok1') as (h3 & Hf & Hok3 & Ho3 & _); [apply Ho1, Ho; by right|lia|].
    change (a_free h1' q) with (kfree kernel_heap h1' q) in Hf. cbn [Z.eqb]. rewrite Hf. cbn [mbind option_bind].
    eexists _, _, h3. split; [done|]. split; [done|]. split; [|left; split; [by right|done]].
    intros q' n Hq' Hn. apply Ho3. split; [apply Ho1, Ho; by left|]. intros ->. destruct (Hdis _ _ Hq'); lia. }
  replace (q2 =? 0) with false by lia.
  destruct (push_frames _ 1 _ 0 0) as [[st top] fp] eqn:Ep. destruct (link_frames _ 1 _ None) as [ps fl] eqn:El.
  pose proof (pmap_init_rel total q q2 _ _ _ _ _ _ Htr ltac:(by rewrite length_map, length_seq) Ep El) as R.
  eexists _, _, h2. split; [done|]. split; [done|]. split; [intros q' n Hq' _; apply Ho2; left; apply Ho1, Ho; by left|].
  right. split; [done|]. cbn [total_pages]. by split.
Qed.


End PmapCorrect.

