(* ===== verification/Zone.v ===== *)
(** * xnu_memory.c, the zone allocator

    Zone headers are records named by the address kmalloc returned; the
    [all_zones] list is the list of the records along [next].  The elements
    live in the flat memory of the heap: the free list is threaded through
    their first words, as in the code.  [None] means that a call does not
    return (lock held) or that a freed zone is used. *)
From S2P Require Import Prelude Mem LibString Alloc Heap VmMap.

Record zone := mk_zone {
  z_ptr : Z; z_name : Z; z_free_list : Z; elem_size : Z; max_elements : Z;
  cur_elements : Z; alloc_count : Z; free_count : Z
}.
Definition set_free_list (v : Z) (z : zone) : zone :=
  mk_zone (z_ptr z) (z_name z) v (elem_size z) (max_elements z) (cur_elements z) (alloc_count z) (free_count z).

Definition sizeof_zone : Z := 32.
Definition sizeof_ptr : Z := 4.

(** [all_zones], [zones_initialized] and [zone_lock]. *)
Record zones := mk_zones { all_zones : list zone; zones_initialized : bool; zone_lock : Z }.

Definition zone_init (s : zones) : option (Z * zones) :=
  if zones_initialized s then Some (KERN_SUCCESS, s) else
  if negb (zone_lock s =? 0) then None else Some (KERN_SUCCESS, mk_zones [] true 0).

(** The zone at an address; [None] when there is none: a dangling pointer. *)
Definition find_zone (zp : Z) (s : zones) : option zone := List.find (fun z => z_ptr z =? zp) (all_zones s).
Definition update_zone (z : zone) (s : zones) : zones :=
  mk_zones (map (fun z' => if z_ptr z' =? z_ptr z then z else z') (all_zones s)) (zones_initialized s) (zone_lock s).

(** The loop that threads [n] fresh elements onto the free list: each element's
    first word gets the old head and the element becomes the head. *)
Fixpoint link_elems (n : nat) (i base esize : Z) (m : mem) (fl : Z) : mem * Z :=
  match n with
  | O => (m, fl)
  | S n' => let elem := u32 (base + u32 (i * esize)) in
            link_elems n' (i + 1) base esize (store32 m elem fl) elem
  end.

Section Zone.
Context {A : Type} `{!Allocator A}.

(** [lib_memset(ptr, 0, n)]. *)
Definition clear (h : A) (ptr n : Z) : A := a_write h (snd (lib_memset (a_mem h) ptr 0 n)).

Definition zone_expand (z : zone) (n : Z) (h : A) : option (Z * zone * A) :=
  if n =? 0 then Some (KERN_INVALID_ARGUMENT, z, h) else
  let n := if max_elements z <? n then max_elements z else n in
  let esize := if elem_size z <? sizeof_ptr then sizeof_ptr else elem_size z in
  let total := u32 (esize * n) in
  '(q, h1) ← a_alloc h total;
  if q =? 0 then Some (KERN_RESOURCE_SHORTAGE, z, h1) else
  let h2 := clear h1 q total in
  let '(m, fl) := link_elems (Z.to_nat n) 0 q esize (a_mem h2) (z_free_list z) in
  Some (KERN_SUCCESS, set_free_list fl z, a_write h2 m).

Definition zinit (s : zones) (size max alloc name : Z) (h : A) : option (Z * zones * A) :=
  if (size =? 0) || (max =? 0) || (name =? 0) then Some (0, s, h) else
  '(_, s) ← zone_init s;
  let elem_size := if size <? sizeof_ptr then sizeof_ptr else size in
  if negb (zone_lock s =? 0) then None else
  '(zp, h1) ← a_alloc h sizeof_zone;
  if zp =? 0 then Some (0, s, h1) else
  let h1 := clear h1 zp sizeof_zone in
  let initial := if alloc <? max then alloc else max in
  let initial := if initial =? 0 then 1 else initial in
  let total := u32 (elem_size * initial) in
  '(q, h2) ← a_alloc h1 total;
  if q =? 0 then h3 ← a_free h2 zp; Some (0, s, h3) else
  let h2 := clear h2 q total in
  let '(m, fl) := link_elems (Z.to_nat initial) 0 q elem_size (a_mem h2) 0 in
  let z := mk_zone zp name fl elem_size max 0 0 0 in
  Some (zp, mk_zones (z :: all_zones s) (zones_initialized s) (zone_lock s), a_write h2 m).

(** [max_elements - (cur_elements + free_count)], or 0. *)
Definition remaining (z : zone) : Z :=
  let used := u32 (cur_elements z + free_count z) in
  if used <? max_elements z then u32 (max_elements z - used) else 0.

(** The part of [zalloc] that refills an empty free list. *)
Definition refill_free_list (z : zone) (h : A) : option (zone * A) :=
  if z_free_list z =? 0 then
    let want := if remaining z <? 4 then remaining z else 4 in
    if 0 <? want then '(_, z1, h1) ← zone_expand z want h; Some (z1, h1) else Some (z, h)
  else Some (z, h).

Definition take_elem (z : zone) (h : A) : option (Z * zone * A) :=
  '(z1, h1) ← refill_free_list z h;
  if z_free_list z1 =? 0 then Some (0, z1, h1) else
  let elem := z_free_list z1 in
  let z2 := mk_zone (z_ptr z1) (z_name z1) (load32 (a_mem h1) elem) (elem_size z1) (max_elements z1)
              (u32 (cur_elements z1 + 1)) (u32 (alloc_count z1 + 1)) (free_count z1) in
  Some (elem, z2, clear h1 elem (elem_size z2)).

Definition zalloc (s : zones) (zp : Z) (h : A) : option (Z * zones * A) :=
  if zp =? 0 then Some (0, s, h) else
  if negb (zone_lock s =? 0) then None else
  z ← find_zone zp s;
  '(e, z', h') ← take_elem z h;
  Some (e, update_zone z' s, h').

Definition give_elem (z : zone) (data : Z) (h : A) : zone * A :=
  if cur_elements z =? 0 then (z, h) else
  (mk_zone (z_ptr z) (z_name z) data (elem_size z) (max_elements z)
     (u32 (cur_elements z - 1)) (alloc_count z) (u32 (free_count z + 1)),
   a_write h (store32 (a_mem h) data (z_free_list z))).

Definition zfree (s : zones) (zp data : Z) (h : A) : option (zones * A) :=
  if (zp =? 0) || (data =? 0) then Some (s, h) else
  if negb (zone_lock s =? 0) then None else
  z ← find_zone zp s;
  let '(z', h') := give_elem z data h in
  Some (update_zone z' s, h').

(** Unlinking along [next]; [None] when the zone is not in the list. *)
Fixpoint unlink_zone (zp : Z) (zs : list zone) : option (list zone) :=
  match zs with
  | [] => None
  | z :: zs' => if z_ptr z =? zp then Some zs' else cons z <$> unlink_zone zp zs'
  end.

Definition zone_destroy (s : zones) (zp : Z) (h : A) : option (Z * zones * A) :=
  if zp =? 0 then Some (KERN_INVALID_ARGUMENT, s, h) else
  if negb (zone_lock s =? 0) then None else
  match unlink_zone zp (all_zones s) with
  | None => Some (KERN_NOT_FOUND, s, h)
  | Some zs => h1 ← a_free h zp; Some (KERN_SUCCESS, mk_zones zs (zones_initialized s) (zone_lock s), h1)
  end.
End Zone.

(** ** Slots: disjoint pieces of owned blocks *)

Abbreviation slot := (Z * Z)%type.
Definition disj (x y : slot) : Prop := x.1 + x.2 <= y.1 \/ y.1 + y.2 <= x.1.
Definition in_slot (x : slot) (a : Z) : Prop := x.1 <= a < x.1 + x.2.

Fixpoint pairwise_disj (l : list slot) : Prop :=
  match l with [] => True | x :: l' => Forall (disj x) l' /\ pairwise_disj l' end.

Lemma disj_sym x y : disj x y -> disj y x.
Proof. unfold disj. tauto. Qed.

#[export] Instance pairwise_disj_perm : Proper ((≡ₚ) ==> iff) pairwise_disj.
Proof.
  assert (Hp : forall l1 l2, l1 ≡ₚ l2 -> pairwise_disj l1 -> pairwise_disj l2).
  { induction 1 as [|x l1 l2 Hp IH|x y l|l1 l2 l3 _ IH1 _ IH2]; [done| | |by eauto].
    - intros [Hx Hl]. split; [by rewrite <- Hp|by apply IH].
    - intros [Hy [Hx Hl]]. apply Forall_cons in Hy as [Hyx Hy].
      split; [|done]. apply Forall_cons. split; [by apply disj_sym|done]. }
  intros l1 l2 H. split; apply Hp; [done|by symmetry].
Qed.

(** Descending elements of [n] bytes between [lo] and [hi]. *)
Fixpoint descending (lo hi n : Z) (l : list Z) : Prop :=
  match l with [] => True | e :: l' => lo <= e /\ e + n <= hi /\ descending lo e n l' end.

Lemma descending_weaken lo hi hi' n l : hi <= hi' -> descending lo hi n l -> descending lo hi' n l.
Proof. destruct l; [done|]. intros ? (? & ? & ?). split_and!; [done|lia|done]. Qed.

Lemma descending_in lo hi n l e : 0 <= n -> descending lo hi n l -> e ∈ l -> lo <= e /\ e + n <= hi.
Proof.
  revert hi; induction l as [|x l IH]; intros hi Hn Hd Hi; [by apply not_elem_of_nil in Hi|].
  destruct Hd as (? & ? & Hd). apply elem_of_cons in Hi as [->|Hi]; [done|].
  destruct (IH x Hn Hd Hi). lia.
Qed.

Lemma descending_disj lo hi n l :
  0 <= n -> descending lo hi n l -> pairwise_disj (map (fun e => (e, n)) l).
Proof.
  revert hi; induction l as [|x l IH]; intros hi Hn Hd; [done|]. destruct Hd as (? & ? & Hd).
  split; [|by eapply IH]. apply Forall_forall. intros y Hy. apply list_elem_of_In, in_map_iff in Hy as (e & <- & He).
  apply list_elem_of_In in He. destruct (descending_in _ _ _ _ _ Hn Hd He). right. cbn. lia.
Qed.

(** The free list in memory: each element's first word holds the next one. *)
Fixpoint fchain (m : mem) (hd : Z) (l : list Z) : Prop :=
  match l with [] => hd = 0 | e :: l' => hd = e /\ 0 < e < 2 ^ 32 /\ fchain m (load32 m e) l' end.

Lemma fchain_range m hd l : fchain m hd l -> 0 <= hd < 2 ^ 32.
Proof. destruct l; cbn [fchain]; [lia|]. intros (-> & ? & _). lia. Qed.

Lemma fchain_ext m m' hd l :
  (forall e a, e ∈ l -> e <= a < e + 4 -> m'.[a] = m.[a]) -> fchain m hd l -> fchain m' hd l.
Proof.
  revert hd; induction l as [|e l IH]; intros hd Hm Hc; [done|]. destruct Hc as (-> & ? & Hc).
  split_and!; try done; try lia. rewrite (load32_ext m' m e).
  - apply IH; [|done]. intros e' a He. apply Hm. by right.
  - intros a Ha. apply (Hm e a); [by left|lia].
Qed.

(** The elements [link_elems] puts on the list, last first. *)
Fixpoint linked (n : nat) (i base esize : Z) (l : list Z) : list Z :=
  match n with O => l | S n' => linked n' (i + 1) base esize (base + i * esize :: l) end.

Lemma link_elems_spec n i base esize m fl l :
  0 < base -> 4 <= esize -> 0 <= i -> base + (i + Z.of_nat n) * esize < 2 ^ 32 ->
  fchain m fl l -> descending base (base + i * esize) esize l ->
  exists m' fl', link_elems n i base esize m fl = (m', fl') /\
    fchain m' fl' (linked n i base esize l) /\
    descending base (base + (i + Z.of_nat n) * esize) esize (linked n i base esize l) /\
    length (linked n i base esize l) = (n + length l)%nat /\
    forall a, ~ in_block base ((i + Z.of_nat n) * esize) a -> m'.[a] = m.[a].
Proof.
  revert i m fl l; induction n as [|n IH]; intros i m fl l Hb He Hi Hw Hc Hd.
  { exists m, fl. rewrite Z.add_0_r. by split_and!. }
  cbn [link_elems linked]. pose proof (Z.mul_nonneg_nonneg i esize).
  assert (Hs : (i + Z.of_nat (S n)) * esize = i * esize + esize + Z.of_nat n * esize) by lia.
  rewrite (u32_small (i * esize)) by lia. rewrite u32_small by lia.
  pose proof (fchain_range _ _ _ Hc) as Hfl.
  destruct (IH (i + 1) (store32 m (base + i * esize) fl) (base + i * esize) (base + i * esize :: l))
    as (m' & fl' & -> & Hc' & Hd' & Hl & Hm); [lia|lia|lia|replace (i + 1 + Z.of_nat n) with (i + Z.of_nat (S n)) by lia; lia| | |].
  - split_and!; [done|lia|lia|]. rewrite load32_store32_eq by lia.
    eapply fchain_ext; [|done]. intros e a Hel Ha. destruct (descending_in base (base + i * esize) esize l e ltac:(lia) Hd Hel).
    rewrite peek_store32_ne; [done|lia].
  - split_and!; [lia|lia|done].
  - exists m', fl'. replace (i + 1 + Z.of_nat n) with (i + Z.of_nat (S n)) in * by lia.
    split_and!; try done; [cbn [length] in Hl; lia|].
    intros a Ha. rewrite Hm by done. unfold in_block in Ha. rewrite peek_store32_ne by lia. done.
Qed.

(** ** The zone invariant

    [F] are the free elements in list order, [U] the elements handed out and
    [fr] the slots of everybody else on the same heap, other zones included. *)
Section ZoneCorrect.
Context {A : Type} `{!Allocator A}.
Implicit Types h : A.

Definition slot_owned h (x : slot) : Prop :=
  4 <= x.2 /\ exists q r, a_owned h q r /\ q <= x.1 /\ x.1 + x.2 <= q + r.

Definition zslots (z : zone) (l : list Z) : list slot := map (fun e => (e, elem_size z)) l.

Record zone_rel (z : zone) h (F U : list Z) (fr : list slot) : Prop := {
  zr_ok : a_ok h;
  zr_chain : fchain (a_mem h) (z_free_list z) F;
  zr_disj : pairwise_disj (zslots z (F ++ U) ++ fr);
  zr_owned : Forall (slot_owned h) (zslots z (F ++ U) ++ fr);
  zr_cur : cur_elements z = Z.of_nat (length U);
  zr_max : Z.of_nat (length F + length U) <= max_elements z < 2 ^ 32;
  zr_size : 4 <= elem_size z;
  zr_nowrap : elem_size z * max_elements z <= 2 ^ 32 - 8;
  zr_count : alloc_count z = cur_elements z + free_count z /\ 0 <= free_count z /\ alloc_count z < 2 ^ 32
}.

Definition contents_kept h h' (l : list slot) : Prop :=
  forall x a, x ∈ l -> in_slot x a -> (a_mem h').[a] = (a_mem h).[a].

Lemma slot_owned_mono h h' x :
  (forall q r, a_owned h q r -> a_owned h' q r) -> slot_owned h x -> slot_owned h' x.
Proof. intros Hm (? & q & r & ? & ? & ?). split; [done|]. exists q, r. auto. Qed.

(** Writing inside one slot keeps the heap and everything outside the slot. *)
Lemma write_slot h x m :
  a_ok h -> slot_owned h x -> (forall a, ~ in_slot x a -> m.[a] = (a_mem h).[a]) ->
  a_ok (a_write h m) /\ (forall q r, a_owned (a_write h m) q r <-> a_owned h q r).
Proof.
  intros Hok (_ & q & r & Ho & ? & ?) Hm. apply (write_owned h q r); [done|done|].
  intros a Ha. apply Hm. unfold in_slot, in_block in *. lia.
Qed.

(** A fresh block is disjoint from every owned slot. *)
Lemma fresh_disj h q r n x :
  (forall q' r', a_owned h q' r' -> q' + r' <= q \/ q + r <= q') -> n <= r -> slot_owned h x -> disj (q, n) x.
Proof. intros Hd Hn (_ & q' & r' & Ho & ? & ?). specialize (Hd _ _ Ho). unfold disj. cbn. lia. Qed.

(** A new block of [n] elements, cleared and threaded on an empty list: what
    [zinit] and [zone_expand] do after a successful kmalloc. *)
Lemma fresh_elems h h1 q r n esize (fr : list slot) :
  a_ok h1 -> 0 < q -> 4 <= esize -> Z.of_nat n * esize <= r ->
  (forall q' r', a_owned h1 q' r' <-> a_owned h q' r' \/ q' = q /\ r' = r) ->
  (forall q' r', a_owned h q' r' -> q' + r' <= q \/ q + r <= q') ->
  (forall q' r' a, a_owned h q' r' -> in_block q' r' a -> (a_mem h1).[a] = (a_mem h).[a]) ->
  Forall (slot_owned h) fr -> pairwise_disj fr ->
  let h2 := clear h1 q (Z.of_nat n * esize) in
  exists m fl F, link_elems n 0 q esize (a_mem h2) 0 = (m, fl) /\ length F = n /\
    a_ok (a_write h2 m) /\ fchain m fl F /\ contents_kept h (a_write h2 m) fr /\
    pairwise_disj (map (fun e => (e, esize)) F ++ fr) /\
    Forall (slot_owned (a_write h2 m)) (map (fun e => (e, esize)) F ++ fr) /\
    (forall q' r', a_owned (a_write h2 m) q' r' <-> a_owned h1 q' r').
Proof.
  intros Hok1 Hq He Hr Ho Hd Hk Hfo Hfd h2.
  assert (Hoq : a_owned h1 q r) by (apply Ho; by right).
  destruct (a_owned_range _ _ _ Hok1 Hoq) as (_ & ? & Hend). pose proof (Z.mul_nonneg_nonneg (Z.of_nat n) esize).
  destruct (memset_owned h1 q r 0 (Z.of_nat n * esize) Hok1 Hoq) as [Hok2 Ho2]; [lia|]. fold (clear h1 q (Z.of_nat n * esize)) in Hok2, Ho2.
  fold h2 in Hok2, Ho2.
  destruct (link_elems_spec n 0 q esize (a_mem h2) 0 []) as (m & fl & Hl & Hc & Hdesc & Hlen & Hm); try done; try lia.
  set (F := linked n 0 q esize []) in *. cbn [length] in Hlen.
  destruct (write_owned h2 q r m Hok2) as [Hok3 Ho3]; [by apply Ho2| |].
  { intros a Ha. apply Hm. unfold in_block in *. lia. }
  exists m, fl, F. split_and!; try done; [lia| | | |].
  - intros x a Hx Ha. rewrite a_mem_write. rewrite Forall_forall in Hfo. pose proof (Hfo x Hx) as Hx'.
    pose proof (fresh_disj h q r r x Hd ltac:(lia) Hx') as Hdx. destruct Hx' as (? & q' & r' & Hoq' & ? & ?).
    unfold disj, in_slot in *. cbn in Hdx. rewrite Hm by (unfold in_block; lia). unfold h2, clear.
    rewrite a_mem_write, (memset_filled_lem (a_mem h1) q 0 (Z.of_nat n * esize)) by lia. case_if; [lia|].
    apply (Hk q' r'); [done|unfold in_block; lia].
  - assert (Hall : Forall (fun x => Forall (disj x) fr) (map (fun e => (e, esize)) F)).
    { apply Forall_forall. intros y Hy. apply list_elem_of_In, in_map_iff in Hy as (e & <- & He').
      apply list_elem_of_In in He'. destruct (descending_in _ _ esize F e ltac:(lia) Hdesc He').
      eapply Forall_impl; [done|]. intros x Hx. pose proof (fresh_disj h q r r x Hd ltac:(lia) Hx).
      unfold disj in *. cbn in *. lia. }
    pose proof (descending_disj _ _ esize F ltac:(lia) Hdesc) as HF. clear - Hall HF Hfd.
    induction (map _ F) as [|x l IH]; [done|]. apply Forall_cons in Hall as [? ?]. destruct HF as [? ?].
    cbn [app]. split; [by apply Forall_app|by apply IH].
  - apply Forall_app. split.
    + apply Forall_forall. intros y Hy. apply list_elem_of_In, in_map_iff in Hy as (e & <- & He').
      apply list_elem_of_In in He'. destruct (descending_in _ _ esize F e ltac:(lia) Hdesc He').
      split; [done|]. exists q, r. split; [by apply Ho3, Ho2|]. cbn. lia.
    + eapply Forall_impl; [done|]. intros x. apply slot_owned_mono. intros q' r' ?. apply Ho3, Ho2, Ho. by left.
  - intros q' r'. by rewrite Ho3, Ho2.
Qed.

Lemma zone_expand_spec z h U fr n :
  zone_rel z h [] U fr -> 0 < n -> n + Z.of_nat (length U) <= max_elements z ->
  exists r z' h' F, zone_expand z n h = Some (r, z', h') /\ zone_rel z' h' F U fr /\
    contents_kept h h' (zslots z U ++ fr) /\ (exists fl, z' = set_free_list fl z).
Proof.
  intros R Hn Hmax. pose proof R as []. unfold zone_expand.
  replace (n =? 0) with false by lia. replace (max_elements z <? n) with false by lia.
  replace (elem_size z <? sizeof_ptr) with false by (unfold sizeof_ptr; lia).
  assert (Hp : 0 < elem_size z * n <= elem_size z * max_elements z) by nia.
  rewrite u32_small by lia. cbn [app zslots map] in zr_disj0, zr_owned0.
  destruct (a_alloc_spec h (elem_size z * n) zr_ok0) as [->|(q & r & h1 & -> & Hok1 & Hq & Hr & Ho & Hd & Hk)];
    [lia| |]; cbn [mbind option_bind].
  { exists KERN_RESOURCE_SHORTAGE, z, h, []. split_and!; try done. by exists (z_free_list z); destruct z. }
  replace (q =? 0) with false by lia.
  destruct (fresh_elems h h1 q r (Z.to_nat n) (elem_size z) (zslots z U ++ fr) Hok1 Hq) as
    (m & fl & F & Hl & Hlen & Hok' & Hc & Hkept & Hdisj & Hown & _); try done; [lia|].
  rewrite Z2Nat.id in * by lia. rewrite (Z.mul_comm n) in *. rewrite zr_chain0, Hl.
  eexists _, _, _, F. split; [done|]. split; [|split; [done|by exists fl]].
  split; cbn [set_free_list z_free_list elem_size cur_elements max_elements alloc_count free_count]; try done; try lia.
  - by rewrite a_mem_write.
  - unfold zslots in *. cbn [elem_size set_free_list]. by rewrite map_app, <- app_assoc.
  - unfold zslots in *. cbn [elem_size set_free_list]. by rewrite map_app, <- app_assoc.
Qed.

Lemma refill_spec z h F U fr :
  zone_rel z h F U fr ->
  exists z1 h1 F1, refill_free_list z h = Some (z1, h1) /\ zone_rel z1 h1 F1 U fr /\
    contents_kept h h1 (zslots z U ++ fr) /\ (exists fl, z1 = set_free_list fl z) /\ (F <> [] -> F1 = F /\ z1 = z).
Proof.
  intros R. pose proof R as []. unfold refill_free_list.
  assert (Hsame : exists fl, z = set_free_list fl z) by (by exists (z_free_list z); destruct z).
  destruct F as [|e F].
  - cbn [fchain] in zr_chain0. rewrite zr_chain0. cbn [Z.eqb]. set (want := if remaining z <? 4 then _ else _).
    assert (Hw : want <= Z.max 0 (max_elements z - Z.of_nat (length U))).
    { assert (remaining z <= Z.max 0 (max_elements z - Z.of_nat (length U))).
      { unfold remaining. rewrite (u32_small (cur_elements z + free_count z)) by lia.
        case_if; bool_to_prop; [rewrite u32_small; lia|lia]. }
      unfold want. case_if; lia. }
    destruct (0 <? want) eqn:Ew; bool_to_prop.
    + destruct (zone_expand_spec z h U fr want R Ew) as (r & z' & h' & F & -> & R' & Hk & Hz); [lia|].
      cbn [mbind option_bind]. by exists z', h', F.
    + exists z, h, []. by split_and!.
  - destruct zr_chain0 as (-> & ? & _). replace (e =? 0) with false by lia. exists z, h, (e :: F). by split_and!.
Qed.

Lemma zone_rel_head z h e F U fr :
  zone_rel z h (e :: F) U fr ->
  slot_owned h (e, elem_size z) /\ Forall (disj (e, elem_size z)) (zslots z (F ++ U) ++ fr).
Proof.
  intros []. cbn [app zslots map] in *. apply Forall_cons in zr_owned0 as [? _]. by destruct zr_disj0.
Qed.

Lemma take_elem_spec z h F U fr :
  zone_rel z h F U fr -> alloc_count z + 1 < 2 ^ 32 ->
  exists e z' h', take_elem z h = Some (e, z', h') /\ z_ptr z' = z_ptr z /\
    (e = 0 /\ F = [] /\ zone_rel z' h' [] U fr \/
     0 < e /\ exists F', (F <> [] -> F = e :: F') /\ zone_rel z' h' F' (e :: U) fr /\
       (forall a, e <= a < e + elem_size z -> (a_mem h').[a] = 0)) /\
    elem_size z' = elem_size z /\ contents_kept h h' (zslots z U ++ fr).
Proof.
  intros R Hac. unfold take_elem. destruct (refill_spec _ _ _ _ _ R) as (z1 & h1 & F1 & -> & R1 & Hk1 & (fl & Hz1) & Hsame).
  cbn [mbind option_bind]. pose proof R1 as [].
  destruct F1 as [|e F1].
  { cbn [fchain] in zr_chain0. rewrite zr_chain0. exists 0, z1, h1. split_and!; try done; try (by subst z1).
    left. split_and!; try done. destruct F; [done|]. by destruct (Hsame ltac:(done)). }
  destruct (zone_rel_head _ _ _ _ _ _ R1) as [Hso Hdj]. cbn [fchain] in zr_chain0. destruct zr_chain0 as (-> & He & Hc).
  replace (e =? 0) with false by lia. unfold clear. set (m := snd _).
  assert (Hm : filled (a_mem h1) e 0 (elem_size z1) m) by (apply memset_filled_lem; lia).
  destruct (write_slot h1 (e, elem_size z1) m zr_ok0 Hso) as [Hok2 Ho2].
  { intros a Ha. rewrite (Hm a). unfold in_slot in Ha. cbn in Ha. case_if; [lia|done]. }
  assert (Hkd : forall x a, disj (e, elem_size z1) x -> in_slot x a -> m.[a] = (a_mem h1).[a]).
  { intros x a Hx Ha. rewrite (Hm a). unfold disj, in_slot in *. cbn in Hx. case_if; [lia|done]. }
  assert (Hperm : zslots z1 (F1 ++ e :: U) ++ fr ≡ₚ zslots z1 ((e :: F1) ++ U) ++ fr).
  { unfold zslots. by rewrite <- Permutation_middle. }
  assert (Hes : elem_size z1 = elem_size z) by (by subst z1).
  rewrite Forall_forall in Hdj.
  eexists e, _, _. split; [done|]. split; [by subst z1|]. split; [right; split; [lia|]; exists F1; split_and!|].
  - intros HF. by destruct (Hsame HF) as [<- _].
  - split; cbn [z_free_list elem_size cur_elements max_elements alloc_count free_count]; try done; try lia.
    + rewrite a_mem_write. eapply fchain_ext; [|done]. intros e' a He' Ha.
      apply (Hkd (e', elem_size z1)); [|unfold in_slot; cbn; lia]. apply Hdj, elem_of_app. left.
      apply list_elem_of_In, in_map_iff. exists e'. split; [done|]. apply list_elem_of_In, elem_of_app. by left.
    + change (pairwise_disj (zslots z1 (F1 ++ e :: U) ++ fr)). by rewrite Hperm.
    + change (Forall (slot_owned (a_write h1 m)) (zslots z1 (F1 ++ e :: U) ++ fr)). rewrite Hperm.
      eapply Forall_impl; [done|]. intros x. apply slot_owned_mono. intros q r ?. by apply Ho2.
    + cbn [length]. rewrite u32_small; [lia|]. subst z1. cbn in *. lia.
    + cbn [length] in *. lia.
    + subst z1; cbn in *. rewrite !u32_small by lia. lia.
  - intros a Ha. rewrite a_mem_write, (Hm a). case_if; [done|lia].
  - split; [done|]. intros x a Hx Ha. rewrite a_mem_write. rewrite (Hkd x a); [by apply (Hk1 x)| |done].
    apply Hdj. unfold zslots in *. rewrite map_app, Hes. apply elem_of_app in Hx as [Hx|Hx]; rewrite !elem_of_app; tauto.
Qed.

Lemma give_elem_spec z h F U U' fr e :
  zone_rel z h F U fr -> U ≡ₚ e :: U' ->
  exists z' h', give_elem z e h = (z', h') /\ z_ptr z' = z_ptr z /\ elem_size z' = elem_size z /\
    zone_rel z' h' (e :: F) U' fr /\ contents_kept h h' (zslots z U' ++ fr).
Proof.
  intros R HU. pose proof R as []. unfold give_elem. pose proof (Permutation_length HU) as Hlen. cbn [length] in Hlen.
  replace (cur_elements z =? 0) with false by lia.
  assert (Hperm : zslots z ((e :: F) ++ U') ++ fr ≡ₚ zslots z (F ++ U) ++ fr).
  { unfold zslots. rewrite HU. by rewrite <- Permutation_middle. }
  rewrite <- Hperm in zr_disj0, zr_owned0. cbn [app zslots map] in zr_disj0, zr_owned0.
  destruct zr_disj0 as [Hde Hdj]. apply Forall_cons in zr_owned0 as [Hso Hrest]. rewrite Forall_forall in Hde.
  pose proof Hso as (_ & q & r & Ho & ? & ?). destruct (a_owned_range _ _ _ zr_ok0 Ho) as (? & ? & ?). cbn in *.
  destruct (write_slot h (e, elem_size z) (store32 (a_mem h) e (z_free_list z)) zr_ok0 Hso) as [Hok2 Ho2].
  { intros a Ha. unfold in_slot in Ha. cbn in Ha. rewrite peek_store32_ne by lia. done. }
  assert (Hkd : forall x a, disj (e, elem_size z) x -> in_slot x a ->
    (store32 (a_mem h) e (z_free_list z)).[a] = (a_mem h).[a]).
  { intros x a Hx Ha. unfold disj, in_slot in *. cbn in Hx. rewrite peek_store32_ne by lia. done. }
  pose proof (fchain_range _ _ _ zr_chain0) as Hfl.
  eexists _, _. split; [done|]. split; [done|]. split; [done|]. split.
  - split; cbn [z_free_list elem_size cur_elements max_elements alloc_count free_count length]; try done; try lia.
    + rewrite a_mem_write. split_and!; [done|lia|lia|]. rewrite load32_store32_eq by done.
      eapply fchain_ext; [|done]. intros e' a He' Ha. apply (Hkd (e', elem_size z)); [|unfold in_slot; cbn; lia].
      apply Hde, elem_of_app. left. apply list_elem_of_In, in_map_iff. exists e'. split; [done|].
      apply list_elem_of_In, elem_of_app. by left.
    + split; [by apply Forall_forall|done].
    + apply Forall_cons. split; [eapply slot_owned_mono; [|done]; intros ? ? ?; by apply Ho2|].
      eapply Forall_impl; [done|]. intros x. apply slot_owned_mono. intros ? ? ?. by apply Ho2.
    + rewrite u32_small; lia.
    + rewrite !u32_small by lia. lia.
  - intros x a Hx Ha. rewrite a_mem_write. apply (Hkd x); [|done]. apply Hde.
    unfold zslots in Hx. rewrite map_app, !elem_of_app in *. tauto.
Qed.

Lemma find_update z' zp s z :
  find_zone zp s = Some z -> z_ptr z' = z_ptr z -> find_zone zp (update_zone z' s) = Some z'.
Proof.
  intros Hf Hp. unfold find_zone, update_zone in *. cbn [all_zones]. induction (all_zones s) as [|y l IH]; [done|].
  cbn [List.find map] in *. destruct (z_ptr y =? zp) eqn:E.
  - injection Hf as ->. rewrite Hp, Z.eqb_refl. bool_to_prop. by rewrite Hp, E, Z.eqb_refl.
  - assert (z_ptr z = zp) as Hz. { apply List.find_some in Hf as [_ ?]. by bool_to_prop. }
    rewrite Hp, Hz, E. rewrite E. specialize (IH Hf). by rewrite Hp, Hz in IH.
Qed.

(** C12. [zalloc] on a live zone takes the first free element, refilling an empty
    list from the heap: the element was free, is cleared, does not meet any
    element in use, any other zone's memory or any other block, and the bytes
    of all of these are preserved.  It returns NULL only when the free list
    is empty and cannot be refilled, and then nothing is handed out.  A zone
    never holds more than [max_elements] elements. *)
Theorem zalloc_takes_element s zp z h F U fr :
  find_zone zp s = Some z -> zp <> 0 -> zone_lock s = 0 -> zone_rel z h F U fr -> alloc_count z + 1 < 2 ^ 32 ->
  exists e s' h' z', zalloc s zp h = Some (e, s', h') /\ find_zone zp s' = Some z' /\
    contents_kept h h' (zslots z U ++ fr) /\
    (e = 0 /\ F = [] /\ zone_rel z' h' [] U fr \/
     0 < e /\ exists F', (F <> [] -> F = e :: F') /\ zone_rel z' h' F' (e :: U) fr /\
       (forall a, e <= a < e + elem_size z -> (a_mem h').[a] = 0)).
Proof.
  intros Hf Hz Hl R Hac. unfold zalloc. replace (zp =? 0) with false by lia. rewrite Hl. cbn [negb Z.eqb].
  rewrite Hf. cbn [mbind option_bind].
  destruct (take_elem_spec z h F U fr R Hac) as (e & z' & h' & -> & Hp & Hcase & _ & Hk). cbn [mbind option_bind].
  exists e, (update_zone z' s), h', z'. split_and!; try done. by eapply find_update.
Qed.

(** [zfree] of an element in use puts it at the head of the free list, so the
    next [zalloc] of the zone returns it again; no other element, zone or block
    changes. *)
Theorem zfree_returns_element s zp z h F U U' fr e :
  find_zone zp s = Some z -> zp <> 0 -> zone_lock s = 0 -> zone_rel z h F U fr -> U ≡ₚ e :: U' ->
  exists s' h' z', zfree s zp e h = Some (s', h') /\ find_zone zp s' = Some z' /\
    zone_rel z' h' (e :: F) U' fr /\ contents_kept h h' (zslots z U' ++ fr) /\
    (alloc_count z + 1 < 2 ^ 32 -> exists s2 h2, zalloc s' zp h' = Some (e, s2, h2)).
Proof.
  intros Hf Hz Hl R HU. unfold zfree. replace (zp =? 0) with false by lia. rewrite Hl. cbn [negb Z.eqb].
  destruct (give_elem_spec z h F U U' fr e R HU) as (z' & h' & Hg & Hp & He & R' & Hk).
  assert (e <> 0). { destruct (zr_chain _ _ _ _ _ R') as (_ & ? & _). lia. }
  replace (e =? 0) with false by lia. cbn [orb]. rewrite Hf. cbn [mbind option_bind]. rewrite Hg.
  exists (update_zone z' s), h', z'. pose proof (find_update z' zp s z Hf Hp) as Hf'. split_and!; try done.
  intros Hac. unfold zalloc. replace (zp =? 0) with false by lia. cbn [update_zone zone_lock]. rewrite Hl. cbn [negb Z.eqb].
  rewrite Hf'. cbn [mbind option_bind].
  assert (Hac' : alloc_count z' = alloc_count z).
  { revert Hg. unfold give_elem. case_if; by intros [= <- _]. }
  destruct (take_elem_spec z' h' _ _ _ R' ltac:(lia)) as (e2 & z2 & h2 & -> & _ & [[_ [? _]]|(? & F' & Heq & _)] & _); [done|].
  pose proof (Heq ltac:(done)) as Hh. injection Hh as <- _. cbn [mbind option_bind]. by eexists _, _.
Qed.

(** The capacity test counts allocations ever made: once [max_elements] elements
    have been handed out over time, an empty free list is never refilled,
    however few elements are in use. *)
Lemma zone_stops_growing z h U fr :
  zone_rel z h [] U fr -> max_elements z <= alloc_count z -> take_elem z h = Some (0, z, h).
Proof.
  intros [] Hm. cbn [fchain] in zr_chain0. unfold take_elem, refill_free_list, remaining.
  rewrite zr_chain0, (u32_small (cur_elements z + free_count z)) by lia. cbn [Z.eqb].
  replace (cur_elements z + free_count z <? max_elements z) with false by lia. cbn [mbind option_bind Z.ltb Z.compare].
  by rewrite zr_chain0.
Qed.

(** [zinit] without 32-bit wrap makes a zone of free elements, or returns NULL
    and leaves the zones alone. *)
Lemma zinit_spec s size max alloc name h fr :
  a_ok h -> zones_initialized s = true -> zone_lock s = 0 -> 0 < size -> 0 < max < 2 ^ 32 -> name <> 0 -> 0 <= alloc ->
  Z.max 4 size * max <= 2 ^ 32 - 8 -> Forall (slot_owned h) fr -> pairwise_disj fr ->
  exists zp s' h', zinit s size max alloc name h = Some (zp, s', h') /\
    (zp = 0 /\ s' = s \/
     exists z F, 0 < zp /\ find_zone zp s' = Some z /\ zone_lock s' = 0 /\ F <> [] /\
       zone_rel z h' F [] fr /\ contents_kept h h' fr /\ elem_size z = Z.max 4 size).
Proof.
  intros Hok Hi Hl Hs Hmax Hn Ha Hw Hfo Hfd. unfold zinit, zone_init. rewrite Hi.
  replace ((size =? 0) || (max =? 0) || (name =? 0)) with false by lia. cbn [mbind option_bind].
  rewrite Hl. cbn [negb Z.eqb]. set (esize := if size <? sizeof_ptr then _ else _).
  assert (He : esize = Z.max 4 size) by (unfold esize, sizeof_ptr; case_if; lia). clearbody esize.
  destruct (a_alloc_spec h sizeof_zone Hok) as [->|(zp & rz & h1 & -> & Hok1 & Hzp & Hrz & Ho1 & Hd1 & Hk1)];
    [done| |]; cbn [mbind option_bind]; [by exists 0, s, h; split; [|left]|].
  replace (zp =? 0) with false by lia. set (init := if (if alloc <? max then _ else _) =? 0 then _ else _).
  assert (Hin : 1 <= init <= max) by (unfold init; repeat (case_if; bool_to_prop); lia). clearbody init.
  assert (Hpr : 0 < esize * init <= esize * max) by nia. rewrite u32_small by lia.
  destruct (memset_owned h1 zp rz 0 sizeof_zone Hok1) as [Hok1' Ho1']; [apply Ho1; by right|unfold sizeof_zone in *; lia|].
  fold (clear h1 zp sizeof_zone) in Hok1', Ho1'.
  assert (Hfo1 : Forall (slot_owned (clear h1 zp sizeof_zone)) fr).
  { eapply Forall_impl; [done|]. intros x. apply slot_owned_mono. intros q r ?. apply Ho1', Ho1. by left. }
  assert (Hkz : contents_kept h (clear h1 zp sizeof_zone) fr).
  { intros x a Hx Hax. rewrite Forall_forall in Hfo. pose proof (Hfo x Hx) as Hx'.
    pose proof (fresh_disj h zp rz rz x Hd1 ltac:(lia) Hx') as Hdx. destruct Hx' as (_ & q' & r' & Hoq & ? & ?).
    unfold disj, in_slot, sizeof_zone in *. cbn in Hdx. unfold clear. rewrite a_mem_write.
    rewrite (memset_filled_lem (a_mem h1) zp 0 32) by lia. case_if; [lia|].
    apply (Hk1 q' r'); [done|unfold in_block; lia]. }
  set (h1' := clear h1 zp sizeof_zone) in *.
  destruct (a_alloc_spec h1' (esize * init) Hok1') as [->|(q & r & h2 & -> & Hok2 & Hq & Hr & Ho2 & Hd2 & Hk2)];
    [lia| |]; cbn [mbind option_bind].
  { destruct (a_free_spec h1' zp rz Hok1') as (h3 & Hf & _); [apply Ho1', Ho1; by right|unfold sizeof_zone in *; lia|].
    cbn [Z.eqb]. rewrite Hf. cbn [mbind option_bind]. exists 0, s, h3. split; [done|by left]. }
  replace (q =? 0) with false by lia.
  destruct (fresh_elems h1' h2 q r (Z.to_nat init) esize fr Hok2 Hq) as
    (m & fl & F & Hlk & Hlen & Hok' & Hc & Hkept & Hdisj & Hown & _); try done; [lia|lia|].
  rewrite Z2Nat.id in * by lia. rewrite (Z.mul_comm init) in *. rewrite Hlk.
  eexists zp, _, _. split; [done|]. right. eexists _, F. split; [done|]. split.
  { unfold find_zone. cbn [all_zones List.find z_ptr]. by rewrite Z.eqb_refl. }
  split_and!; try done.
  - intros ->. cbn in Hlen. lia.
  - split; cbn [z_free_list elem_size cur_elements max_elements alloc_count free_count length]; try done; try lia.
    + by rewrite a_mem_write.
    + by rewrite app_nil_r.
    + by rewrite app_nil_r.
  - intros x a Hx Hax. rewrite (Hkept x a Hx Hax). by apply (Hkz x a).
Qed.

End ZoneCorrect.

Section ZoneWitness.
#[local] Instance zone_allocator : Allocator heap := heap_allocator 0x200000 eq_refl eq_refl.

(** A zone of 32-byte elements with one element in use, on the booted heap. *)
Definition zone_one : zone := mk_zone 0x300000 1 0 32 10 1 1 0.
Definition zones_one : zones := mk_zones [zone_one] true 0.

Lemma zone_one_rel : exists h, zone_rel zone_one h [] [0x200010] [].
Proof.
  destruct heap_has_one as (h & _ & [Hok _ Ho]). exists h. apply Forall_cons in Ho as [(r & Ho & Hr) _].
  split; try done.
  - apply Forall_cons. split; [|constructor]. split; [done|]. exists 0x200010, r. split; [done|].
    unfold sizeof_entry in Hr. cbn. lia.
Qed.

Lemma zalloc_takes_element_witness : exists h e s' h', zalloc zones_one 0x300000 h = Some (e, s', h').
Proof.
  destruct zone_one_rel as [h Hr].
  destruct (zalloc_takes_element zones_one 0x300000 zone_one h [] [0x200010] [] eq_refl ltac:(done) eq_refl Hr ltac:(done))
    as (e & s' & h' & _ & He & _).
  by exists h, e, s', h'.
Defined.

Lemma zfree_returns_element_witness : exists h s' h' s2 h2,
  zfree zones_one 0x300000 0x200010 h = Some (s', h') /\ zalloc s' 0x300000 h' = Some (0x200010, s2, h2).
Proof.
  destruct zone_one_rel as [h Hr].
  destruct (zfree_returns_element zones_one 0x300000 zone_one h [] [0x200010] [] [] 0x200010 eq_refl ltac:(done)
    eq_refl Hr ltac:(done)) as (s' & h' & z' & He & _ & _ & _ & Ha).
  destruct (Ha ltac:(done)) as (s2 & h2 & Hz). by exists h, s', h', s2, h2.
Defined.

End ZoneWitness.
