(* ===== verification/Path.v ===== *)
(** * Path strings

    Paths and names are NUL-free character lists; local [char] buffers are the
    list they hold.  [path_normalize] is the helper of unnamedfs.c; vfs.c has
    the same loop inline in four functions.  [comps] is the reference reading
    of a path: its non-empty components. *)
From S2P Require Import Prelude.

Definition SLASH : Z := 47.
Definition DOT : Z := 46.
Definition NORM_SIZE : Z := 256.

(** The loop over [path[i]]; [out] is the buffer so far, last character first. *)
Fixpoint norm_loop (path : list Z) (size j : Z) (last_slash : bool) (out : list Z) : list Z :=
  match path with
  | [] => out
  | c :: p =>
      if j + 1 <? size then
        if c =? SLASH then
          if j =? 0 then norm_loop p size (j + 1) true (SLASH :: out)
          else if negb last_slash then norm_loop p size (j + 1) true (SLASH :: out)
          else norm_loop p size j last_slash out
        else norm_loop p size (j + 1) false (c :: out)
      else out
  end.

(** [if (j > 1 && out[j-1] == '/') j--;] *)
Definition trim_slash (out : list Z) : list Z :=
  match out with c :: ((_ :: _) as r) => if c =? SLASH then r else out | _ => out end.

Definition path_normalize (path : list Z) (size : Z) : list Z :=
  match trim_slash (norm_loop path size 0 false []) with
  | [] => [SLASH]
  | out => rev out
  end.

(** [while (len > 1 && path[len-1] == '/') len--;], on the reversed string. *)
Fixpoint drop_slashes (r : list Z) : list Z :=
  match r with c :: ((_ :: _) as r') => if c =? SLASH then drop_slashes r' else r | _ => r end.

(** The characters before the next slash, and what follows from that slash on. *)
Fixpoint span (r : list Z) : list Z * list Z :=
  match r with
  | [] => ([], [])
  | c :: r' => if c =? SLASH then ([], r) else let '(a, b) := span r' in (c :: a, b)
  end.

Definition path_basename (path : list Z) (outsz : Z) : list Z :=
  let '(name, _) := span (drop_slashes (rev path)) in take (Z.to_nat (outsz - 1)) (rev name).

(** [lib_strrchr(tmp, '/')] on the reversed string: what precedes the last slash. *)
Definition path_dirname (path : list Z) : list Z :=
  let tmp := path_normalize path NORM_SIZE in
  if bool_decide (tmp = [SLASH]) then [SLASH] else
  let '(_, rest) := span (rev tmp) in
  match rest with
  | [] => [SLASH]
  | _ :: before => match before with [] => [SLASH] | _ => take 255 (rev before) end
  end.

(** The components the walk of [find_inode_by_path] visits: at most [cap - 1]
    characters of each are kept. *)
Fixpoint path_components (cap : nat) (cur p : list Z) : list (list Z) :=
  match p with
  | [] => match cur with [] => [] | _ => [rev cur] end
  | c :: p' =>
      if c =? SLASH then match cur with [] => path_components cap [] p' | _ => rev cur :: path_components cap [] p' end
      else path_components cap (if (length cur + 1 <? cap)%nat then c :: cur else cur) p'
  end.

(** ** Reference: the components of a path *)
Fixpoint comps_from (cur p : list Z) : list (list Z) :=
  match p with
  | [] => match cur with [] => [] | _ => [rev cur] end
  | c :: p' =>
      if c =? SLASH then (match cur with [] => [] | _ => [rev cur] end) ++ comps_from [] p'
      else comps_from (c :: cur) p'
  end.
Definition comps (p : list Z) : list (list Z) := comps_from [] p.

Lemma comps_from_slash cur l1 l2 : comps_from cur (l1 ++ SLASH :: l2) = comps_from cur l1 ++ comps l2.
Proof.
  revert cur; induction l1 as [|c l1 IH]; intros cur; cbn; [done|].
  case_if; [by rewrite IH, app_assoc|apply IH].
Qed.

Lemma comps_slash l1 l2 : comps (l1 ++ SLASH :: l2) = comps l1 ++ comps l2.
Proof. apply comps_from_slash. Qed.

Lemma comps_cons_slash l : comps (SLASH :: l) = comps l.
Proof. done. Qed.

(** Canonical paths: non-empty, no two slashes in a row, no trailing slash. *)
Fixpoint no_double (p : list Z) : bool :=
  match p with
  | a :: ((b :: _) as p') => negb ((a =? SLASH) && (b =? SLASH)) && no_double p'
  | _ => true
  end.
Definition canonical (p : list Z) : bool :=
  negb (bool_decide (p = [])) && no_double p &&
  (bool_decide (p = [SLASH]) || negb (default 0 (last p) =? SLASH)).

(** The last character written was a slash. *)
Definition ends_slash (out : list Z) : bool := match out with c :: _ => c =? SLASH | [] => false end.

Lemma no_double_rev_cons c out :
  no_double (rev out) = true -> (c =? SLASH) && ends_slash out = false -> no_double (rev (c :: out)) = true.
Proof.
  cbn [rev]. intros Hd He. assert (Hg : forall l, no_double l = true ->
    (c =? SLASH) && (default 0 (last l) =? SLASH) = false -> no_double (l ++ [c]) = true).
  { clear. induction l as [|a l IH]; intros Hd He; [done|]. destruct l as [|b l]; [cbn in *; lia|].
    change ((a :: b :: l) ++ [c]) with (a :: b :: (l ++ [c])). cbn [no_double] in *. rewrite last_cons_cons in He.
    apply andb_true_iff in Hd as [Ha Hd]. rewrite Ha. apply (IH Hd He). }
  apply Hg; [done|]. destruct out as [|d out]; [cbn in *; lia|]. cbn [rev]. rewrite last_snoc. cbn in *. lia.
Qed.

(** What the loop writes, when the buffer is large enough or not. *)
Lemma norm_loop_spec path size out :
  no_double (rev out) = true -> Z.of_nat (length out) < size ->
  let r := norm_loop path size (Z.of_nat (length out)) (ends_slash out) out in
  no_double (rev r) = true /\ Z.of_nat (length r) < size /\
  (Z.of_nat (length out + length path) < size -> comps (rev r) = comps (rev out ++ path)).
Proof.
  revert out; induction path as [|c path IH]; intros out Hd Hl; cbn [norm_loop].
  { split_and!; try done. intros _. by rewrite app_nil_r. }
  assert (Hstep : forall b, (b =? SLASH) && ends_slash out = false -> Z.of_nat (length out) + 1 < size ->
    let r := norm_loop path size (Z.of_nat (length out) + 1) (b =? SLASH) (b :: out) in
    no_double (rev r) = true /\ Z.of_nat (length r) < size /\
    (Z.of_nat (length out + S (length path)) < size -> comps (rev r) = comps (rev out ++ b :: path))).
  { intros b Hb Hs. destruct (IH (b :: out)) as (H1 & H2 & H3).
    - by apply no_double_rev_cons.
    - cbn [length]. lia.
    - cbn [length ends_slash] in *. replace (Z.of_nat (S (length out))) with (Z.of_nat (length out) + 1) in * by lia.
      split_and!; [done|done|]. intros Hx. rewrite H3 by lia. cbn [rev]. by rewrite <- app_assoc. }
  destruct (Z.of_nat (length out) + 1 <? size) eqn:Es; bool_to_prop.
  - destruct (c =? SLASH) eqn:Ec; bool_to_prop.
    + subst c. destruct (Z.of_nat (length out) =? 0) eqn:E0; [|destruct (ends_slash out) eqn:Ee; cbn [negb]].
      * bool_to_prop. destruct out; [|cbn in *; lia]. apply (Hstep SLASH); [reflexivity|exact Es].
      * specialize (IH out Hd Hl). rewrite Ee in IH. destruct IH as (H1 & H2 & H3). split_and!; [done|done|]. intros Hx.
        cbn [length] in Hx. rewrite H3 by lia. destruct out as [|d out]; [done|]. cbn in Ee. bool_to_prop. subst d.
        cbn [rev]. rewrite <- !app_assoc. cbn [app]. by rewrite !comps_slash, comps_cons_slash.
      * apply (Hstep SLASH); [reflexivity|exact Es].
    + specialize (Hstep c). replace (c =? SLASH) with false in Hstep by lia. apply Hstep; [done|exact Es].
  - split_and!; [done|done|]. cbn [length]. lia.
Qed.

Lemma no_double_mid l a b l2 : no_double (l ++ a :: b :: l2) = true -> (a =? SLASH) && (b =? SLASH) = false.
Proof.
  induction l as [|x l IH]; cbn [app].
  - cbn [no_double]. intros H. apply andb_true_iff in H as [H _]. by apply negb_true_iff.
  - intros H. apply IH. destruct (l ++ a :: b :: l2) eqn:E; [by destruct l|]. cbn in H. by apply andb_true_iff in H as [_ H].
Qed.

Lemma norm_loop_id p size out :
  no_double (rev out ++ p) = true -> Z.of_nat (length out + length p) < size ->
  norm_loop p size (Z.of_nat (length out)) (ends_slash out) out = rev p ++ out.
Proof.
  revert out; induction p as [|c p IH]; intros out Hd Hl; [done|]. cbn [norm_loop length] in *.
  replace (Z.of_nat (length out) + 1 <? size) with true by lia.
  specialize (IH (c :: out)). cbn [rev length ends_slash] in IH. rewrite <- !app_assoc in IH. cbn [app] in IH.
  replace (Z.of_nat (S (length out))) with (Z.of_nat (length out) + 1) in IH by lia.
  assert (Hrev : rev (c :: p) ++ out = rev p ++ c :: out) by (cbn [rev]; by rewrite <- app_assoc).
  rewrite Hrev. destruct (c =? SLASH) eqn:Ec; [|apply IH; [done|lia]].
  replace SLASH with c by lia. destruct (Z.of_nat (length out) =? 0); [apply IH; [done|lia]|].
  destruct (ends_slash out) eqn:Ee; [|apply IH; [done|lia]]. destruct out as [|d out]; [done|]. cbn [rev ends_slash] in *.
  rewrite <- app_assoc in Hd. cbn [app] in Hd. apply no_double_mid in Hd. rewrite Ee, Ec in Hd. done.
Qed.

Lemma trim_no_double r : no_double (rev r) = true -> no_double (rev (trim_slash r)) = true.
Proof.
  destruct r as [|c [|d r]]; try done. cbn [trim_slash]. case_if; [|done].
  change (rev (c :: d :: r)) with (rev (d :: r) ++ [c]). generalize (rev (d :: r)) as l. clear.
  induction l as [|a [|b l] IH]; [done|done|]. change ((a :: b :: l) ++ [c]) with (a :: b :: (l ++ [c])).
  cbn [no_double app] in *. intros H. apply andb_true_iff in H as [-> H]. by apply IH.
Qed.

(** After trimming, a trailing slash is the whole path. *)
Lemma trim_last r : no_double (rev r) = true -> trim_slash r = [SLASH] \/ ends_slash (trim_slash r) = false.
Proof.
  destruct r as [|c [|d r]]; intros Hd; [by right| |].
  - cbn. destruct (c =? SLASH) eqn:E; [left|by right]. f_equal. lia.
  - cbn [trim_slash]. destruct (c =? SLASH) eqn:E; [|by right]. right. cbn [rev] in Hd.
    rewrite <- app_assoc in Hd. apply no_double_mid in Hd. cbn. rewrite E in Hd. by rewrite andb_true_r in Hd.
Qed.

Lemma canonical_rev r :
  r <> [] -> no_double (rev r) = true -> r = [SLASH] \/ ends_slash r = false -> canonical (rev r) = true.
Proof.
  intros Hn Hd Hl. unfold canonical. rewrite Hd. rewrite bool_decide_eq_false_2 by (destruct r; [done|]; cbn; by destruct (rev r)).
  destruct Hl as [->|Hl]; [done|]. destruct r as [|c r]; [done|]. cbn [rev ends_slash] in *. rewrite last_snoc. cbn.
  by rewrite Hl, orb_true_r.
Qed.

Lemma normalize_id p size :
  canonical p = true -> Z.of_nat (length p) < size -> path_normalize p size = p.
Proof.
  intros Hc Hl. unfold canonical in Hc. bool_to_prop. unfold path_normalize.
  rewrite bool_decide_eq_false in H. pose proof (norm_loop_id p size [] ltac:(done) ltac:(cbn; lia)) as Hn.
  change (norm_loop p size 0 false [] = rev p ++ []) in Hn. rewrite Hn, app_nil_r.
  assert (Ht : trim_slash (rev p) = rev p).
  { destruct (decide (p = [SLASH])) as [->|Hne]; [done|]. destruct H0 as [H0|H0]; [by apply bool_decide_eq_true in H0|].
    destruct p as [|x l] using rev_ind; [done|]. rewrite rev_app_distr, last_snoc in *. cbn in *. bool_to_prop.
    destruct (rev l); [done|]. by replace (x =? SLASH) with false by lia. }
  rewrite Ht. destruct (rev p) eqn:E; [|by rewrite <- E, rev_involutive].
  apply (f_equal (@rev Z)) in E. rewrite rev_involutive in E. done.
Qed.

Lemma normalize_spec path size :
  2 <= size ->
  let q := path_normalize path size in
  canonical q = true /\ Z.of_nat (length q) < size /\ path_normalize q size = q /\
  (Z.of_nat (length path) < size -> comps q = comps path).
Proof.
  intros Hs q. destruct (norm_loop_spec path size []) as (Hd & Hl & Hc); [done|cbn; lia|].
  change (norm_loop path size (Z.of_nat (length [])) (ends_slash []) []) with (norm_loop path size 0 false []) in *.
  assert (Hq : canonical q = true /\ Z.of_nat (length q) < size /\
               (Z.of_nat (length path) < size -> comps q = comps path)).
  { unfold q, path_normalize. set (r := norm_loop path size 0 false []) in *.
    assert (Hct : comps (rev (trim_slash r)) = comps (rev r) /\ (length (trim_slash r) <= length r)%nat).
    { destruct r as [|c [|d r']]; try done. cbn [trim_slash]. destruct (c =? SLASH) eqn:E; [|done]. bool_to_prop. subst c.
      split; [|cbn; lia]. cbn [rev]. rewrite comps_slash. change (comps []) with (@nil (list Z)). by rewrite app_nil_r. }
    destruct Hct as [Hct Hlt]. pose proof (trim_no_double r Hd) as Hd'. pose proof (trim_last r Hd) as Ht.
    destruct (trim_slash r) as [|c t] eqn:E.
    - split_and!; [done|cbn; lia|]. intros Hp. change (comps path) with (comps (rev [] ++ path)). rewrite <- Hc, <- Hct by (cbn; lia). done.
    - split_and!; [by apply canonical_rev|rewrite length_rev; lia|]. intros Hp. rewrite Hct. by apply Hc. }
  destruct Hq as (H1 & H2 & H3). split_and!; try done. by apply normalize_id.
Qed.

(** [path_normalize] always yields a canonical path that fits the buffer, and
    leaves canonical paths alone (so it is idempotent); when the path fits the
    buffer no component is lost, added or reordered. *)
Theorem path_normalize_canonical path size :
  2 <= size ->
  let q := path_normalize path size in
  canonical q = true /\ Z.of_nat (length q) < size /\ path_normalize q size = q /\
  (Z.of_nat (length path) < size -> comps q = comps path).
Proof. apply normalize_spec. Qed.

Lemma path_normalize_canonical_witness :
  path_normalize [47; 47; 97; 47; 47; 98; 47] 256 = [47; 97; 47; 98] /\
  comps (path_normalize [47; 47; 97; 47; 47; 98; 47] 256) = [[97]; [98]].
Proof.
  split; [done|]. destruct (path_normalize_canonical [47; 47; 97; 47; 47; 98; 47] 256 ltac:(done)) as (_ & _ & _ & H).
  by rewrite H.
Defined.
