(* ===== verification/Bitmap.v ===== *)
(** * unnamedfs.c, the block bitmap

    [block_bitmap] is a list of 512 bytes, [bitmap_blocks] the number of blocks
    in use.  A block number is an [int]. *)
From S2P Require Import Prelude.

Definition UNAMEDFS_BITMAP_MAX : Z := 512.

Record bitmap := mk_bitmap { bits : list Z; bitmap_blocks : Z }.

Definition in_bitmap (bm : bitmap) (b : Z) : bool := (0 <=? b) && (b <? bitmap_blocks bm).
Definition byte_of (bm : bitmap) (b : Z) : Z := bits bm !!! Z.to_nat (Z.shiftr b 3).
Definition put_byte (bm : bitmap) (b v : Z) : bitmap :=
  mk_bitmap (<[Z.to_nat (Z.shiftr b 3) := u8 v]> (bits bm)) (bitmap_blocks bm).

Definition bitmap_set (b : Z) (bm : bitmap) : bitmap :=
  if in_bitmap bm b then put_byte bm b (Z.lor (byte_of bm b) (Z.shiftl 1 (Z.land b 7))) else bm.
Definition bitmap_clear (b : Z) (bm : bitmap) : bitmap :=
  if in_bitmap bm b then put_byte bm b (Z.land (byte_of bm b) (u32 (Z.lnot (Z.shiftl 1 (Z.land b 7))))) else bm.
Definition bitmap_test (b : Z) (bm : bitmap) : bool :=
  if in_bitmap bm b then negb (Z.land (Z.shiftr (byte_of bm b) (Z.land b 7)) 1 =? 0) else true.

Definition bitmap_init (total_blocks : Z) : bitmap :=
  let n := if UNAMEDFS_BITMAP_MAX * 8 <? total_blocks then UNAMEDFS_BITMAP_MAX * 8 else total_blocks in
  let bm := mk_bitmap (replicate 512 0) n in
  let bm := if 0 <? n then bitmap_set 0 bm else bm in
  if 1 <? n then bitmap_set 1 bm else bm.

Definition bitmap_find_free (bm : bitmap) : Z :=
  match find_from (fun b => negb (bitmap_test (Z.of_nat b) bm)) 2 (Z.to_nat (bitmap_blocks bm) - 2) with
  | Some b => Z.of_nat b
  | None => -1
  end.

(** The search from [start]; one step per restart, and [start] grows, so
    [bitmap_blocks] steps are enough ([find_contiguous_first_fit]). *)
Fixpoint contig_loop (fuel : nat) (n start : Z) (bm : bitmap) : option Z :=
  match fuel with
  | O => None
  | S f =>
      if start + n <=? bitmap_blocks bm then
        match find_from (fun j => bitmap_test (start + Z.of_nat j) bm) 0 (Z.to_nat n) with
        | None => Some start
        | Some j => contig_loop f n (start + Z.of_nat j + 1) bm
        end
      else None
  end.

(** [Some first] for the return value 0, [None] for -1. *)
Definition bitmap_find_contiguous (n : Z) (bm : bitmap) : option Z :=
  if n =? 0 then Some 0 else
  if bitmap_blocks bm <? n then None else contig_loop (Z.to_nat (bitmap_blocks bm)) n 2 bm.

Fixpoint mark_loop (n : nat) (b : Z) (used : bool) (bm : bitmap) : bitmap :=
  match n with
  | O => bm
  | S n' => mark_loop n' (i32 (b + 1)) used (if used then bitmap_set b bm else bitmap_clear b bm)
  end.
Definition bitmap_mark_range (first n : Z) (used : bool) (bm : bitmap) : bitmap := mark_loop (Z.to_nat n) first used bm.

(** ** Bits *)

Record bm_ok (bm : bitmap) : Prop := {
  bk_len : length (bits bm) = 512%nat;
  bk_blocks : 0 <= bitmap_blocks bm <= 4096;
  bk_bytes : Forall (fun v => 0 <= v < 256) (bits bm)
}.

Lemma bitmap_test_bit b bm :
  in_bitmap bm b = true -> bitmap_test b bm = Z.testbit (byte_of bm b) (b mod 8).
Proof.
  intros Hi. unfold bitmap_test. rewrite Hi, land_7. change 1 with (Z.ones 1).
  rewrite Z.land_ones, Z.shiftr_div_pow2 by lia. rewrite Z.testbit_odd, Z.shiftr_div_pow2 by zlia.
  change (2 ^ 1) with 2. rewrite Zmod_odd. by destruct (Z.odd _).
Qed.

Lemma byte_of_put bm b v c :
  length (bits bm) = 512%nat -> 0 <= b < 4096 -> 0 <= c < 4096 ->
  byte_of (put_byte bm b v) c = if c / 8 =? b / 8 then u8 v else byte_of bm c.
Proof.
  intros Hl Hb Hc. unfold byte_of, put_byte. cbn [bits].
  rewrite !Z.shiftr_div_pow2 by lia. change (2 ^ 3) with 8.
  destruct (c / 8 =? b / 8) eqn:E; bool_to_prop.
  - rewrite E, list_lookup_total_insert_eq; [done|zlia].
  - rewrite list_lookup_total_insert_ne; [done|zlia].
Qed.

Lemma byte_of_range bm b : bm_ok bm -> 0 <= b < 4096 -> 0 <= byte_of bm b < 256.
Proof.
  intros [Hl _ Hv] Hb. unfold byte_of. rewrite Z.shiftr_div_pow2 by lia. change (2 ^ 3) with 8.
  destruct (lookup_lt_is_Some_2 (bits bm) (Z.to_nat (b / 8))) as [v Hx]; [zlia|].
  rewrite (list_lookup_total_correct _ _ _ Hx). rewrite Forall_forall in Hv. apply Hv. by eapply list_elem_of_lookup_2.
Qed.

Lemma put_byte_ok bm b v : bm_ok bm -> bm_ok (put_byte bm b v).
Proof.
  intros [Hl Hb Hv]. split; cbn; [by rewrite length_insert|done|].
  apply Forall_insert; [done|]. apply u8_range.
Qed.

(** A byte with one bit changed. *)
Lemma test_put bm b c f :
  bm_ok bm -> 0 <= b < bitmap_blocks bm -> 0 <= c < bitmap_blocks bm ->
  bitmap_test c (put_byte bm b (f (byte_of bm b))) =
    if c / 8 =? b / 8 then Z.testbit (f (byte_of bm b)) (c mod 8) else bitmap_test c bm.
Proof.
  intros Hok Hb Hc. pose proof (bk_blocks _ Hok) as Hn.
  assert (Hi : forall v, in_bitmap (put_byte bm b v) c = true /\ in_bitmap bm c = true)
    by (intros v; unfold in_bitmap; cbn; lia).
  rewrite !bitmap_test_bit by apply (Hi 0). rewrite byte_of_put by (try apply Hok; lia).
  case_if; [|done]. unfold u8. rewrite Z.mod_pow2_bits_low by zlia. done.
Qed.

(** The mask [1 << (b & 7)] at the bit of a block in the same byte. *)
Lemma mask_bit b c : c / 8 = b / 8 -> Z.testbit 1 (c mod 8 - b mod 8) = (b =? c).
Proof.
  intros Hd. destruct (b =? c) eqn:Eb; bool_to_prop; [subst; by rewrite Z.sub_diag|].
  destruct (Z.eq_dec (c mod 8 - b mod 8) 0); [zlia|].
  destruct (Z.neg_nonneg_cases (c mod 8 - b mod 8)); [by rewrite Z.testbit_neg_r|].
  change 1 with (2 ^ 0). by rewrite Z.pow2_bits_false by lia.
Qed.

Lemma byte_of_same bm b c : c / 8 = b / 8 -> byte_of bm c = byte_of bm b.
Proof. intros Hd. unfold byte_of. rewrite !Z.shiftr_div_pow2 by lia. change (2 ^ 3) with 8. by rewrite Hd. Qed.

Lemma test_set bm b c :
  bm_ok bm -> 0 <= c < bitmap_blocks bm -> bitmap_test c (bitmap_set b bm) = (b =? c) || bitmap_test c bm.
Proof.
  intros Hok Hc. unfold bitmap_set. destruct (in_bitmap bm b) eqn:E.
  - unfold in_bitmap in E. bool_to_prop.
    rewrite (test_put bm b c (fun v => Z.lor v (Z.shiftl 1 (Z.land b 7)))) by (done || lia).
    rewrite land_7. destruct (c / 8 =? b / 8) eqn:Ed; bool_to_prop.
    + rewrite bitmap_test_bit by (unfold in_bitmap; lia).
      rewrite (byte_of_same bm b c Ed), Z.lor_spec, Z.shiftl_spec by zlia. rewrite orb_comm. f_equal. by apply mask_bit.
    + replace (b =? c) with false; [done|]. symmetry. apply Z.eqb_neq. intros ->. done.
  - destruct (b =? c) eqn:Eb; [|done]. unfold in_bitmap in E. bool_to_prop. lia.
Qed.

Lemma test_clear bm b c :
  bm_ok bm -> 0 <= c < bitmap_blocks bm -> bitmap_test c (bitmap_clear b bm) = negb (b =? c) && bitmap_test c bm.
Proof.
  intros Hok Hc. unfold bitmap_clear. destruct (in_bitmap bm b) eqn:E.
  - unfold in_bitmap in E. bool_to_prop.
    rewrite (test_put bm b c (fun v => Z.land v (u32 (Z.lnot (Z.shiftl 1 (Z.land b 7)))))) by (done || lia).
    rewrite land_7. destruct (c / 8 =? b / 8) eqn:Ed; bool_to_prop.
    + rewrite bitmap_test_bit by (unfold in_bitmap; lia).
      rewrite (byte_of_same bm b c Ed), Z.land_spec. unfold u32. rewrite Z.mod_pow2_bits_low by zlia.
      rewrite Z.lnot_spec, Z.shiftl_spec by zlia. rewrite andb_comm. f_equal. f_equal. by apply mask_bit.
    + replace (b =? c) with false; [done|]. symmetry. apply Z.eqb_neq. intros ->. done.
  - destruct (b =? c) eqn:Eb; [|done]. unfold in_bitmap in E. bool_to_prop. lia.
Qed.

Lemma set_ok bm b : bm_ok bm -> bm_ok (bitmap_set b bm).
Proof. intros. unfold bitmap_set. case_if; [by apply put_byte_ok|done]. Qed.
Lemma clear_ok bm b : bm_ok bm -> bm_ok (bitmap_clear b bm).
Proof. intros. unfold bitmap_clear. case_if; [by apply put_byte_ok|done]. Qed.
#[export] Hint Resolve set_ok clear_ok put_byte_ok : tinx.

Lemma set_blocks bm b : bitmap_blocks (bitmap_set b bm) = bitmap_blocks bm.
Proof. unfold bitmap_set. by case_if. Qed.
Lemma clear_blocks bm b : bitmap_blocks (bitmap_clear b bm) = bitmap_blocks bm.
Proof. unfold bitmap_clear. by case_if. Qed.

Lemma mark_loop_spec n first used bm :
  bm_ok bm -> 0 <= first -> first + Z.of_nat n < 2 ^ 31 ->
  bm_ok (mark_loop n first used bm) /\ bitmap_blocks (mark_loop n first used bm) = bitmap_blocks bm /\
  forall c, 0 <= c < bitmap_blocks bm ->
    bitmap_test c (mark_loop n first used bm) =
      if (first <=? c) && (c <? first + Z.of_nat n) then used else bitmap_test c bm.
Proof.
  revert first bm; induction n as [|n IH]; intros first bm Hok Hf Hb.
  { split_and!; [done|done|]. intros c Hc. by replace ((first <=? c) && (c <? first + Z.of_nat 0)) with false by lia. }
  cbn [mark_loop]. rewrite i32_small by lia.
  set (bm1 := if used then bitmap_set first bm else bitmap_clear first bm).
  assert (Hok1 : bm_ok bm1) by (unfold bm1; destruct used; auto with tinx).
  assert (Hn1 : bitmap_blocks bm1 = bitmap_blocks bm) by (unfold bm1; destruct used; [apply set_blocks|apply clear_blocks]).
  destruct (IH (first + 1) bm1 Hok1) as (H1 & H2 & H3); [lia|lia|].
  split_and!; [done|by rewrite H2|]. intros c Hc. rewrite H3 by lia. unfold bm1.
  destruct used; rewrite ?test_set, ?test_clear by done;
    destruct (first =? c) eqn:E; repeat (case_if; bool_to_prop); try done; lia.
Qed.

Lemma mark_range_spec first n used bm :
  bm_ok bm -> 0 <= first -> 0 <= n -> first + n < 2 ^ 31 ->
  bm_ok (bitmap_mark_range first n used bm) /\
  bitmap_blocks (bitmap_mark_range first n used bm) = bitmap_blocks bm /\
  forall c, 0 <= c < bitmap_blocks bm ->
    bitmap_test c (bitmap_mark_range first n used bm) =
      if (first <=? c) && (c <? first + n) then used else bitmap_test c bm.
Proof.
  intros Hok Hf Hn Hb. unfold bitmap_mark_range. pose proof (mark_loop_spec (Z.to_nat n) first used bm Hok Hf) as H.
  rewrite Z2Nat.id in H by lia. by apply H.
Qed.

(** All of the [n] blocks from [f] are free blocks of the file system. *)
Definition free_run (bm : bitmap) (f n : Z) : Prop :=
  2 <= f /\ f + n <= bitmap_blocks bm /\ forall b, f <= b < f + n -> bitmap_test b bm = false.

Lemma contig_loop_spec fuel n start bm :
  0 < n -> bitmap_blocks bm < start + Z.of_nat fuel + n -> 2 <= start ->
  match contig_loop fuel n start bm with
  | Some f => start <= f /\ free_run bm f n /\ forall g, start <= g < f -> ~ free_run bm g n
  | None => forall g, start <= g -> ~ free_run bm g n
  end.
Proof.
  revert start; induction fuel as [|fuel IH]; intros start Hn Hf Hs; cbn [contig_loop].
  { intros g Hg (_ & ? & _). lia. }
  destruct (start + n <=? bitmap_blocks bm) eqn:E; bool_to_prop; [|intros g Hg (_ & ? & _); lia].
  destruct (find_from _ 0 (Z.to_nat n)) as [j|] eqn:Ef.
  - apply find_from_Some in Ef as (Hj & Ht & _).
    assert (Hno : forall g, start <= g <= start + Z.of_nat j -> ~ free_run bm g n).
    { intros g Hg (_ & _ & Hfree). rewrite Hfree in Ht by lia. done. }
    specialize (IH (start + Z.of_nat j + 1) Hn ltac:(lia) ltac:(lia)).
    destruct (contig_loop fuel n _ bm) as [f|].
    + destruct IH as (? & ? & Hg). split_and!; [lia|done|]. intros g Hg'.
      destruct (Z.le_gt_cases g (start + Z.of_nat j)); [apply Hno; lia|apply Hg; lia].
    + intros g Hg. destruct (Z.le_gt_cases g (start + Z.of_nat j)); [apply Hno; lia|apply IH; lia].
  - split_and!; [lia| |lia]. split_and!; [done|done|]. intros b Hb.
    pose proof (find_from_None _ _ _ Ef (Z.to_nat (b - start)) ltac:(lia)) as Ht. cbn in Ht.
    by replace (start + Z.of_nat (Z.to_nat (b - start))) with b in Ht by lia.
Qed.

Lemma find_contiguous_spec n bm :
  0 < n ->
  match bitmap_find_contiguous n bm with
  | Some f => free_run bm f n /\ forall g, g < f -> ~ free_run bm g n
  | None => forall g, ~ free_run bm g n
  end.
Proof.
  intros Hn. unfold bitmap_find_contiguous. replace (n =? 0) with false by lia.
  destruct (bitmap_blocks bm <? n) eqn:E; bool_to_prop; [intros g (? & ? & _); lia|].
  pose proof (contig_loop_spec (Z.to_nat (bitmap_blocks bm)) n 2 bm Hn ltac:(lia) ltac:(lia)) as H.
  destruct (contig_loop _ n 2 bm) as [f|].
  - destruct H as (? & ? & Hg). split; [done|]. intros g Hgf (? & ? & ?). apply (Hg g); [lia|done].
  - intros g (? & ? & ?). by apply (H g).
Qed.

(** [bitmap_find_contiguous] is an exact first-fit search although it jumps
    past each used block it meets: it returns the lowest run of [n] free
    blocks above the two reserved ones, and -1 only when there is none. *)
Theorem find_contiguous_first_fit n bm :
  0 < n ->
  match bitmap_find_contiguous n bm with
  | Some f => free_run bm f n /\ forall g, g < f -> ~ free_run bm g n
  | None => forall g, ~ free_run bm g n
  end.
Proof. apply find_contiguous_spec. Qed.

(** Blocks 0, 1 and 4 in use of eight: the first run of three is 5, 6, 7. *)
Lemma find_contiguous_first_fit_witness :
  let bm := bitmap_set 4 (bitmap_init 8) in
  bitmap_find_contiguous 3 bm = Some 5 /\ free_run bm 5 3.
Proof.
  cbv zeta. split; [vm_compute; reflexivity|]. pose proof (find_contiguous_first_fit 3 (bitmap_set 4 (bitmap_init 8)) ltac:(done)) as H.
  replace (bitmap_find_contiguous 3 (bitmap_set 4 (bitmap_init 8))) with (Some 5) in H by (vm_compute; reflexivity).
  apply H.
Defined.
