(* ===== verification/UnnamedFs.v ===== *)
(** * unnamedfs.c, the file system on a memory device

    The device is a range of the flat memory: superblock, inode table and data
    blocks are read and written there, at the addresses the C pointers have,
    so overlaps between the inode table and the data area are part of the
    model.  Names in the table are compared byte by byte; path arguments and
    local buffers are character lists (Path.v).  The bitmap, the descriptor
    table and the lookup cache are the static variables of the file. *)
From S2P Require Import Prelude Mem LibString Path Bitmap.

Definition UNAMEDFS_MAGIC : Z := 0x554E4653.
Definition UNAMEDFS_BLOCK_SIZE : Z := 4096.
Definition UNAMEDFS_MAX_FILES : Z := 256.
Definition UNAMEDFS_FILENAME_LEN : Z := 64.
(** [sizeof(struct unamedfs_superblock)] and [sizeof(struct unamedfs_inode)]:
    24 + 64 + (4096 - 80) bytes for the packed inode. *)
Definition sizeof_superblock : Z := 4096.
Definition sizeof_inode : Z := 4104.

Record fd_entry := mk_fd { f_ino : Z; f_offset : Z; f_flags : Z; f_used : bool }.
Definition fd_free : fd_entry := mk_fd (-1) 0 0 false.
#[export] Instance fd_inhabited : Inhabited fd_entry := populate fd_free.

Record inode_cache_ent := mk_icache { ic_name : list Z; ic_parent : Z; ic_ino : Z; ic_valid : bool }.

(** [sb], [inodes] and [data_blocks] always point at fixed offsets of [device]. *)
Record mount := mk_mount { device : Z; device_size : Z; mounted : Z }.
Definition inodes (mnt : mount) : Z := u32 (device mnt + UNAMEDFS_BLOCK_SIZE).
Definition data_blocks (mnt : mount) : Z := u32 (device mnt + UNAMEDFS_BLOCK_SIZE * 2).

Record ufs := mk_ufs {
  u_mem : mem; block_bitmap : bitmap; fd_entries : list fd_entry;
  current_mount : mount; mount_valid : bool; icache : inode_cache_ent
}.
Definition with_mem (m : mem) (s : ufs) : ufs :=
  mk_ufs m (block_bitmap s) (fd_entries s) (current_mount s) (mount_valid s) (icache s).
Definition with_bitmap (bm : bitmap) (s : ufs) : ufs :=
  mk_ufs (u_mem s) bm (fd_entries s) (current_mount s) (mount_valid s) (icache s).
Definition with_fds (fds : list fd_entry) (s : ufs) : ufs :=
  mk_ufs (u_mem s) (block_bitmap s) fds (current_mount s) (mount_valid s) (icache s).
Definition with_icache (c : inode_cache_ent) (s : ufs) : ufs :=
  mk_ufs (u_mem s) (block_bitmap s) (fd_entries s) (current_mount s) (mount_valid s) c.

(** ** Fields of the superblock and of the inodes *)
Definition sb_magic (m : mem) (sb : Z) : Z := load32 m sb.
Definition sb_total_blocks (m : mem) (sb : Z) : Z := load32 m (sb + 8).
Definition sb_free_blocks (m : mem) (sb : Z) : Z := load32 m (sb + 12).
Definition sb_inode_count (m : mem) (sb : Z) : Z := load32 m (sb + 16).
Definition set_free_blocks (v : Z) (sb : Z) (m : mem) : mem := store32 m (sb + 12) (u32 v).
Definition set_inode_count (v : Z) (sb : Z) (m : mem) : mem := store32 m (sb + 16) (u32 v).

(** [&inodes[i]] *)
Definition inode_at (mnt : mount) (i : Z) : Z := inodes mnt + i * sizeof_inode.
Definition i_ino (m : mem) (a : Z) : Z := load32 m a.
Definition i_size (m : mem) (a : Z) : Z := load32 m (a + 4).
Definition i_flags (m : mem) (a : Z) : Z := load32 m (a + 8).
Definition i_parent (m : mem) (a : Z) : Z := load32 m (a + 12).
Definition i_first_block (m : mem) (a : Z) : Z := load32 m (a + 16).
Definition i_blocks (m : mem) (a : Z) : Z := load32 m (a + 20).
Definition i_name (a : Z) : Z := a + 24.
Definition is_dir (m : mem) (a : Z) : bool := negb (Z.land (i_flags m a) 2 =? 0).

Definition clear_mem (m : mem) (a n : Z) : mem := snd (lib_memset m a 0 n).

(** [lib_strcmp] of the bytes at [a] with a string is 0. *)
Fixpoint streq (m : mem) (a : Z) (s : list Z) : bool :=
  match s with
  | [] => peek m a =? 0
  | c :: s' => (peek m a =? c) && streq m (a + 1) s'
  end.

(** [lib_strncpy(dest, s, n)] of a local string into memory. *)
Fixpoint put_chars (m : mem) (a : Z) (s : list Z) : mem :=
  match s with [] => store8 m a 0 | c :: s' => put_chars (store8 m a c) (a + 1) s' end.
Definition put_str (m : mem) (a : Z) (s : list Z) (n : Z) : mem := put_chars m a (take (Z.to_nat (n - 1)) s).

(** ** Superblock walks *)

(** The extents of the inodes in use, marked in the bitmap. *)
Fixpoint rebuild_loop (n : nat) (i : Z) (m : mem) (mnt : mount) (bm : bitmap) : bitmap :=
  match n with
  | O => bm
  | S n' =>
      let a := inode_at mnt i in
      rebuild_loop n' (i + 1) m mnt
        (if i_flags m a =? 0 then bm else if i_blocks m a =? 0 then bm
         else bitmap_mark_range (i32 (i_first_block m a)) (i_blocks m a) true bm)
  end.
Definition inode_count (s : ufs) : Z := sb_inode_count (u_mem s) (device (current_mount s)).
Definition bitmap_rebuild (s : ufs) : ufs :=
  if negb (mount_valid s) then s else
  with_bitmap (rebuild_loop (Z.to_nat (inode_count s)) 0 (u_mem s) (current_mount s) (block_bitmap s)) s.

(** The first index below [inode_count] whose inode satisfies [p]. *)
Definition scan_inodes (s : ufs) (p : Z -> bool) : option Z :=
  Z.of_nat <$> find_from (fun i => p (inode_at (current_mount s) (Z.of_nat i))) 0 (Z.to_nat (inode_count s)).

(** A live inode with this name in this directory. *)
Definition named (m : mem) (name : list Z) (parent a : Z) : bool :=
  negb (i_flags m a =? 0) && (i_parent m a =? parent) && streq m (i_name a) name.

Definition icache_hit (s : ufs) (name : list Z) (parent : Z) : bool :=
  ic_valid (icache s) && (ic_parent (icache s) =? parent) && bool_decide (ic_name (icache s) = name).
Definition icache_drop (s : ufs) : ufs :=
  with_icache (mk_icache (ic_name (icache s)) (ic_parent (icache s)) (ic_ino (icache s)) false) s.

Definition find_inode_scan (name : list Z) (parent : Z) (s : ufs) : Z * ufs :=
  match scan_inodes s (named (u_mem s) name parent) with
  | Some i => (i, with_icache (mk_icache (take 63 name) parent i true) s)
  | None => (-1, s)
  end.

Definition find_inode_by_name_parent (name : list Z) (parent : Z) (s : ufs) : Z * ufs :=
  if negb (mount_valid s) then (-1, s) else
  if icache_hit s name parent then
    let i := ic_ino (icache s) in
    if (0 <=? i) && (i <? inode_count s) && named (u_mem s) name parent (inode_at (current_mount s) i) then (i, s)
    else find_inode_scan name parent (icache_drop s)
  else find_inode_scan name parent s.

Definition icache_invalidate (ino : Z) (s : ufs) : ufs :=
  if ic_valid (icache s) && (ic_ino (icache s) =? ino) then icache_drop s else s.
(** The name is the string at an address of the inode table. *)
Definition icache_invalidate_name (name parent : Z) (s : ufs) : ufs :=
  if ic_valid (icache s) && (ic_parent (icache s) =? parent) && streq (u_mem s) name (ic_name (icache s))
  then icache_drop s else s.

(** The walk along the components of a normalised path. *)
Fixpoint walk (cs : list (list Z)) (cur : Z) (s : ufs) : Z * ufs :=
  match cs with
  | [] => (cur, s)
  | c :: cs' =>
      if bool_decide (c = [DOT]) then walk cs' cur s
      else if bool_decide (c = [DOT; DOT]) then
        walk cs' (if cur =? 0 then cur else i32 (i_parent (u_mem s) (inode_at (current_mount s) cur))) s
      else
        let '(nxt, s1) := find_inode_by_name_parent c (u32 cur) s in
        if nxt <? 0 then (-1, s1) else walk cs' nxt s1
  end.

Definition find_inode_by_path (path : list Z) (s : ufs) : Z * ufs :=
  if negb (mount_valid s) then (-1, s) else
  let norm := path_normalize path NORM_SIZE in
  if bool_decide (norm = [SLASH]) then (0, s) else
  walk (path_components 64 [] (tail norm)) 0 s.

Definition alloc_inode_slot (s : ufs) : Z * ufs :=
  match scan_inodes s (fun a => i_flags (u_mem s) a =? 0) with
  | Some i => (i, s)
  | None =>
      if UNAMEDFS_MAX_FILES <=? inode_count s then (-1, s)
      else (inode_count s, with_mem (set_inode_count (inode_count s + 1) (device (current_mount s)) (u_mem s)) s)
  end.

(** ** Growing and shrinking a file *)

Definition set_size (v a : Z) (m : mem) : mem := store32 m (a + 4) (u32 v).
Definition set_first_block (v a : Z) (m : mem) : mem := store32 m (a + 16) (u32 v).
Definition set_blocks (v a : Z) (m : mem) : mem := store32 m (a + 20) (u32 v).

Definition block_addr (mnt : mount) (b : Z) : Z := u32 (data_blocks mnt + u32 (b * UNAMEDFS_BLOCK_SIZE)).
Definition blocks_for (size : Z) : Z :=
  if size =? 0 then 0 else u32 (size + UNAMEDFS_BLOCK_SIZE - 1) / UNAMEDFS_BLOCK_SIZE.

Definition free_blocks (s : ufs) : Z := sb_free_blocks (u_mem s) (device (current_mount s)).
Definition total_blocks (s : ufs) : Z := sb_total_blocks (u_mem s) (device (current_mount s)).
Definition put_free_blocks (v : Z) (s : ufs) : ufs :=
  with_mem (set_free_blocks v (device (current_mount s)) (u_mem s)) s.
Definition mark (first n : Z) (used : bool) (s : ufs) : ufs :=
  with_bitmap (bitmap_mark_range (i32 first) n used (block_bitmap s)) s.

Definition shrink (a need : Z) (s : ufs) : ufs :=
  let to_free := u32 (i_blocks (u_mem s) a - need) in
  let s1 := mark (i32 (i_first_block (u_mem s) a) + i32 need) to_free false s in
  let s2 := if u32 (free_blocks s1 + to_free) <=? total_blocks s1
            then put_free_blocks (free_blocks s1 + to_free) s1 else s1 in
  let s3 := with_mem (set_blocks need a (u_mem s2)) s2 in
  if need =? 0 then with_mem (set_first_block 0 a (u_mem s3)) s3 else s3.

(** A first extent for an empty file. *)
Definition grow_empty (a need : Z) (s : ufs) : Z * ufs :=
  match bitmap_find_contiguous need (block_bitmap s) with
  | None => (-1, s)
  | Some first =>
      let s1 := mark first need true s in
      let s2 := put_free_blocks (free_blocks s1 - need) s1 in
      (0, with_mem (set_blocks need a (set_first_block first a (u_mem s2))) s2)
  end.

Definition can_extend (next extra : Z) (bm : bitmap) : bool :=
  match find_from (fun i => bitmap_test (i32 (next + Z.of_nat i)) bm) 0 (Z.to_nat extra) with
  | Some _ => false | None => true end.

Definition extend (a need next extra : Z) (s : ufs) : ufs :=
  let s1 := mark next extra true s in
  let s2 := put_free_blocks (free_blocks s1 - extra) s1 in
  with_mem (set_blocks need a (u_mem s2)) s2.

(** Move the file to a new extent. *)
Definition relocate (a need : Z) (s : ufs) : Z * ufs :=
  match bitmap_find_contiguous need (block_bitmap s) with
  | None => (-1, s)
  | Some new_first =>
      let m := u_mem s in
      let old_data := block_addr (current_mount s) (i_first_block m a) in
      let new_data := block_addr (current_mount s) new_first in
      let cap := u32 (i_blocks m a * UNAMEDFS_BLOCK_SIZE) in
      let to_copy := if cap <? i_size m a then cap else i_size m a in
      let s1 := with_mem (snd (lib_memcpy m new_data old_data to_copy)) s in
      let s2 := mark (i_first_block (u_mem s1) a) (i_blocks (u_mem s1) a) false s1 in
      let s3 := put_free_blocks (free_blocks s2 + i_blocks (u_mem s2) a) s2 in
      let s4 := mark new_first need true s3 in
      let s5 := put_free_blocks (free_blocks s4 - need) s4 in
      (0, with_mem (set_blocks need a (set_first_block new_first a (u_mem s5))) s5)
  end.

Definition ensure_blocks (a new_size : Z) (s : ufs) : Z * ufs :=
  let need := blocks_for new_size in
  let cur := i_blocks (u_mem s) a in
  if need =? cur then (0, s) else
  if need <? cur then (0, shrink a need s) else
  if free_blocks s <? need - cur then (-1, s) else
  if cur =? 0 then grow_empty a need s else
  let extra := need - cur in
  let next := i32 (i_first_block (u_mem s) a) + i32 cur in
  if can_extend next extra (block_bitmap s) then (0, extend a need next extra s)
  else relocate a need s.

(** ** Format, mount, unmount *)

Definition unamedfs_format (dev size : Z) (m : mem) : Z * mem :=
  if (dev =? 0) || (size <? UNAMEDFS_BLOCK_SIZE * 3) then (-1, m) else
  let m := clear_mem m dev sizeof_superblock in
  let m := store32 m dev UNAMEDFS_MAGIC in
  let m := store32 m (dev + 4) 1 in
  let total := size / UNAMEDFS_BLOCK_SIZE in
  let m := store32 m (dev + 8) total in
  let m := store32 m (dev + 12) (u32 (total - 2)) in
  let m := store32 m (dev + 16) 0 in
  let m := store32 m (dev + 20) 2 in
  let m := clear_mem m (dev + UNAMEDFS_BLOCK_SIZE) UNAMEDFS_BLOCK_SIZE in
  let root := dev + UNAMEDFS_BLOCK_SIZE in
  let m := store32 m root 0 in
  let m := store32 m (root + 4) 0 in
  let m := store32 m (root + 8) 2 in
  let m := store32 m (root + 12) 0 in
  let m := store32 m (root + 16) 0 in
  let m := store32 m (root + 20) 0 in
  let m := store8 m (i_name root) SLASH in
  let m := store8 m (i_name root + 1) 0 in
  (0, store32 m (dev + 16) 1).

(** The caller's mount structure is returned beside the state. *)
Definition unamedfs_mount (mnt : option mount) (dev size : Z) (s : ufs) : Z * option mount * ufs :=
  match mnt with
  | None => (-1, None, s)
  | Some mnt0 =>
      if dev =? 0 then (-1, Some mnt0, s) else
      if negb (sb_magic (u_mem s) dev =? UNAMEDFS_MAGIC) then (-1, Some mnt0, s) else
      let mnt := mk_mount dev size 1 in
      let s1 := mk_ufs (u_mem s) (bitmap_init (sb_total_blocks (u_mem s) dev)) (fd_entries s) mnt true (icache s) in
      let s2 := bitmap_rebuild s1 in
      (0, Some mnt, icache_drop (with_fds (replicate 64 fd_free) s2))
  end.

Definition unamedfs_unmount (mnt : option mount) (s : ufs) : Z * option mount * ufs :=
  match mnt with
  | None => (-1, None, s)
  | Some mnt => (0, Some (mk_mount (device mnt) (device_size mnt) 0),
                 mk_ufs (u_mem s) (block_bitmap s) (fd_entries s) (current_mount s) false (icache s))
  end.

(** ** Descriptors *)

Definition unamedfs_open (path : list Z) (flags : Z) (s : ufs) : Z * ufs :=
  if negb (mount_valid s) then (-1, s) else
  let '(ino, s1) := find_inode_by_path (path_normalize path NORM_SIZE) s in
  if ino <? 0 then (-1, s1) else
  match find_from (fun i => negb (f_used (fd_entries s1 !!! i))) 0 64 with
  | Some i => (Z.of_nat i, with_fds (<[i := mk_fd ino 0 flags true]> (fd_entries s1)) s1)
  | None => (-1, s1)
  end.

(** The entry of a valid descriptor in use. *)
Definition get_fd (s : ufs) (fd : Z) : option fd_entry :=
  if (fd <? 0) || (64 <=? fd) then None else
  let e := fd_entries s !!! Z.to_nat fd in if f_used e then Some e else None.

Definition unamedfs_close (fd : Z) (s : ufs) : Z * ufs :=
  match get_fd s fd with
  | None => (-1, s)
  | Some e => (0, with_fds (<[Z.to_nat fd := mk_fd (-1) 0 (f_flags e) false]> (fd_entries s)) s)
  end.

Definition set_offset (fd off : Z) (e : fd_entry) (s : ufs) : ufs :=
  with_fds (<[Z.to_nat fd := mk_fd (f_ino e) (u32 off) (f_flags e) (f_used e)]> (fd_entries s)) s.

Definition unamedfs_read (fd buf count : Z) (s : ufs) : Z * ufs :=
  match get_fd s fd with
  | None => (-1, s)
  | Some e =>
      if buf =? 0 then (-1, s) else
      if negb (mount_valid s) then (-1, s) else
      let m := u_mem s in
      let a := inode_at (current_mount s) (f_ino e) in
      if is_dir m a then (-1, s) else
      let off := f_offset e in
      if i_size m a <=? off then (0, s) else
      let count := if i_size m a - off <? count then i_size m a - off else count in
      if count =? 0 then (0, s) else
      if i_blocks m a =? 0 then (0, s) else
      let avail := u32 (i_blocks m a * UNAMEDFS_BLOCK_SIZE) in
      if avail <=? off then (0, s) else
      let count := if avail <? u32 (off + count) then avail - off else count in
      let base := block_addr (current_mount s) (i_first_block m a) in
      (i32 count, set_offset fd (off + count) e (with_mem (snd (lib_memcpy m buf (u32 (base + off)) count)) s))
  end.

(** The retry of [unamedfs_write] with what the free blocks can hold; [None]
    when nothing can be written. *)
Definition write_truncated (a off count : Z) (s : ufs) : option (Z * ufs) * ufs :=
  let max_bytes := u32 (u32 (i_blocks (u_mem s) a + free_blocks s) * UNAMEDFS_BLOCK_SIZE) in
  if max_bytes <=? off then (None, s) else
  let can_write := max_bytes - off in
  let can_write := if count <? can_write then count else can_write in
  let '(r, s1) := ensure_blocks a (u32 (off + can_write)) s in
  if negb (r =? 0) then (None, s1) else (Some (can_write, s1), s1).

(** The copy at the end of [unamedfs_write]. *)
Definition write_data (fd a off buf count : Z) (e : fd_entry) (s : ufs) : Z * ufs :=
  let base := block_addr (current_mount s) (i_first_block (u_mem s) a) in
  let m := snd (lib_memcpy (u_mem s) (u32 (base + off)) buf count) in
  let new_end := u32 (off + count) in
  let m := if i_size m a <? new_end then set_size new_end a m else m in
  (i32 count, set_offset fd (off + count) e (with_mem m s)).

Definition unamedfs_write (fd buf count : Z) (s : ufs) : Z * ufs :=
  match get_fd s fd with
  | None => (-1, s)
  | Some e =>
      if buf =? 0 then (-1, s) else
      if negb (mount_valid s) then (-1, s) else
      let a := inode_at (current_mount s) (f_ino e) in
      if is_dir (u_mem s) a then (-1, s) else
      let off := f_offset e in
      if count =? 0 then (0, s) else
      let '(r, s1) := ensure_blocks a (u32 (off + count)) s in
      if negb (r =? 0) then
        match write_truncated a off count s1 with
        | (None, s2) => (-1, s2)
        | (Some (n, _), s2) => write_data fd a off buf n e s2
        end
      else write_data fd a off buf count e s1
  end.

Definition SEEK_SET : Z := 0.
Definition SEEK_CUR : Z := 1.
Definition SEEK_END : Z := 2.

Definition unamedfs_lseek (fd offset whence : Z) (s : ufs) : Z * ufs :=
  match get_fd s fd with
  | None => (-1, s)
  | Some e =>
      if negb (mount_valid s) then (-1, s) else
      let a := inode_at (current_mount s) (f_ino e) in
      let new_off :=
        if whence =? SEEK_SET then Some offset
        else if whence =? SEEK_CUR then Some (i32 (i32 (f_offset e) + offset))
        else if whence =? SEEK_END then Some (i32 (i32 (i_size (u_mem s) a) + offset))
        else None in
      match new_off with
      | None => (-1, s)
      | Some o => if o <? 0 then (-1, s) else (o, set_offset fd o e s)
      end
  end.

(** ** Creating and removing names *)

Definition init_inode (slot parent flags : Z) (name : list Z) (a : Z) (m : mem) : mem :=
  let m := clear_mem m a sizeof_inode in
  let m := store32 m a (u32 slot) in
  let m := store32 m (a + 4) 0 in
  let m := store32 m (a + 8) flags in
  let m := store32 m (a + 12) (u32 parent) in
  let m := store32 m (a + 16) 0 in
  let m := store32 m (a + 20) 0 in
  put_str m (i_name a) name UNAMEDFS_FILENAME_LEN.

Definition create_inode (norm_path : list Z) (flags : Z) (s : ufs) : Z * ufs :=
  let dir := path_dirname norm_path in
  let base := path_basename norm_path UNAMEDFS_FILENAME_LEN in
  if bool_decide (base = []) then (-1, s) else
  if UNAMEDFS_FILENAME_LEN <=? Z.of_nat (length base) then (-1, s) else
  let '(parent, s1) := find_inode_by_path dir s in
  if parent <? 0 then (-1, s1) else
  if negb (is_dir (u_mem s1) (inode_at (current_mount s1) parent)) then (-1, s1) else
  let '(found, s2) := find_inode_by_name_parent base (u32 parent) s1 in
  if 0 <=? found then (-1, s2) else
  let '(slot, s3) := alloc_inode_slot s2 in
  if slot <? 0 then (-1, s3) else
  let m := init_inode slot parent flags base (inode_at (current_mount s3) slot) (u_mem s3) in
  (slot, icache_drop (with_mem m s3)).

Definition unamedfs_mkdir (mnt : option mount) (path : list Z) (s : ufs) : Z * ufs :=
  if bool_decide (mnt = None) || negb (mount_valid s) then (-1, s) else
  let norm := path_normalize path NORM_SIZE in
  if bool_decide (norm = [SLASH]) then (-1, s) else
  let '(r, s1) := create_inode norm 2 s in (if r <? 0 then -1 else 0, s1).

Definition unamedfs_create (mnt : option mount) (path : list Z) (s : ufs) : Z * ufs :=
  if bool_decide (mnt = None) then (-1, s) else
  let '(r, s1) := create_inode (path_normalize path NORM_SIZE) 1 s in (if r <? 0 then -1 else 0, s1).

(** Close the descriptors of a removed inode: [used] and [ino] are reset. *)
Definition close_fds (ino : Z) (fds : list fd_entry) : list fd_entry :=
  map (fun e => if f_used e && (f_ino e =? ino) then mk_fd (-1) (f_offset e) (f_flags e) false else e) fds.

Definition drop_inode (i a : Z) (s : ufs) : ufs :=
  let s1 := icache_invalidate i s in
  let s2 := icache_invalidate_name (i_name a) (i_parent (u_mem s1) a) s1 in
  with_mem (clear_mem (u_mem s2) a sizeof_inode) s2.

Definition unamedfs_unlink (path : list Z) (s : ufs) : Z * ufs :=
  if negb (mount_valid s) then (-1, s) else
  let norm := path_normalize path NORM_SIZE in
  if bool_decide (norm = [SLASH]) then (-1, s) else
  let '(i, s1) := find_inode_by_path norm s in
  if i <? 0 then (-1, s1) else
  let a := inode_at (current_mount s1) i in
  if is_dir (u_mem s1) a then (-1, s1) else
  let n := i_blocks (u_mem s1) a in
  let s2 :=
    if n =? 0 then s1 else
    let s' := mark (i_first_block (u_mem s1) a) n false s1 in
    if u32 (free_blocks s' + n) <=? total_blocks s' then put_free_blocks (free_blocks s' + n) s' else s' in
  let s3 := with_fds (close_fds i (fd_entries s2)) s2 in
  (0, drop_inode i a s3).

Definition unamedfs_rmdir (path : list Z) (s : ufs) : Z * ufs :=
  if negb (mount_valid s) then (-1, s) else
  let norm := path_normalize path NORM_SIZE in
  if bool_decide (norm = [SLASH]) then (-1, s) else
  let '(i, s1) := find_inode_by_path norm s in
  if i <? 0 then (-1, s1) else
  let a := inode_at (current_mount s1) i in
  if negb (is_dir (u_mem s1) a) then (-1, s1) else
  match scan_inodes s1 (fun c => negb (i_flags (u_mem s1) c =? 0) && (i_parent (u_mem s1) c =? u32 i)) with
  | Some _ => (-1, s1)
  | None =>
      let n := i_blocks (u_mem s1) a in
      let s2 := if n =? 0 then s1 else
                let s' := mark (i_first_block (u_mem s1) a) n false s1 in
                put_free_blocks (free_blocks s' + n) s' in
      (0, drop_inode i a s2)
  end.

(** The fields [unamedfs_stat] fills in; the others are zero. *)
Record ustat := mk_ustat { us_mode : Z; us_type : Z; us_size : Z; us_blocks : Z }.

Definition unamedfs_stat (path : list Z) (s : ufs) : Z * option ustat * ufs :=
  if negb (mount_valid s) then (-1, None, s) else
  let '(i, s1) := find_inode_by_path (path_normalize path NORM_SIZE) s in
  if i <? 0 then (-1, None, s1) else
  let a := inode_at (current_mount s1) i in
  (0, Some (mk_ustat (Z.lor 1 2) (if is_dir (u_mem s1) a then 2 else 1) (i_size (u_mem s1) a) (i_blocks (u_mem s1) a)), s1).
