(* ===== verification/UfsCorrect.v ===== *)
(** * unnamedfs.c: correctness

    [ensure_blocks] is the allocator of file extents; [unamedfs_write] and
    [unamedfs_read] copy through the extent.  The inode table has 4104-byte
    entries but one reserved block, so that inodes lie in blocks that the bitmap
    calls free.  The theorems hold while neither the blocks a file has nor the
    blocks it is given hold the header of its own inode ([inode_safe], [clear]);
    [write_destroys_itself] shows the first file that meets its own inode,
    and [write_destroys_home] what happens to the inodes of others. *)
From S2P Require Import Prelude Mem LibString Path Bitmap UnnamedFs.

(** Address of data block [b], without wrap-around. *)
Definition blk (s : ufs) (b : Z) : Z := device (current_mount s) + 8192 + b * 4096.
Definition in_ext (f n c : Z) : bool := (f <=? c) && (c <? f + n).

Record ufs_ok (s : ufs) : Prop := {
  uo_valid : mount_valid s = true;
  uo_bitmap : bm_ok (block_bitmap s);
  uo_device : 0 < device (current_mount s) /\ device (current_mount s) + 2 ^ 25 < 2 ^ 32
}.

(** The 24 bytes of the inode at [a] are outside the extent of [n] blocks from [f] on. *)
Definition clear (s : ufs) (a f n : Z) : Prop := n = 0 \/ a + 24 <= blk s f \/ blk s f + n * 4096 <= a.

(** The inode lies in the device, and not in a block of its own file. *)
Record inode_safe (s : ufs) (a : Z) : Prop := {
  hs_low : device (current_mount s) + 24 <= a;
  hs_high : a + 24 < 2 ^ 32;
  hs_inside : a + 24 <= blk s (bitmap_blocks (block_bitmap s));
  hs_own : clear s a (i_first_block (u_mem s) a) (i_blocks (u_mem s) a)
}.

(** The first block of the file once it has [need] blocks: it stays where it is when it
    shrinks or the blocks behind it are free, and goes to the first free run otherwise. *)
Definition new_first (s : ufs) (a need : Z) : Z :=
  let f := i_first_block (u_mem s) a in let n := i_blocks (u_mem s) a in
  if (need <=? n) || (negb (n =? 0) && can_extend (f + n) (need - n) (block_bitmap s)) then f
  else default 0 (bitmap_find_contiguous need (block_bitmap s)).

(** An extent inside the bitmap, with its blocks marked. *)
Definition extent_ok (bm : bitmap) (f n : Z) : Prop :=
  n = 0 \/ 0 < n /\ 2 <= f /\ f + n <= bitmap_blocks bm /\ forall c, in_ext f n c = true -> bitmap_test c bm = true.
Definition file_ok (s : ufs) (a : Z) : Prop :=
  extent_ok (block_bitmap s) (i_first_block (u_mem s) a) (i_blocks (u_mem s) a).

(** Byte [k] of a file, read through its extent. *)
Definition file_byte (s : ufs) (a k : Z) : Z := (u_mem s).[blk s (i_first_block (u_mem s) a) + k].

Lemma block_addr_blk s b :
  ufs_ok s -> 0 <= b <= 4096 -> block_addr (current_mount s) b = blk s b.
Proof.
  intros [_ _ Hd] Hb. unfold block_addr, data_blocks, blk, UNAMEDFS_BLOCK_SIZE.
  rewrite (u32_small (b * 4096)), (u32_small (device _ + _)) by lia. rewrite u32_small; lia.
Qed.

(** Read a field after writes to other fields. *)
Ltac field_simp := repeat first [rewrite load32_store32_ne by lia | rewrite load32_store32_eq by (auto with tinx || lia)].

(** A byte after writes to other words. *)
Ltac frame_simp := repeat rewrite peek_store32_ne by lia.

(** What a successful [ensure_blocks] does to file [a] and to everything else. *)
Record resized (a need : Z) (s s' : ufs) : Prop := {
  rz_mount : current_mount s' = current_mount s;
  rz_fds : fd_entries s' = fd_entries s;
  rz_icache : icache s' = icache s;
  rz_ok : ufs_ok s';
  rz_nblocks : bitmap_blocks (block_bitmap s') = bitmap_blocks (block_bitmap s);
  rz_blocks : i_blocks (u_mem s') a = need;
  rz_first : need <> 0 -> i_first_block (u_mem s') a = new_first s a need;
  rz_file : file_ok s' a;
  rz_bits : forall c, 0 <= c < bitmap_blocks (block_bitmap s) ->
    let new := in_ext (i_first_block (u_mem s') a) need c in
    let old := in_ext (i_first_block (u_mem s) a) (i_blocks (u_mem s) a) c in
    bitmap_test c (block_bitmap s') = new || (negb old && bitmap_test c (block_bitmap s)) /\
    (new = true -> old = true \/ bitmap_test c (block_bitmap s) = false);
  rz_content : forall k, 0 <= k < i_size (u_mem s) a -> k < 4096 * i_blocks (u_mem s) a -> k < 4096 * need ->
    file_byte s' a k = file_byte s a k;
  rz_frame : forall x,
    ~ (device (current_mount s) + 12 <= x < device (current_mount s) + 16) -> ~ (a + 16 <= x < a + 24) ->
    ~ (blk s (i_first_block (u_mem s') a) <= x < blk s (i_first_block (u_mem s') a) + 4096 * need) ->
    (u_mem s').[x] = (u_mem s).[x]
}.

Lemma load32_same m m' x : (forall y, x <= y < x + 4 -> m'.[y] = m.[y]) -> load32 m' x = load32 m x.
Proof. apply load32_ext. Qed.

(** [size] and [flags] survive a resize. *)
Lemma resized_fields a need s s' :
  ufs_ok s -> inode_safe s a -> clear s a (new_first s a need) need -> resized a need s s' ->
  i_size (u_mem s') a = i_size (u_mem s) a /\ i_flags (u_mem s') a = i_flags (u_mem s) a.
Proof.
  intros Hok Hs Hcl R. pose proof (hs_low _ _ Hs). pose proof (uo_device _ Hok).
  assert (Hx : forall y, a + 4 <= y < a + 12 -> (u_mem s').[y] = (u_mem s).[y]).
  { intros y Hy. apply (rz_frame _ _ _ _ R); [lia|lia|]. destruct (Z.eq_dec need 0) as [->|Hz]; [lia|].
    rewrite (rz_first _ _ _ _ R Hz). destruct Hcl as [?|?]; lia. }
  unfold i_size, i_flags. split; apply load32_same; intros y Hy; apply Hx; lia.
Qed.

Section Resize.
Context (s : ufs) (a : Z) (Hok : ufs_ok s) (Hs : inode_safe s a) (Hfile : file_ok s a).

Lemma file_range : 0 <= i_blocks (u_mem s) a <= 4096 /\
  (i_blocks (u_mem s) a <> 0 -> 2 <= i_first_block (u_mem s) a /\
     i_first_block (u_mem s) a + i_blocks (u_mem s) a <= bitmap_blocks (block_bitmap s)).
Proof.
  pose proof (bk_blocks _ (uo_bitmap _ Hok)) as Hb. pose proof (load32_range (u_mem s) (a + 20)) as Hr.
  unfold file_ok, extent_ok in Hfile. unfold i_blocks in *. destruct Hfile as [->|(? & ? & ? & _)]; lia.
Qed.

Lemma same_resized : resized a (i_blocks (u_mem s) a) s s.
Proof.
  split; try done; [intros _; unfold new_first; by rewrite Z.leb_refl|]. intros c Hc new old. subst new old. destruct (in_ext _ _ c) eqn:E; [|done].
  cbn. split; [|by left]. destruct Hfile as [Hz|(_ & _ & _ & Ht)]; [|by apply Ht].
  rewrite Hz in E. unfold in_ext in E. lia.
Qed.

Lemma shrink_resized need : 0 <= need < i_blocks (u_mem s) a -> resized a need s (shrink a need s).
Proof.
  intros Hn. destruct file_range as [Hr Hf]. specialize (Hf ltac:(lia)). destruct Hfile as [|(_ & _ & _ & Ht)]; [lia|].
  pose proof (hs_low _ _ Hs). pose proof (hs_high _ _ Hs). pose proof (uo_device _ Hok). pose proof (bk_blocks _ (uo_bitmap _ Hok)).
  pose proof (load32_range (u_mem s) (a + 16)) as Hf32. fold (i_first_block (u_mem s) a) in Hf32.
  unfold shrink. rewrite (u32_small (i_blocks (u_mem s) a - need)) by lia.
  rewrite !(i32_small (i_first_block (u_mem s) a)), (i32_small need) by lia.
  set (f0 := i_first_block (u_mem s) a) in *. set (n0 := i_blocks (u_mem s) a) in *.
  destruct (mark_range_spec (f0 + need) (n0 - need) false (block_bitmap s) (uo_bitmap _ Hok)) as (Hok1 & Hnb & Hbits); try lia.
  set (s1 := mark (f0 + need) (n0 - need) false s).
  set (s2 := if _ <=? _ then put_free_blocks _ s1 else s1).
  assert (HS2 : block_bitmap s2 = bitmap_mark_range (f0 + need) (n0 - need) false (block_bitmap s) /\
    current_mount s2 = current_mount s /\ mount_valid s2 = mount_valid s /\ fd_entries s2 = fd_entries s /\ icache s2 = icache s /\
    forall x, ~ (device (current_mount s) + 12 <= x < device (current_mount s) + 16) -> (u_mem s2).[x] = (u_mem s).[x]).
  { unfold s2, s1, mark. rewrite i32_small by lia. case_if; split_and!; try done. intros x Hx. cbn. unfold set_free_blocks.
    by frame_simp. }
  clearbody s2. destruct HS2 as (Hb2 & Hm2 & Hv2 & Hfd2 & Hic2 & Hk2).
  set (m3 := set_blocks need a (u_mem s2)). set (s' := if need =? 0 then _ else _).
  assert (H' : block_bitmap s' = block_bitmap s2 /\ current_mount s' = current_mount s2 /\ mount_valid s' = mount_valid s2 /\
    fd_entries s' = fd_entries s2 /\ icache s' = icache s2 /\ i_blocks (u_mem s') a = need /\
    (need <> 0 -> i_first_block (u_mem s') a = f0) /\ forall x, ~ (a + 16 <= x < a + 24) -> (u_mem s').[x] = (u_mem s2).[x]).
  { assert (Hf2 : load32 (u_mem s2) (a + 16) = f0) by (apply load32_same; intros y Hy; apply Hk2; lia).
    unfold s', m3, i_blocks, i_first_block, set_blocks, set_first_block. rewrite (u32_small need) by lia.
    case_if; bool_to_prop; cbn; split_and!; try done; field_simp; try done; try lia; intros x Hx; by frame_simp. }
  clearbody s'. destruct H' as (Hb & Hm & Hv & Hfd & Hic & Hbl & Hfst & Hk).
  assert (Hkeep : forall x, ~ (device (current_mount s) + 12 <= x < device (current_mount s) + 16) ->
    ~ (a + 16 <= x < a + 24) -> (u_mem s').[x] = (u_mem s).[x]) by (intros; rewrite Hk, Hk2 by done; done).
  assert (Htest : forall c, 0 <= c < bitmap_blocks (block_bitmap s) -> bitmap_test c (block_bitmap s') =
    if in_ext (f0 + need) (n0 - need) c then false else bitmap_test c (block_bitmap s)).
  { intros c Hc. rewrite Hb, Hb2, Hbits by done. done. }
  split; try congruence.
  - split; [by rewrite Hv, Hv2; apply Hok|by rewrite Hb, Hb2|rewrite Hm, Hm2; apply Hok].
  - intros Hz. rewrite (Hfst Hz). unfold new_first. fold f0 n0. by replace (need <=? n0) with true by lia.
  - unfold file_ok, extent_ok. rewrite Hbl. destruct (Z.eq_dec need 0) as [|Hz]; [by left|right].
    rewrite (Hfst Hz), Hb, Hb2, Hnb. split_and!; try lia. intros c Hc. unfold in_ext in Hc. bool_to_prop.
    rewrite <- Hb2, <- Hb, Htest by lia. unfold in_ext. case_if; [lia|]. apply Ht. unfold in_ext. fold f0 n0. lia.
  - intros c Hc new old. rewrite Htest by done. subst new old. fold f0 n0. destruct (Z.eq_dec need 0) as [->|Hz].
    + replace (in_ext (i_first_block (u_mem s') a) 0 c) with false by (unfold in_ext; lia). cbn [orb]. split; [|done].
      rewrite Z.add_0_r, Z.sub_0_r. by destruct (in_ext f0 n0 c).
    + rewrite (Hfst Hz). split.
      * destruct (in_ext f0 need c) eqn:E1; cbn [orb].
        -- unfold in_ext in E1. bool_to_prop. replace (in_ext (f0 + need) (n0 - need) c) with false by (unfold in_ext; lia).
           apply Ht. unfold in_ext. fold f0 n0. lia.
        -- destruct (in_ext f0 n0 c) eqn:E2; unfold in_ext in E1, E2; cbn [negb andb].
           ++ replace (in_ext (f0 + need) (n0 - need) c) with true by (unfold in_ext; lia). done.
           ++ replace (in_ext (f0 + need) (n0 - need) c) with false by (unfold in_ext; lia). done.
      * unfold in_ext. lia.
  - intros k Hk1 Hk3 Hk4. unfold file_byte, blk. rewrite Hm, Hm2, (Hfst ltac:(lia)). fold f0.
    pose proof (hs_own _ _ Hs) as Hcl. unfold clear, blk in *. fold f0 n0 in Hcl. apply Hkeep; lia.
  - intros x Hx1 Hx2 _. by apply Hkeep.
Qed.

(** The growing cases end with a marked extent of [need] blocks at [f1]. *)
Lemma grown_resized s' f1 need :
  current_mount s' = current_mount s -> mount_valid s' = mount_valid s -> fd_entries s' = fd_entries s ->
  icache s' = icache s -> bm_ok (block_bitmap s') ->
  bitmap_blocks (block_bitmap s') = bitmap_blocks (block_bitmap s) ->
  0 < need -> 2 <= f1 -> f1 + need <= bitmap_blocks (block_bitmap s) ->
  i_blocks (u_mem s') a = need -> i_first_block (u_mem s') a = f1 -> new_first s a need = f1 ->
  (forall c, 0 <= c < bitmap_blocks (block_bitmap s) -> bitmap_test c (block_bitmap s') =
     in_ext f1 need c || (negb (in_ext (i_first_block (u_mem s) a) (i_blocks (u_mem s) a) c) && bitmap_test c (block_bitmap s))) ->
  (forall c, in_ext f1 need c = true ->
     in_ext (i_first_block (u_mem s) a) (i_blocks (u_mem s) a) c = true \/ bitmap_test c (block_bitmap s) = false) ->
  (forall k, 0 <= k < i_size (u_mem s) a -> k < 4096 * i_blocks (u_mem s) a -> k < 4096 * need ->
     (u_mem s').[blk s f1 + k] = file_byte s a k) ->
  (forall x, ~ (device (current_mount s) + 12 <= x < device (current_mount s) + 16) -> ~ (a + 16 <= x < a + 24) ->
     ~ (blk s f1 <= x < blk s f1 + 4096 * need) -> (u_mem s').[x] = (u_mem s).[x]) ->
  resized a need s s'.
Proof.
  intros Hm Hv Hfd Hic Hbm Hnb Hn Hf1 Hf2 Hbl Hfst Hnew Hbits Hfree Hcont Hframe. split; try done.
  - split; [by rewrite Hv; apply Hok|done|rewrite Hm; apply Hok].
  - intros _. congruence.
  - unfold file_ok, extent_ok. right. rewrite Hbl, Hfst, Hnb. split_and!; try done. intros c Hc.
    pose proof Hc as Hc'. unfold in_ext in Hc'. bool_to_prop. rewrite Hbits by lia. by rewrite Hc.
  - intros c Hc new old. subst new old. rewrite Hfst. split; [by apply Hbits|apply Hfree].
  - intros k ? ? ?. rewrite <- Hcont by done. unfold file_byte, blk. by rewrite Hfst, Hm.
  - intros x. rewrite Hfst. apply Hframe.
Qed.

Lemma grow_empty_resized need r s' :
  i_blocks (u_mem s) a = 0 -> 0 < need -> grow_empty a need s = (r, s') ->
  r = -1 /\ s' = s /\ (forall g, ~ free_run (block_bitmap s) g need) \/ r = 0 /\ resized a need s s'.
Proof.
  intros H0 Hn. unfold grow_empty. pose proof (find_contiguous_spec need (block_bitmap s) Hn) as Hc.
  destruct (bitmap_find_contiguous need (block_bitmap s)) as [f|] eqn:Ef; [|intros [= <- <-]; by left].
  destruct Hc as [(Hf2 & Hfn & Hfree) _]. intros [= <- <-]. right. split; [done|].
  pose proof (hs_low _ _ Hs). pose proof (hs_high _ _ Hs). pose proof (uo_device _ Hok). pose proof (bk_blocks _ (uo_bitmap _ Hok)).
  assert (Hnew : new_first s a need = f) by (unfold new_first; rewrite H0, Ef; by replace (need <=? 0) with false by lia).
  destruct (mark_range_spec f need true (block_bitmap s) (uo_bitmap _ Hok)) as (Hok1 & Hnb & Hbits); try lia.
  unfold mark, put_free_blocks, set_free_blocks, set_blocks, set_first_block. rewrite i32_small by lia.
  rewrite (u32_small need), (u32_small f) by lia.
  apply (grown_resized _ f need); cbn; try done; try lia.
  - unfold i_blocks. field_simp. done.
  - unfold i_first_block. field_simp. done.
  - intros c Hc. rewrite Hbits by done. rewrite H0. fold (in_ext f need c).
    replace (in_ext _ 0 c) with false by (unfold in_ext; lia). by destruct (in_ext f need c).
  - intros c Hc. right. unfold in_ext in Hc. bool_to_prop. apply Hfree. lia.
  - intros x Hx1 Hx2 Hx3. by frame_simp.
Qed.

Lemma can_extend_spec next extra bm :
  0 <= next -> next + extra < 2 ^ 31 -> can_extend next extra bm = true ->
  forall c, next <= c < next + extra -> bitmap_test c bm = false /\ c < bitmap_blocks bm.
Proof.
  intros Hn He Hc c Hr. unfold can_extend in Hc. destruct (find_from _ _ _) eqn:E; [done|].
  pose proof (find_from_None _ _ _ E (Z.to_nat (c - next)) ltac:(lia)) as Ht. cbn in Ht.
  rewrite i32_small in Ht by lia. replace (next + Z.of_nat (Z.to_nat (c - next))) with c in Ht by lia.
  split; [done|]. unfold bitmap_test, in_bitmap in Ht. destruct (_ && _) eqn:Eb; [|done]. bool_to_prop. lia.
Qed.

Lemma extend_resized need :
  0 < i_blocks (u_mem s) a < need -> need < 2 ^ 21 ->
  let next := i_first_block (u_mem s) a + i_blocks (u_mem s) a in
  let extra := need - i_blocks (u_mem s) a in
  can_extend next extra (block_bitmap s) = true -> resized a need s (extend a need next extra s).
Proof.
  intros Hn Hn2 next extra Hc. destruct file_range as [Hr Hf]. specialize (Hf ltac:(lia)).
  destruct Hfile as [|(_ & _ & _ & Ht)]; [lia|].
  pose proof (hs_low _ _ Hs). pose proof (hs_high _ _ Hs). pose proof (uo_device _ Hok). pose proof (bk_blocks _ (uo_bitmap _ Hok)).
  pose proof (can_extend_spec next extra (block_bitmap s) ltac:(lia) ltac:(lia) Hc) as Hfree.
  set (f0 := i_first_block (u_mem s) a) in *. set (n0 := i_blocks (u_mem s) a) in *.
  assert (Hend : f0 + need <= bitmap_blocks (block_bitmap s)).
  { destruct (Hfree (next + extra - 1) ltac:(lia)) as [_ He]. lia. }
  destruct (mark_range_spec next extra true (block_bitmap s) (uo_bitmap _ Hok)) as (Hok1 & Hnb & Hbits); try lia.
  unfold extend, mark, put_free_blocks, set_free_blocks, set_blocks. rewrite i32_small by lia. rewrite (u32_small need) by lia.
  pose proof (hs_own _ _ Hs) as Hsafe. unfold clear in Hsafe. fold f0 n0 in Hsafe.
  assert (Hnew : new_first s a need = f0).
  { unfold new_first. fold f0 n0. subst next extra. rewrite Hc. replace (need <=? n0) with false by lia. by replace (n0 =? 0) with false by lia. }
  apply (grown_resized _ f0 need); cbn; try done; try lia.
  - unfold i_blocks. field_simp. done.
  - unfold i_first_block. field_simp. done.
  - intros c Hcr. rewrite Hbits by done. fold f0 n0. destruct (in_ext f0 n0 c) eqn:E1.
    + rewrite (Ht c E1). unfold in_ext in E1 |- *. bool_to_prop. case_if; lia.
    + unfold in_ext in E1 |- *. cbn [negb andb]. destruct (bitmap_test c (block_bitmap s)); case_if; lia.
  - intros c Hcr. fold f0 n0. destruct (in_ext f0 n0 c) eqn:E1; [by left|right]. unfold in_ext in *.
    apply Hfree. lia.
  - intros k Hk1 Hk2 Hk3. unfold file_byte, blk in *. fold f0. by frame_simp.
  - intros x Hx1 Hx2 Hx3. by frame_simp.
Qed.

Lemma relocate_resized need r s' :
  0 < i_blocks (u_mem s) a < need ->
  can_extend (i_first_block (u_mem s) a + i_blocks (u_mem s) a) (need - i_blocks (u_mem s) a) (block_bitmap s) = false ->
  (r = 0 -> clear s a (new_first s a need) need) -> relocate a need s = (r, s') ->
  r = -1 /\ s' = s /\ (forall g, ~ free_run (block_bitmap s) g need) \/ r = 0 /\ resized a need s s'.
Proof.
  intros Hn Hce Hcl. unfold relocate. pose proof (find_contiguous_spec need (block_bitmap s) ltac:(lia)) as Hc.
  destruct (bitmap_find_contiguous need (block_bitmap s)) as [f|] eqn:Ef; [|intros [= <- <-]; by left].
  destruct Hc as [(Hf2 & Hfn & Hfree) _]. intros [= <- <-]. right. split; [done|].
  assert (Hnew : new_first s a need = f).
  { unfold new_first. rewrite Hce, Ef, andb_false_r. by replace (need <=? i_blocks (u_mem s) a) with false by lia. }
  rewrite Hnew in Hcl. specialize (Hcl eq_refl).
  pose proof (hs_low _ _ Hs). pose proof (hs_high _ _ Hs). pose proof (uo_device _ Hok). pose proof (bk_blocks _ (uo_bitmap _ Hok)).
  destruct file_range as [Hr Hf]. specialize (Hf ltac:(lia)). destruct Hfile as [|(_ & _ & _ & Ht)]; [lia|].
  set (m := u_mem s) in *. set (f0 := i_first_block m a) in *. set (n0 := i_blocks m a) in *.
  rewrite !block_addr_blk by (done || lia). unfold UNAMEDFS_BLOCK_SIZE. rewrite (u32_small (n0 * 4096)) by lia.
  pose proof (load32_range m (a + 4)) as Hsz. fold (i_size m a) in Hsz.
  set (tc := if n0 * 4096 <? i_size m a then _ else _). assert (Htc : tc = Z.min (i_size m a) (n0 * 4096)) by (unfold tc; case_if; lia).
  clearbody tc. assert (Hdis : f + need <= f0 \/ f0 + n0 <= f).
  { destruct (Z.le_gt_cases (f + need) f0) as [|E1]; [by left|]. destruct (Z.le_gt_cases (f0 + n0) f) as [|E2]; [by right|].
    pose proof (Ht (Z.max f f0) ltac:(unfold in_ext; fold f0 n0; lia)) as T1. rewrite Hfree in T1 by lia. done. }
  assert (Hsafe : a + 24 <= blk s f \/ blk s f + need * 4096 <= a) by (destruct Hcl as [?|?]; [lia|done]).
  assert (Hcp : copied m (blk s f) (blk s f0) tc (snd (lib_memcpy m (blk s f) (blk s f0) tc))).
  { apply memcpy_copied_lem; unfold blk, fwd_safe; lia. }
  set (m1 := snd (lib_memcpy m (blk s f) (blk s f0) tc)) in *.
  assert (Hk1 : forall x, ~ (blk s f <= x < blk s f + 4096 * need) -> m1.[x] = m.[x]).
  { intros x Hx. rewrite (Hcp x). case_if; [lia|done]. }
  assert (Hh : forall o, 0 <= o <= 20 -> load32 m1 (a + o) = load32 m (a + o)).
  { intros o Ho. apply load32_same. intros y Hy. apply Hk1. lia. }
  assert (Hff : i_first_block m1 a = f0) by (by apply Hh). assert (Hnn : i_blocks m1 a = n0) by (by apply Hh).
  unfold mark, put_free_blocks, set_free_blocks, set_blocks, set_first_block. cbn [u_mem with_mem with_bitmap block_bitmap current_mount].
  rewrite Hff, Hnn, (i32_small f0), (i32_small f), (u32_small need), (u32_small f) by lia.
  destruct (mark_range_spec f0 n0 false (block_bitmap s) (uo_bitmap _ Hok)) as (Hok1 & Hnb1 & Hbits1); try lia.
  destruct (mark_range_spec f need true _ Hok1) as (Hok2 & Hnb2 & Hbits2); try lia.
  apply (grown_resized _ f need); cbn [u_mem with_mem with_bitmap block_bitmap current_mount mount_valid fd_entries icache]; try done; try lia.
  - unfold i_blocks. field_simp. done.
  - unfold i_first_block. field_simp. done.
  - intros c Hcr. rewrite Hbits2, Hbits1 by lia. fold m f0 n0. fold (in_ext f need c) (in_ext f0 n0 c).
    destruct (in_ext f need c), (in_ext f0 n0 c); done.
  - intros c Hcr. right. unfold in_ext in Hcr. apply Hfree. lia.
  - intros k Hka Hkb Hkc. fold m n0 in Hka, Hkb. unfold file_byte. fold m f0.
    assert (Hb : device (current_mount s) + 16 <= blk s f) by (unfold blk; lia). frame_simp.
    rewrite (Hcp (blk s f + k)). case_if; [f_equal; lia|lia].
  - intros x Hx1 Hx2 Hx3. frame_simp. by apply Hk1.
Qed.

Lemma blocks_for_bounds size : 0 <= size -> size + 4096 < 2 ^ 32 ->
  0 <= blocks_for size < 2 ^ 20 /\ size <= 4096 * blocks_for size < size + 4096.
Proof.
  intros H1 H2. unfold blocks_for, UNAMEDFS_BLOCK_SIZE. case_if; bool_to_prop; [lia|]. rewrite u32_small by lia. zlia.
Qed.

(** [ensure_blocks] fails without effect or resizes the file. *)
Lemma ensure_blocks_lem new_size r s' :
  0 <= new_size -> new_size + 4096 < 2 ^ 32 -> (r = 0 -> clear s a (new_first s a (blocks_for new_size)) (blocks_for new_size)) ->
  ensure_blocks a new_size s = (r, s') ->
  r = -1 /\ s' = s /\ (free_blocks s < blocks_for new_size - i_blocks (u_mem s) a \/
                        forall g, ~ free_run (block_bitmap s) g (blocks_for new_size)) \/ r = 0 /\ resized a (blocks_for new_size) s s'.
Proof.
  intros H1 H2 Hcl. destruct (blocks_for_bounds new_size H1 H2) as [Hb _]. unfold ensure_blocks.
  set (need := blocks_for new_size) in *. clearbody need. destruct file_range as [Hr Hf].
  pose proof (bk_blocks _ (uo_bitmap _ Hok)) as Hnb.
  destruct (need =? i_blocks (u_mem s) a) eqn:E1; bool_to_prop.
  { intros [= <- <-]. right. split; [done|]. rewrite E1. apply same_resized. }
  destruct (need <? i_blocks (u_mem s) a) eqn:E2; bool_to_prop.
  { intros [= <- <-]. right. split; [done|]. apply shrink_resized. lia. }
  destruct (free_blocks s <? need - i_blocks (u_mem s) a) eqn:Efb; bool_to_prop; [intros [= <- <-]; left; auto|].
  destruct (i_blocks (u_mem s) a =? 0) eqn:E3; bool_to_prop.
  { intros Hg. destruct (grow_empty_resized need r s' E3 ltac:(lia) Hg) as [(? & ? & ?)|?]; [left; auto|by right]. }
  specialize (Hf E3). rewrite (i32_small (i_first_block (u_mem s) a)), (i32_small (i_blocks (u_mem s) a)) by lia.
  destruct (can_extend _ _ _) eqn:E4; cycle 1.
  { intros Hg. destruct (relocate_resized need r s' ltac:(lia) E4 Hcl Hg) as [(? & ? & ?)|?]; [left; auto|by right]. }
  intros [= <- <-]. right. split; [done|]. apply extend_resized; [lia|lia|done].
Qed.

End Resize.

(** C13. [ensure_blocks] either fails without any effect (too few free blocks, or no
    free run long enough), or gives the file exactly the blocks its size
    needs.  The new extent uses only blocks that were free or belonged to the
    file, the bitmap records exactly that change, the bytes the file keeps
    are the same (also when it was moved), and nothing else in memory
    changes but the superblock's counter and the inode's extent fields.  This holds for
    every inode of the device that lies neither in the blocks of its file nor in the
    blocks the file is given; for the others, and for other inodes in those
    blocks, see [write_destroys_itself] and [write_destroys_home]. *)
Theorem ensure_blocks_resizes s a new_size r s' :
  ufs_ok s -> inode_safe s a -> file_ok s a -> 0 <= new_size -> new_size + 4096 < 2 ^ 32 ->
  (r = 0 -> clear s a (new_first s a (blocks_for new_size)) (blocks_for new_size)) ->
  ensure_blocks a new_size s = (r, s') ->
  r = -1 /\ s' = s /\ (free_blocks s < blocks_for new_size - i_blocks (u_mem s) a \/
                        forall g, ~ free_run (block_bitmap s) g (blocks_for new_size)) \/
  r = 0 /\ resized a (blocks_for new_size) s s' /\ new_size <= 4096 * i_blocks (u_mem s') a < new_size + 4096.
Proof.
  intros Hok Hs Hf H1 H2 Hcl He. destruct (ensure_blocks_lem s a Hok Hs Hf new_size r s' H1 H2 Hcl He) as [?|[-> Hr]]; [by left|].
  right. split_and!; [done|done| |]; rewrite (rz_blocks _ _ _ _ Hr); apply (blocks_for_bounds new_size H1 H2).
Qed.

(** ** Write, seek, read *)

(** Memory outside the device, its two blocks of slack included. *)
Definition off_device (s : ufs) (p n : Z) : Prop :=
  0 < p /\ p + n < 2 ^ 32 /\
  (p + n <= device (current_mount s) \/ blk s (bitmap_blocks (block_bitmap s)) <= p).

Lemma get_fd_spec s fd e :
  get_fd s fd = Some e -> 0 <= fd < 64 /\ f_used e = true /\ (Z.to_nat fd < length (fd_entries s))%nat.
Proof.
  unfold get_fd. case_if; [done|]. case_if; [|done]. intros [= <-]. bool_to_prop. split; [lia|]. split; [done|].
  destruct (decide (Z.to_nat fd < length (fd_entries s))%nat) as [|Hge]; [done|]. exfalso.
  rewrite list_lookup_total_alt, lookup_ge_None_2 in Heqb0 by lia. done.
Qed.

Lemma get_fd_set s fd off e s0 :
  get_fd s0 fd = Some e -> length (fd_entries s) = length (fd_entries s0) ->
  get_fd (set_offset fd off e s) fd = Some (mk_fd (f_ino e) (u32 off) (f_flags e) true).
Proof.
  intros Hg Hl. destruct (get_fd_spec _ _ _ Hg) as (Hr & Hu & Hlt). unfold get_fd. cbn [set_offset with_fds fd_entries].
  replace ((fd <? 0) || (64 <=? fd)) with false by lia. rewrite list_lookup_total_insert_eq by lia. cbn [f_used]. by rewrite Hu.
Qed.

(** The state after [n] bytes from [buf] were written at [off] of file [a]. *)
Record written (fd a off buf n : Z) (e : fd_entry) (s s1 : ufs) : Prop := {
  wr_mount : current_mount s1 = current_mount s;
  wr_valid : mount_valid s1 = true;
  wr_ok : ufs_ok s1;
  wr_nblocks : bitmap_blocks (block_bitmap s1) = bitmap_blocks (block_bitmap s);
  wr_fd : get_fd s1 fd = Some (mk_fd (f_ino e) (off + n) (f_flags e) true);
  wr_dir : is_dir (u_mem s1) a = false;
  wr_ext : 2 <= i_first_block (u_mem s1) a /\ 0 < i_blocks (u_mem s1) a /\
           i_first_block (u_mem s1) a + i_blocks (u_mem s1) a <= bitmap_blocks (block_bitmap s1);
  wr_cap : off + n <= 4096 * i_blocks (u_mem s1) a;
  wr_size : i_size (u_mem s1) a = Z.max (i_size (u_mem s) a) (off + n);
  wr_data : forall i, 0 <= i < n -> file_byte s1 a (off + i) = (u_mem s).[buf + i]
}.

Lemma write_data_written fd a off buf n e s s2 r s1 :
  ufs_ok s -> inode_safe s a -> clear s a (new_first s a (blocks_for (off + n))) (blocks_for (off + n)) ->
  is_dir (u_mem s) a = false -> get_fd s fd = Some e -> off_device s buf n ->
  0 <= off -> 0 < n -> off + n + 4096 < 2 ^ 31 -> resized a (blocks_for (off + n)) s s2 ->
  write_data fd a off buf n e s2 = (r, s1) -> r = n /\ written fd a off buf n e s s1.
Proof.
  intros Hok Hs Hcl Hd Hg Hbuf Ho Hn Hsz R. pose proof (resized_fields _ _ _ _ Hok Hs Hcl R) as [Hsize Hflags].
  destruct (blocks_for_bounds (off + n)) as [Hb1 Hb2]; [lia|lia|]. set (need := blocks_for (off + n)) in *. clearbody need.
  pose proof (hs_low _ _ Hs). pose proof (hs_high _ _ Hs). pose proof (hs_inside _ _ Hs). pose proof (uo_device _ Hok).
  pose proof (bk_blocks _ (uo_bitmap _ Hok)). destruct Hbuf as (Hbp & Hbe & Hbd).
  assert (Hext : 2 <= i_first_block (u_mem s2) a /\ i_first_block (u_mem s2) a + need <= bitmap_blocks (block_bitmap s)).
  { pose proof (rz_file _ _ _ _ R) as Hf. unfold file_ok in Hf. rewrite (rz_blocks _ _ _ _ R), <- (rz_nblocks _ _ _ _ R) in *.
    destruct Hf as [?|(_ & ? & ? & _)]; [lia|done]. }
  assert (Hsafe : a + 24 <= blk s (i_first_block (u_mem s2) a) \/ blk s (i_first_block (u_mem s2) a) + need * 4096 <= a).
  { rewrite (rz_first _ _ _ _ R) by lia. destruct Hcl as [?|?]; [lia|done]. }
  unfold write_data. rewrite block_addr_blk by (apply (rz_ok _ _ _ _ R) || lia).
  replace (blk s2 (i_first_block (u_mem s2) a)) with (blk s (i_first_block (u_mem s2) a))
    by (unfold blk; by rewrite (rz_mount _ _ _ _ R)).
  set (f1 := i_first_block (u_mem s2) a) in *. assert (Hbase : blk s f1 + 4096 * need <= blk s (bitmap_blocks (block_bitmap s))) by (unfold blk; lia).
  assert (Hlow : device (current_mount s) + 16 <= blk s f1 /\ blk s (bitmap_blocks (block_bitmap s)) < 2 ^ 32) by (unfold blk; lia).
  rewrite (u32_small (blk s f1 + off)), (u32_small (off + n)), (i32_small n) by lia.
  assert (Hcp : copied (u_mem s2) (blk s f1 + off) buf n (snd (lib_memcpy (u_mem s2) (blk s f1 + off) buf n))).
  { apply memcpy_copied_lem; unfold fwd_safe; lia. }
  set (m1 := snd (lib_memcpy _ _ buf n)) in *.
  assert (Hh : forall o, 0 <= o <= 20 -> load32 m1 (a + o) = load32 (u_mem s2) (a + o)).
  { intros o Ho2. apply load32_same. intros y Hy. rewrite (Hcp y). case_if; [lia|done]. }
  set (m2 := if i_size m1 a <? off + n then _ else _).
  assert (Hm2 : load32 m2 (a + 4) = Z.max (i_size (u_mem s) a) (off + n) /\
    (forall o, 8 <= o <= 20 -> load32 m2 (a + o) = load32 (u_mem s2) (a + o)) /\
    (forall x, ~ (a + 4 <= x < a + 8) -> m2.[x] = m1.[x])).
  { pose proof (Hh 4 ltac:(lia)) as H4. fold (i_size m1 a) (i_size (u_mem s2) a) in H4. rewrite Hsize in H4.
    unfold m2, set_size. rewrite (u32_small (off + n)) by lia. case_if; bool_to_prop; split_and!.
    - field_simp. lia.
    - intros o Ho2. field_simp. apply Hh. lia.
    - intros x Hx. by frame_simp.
    - unfold i_size in *. lia.
    - intros o Ho2. apply Hh. lia.
    - done. }
  clearbody m2. destruct Hm2 as (Hm4 & Hmo & Hmx). intros [= <- <-]. split; [done|].
  split; cbn [set_offset with_fds with_mem u_mem current_mount mount_valid block_bitmap]; try apply R; try done.
  - destruct (rz_ok _ _ _ _ R). by split.
  - rewrite (get_fd_set (with_mem m2 s2) fd (off + n) e s) by (done || (cbn; by rewrite (rz_fds _ _ _ _ R))).
    by rewrite u32_small by lia.
  - unfold is_dir, i_flags in *. rewrite Hmo by lia. by rewrite Hflags.
  - unfold i_first_block, i_blocks in *. rewrite !Hmo by lia. fold f1. pose proof (rz_blocks _ _ _ _ R) as Hbl.
    unfold i_blocks in Hbl. rewrite Hbl, (rz_nblocks _ _ _ _ R). lia.
  - unfold i_blocks. rewrite Hmo by lia. pose proof (rz_blocks _ _ _ _ R) as Hbl. unfold i_blocks in Hbl. rewrite Hbl. lia.
  - intros i Hi. unfold file_byte, i_first_block. cbn [u_mem current_mount set_offset with_fds with_mem blk].
    rewrite Hmo by lia. fold (i_first_block (u_mem s2) a). fold f1. unfold blk at 1. cbn [current_mount set_offset with_fds with_mem].
    rewrite (rz_mount _ _ _ _ R). fold (blk s f1). rewrite Hmx by lia. rewrite (Hcp (blk s f1 + (off + i))).
    case_if; [|lia]. replace (buf + (blk s f1 + (off + i) - (blk s f1 + off))) with (buf + i) by lia.
    apply (rz_frame _ _ _ _ R); fold f1; lia.
Qed.

Lemma off_device_le s p n n' : off_device s p n -> 0 <= n' <= n -> off_device s p n'.
Proof. intros (? & ? & Hd) Hn. split_and!; [done|lia|lia]. Qed.

(** A write fails without effect on the device, or writes a prefix of the buffer. *)
Lemma write_written s fd buf count e n s1 :
  ufs_ok s -> get_fd s fd = Some e ->
  let a := inode_at (current_mount s) (f_ino e) in
  inode_safe s a -> file_ok s a -> is_dir (u_mem s) a = false -> 0 < count -> 0 <= f_offset e ->
  f_offset e + count + 4096 < 2 ^ 31 -> off_device s buf count ->
  (let need := blocks_for (f_offset e + n) in 0 < n -> clear s a (new_first s a need) need) ->
  unamedfs_write fd buf count s = (n, s1) ->
  n = -1 /\ s1 = s /\ fst (ensure_blocks a (f_offset e + count) s) = -1 \/
  0 < n <= count /\ written fd a (f_offset e) buf n e s s1.
Proof.
  intros Hok Hg a Hs Hf Hd Hc Ho Hsz Hbuf Hcl. cbv zeta in Hcl. unfold unamedfs_write. rewrite Hg. fold a. rewrite Hd, (uo_valid _ Hok).
  destruct Hbuf as (Hbp & Hbe & Hbd) eqn:Eb. clear Eb. replace (buf =? 0) with false by lia. replace (count =? 0) with false by lia.
  cbn [negb]. set (off := f_offset e) in *. rewrite (u32_small (off + count)) by lia.
  assert (Hret : forall k s2, 0 < k <= count -> write_data fd a off buf k e s2 = (n, s1) -> n = k).
  { intros k s2 Hk Hw. unfold write_data in Hw. injection Hw as <- _. apply i32_small. lia. }
  destruct (ensure_blocks a (off + count) s) as [r s2] eqn:E1. intros Hw.
  assert (Hcl1 : r = 0 -> clear s a (new_first s a (blocks_for (off + count))) (blocks_for (off + count))).
  { intros ->. cbn [Z.eqb negb] in Hw. rewrite <- (Hret count s2 ltac:(lia) Hw). apply Hcl. rewrite (Hret count s2 ltac:(lia) Hw). lia. }
  destruct (ensure_blocks_lem s a Hok Hs Hf (off + count) r s2 ltac:(lia) ltac:(lia) Hcl1 E1) as [(-> & -> & _)|[-> R]].
  - cbn [Z.eqb negb] in Hw. unfold write_truncated in Hw. set (mb := u32 (_ * _)) in Hw. destruct (mb <=? off) eqn:E2; bool_to_prop; [injection Hw as <- <-; by left|].
    set (cw := if count <? mb - off then count else mb - off) in Hw. assert (Hcw : 0 < cw <= count) by (unfold cw; case_if; lia).
    clearbody cw. rewrite (u32_small (off + cw)) in Hw by lia. destruct (ensure_blocks a (off + cw) s) as [r s2] eqn:E3.
    assert (Hcl2 : r = 0 -> clear s a (new_first s a (blocks_for (off + cw))) (blocks_for (off + cw))).
    { intros ->. cbn [Z.eqb negb] in Hw. rewrite <- (Hret cw s2 ltac:(lia) Hw). apply Hcl. rewrite (Hret cw s2 ltac:(lia) Hw). lia. }
    destruct (ensure_blocks_lem s a Hok Hs Hf (off + cw) r s2 ltac:(lia) ltac:(lia) Hcl2 E3) as [(-> & -> & _)|[-> R]]; cbn [Z.eqb negb] in Hw.
    + injection Hw as <- <-. by left.
    + right. destruct (write_data_written fd a off buf cw e s s2 n s1) as [-> W]; try done; try lia; [by apply Hcl2|].
      by eapply off_device_le with (n := count); [|lia].
  - cbn [Z.eqb negb] in Hw. right. destruct (write_data_written fd a off buf count e s s2 n s1) as [-> W]; try done; try lia. by apply Hcl1.
Qed.

(** Reading back what lies in the extent. *)
Lemma read_written s s1 fd a off buf buf2 n e :
  ufs_ok s -> a = inode_at (current_mount s) (f_ino e) -> get_fd s fd = Some e -> 0 <= off -> 0 < n -> off + n + 4096 < 2 ^ 31 ->
  off_device s buf2 n -> written fd a off buf n e s s1 ->
  exists s2 s3, unamedfs_lseek fd off SEEK_SET s1 = (off, s2) /\ unamedfs_read fd buf2 n s2 = (n, s3) /\
    forall i, 0 <= i < n -> (u_mem s3).[buf2 + i] = (u_mem s).[buf + i].
Proof.
  intros Hok Ha Hg Ho Hn Hsz (Hbp & Hbe & Hbd) W. pose proof (uo_device _ Hok). pose proof (bk_blocks _ (uo_bitmap _ Hok)).
  unfold unamedfs_lseek. rewrite (wr_fd _ _ _ _ _ _ _ _ W), (wr_valid _ _ _ _ _ _ _ _ W). cbn [negb f_ino SEEK_SET Z.eqb].
  replace (off <? 0) with false by lia. set (s2 := set_offset fd off _ s1). exists s2, (snd (unamedfs_read fd buf2 n s2)).
  split; [done|].
  assert (Hg2 : get_fd s2 fd = Some (mk_fd (f_ino e) off (f_flags e) true)).
  { unfold s2. rewrite (get_fd_set s1 fd off _ s1) by (apply (wr_fd _ _ _ _ _ _ _ _ W) || done). cbn. by rewrite u32_small by lia. }
  unfold unamedfs_read. rewrite Hg2. replace (buf2 =? 0) with false by lia.
  cbn [f_ino f_offset mount_valid current_mount u_mem set_offset with_fds s2]. rewrite (wr_valid _ _ _ _ _ _ _ _ W), (wr_mount _ _ _ _ _ _ _ _ W).
  rewrite <- Ha, (wr_dir _ _ _ _ _ _ _ _ W), (wr_size _ _ _ _ _ _ _ _ W). cbn [negb].
  destruct (wr_ext _ _ _ _ _ _ _ _ W) as (He1 & He2 & He3). rewrite (wr_nblocks _ _ _ _ _ _ _ _ W) in He3.
  pose proof (wr_cap _ _ _ _ _ _ _ _ W) as Hcap. set (sz := Z.max _ (off + n)).
  replace (sz <=? off) with false by lia. replace (sz - off <? n) with false by lia. replace (n =? 0) with false by lia.
  replace (i_blocks (u_mem s1) a =? 0) with false by lia. unfold UNAMEDFS_BLOCK_SIZE.
  rewrite (u32_small (i_blocks (u_mem s1) a * 4096)) by lia. replace (i_blocks (u_mem s1) a * 4096 <=? off) with false by lia.
  rewrite (u32_small (off + n)) by lia. replace (i_blocks (u_mem s1) a * 4096 <? off + n) with false by lia.
  rewrite (i32_small n) by lia. rewrite block_addr_blk by (done || lia).
  split; [done|]. intros i Hi. cbn [snd u_mem set_offset with_fds with_mem].
  set (f1 := i_first_block (u_mem s1) a) in *.
  assert (Hin : blk s f1 + off + n <= blk s (bitmap_blocks (block_bitmap s)) /\ 0 < blk s f1 /\ device (current_mount s) < blk s f1 /\
    blk s (bitmap_blocks (block_bitmap s)) < 2 ^ 32) by (unfold blk; lia).
  rewrite (u32_small (blk s f1 + off)) by lia.
  rewrite (memcpy_copied_lem (u_mem s1) buf2 (blk s f1 + off) n) by (unfold fwd_safe; lia). case_if; [|lia].
  pose proof (wr_data _ _ _ _ _ _ _ _ W i Hi) as Hd. unfold file_byte, blk in Hd. rewrite (wr_mount _ _ _ _ _ _ _ _ W) in Hd.
  fold f1 in Hd. fold (blk s f1) in Hd. rewrite <- Hd. f_equal. lia.
Qed.

(** C4. What is written to a file is read back: after [unamedfs_write] returned
    [n > 0] (all of the buffer, or the part the free blocks can hold), seeking
    back and reading [n] bytes returns [n] and the same bytes, whatever
    growing, shrinking or moving of the extent the write made.  A failed
    write happens only when [ensure_blocks] fails and changes nothing.  The
    file's inode must not lie in the blocks of the file before the write or in the
    blocks the write gives it: the file system lets that happen, and then the write
    destroys the inode ([write_destroys_itself]). *)
Theorem write_then_read s fd buf buf2 count e n s1 :
  ufs_ok s -> get_fd s fd = Some e ->
  let a := inode_at (current_mount s) (f_ino e) in
  inode_safe s a -> file_ok s a -> is_dir (u_mem s) a = false -> 0 < count -> 0 <= f_offset e ->
  f_offset e + count + 4096 < 2 ^ 31 -> off_device s buf count -> off_device s buf2 count ->
  (let need := blocks_for (f_offset e + n) in 0 < n -> clear s a (new_first s a need) need) ->
  unamedfs_write fd buf count s = (n, s1) ->
  n = -1 /\ s1 = s /\ fst (ensure_blocks a (f_offset e + count) s) = -1 \/
  0 < n <= count /\ exists s2 s3, unamedfs_lseek fd (f_offset e) SEEK_SET s1 = (f_offset e, s2) /\
    unamedfs_read fd buf2 n s2 = (n, s3) /\ forall i, 0 <= i < n -> (u_mem s3).[buf2 + i] = (u_mem s).[buf + i].
Proof.
  intros Hok Hg a Hs Hf Hd Hc Ho Hsz Hb1 Hb2 Hcl Hw.
  destruct (write_written s fd buf count e n s1 Hok Hg Hs Hf Hd Hc Ho Hsz Hb1 Hcl Hw) as [?|[Hn W]]; [by left|right].
  split; [done|]. eapply read_written; try done; try lia. eapply off_device_le; [done|lia].
Qed.

(** ** A 64 KiB device at 1 MiB, as [vfs_init] sets it up *)

Definition fs_boot : ufs :=
  mk_ufs (snd (unamedfs_format 0x100000 65536 (fun x => if x <? 0x10000 then 0x41 else 0)))
    (bitmap_init 0) [] (mk_mount 0 0 0) false (mk_icache [] 0 0 false).
Definition fs_root : ufs := snd (unamedfs_mount (Some (mk_mount 0 0 0)) 0x100000 65536 fs_boot).

Definition name_f : list Z := [47; 102].
Definition name_bin : list Z := [47; 98; 105; 110].
Definition name_etc : list Z := [47; 101; 116; 99].
Definition name_home : list Z := [47; 104; 111; 109; 101].
Definition name_tmp : list Z := [47; 116; 109; 112].
Definition do_mkdir (p : list Z) (s : ufs) : ufs := snd (unamedfs_mkdir (Some (current_mount s)) p s).
Definition do_create (p : list Z) (s : ufs) : ufs := snd (unamedfs_create (Some (current_mount s)) p s).

(** The four directories of [vfs_init] and the first file, opened: descriptor 0 on inode 5. *)
Definition fs_six : ufs :=
  snd (unamedfs_open name_f 0
    (do_create name_f (do_mkdir name_tmp (do_mkdir name_home (do_mkdir name_etc (do_mkdir name_bin fs_root)))))).
Definition fd_file : fd_entry := mk_fd 5 0 0 true.

(** The address of inode 5, and the free runs of the bitmap. *)
Definition ino5 : Z := 1073192.

Lemma ino5_at : inode_at (mk_mount 0x100000 65536 1) 5 = ino5.
Proof. vm_compute. reflexivity. Qed.

Lemma fs_six_facts :
  get_fd fs_six 0 = Some fd_file /\ current_mount fs_six = mk_mount 0x100000 65536 1 /\
  mount_valid fs_six = true /\ bitmap_blocks (block_bitmap fs_six) = 16 /\
  i_blocks (u_mem fs_six) ino5 = 0 /\ is_dir (u_mem fs_six) ino5 = false /\
  bitmap_find_contiguous 1 (block_bitmap fs_six) = Some 2 /\ bitmap_find_contiguous 2 (block_bitmap fs_six) = Some 2.
Proof. vm_compute. by split_and!. Qed.

Lemma fs_six_ok : ufs_ok fs_six.
Proof.
  destruct fs_six_facts as (_ & Hm & Hv & Hb & _). split; [exact Hv| |rewrite Hm; cbn [device]; lia].
  split; [vm_compute; reflexivity|rewrite Hb; lia|].
  apply (bool_decide_unpack _). vm_compute. exact I.
Qed.

(** The facts the witnesses need of a state with such a mount and an empty file on inode 5. *)
Section six.
Context (s : ufs) (Hm : current_mount s = mk_mount 0x100000 65536 1) (Hb : bitmap_blocks (block_bitmap s) = 16)
  (Hn : i_blocks (u_mem s) ino5 = 0).

Lemma six_safe : inode_safe s ino5.
Proof using Hm Hb Hn. split; [| | |left; exact Hn]; unfold blk; rewrite ?Hm, ?Hb; unfold ino5; cbn [device]; lia. Qed.

Lemma six_extent : file_ok s ino5.
Proof using Hn. left. exact Hn. Qed.

(** Up to two blocks the file does not meet its inode. *)
Lemma six_clear size :
  bitmap_find_contiguous 1 (block_bitmap s) = Some 2 -> bitmap_find_contiguous 2 (block_bitmap s) = Some 2 ->
  0 < size <= 8192 -> clear s ino5 (new_first s ino5 (blocks_for size)) (blocks_for size).
Proof using Hm Hn.
  intros F1 F2 Hs. unfold new_first. rewrite Hn.
  assert (blocks_for size = 1 \/ blocks_for size = 2) as Hb2 by (pose proof (blocks_for_bounds size); lia).
  right. right. destruct Hb2 as [-> | ->]; cbn [Z.leb Z.compare Z.eqb negb orb andb]; rewrite ?F1, ?F2;
    cbn [default]; unfold blk, ino5; rewrite Hm; cbn [device default]; simpl; lia.
Qed.

Lemma six_off buf : 0 < buf -> buf + 100 < 0x100000 -> off_device s buf 100.
Proof using Hm Hb. intros. unfold off_device, blk. rewrite Hm, Hb. cbn [device]. lia. Qed.

End six.

Lemma ensure_blocks_resizes_witness : exists s',
  ensure_blocks ino5 5000 fs_six = (0, s') /\ i_blocks (u_mem s') ino5 = 2.
Proof.
  assert (fst (ensure_blocks ino5 5000 fs_six) = 0) as Hr by (vm_compute; reflexivity).
  destruct fs_six_facts as (_ & Hm & _ & Hb & Hn & _ & F1 & F2). pose proof fs_six_ok as Hok.
  revert Hr Hm Hb Hn F1 F2 Hok. generalize fs_six. intros s Hr Hm Hb Hn F1 F2 Hok.
  destruct (ensure_blocks ino5 5000 s) as [r s'] eqn:E. cbn [fst] in Hr. subst r. exists s'. split; [reflexivity|].
  destruct (ensure_blocks_resizes s ino5 5000 0 s' Hok (six_safe s Hm Hb Hn) (six_extent s Hn)
    ltac:(lia) ltac:(lia) (fun _ => six_clear s Hm Hn 5000 F1 F2 ltac:(lia)) E) as [(H1 & _)|(_ & _ & H)]; [discriminate H1|].
  clear - H. lia.
Defined.

Lemma write_then_read_witness : exists s1 s2 s3,
  unamedfs_write 0 0x1000 100 fs_six = (100, s1) /\ unamedfs_lseek 0 0 SEEK_SET s1 = (0, s2) /\ unamedfs_read 0 0x8000 100 s2 = (100, s3) /\
  forall i, 0 <= i < 100 -> (u_mem s3).[0x8000 + i] = (u_mem fs_six).[0x1000 + i].
Proof.
  assert (fst (unamedfs_write 0 0x1000 100 fs_six) = 100) as Hr by (vm_compute; reflexivity).
  destruct fs_six_facts as (Hg & Hm & _ & Hb & Hn & Hd & F1 & F2). pose proof fs_six_ok as Hok.
  revert Hr Hg Hm Hb Hn Hd F1 F2 Hok. generalize fs_six. intros s Hr Hg Hm Hb Hn Hd F1 F2 Hok.
  destruct (unamedfs_write 0 0x1000 100 s) as [n s1] eqn:E. cbn [fst] in Hr. subst n. exists s1.
  assert (inode_at (current_mount s) (f_ino fd_file) = ino5) as Ha by (rewrite Hm; exact ino5_at).
  pose proof (write_then_read s 0 0x1000 0x8000 100 fd_file 100 s1 Hok Hg) as H. cbv zeta in H. rewrite Ha in H.
  destruct H as [(H1 & _)|(_ & s2 & s3 & H1 & H2 & H3)]; [exact (six_safe s Hm Hb Hn)|exact (six_extent s Hn)|exact Hd|lia|cbn; lia|cbn; lia| | | |exact E|discriminate H1|].
  - apply six_off; [exact Hm|exact Hb|lia|lia].
  - apply six_off; [exact Hm|exact Hb|lia|lia].
  - intros _. exact (six_clear s Hm Hn 100 F1 F2 ltac:(lia)).
  - exists s2, s3. split; [reflexivity|]. split; [exact H1|]. split; [exact H2|exact H3].
Defined.

(** Writing 100 bytes to the first file destroys the directory /home: its
    inode lies inside the block the file is given. *)
Lemma write_destroys_home :
  fst (find_inode_by_path name_home fs_six) = 3 /\
  fst (unamedfs_write 0 0x1000 100 fs_six) = 100 /\
  fst (find_inode_by_path name_home (snd (unamedfs_write 0 0x1000 100 fs_six))) = -1.
Proof. vm_compute. by split_and!. Qed.

(** Writing 100 bytes at 8200, in its third block, the first file destroys its own inode. *)
Lemma write_destroys_itself :
  let s := snd (unamedfs_lseek 0 8200 SEEK_SET fs_six) in
  fst (find_inode_by_path name_f s) = 5 /\
  fst (unamedfs_write 0 0x1000 100 s) = 100 /\
  fst (find_inode_by_path name_f (snd (unamedfs_write 0 0x1000 100 s))) = -1.
Proof. vm_compute. by split_and!. Qed.
