(* ===== verification/Vfs.v ===== *)
(** * vfs.c, the virtual file system over UnnamedFS

    Nodes live in the static array of [inode_to_vnode]; a [struct vfs_node *]
    is an index into it, [None] the null pointer.  Every node has the
    operations of UnnamedFS, so the calls through [ops] are direct calls here
    and the tests for null operations cannot fail.  The data of a node is the
    address of its inode on the RAM disk (UnnamedFs.v).  An operation returns
    [None] where the code follows a null node pointer.  [vfs_lock] masks
    interrupts and has no effect on this state. *)
From S2P Require Import Prelude Mem LibString Path Bitmap UnnamedFs.

Definition VFS_TYPE_FILE : Z := 1.
Definition VFS_TYPE_DIR : Z := 2.
Definition VFS_MODE_READ : Z := 0x01.
Definition VFS_MODE_WRITE : Z := 0x02.
Definition VFS_SEEK_SET : Z := 0.
Definition VFS_MAX_FILES : Z := 64.
Definition VFS_MAX_PATH : Z := 256.
Definition VFS_MAX_NAME : Z := 64.
Definition VFS_MAX_FS_TYPES : Z := 8.
Definition DENTRY_CACHE_SIZE : nat := 32.
Definition RAM_DISK_SIZE : Z := 65536.

Record vnode := mk_vnode { v_id : Z; v_type : Z; v_refcount : Z; v_data : Z; v_name : list Z }.
Record dentry := mk_dentry { d_path : list Z; d_node : option nat; d_hash : Z; d_lru : Z; d_valid : bool }.
Record readdir_cache := mk_rdcache { rd_dir : option nat; child_inos : list Z; rd_valid : bool }.
Record vfile := mk_vfile { vf_node : option nat; vf_offset : Z; vf_mode : Z; vf_fd : Z }.

#[export] Instance vnode_inhabited : Inhabited vnode := populate (mk_vnode 0 0 0 0 []).
#[export] Instance dentry_inhabited : Inhabited dentry := populate (mk_dentry [] None 0 0 false).
#[export] Instance vfile_inhabited : Inhabited vfile := populate (mk_vfile None 0 0 0).

(** [ram_disk], [unnamedfs_mnt], [nodes], the caches, the descriptor table and
    [root_mount.root]. *)
Record vfs := mk_vfs {
  fs : ufs; ram_disk : Z; unnamedfs_mnt : mount; nodes : list vnode; nodes_initialized : bool;
  dcache : list dentry; dcache_tick : Z; rdcache : readdir_cache;
  file_table : list vfile; fd_used : list bool; root : option nat; num_mounts : Z; num_fs_types : Z
}.
Definition with_fs (f : ufs) (s : vfs) : vfs :=
  mk_vfs f (ram_disk s) (unnamedfs_mnt s) (nodes s) (nodes_initialized s) (dcache s) (dcache_tick s) (rdcache s)
    (file_table s) (fd_used s) (root s) (num_mounts s) (num_fs_types s).
Definition with_nodes (ns : list vnode) (s : vfs) : vfs :=
  mk_vfs (fs s) (ram_disk s) (unnamedfs_mnt s) ns true (dcache s) (dcache_tick s) (rdcache s)
    (file_table s) (fd_used s) (root s) (num_mounts s) (num_fs_types s).
Definition with_dcache (dc : list dentry) (t : Z) (s : vfs) : vfs :=
  mk_vfs (fs s) (ram_disk s) (unnamedfs_mnt s) (nodes s) (nodes_initialized s) dc t (rdcache s)
    (file_table s) (fd_used s) (root s) (num_mounts s) (num_fs_types s).
Definition with_rdcache (rd : readdir_cache) (s : vfs) : vfs :=
  mk_vfs (fs s) (ram_disk s) (unnamedfs_mnt s) (nodes s) (nodes_initialized s) (dcache s) (dcache_tick s) rd
    (file_table s) (fd_used s) (root s) (num_mounts s) (num_fs_types s).
Definition with_files (ft : list vfile) (fu : list bool) (s : vfs) : vfs :=
  mk_vfs (fs s) (ram_disk s) (unnamedfs_mnt s) (nodes s) (nodes_initialized s) (dcache s) (dcache_tick s) (rdcache s)
    ft fu (root s) (num_mounts s) (num_fs_types s).
Definition with_root (mnt : mount) (r : option nat) (n : Z) (s : vfs) : vfs :=
  mk_vfs (fs s) (ram_disk s) mnt (nodes s) (nodes_initialized s) (dcache s) (dcache_tick s) (rdcache s)
    (file_table s) (fd_used s) r n (num_fs_types s).
Definition with_fs_types (n : Z) (s : vfs) : vfs :=
  mk_vfs (fs s) (ram_disk s) (unnamedfs_mnt s) (nodes s) (nodes_initialized s) (dcache s) (dcache_tick s) (rdcache s)
    (file_table s) (fd_used s) (root s) (num_mounts s) n.

Definition dmem (s : vfs) : mem := u_mem (fs s).
Definition with_dmem (m : mem) (s : vfs) : vfs := with_fs (with_mem m (fs s)) s.
Definition node (s : vfs) (i : nat) : vnode := nodes s !!! i.
(** [&unnamedfs_mnt.inodes[i]] and [unnamedfs_mnt.sb->inode_count]. *)
Definition vinode (s : vfs) (i : Z) : Z := inode_at (unnamedfs_mnt s) i.
Definition vcount (s : vfs) : Z := sb_inode_count (dmem s) (device (unnamedfs_mnt s)).
Definition vfree (s : vfs) : Z := sb_free_blocks (dmem s) (device (unnamedfs_mnt s)).
Definition vtotal (s : vfs) : Z := sb_total_blocks (dmem s) (device (unnamedfs_mnt s)).
Definition vscan (s : vfs) (p : Z -> bool) : option Z :=
  Z.of_nat <$> find_from (fun i => p (vinode s (Z.of_nat i))) 0 (Z.to_nat (vcount s)).

(** ** The dentry cache *)

Fixpoint hash_loop (p : list Z) (h : Z) : Z :=
  match p with [] => h | c :: p' => hash_loop p' (Z.lxor (u32 (u32 (Z.shiftl h 5) + h)) c) end.
Definition hash_path (p : list Z) : Z := hash_loop p 5381.

Definition invalidate_rd (s : vfs) : vfs := with_rdcache (mk_rdcache (rd_dir (rdcache s)) (child_inos (rdcache s)) false) s.
Definition drop_entry (e : dentry) : dentry := mk_dentry (d_path e) (d_node e) (d_hash e) (d_lru e) false.

Definition dcache_init (s : vfs) : vfs := invalidate_rd (with_dcache (map drop_entry (dcache s)) 1 s).

Definition entry_hits (path : list Z) (e : dentry) : bool :=
  d_valid e && (d_hash e =? hash_path path) && bool_decide (d_path e = path).

Definition dcache_lookup (path : list Z) (s : vfs) : option nat * vfs :=
  match find_from (fun i => entry_hits path (dcache s !!! i)) 0 DENTRY_CACHE_SIZE with
  | Some i =>
      let e := dcache s !!! i in
      (d_node e, with_dcache (<[i := mk_dentry (d_path e) (d_node e) (d_hash e) (dcache_tick s) true]> (dcache s))
                   (u64 (dcache_tick s + 1)) s)
  | None => (None, s)
  end.

(** The first free slot, or else the least recently used one. *)
Fixpoint choose_victim (i : nat) (es : list dentry) (victim : option nat) (oldest : Z) : option nat :=
  match es with
  | [] => victim
  | e :: es' =>
      if negb (d_valid e) then Some i
      else if d_lru e <? oldest then choose_victim (S i) es' (Some i) (d_lru e)
      else choose_victim (S i) es' victim oldest
  end.

Definition dcache_insert (path : list Z) (n : option nat) (s : vfs) : vfs :=
  match n with
  | None => s
  | Some _ =>
      let victim := default 0%nat (choose_victim 0 (dcache s) None (2 ^ 64 - 1)) in
      let e := mk_dentry (take 255 path) n (hash_path path) (dcache_tick s) true in
      with_dcache (<[victim := e]> (dcache s)) (u64 (dcache_tick s + 1)) s
  end.

(** [d_path] has [path] as a prefix that ends at a slash or at the end. *)
Definition under (path : list Z) (e : dentry) : bool :=
  bool_decide (take (length path) (d_path e) = path) &&
  match drop (length path) (d_path e) with [] => true | c :: _ => c =? SLASH end.

Definition dcache_flush (s : vfs) : vfs := invalidate_rd (with_dcache (map drop_entry (dcache s)) (dcache_tick s) s).

Definition dcache_invalidate (path : list Z) (s : vfs) : vfs :=
  let dc := map (fun e => if entry_hits path e then drop_entry e else e) (dcache s) in
  let dc := map (fun e => if d_valid e && under path e then drop_entry e else e) dc in
  let s1 := with_dcache dc (dcache_tick s) s in
  if rd_valid (rdcache s1) && bool_decide (rd_dir (rdcache s1) <> None) then invalidate_rd s1 else s1.

Definition dcache_invalidate_node (n : option nat) (s : vfs) : vfs :=
  match n with
  | None => s
  | Some _ =>
      let dc := map (fun e => if d_valid e && bool_decide (d_node e = n) then drop_entry e else e) (dcache s) in
      let s1 := with_dcache dc (dcache_tick s) s in
      if rd_valid (rdcache s1) && bool_decide (rd_dir (rdcache s1) = n) then invalidate_rd s1 else s1
  end.

(** ** Nodes *)

(** The string at [a], at most [n] characters of it. *)
Fixpoint get_str (n : nat) (m : mem) (a : Z) : list Z :=
  match n with O => [] | S n' => if peek m a =? 0 then [] else peek m a :: get_str n' m (a + 1) end.

Definition inode_to_vnode (a : Z) (s : vfs) : option nat * vfs :=
  let s := if nodes_initialized s then s
           else with_nodes (map (fun i => mk_vnode (Z.of_nat i) (v_type (node s i)) 0 0 []) (seq 0 256)) s in
  if UNAMEDFS_MAX_FILES <=? i_ino (dmem s) a then (None, s) else
  let i := Z.to_nat (i_ino (dmem s) a) in
  let n := mk_vnode (i_ino (dmem s) a) (if is_dir (dmem s) a then VFS_TYPE_DIR else VFS_TYPE_FILE)
             (v_refcount (node s i)) a (get_str 63 (dmem s) (i_name a)) in
  (Some i, with_nodes (<[i := n]> (nodes s)) s).

(** ** UnnamedFS node operations *)

Definition unnamedfs_vop_lookup (dir : nat) (name : list Z) (s : vfs) : Z * option nat * vfs :=
  let d := node s dir in
  if negb (v_type d =? VFS_TYPE_DIR) then (-1, None, s) else
  if v_data d =? 0 then (-1, None, s) else
  if device (unnamedfs_mnt s) =? 0 then (-1, None, s) else
  if bool_decide (name = [DOT; DOT]) || bool_decide (name = [DOT]) then (0, Some dir, s) else
  match vscan s (named (dmem s) name (i_ino (dmem s) (v_data d))) with
  | Some i => let '(n, s1) := inode_to_vnode (vinode s i) s in (0, n, s1)
  | None => (-1, None, s)
  end.

Definition vfs_lookup_component (dir : option nat) (name : list Z) (s : vfs) : Z * option nat * vfs :=
  match dir with
  | None => (-1, None, s)
  | Some d =>
      if bool_decide (name = [DOT]) then (0, Some d, s) else
      if bool_decide (name = [DOT; DOT]) then
        let a := v_data (node s d) in
        if negb (a =? 0) then
          if i_ino (dmem s) a =? 0 then (0, Some d, s) else
          match vscan s (fun c => i_ino (dmem s) c =? i_parent (dmem s) a) with
          | Some i => let '(n, s1) := inode_to_vnode (vinode s i) s in (0, n, s1)
          | None => (0, root s, s)
          end
        else (0, root s, s)
      else unnamedfs_vop_lookup d name s
  end.

(** The walk of [vfs_lookup]; [cur] is the component read so far, last
    character first.  A component of 64 characters fails. *)
Fixpoint lookup_walk (p cur : list Z) (n : option nat) (s : vfs) : Z * option nat * vfs :=
  match p with
  | [] => match cur with
          | [] => (0, n, s)
          | _ => let '(r, n1, s1) := vfs_lookup_component n (rev cur) s in
                 if r =? 0 then (0, n1, s1) else (-1, None, s1)
          end
  | c :: p' =>
      if c =? SLASH then
        match cur with
        | [] => lookup_walk p' [] n s
        | _ => let '(r, n1, s1) := vfs_lookup_component n (rev cur) s in
               if r =? 0 then lookup_walk p' [] n1 s1 else (-1, None, s1)
        end
      else if (length cur <? 63)%nat then lookup_walk p' (c :: cur) n s else (-1, None, s)
  end.

Definition vfs_lookup (path : list Z) (s : vfs) : Z * option nat * vfs :=
  match path with
  | [] => (-1, None, s)
  | _ =>
      let norm := path_normalize path VFS_MAX_PATH in
      match dcache_lookup norm s with
      | (Some n, s1) => (0, Some n, s1)
      | (None, s1) =>
          if forallb (Z.eqb SLASH) path then (0, root s1, dcache_insert norm (root s1) s1) else
          let '(r, n, s2) := lookup_walk path [] (root s1) s1 in
          if r =? 0 then (0, n, dcache_insert norm n s2) else (-1, None, s2)
      end
  end.

(** [unnamedfs_vop_open] and [unnamedfs_vop_close] on a descriptor entry. *)
Definition unnamedfs_vop_open (n : nat) (f : vfile) (s : vfs) : Z * vfile :=
  if v_data (node s n) =? 0 then (-1, f) else (0, mk_vfile (Some n) 0 (vf_mode f) (vf_fd f)).
Definition unnamedfs_vop_close (f : vfile) : vfile := mk_vfile None 0 (vf_mode f) (vf_fd f).

Definition set_file (fd : Z) (f : vfile) (s : vfs) : vfs := with_files (<[Z.to_nat fd := f]> (file_table s)) (fd_used s) s.
Definition set_vf_offset (off : Z) (f : vfile) : vfile := mk_vfile (vf_node f) (u32 off) (vf_mode f) (vf_fd f).

(** Reads through node [n], for the descriptor [fd] with entry [f]. *)
Definition unnamedfs_vop_read (fd : Z) (f : vfile) (n : nat) (buf count offset : Z) (s : vfs) : Z * vfs :=
  if buf =? 0 then (-1, s) else
  let m := dmem s in
  let a := v_data (node s n) in
  if (a =? 0) || is_dir m a then (-1, s) else
  if i_size m a <=? offset then (0, s) else
  let count := if i_size m a - offset <? count then i_size m a - offset else count in
  if i_blocks m a =? 0 then (0, s) else
  let avail := u32 (i_blocks m a * UNAMEDFS_BLOCK_SIZE) in
  if avail <=? offset then (0, s) else
  let count := if avail <? u32 (offset + count) then avail - offset else count in
  let data := block_addr (unnamedfs_mnt s) (i_first_block m a) in
  let s1 := with_dmem (snd (lib_memcpy m buf (u32 (data + offset)) count)) s in
  (i32 count, set_file fd (set_vf_offset (offset + count) f) s1).

(** [used]: the blocks below 64 that some live inode claims, and 0 and 1. *)
Definition block_used (s : vfs) (b : Z) : bool :=
  (b =? 0) || (b =? 1) ||
  existsb (fun i => let a := vinode s (Z.of_nat i) in
    negb ((i_flags (dmem s) a =? 0) || (i_blocks (dmem s) a =? 0)) &&
    (u32 (b - i_first_block (dmem s) a) <? i_blocks (dmem s) a)) (seq 0 (Z.to_nat (vcount s))).

(** No block of [s0, s0 + n) below 64 is used. *)
Definition run_free (s : vfs) (s0 n : Z) : bool :=
  match find_from (fun k => (i32 (s0 + Z.of_nat k) <? 64) && block_used s (s0 + Z.of_nat k)) 0 (Z.to_nat n) with
  | Some _ => false | None => true end.

(** [for (s = 2; s + need <= total; s++)]: the first run, or -1. *)
Definition find_run (s : vfs) (need : Z) : Z :=
  match find_from (fun k => run_free s (Z.of_nat k) need) 2 (Z.to_nat (i32 (vtotal s) - i32 need - 1)) with
  | Some k => Z.of_nat k | None => -1 end.

Definition blocks_up (n : Z) : Z := u32 (n + UNAMEDFS_BLOCK_SIZE - 1) / UNAMEDFS_BLOCK_SIZE.

(** What the free blocks can hold after [offset]. *)
Definition truncated (s : vfs) (cap offset : Z) : option Z :=
  let max_can := u32 (cap + u32 (vfree s * UNAMEDFS_BLOCK_SIZE)) in
  if max_can <=? offset then None else Some (max_can - offset).

Definition claim_blocks (first : option Z) (need extra a : Z) (s : vfs) : vfs :=
  let m := match first with Some f => store32 (dmem s) (a + 16) (u32 f) | None => dmem s end in
  let m := store32 m (a + 20) (u32 need) in
  let dev := device (unnamedfs_mnt s) in
  with_dmem (store32 m (dev + 12) (u32 (load32 m (dev + 12) - extra))) s.

(** Growth of an empty file; the new count, or [None] when the write fails. *)
Definition vgrow_empty (a offset count need extra cap : Z) (s : vfs) : option (Z * vfs) :=
  let found := find_run s need in
  if 0 <=? found then Some (count, claim_blocks (Some found) need extra a s) else
  count ← truncated s cap offset;
  let need := blocks_up (u32 (offset + count)) in
  if need =? 0 then None else
  let found := find_run s need in
  if found <? 0 then None else Some (count, claim_blocks (Some found) need extra a s).

Definition vmove (a found need extra : Z) (s : vfs) : vfs :=
  let m := dmem s in
  let old := block_addr (unnamedfs_mnt s) (i_first_block m a) in
  let nw := block_addr (unnamedfs_mnt s) found in
  claim_blocks (Some found) need extra a (with_dmem (snd (lib_memcpy m nw old (i_size m a))) s).

Definition vgrow_more (a offset count need cur cap : Z) (s : vfs) : option (Z * vfs) :=
  let extra := need - cur in
  let nxt := i32 (i32 (i_first_block (dmem s) a) + i32 cur) in
  if run_free s nxt extra then Some (count, claim_blocks None need extra a s) else
  let found := find_run s need in
  if 0 <=? found then Some (count, vmove a found need extra s) else
  count ← truncated s cap offset;
  let need := blocks_up (u32 (offset + count)) in
  let extra := u32 (need - cur) in
  let found := find_run s need in
  if found <? 0 then None else Some (count, vmove a found need extra s).

(** The allocation part of [unnamedfs_vop_write]. *)
Definition vgrow (a offset count : Z) (s : vfs) : option (Z * vfs) :=
  let new_end := u32 (offset + count) in
  let cur := i_blocks (dmem s) a in
  let cap := u32 (cur * UNAMEDFS_BLOCK_SIZE) in
  if new_end <=? cap then Some (count, s) else
  let need0 := blocks_up new_end in
  let need := if UNAMEDFS_MAX_FILES <? need0 then UNAMEDFS_MAX_FILES else need0 in
  let extra := if cur <? need then need - cur else 0 in
  if vfree s <? extra then count ← truncated s cap offset; Some (count, s)
  else if cur <? need0 then
    if cur =? 0 then vgrow_empty a offset count need0 (need0 - cur) cap s
    else vgrow_more a offset count need0 cur cap s
  else Some (count, s).

Definition unnamedfs_vop_write (fd : Z) (f : vfile) (n : nat) (buf count offset : Z) (s : vfs) : Z * vfs :=
  if buf =? 0 then (-1, s) else
  let a := v_data (node s n) in
  if (a =? 0) || is_dir (dmem s) a then (-1, s) else
  match vgrow a offset count s with
  | None => (-1, s)
  | Some (count, s1) =>
      let cap := u32 (i_blocks (dmem s1) a * UNAMEDFS_BLOCK_SIZE) in
      if (cap <? u32 (offset + count)) && (cap <=? offset) then (-1, s1) else
      let count := if cap <? u32 (offset + count) then cap - offset else count in
      let data := block_addr (unnamedfs_mnt s1) (i_first_block (dmem s1) a) in
      let m := snd (lib_memcpy (dmem s1) (u32 (data + offset)) buf count) in
      let m := if i_size m a <? u32 (offset + count) then store32 m (a + 4) (u32 (offset + count)) else m in
      (i32 count, set_file fd (set_vf_offset (offset + count) f) (with_dmem m s1))
  end.

(** Live inodes whose parent is [ino], in table order. *)
Definition children (s : vfs) (ino : Z) : list Z :=
  map Z.of_nat (List.filter (fun i => let a := vinode s (Z.of_nat i) in
    negb (i_flags (dmem s) a =? 0) && (i_parent (dmem s) a =? ino)) (seq 0 (Z.to_nat (vcount s)))).

Definition inode_name (s : vfs) (i size : Z) : list Z := get_str (Z.to_nat (size - 1)) (dmem s) (i_name (vinode s i)).

(** The k-th child by linear scan, for small directories. *)
Fixpoint scan_child (n : nat) (i : nat) (ino found index : Z) (s : vfs) : option Z :=
  match n with
  | O => None
  | S n' =>
      let a := vinode s (Z.of_nat i) in
      if negb (i_flags (dmem s) a =? 0) && (i_parent (dmem s) a =? ino) then
        if found =? index then Some (Z.of_nat i) else scan_child n' (S i) ino (u32 (found + 1)) index s
      else scan_child n' (S i) ino found index s
  end.

(** Returns the code, the name written to the buffer of [size] bytes, the state. *)
Definition unnamedfs_vop_readdir (dir : nat) (size index : Z) (s : vfs) : Z * option (list Z) * vfs :=
  let d := node s dir in
  if negb (v_type d =? VFS_TYPE_DIR) then (-1, None, s) else
  let a := v_data d in
  if (device (unnamedfs_mnt s) =? 0) || (a =? 0) then (-1, None, s) else
  if rd_valid (rdcache s) && bool_decide (rd_dir (rdcache s) = Some dir) then
    match child_inos (rdcache s) !! Z.to_nat index with
    | None => (-1, None, s)
    | Some i =>
        if vcount s <=? i then (-1, None, s) else
        if i_flags (dmem s) (vinode s i) =? 0 then (-1, None, s) else (0, Some (inode_name s i size), s)
    end
  else
    let ino := i_ino (dmem s) a in
    let cs := children s ino in
    if (8 <? length cs)%nat then
      let s1 := with_rdcache (mk_rdcache (Some dir) (take 256 cs) true) s in
      match take 256 cs !! Z.to_nat index with
      | None => (-1, None, s1)
      | Some i => (0, Some (inode_name s1 i size), s1)
      end
    else
      match scan_child (Z.to_nat (vcount s)) 0 ino 0 index s with
      | Some i => (0, Some (inode_name s i size), s)
      | None => (-1, None, s)
      end.

Record vstat := mk_vstat { st_mode : Z; st_type : Z; st_size : Z; st_blocks : Z }.

Definition unnamedfs_vop_stat (n : nat) (s : vfs) : Z * option vstat :=
  let a := v_data (node s n) in
  if a =? 0 then (-1, None) else
  (0, Some (mk_vstat (Z.lor 1 2) (v_type (node s n)) (i_size (dmem s) a) (i_blocks (dmem s) a))).

(** The new inode that [vop_create] and [vop_mkdir] write at index [i]. *)
Definition put_inode (i flags parent : Z) (name : list Z) (s : vfs) : vfs :=
  with_dmem (init_inode i parent flags name (vinode s i) (dmem s)) s.
Definition bump_count (s : vfs) : vfs :=
  with_dmem (set_inode_count (vcount s + 1) (device (unnamedfs_mnt s)) (dmem s)) s.
Definition free_slot (s : vfs) : option Z := vscan s (fun a => i_flags (dmem s) a =? 0).

(** The guards shared by [vop_create] and [vop_mkdir]; the inode of [dir]. *)
Definition may_add (dir : nat) (name : list Z) (s : vfs) : option Z * vfs :=
  let d := node s dir in
  if negb (v_type d =? VFS_TYPE_DIR) then (None, s) else
  if UNAMEDFS_FILENAME_LEN <=? Z.of_nat (length name) then (None, s) else
  if v_data d =? 0 then (None, s) else
  let '(r, _, s1) := unnamedfs_vop_lookup dir name s in
  if r =? 0 then (None, s1) else (Some (v_data d), s1).

Definition unnamedfs_vop_create (dir : nat) (name : list Z) (s : vfs) : Z * vfs :=
  match may_add dir name s with
  | (None, s1) => (-1, s1)
  | (Some a, s1) =>
      if UNAMEDFS_MAX_FILES <=? vcount s1 then
        match free_slot s1 with
        | None => (-1, s1)
        | Some i => (0, dcache_flush (put_inode i 1 (i_ino (dmem s1) a) name s1))
        end
      else
        let s2 := put_inode (vcount s1) 1 (i_ino (dmem s1) a) name s1 in
        (0, dcache_flush (bump_count s2))
  end.

Definition unnamedfs_vop_mkdir (dir : nat) (name : list Z) (s : vfs) : Z * vfs :=
  match may_add dir name s with
  | (None, s1) => (-1, s1)
  | (Some a, s1) =>
      match free_slot s1 with
      | Some i => (0, dcache_flush (put_inode i 2 (i_ino (dmem s1) a) name s1))
      | None =>
          if UNAMEDFS_MAX_FILES <=? vcount s1 then (-1, s1) else
          let s2 := put_inode (vcount s1) 2 (i_ino (dmem s1) a) name s1 in
          (0, dcache_flush (bump_count s2))
      end
  end.

(** The names from [target] upwards, at most eight, outermost first. *)
Fixpoint name_stack (depth : nat) (cur : Z) (s : vfs) : list (list Z) :=
  match depth with
  | O => []
  | S d =>
      if cur =? 0 then [] else
      let nm := get_str 63 (dmem s) (i_name (vinode s cur)) in
      let up := i32 (i_parent (dmem s) (vinode s cur)) in
      if (up <? 0) || (i32 (vcount s) <=? up) then [nm] else name_stack d up s ++ [nm]
  end.
(** [tmp_path]; the 256-byte buffer is not bounded by the code either. *)
Definition join_path (names : list (list Z)) : list Z :=
  fold_left (fun p nm => match p with [_] => p ++ nm | _ => p ++ [SLASH] ++ nm end) names [SLASH].

Definition unnamedfs_vop_unlink (dir : nat) (name : list Z) (s : vfs) : Z * vfs :=
  let d := node s dir in
  if negb (v_type d =? VFS_TYPE_DIR) then (-1, s) else
  if v_data d =? 0 then (-1, s) else
  match vscan s (named (dmem s) name (i_ino (dmem s) (v_data d))) with
  | None => (-1, s)
  | Some target =>
      let t := vinode s target in
      let occupied := is_dir (dmem s) t &&
        bool_decide (vscan s (fun c => negb (i_flags (dmem s) c =? 0) && (i_parent (dmem s) c =? i_ino (dmem s) t)) <> None) in
      if occupied then (-1, s) else
      let path := join_path (name_stack 8 target s) in
      let '(rc, u) := if is_dir (dmem s) t then unamedfs_rmdir path (fs s) else unamedfs_unlink path (fs s) in
      let s1 := with_fs u s in
      if rc =? 0 then
        let s2 := dcache_invalidate path s1 in
        let '(n, s3) := inode_to_vnode t s2 in
        (rc, invalidate_rd (dcache_invalidate_node n s3))
      else (rc, s1)
  end.

(** ** The VFS interface *)

Definition path_bin : list Z := [47; 98; 105; 110].
Definition path_etc : list Z := [47; 101; 116; 99].
Definition path_home : list Z := [47; 104; 111; 109; 101].
Definition path_tmp : list Z := [47; 116; 109; 112].

Definition mkdir_on (p : list Z) (s : vfs) : vfs :=
  with_fs (snd (unamedfs_mkdir (Some (unnamedfs_mnt s)) p (fs s))) s.

Definition vfs_init (s : vfs) : Z * vfs :=
  let ft := map (fun f => mk_vfile None 0 (vf_mode f) (vf_fd f)) (file_table s) in
  let s := with_fs_types 0 (with_root (unnamedfs_mnt s) (root s) 0 (with_files ft (replicate 64 false) s)) in
  let s := dcache_init s in
  let s := with_dmem (snd (unamedfs_format (ram_disk s) RAM_DISK_SIZE (dmem s))) s in
  let '(_, mnt, u) := unamedfs_mount (Some (unnamedfs_mnt s)) (ram_disk s) RAM_DISK_SIZE (fs s) in
  let s := with_root (default (unnamedfs_mnt s) mnt) (root s) 0 (with_fs u s) in
  let '(r, s) := inode_to_vnode (vinode s 0) s in
  let s := with_root (unnamedfs_mnt s) r 1 s in
  (0, mkdir_on path_tmp (mkdir_on path_home (mkdir_on path_etc (mkdir_on path_bin s)))).

Definition vfs_register_fs (name_given ops_given : bool) (s : vfs) : Z * vfs :=
  if negb (name_given && ops_given) then (-1, s) else
  if VFS_MAX_FS_TYPES <=? num_fs_types s then (-1, s) else (0, with_fs_types (num_fs_types s + 1) s).

Definition incr_refcount (n : nat) (s : vfs) : vfs :=
  let v := node s n in
  with_nodes (<[n := mk_vnode (v_id v) (v_type v) (u32 (v_refcount v + 1)) (v_data v) (v_name v)]> (nodes s)) s.

Definition vfs_open (path : list Z) (mode : Z) (s : vfs) : option (Z * vfs) :=
  let '(r, n, s1) := vfs_lookup path s in
  if negb (r =? 0) then Some (-1, s1) else
  match find_from (fun i => negb (fd_used s1 !!! i)) 0 64 with
  | None => Some (-1, s1)
  | Some i =>
      n ← n;
      let f := mk_vfile (Some n) 0 mode (Z.of_nat i) in
      let '(rc, f1) := unnamedfs_vop_open n f s1 in
      let s2 := set_file (Z.of_nat i) f1 s1 in
      if negb (rc =? 0) then Some (-1, s2) else
      Some (Z.of_nat i, incr_refcount n (with_files (file_table s2) (<[i := true]> (fd_used s2)) s2))
  end.

(** The entry of a descriptor in use. *)
Definition vget_fd (s : vfs) (fd : Z) : option vfile :=
  if (fd <? 0) || (VFS_MAX_FILES <=? fd) then None else
  if (fd_used s !!! Z.to_nat fd : bool) then Some (file_table s !!! Z.to_nat fd) else None.

(** [close] resets [file->node], so the reference count that is decremented
    afterwards, if the node is still set, is not. *)
Definition vfs_close (fd : Z) (s : vfs) : Z * vfs :=
  match vget_fd s fd with
  | None => (-1, s)
  | Some f =>
      let f1 := match vf_node f with Some _ => unnamedfs_vop_close f | None => f end in
      let f2 := mk_vfile None (vf_offset f1) (vf_mode f1) (vf_fd f1) in
      (0, with_files (<[Z.to_nat fd := f2]> (file_table s)) (<[Z.to_nat fd := false]> (fd_used s)) s)
  end.

Definition vfs_read (fd buf count : Z) (s : vfs) : Z * vfs :=
  match vget_fd s fd with
  | None => (-1, s)
  | Some f => match vf_node f with
              | None => (-1, s)
              | Some n => unnamedfs_vop_read fd f n buf count (vf_offset f) s
              end
  end.

Definition vfs_write (fd buf count : Z) (s : vfs) : Z * vfs :=
  match vget_fd s fd with
  | None => (-1, s)
  | Some f => match vf_node f with
              | None => (-1, s)
              | Some n => let '(r, s1) := unnamedfs_vop_write fd f n buf count (vf_offset f) s in
                          (r, if 0 <? r then invalidate_rd s1 else s1)
              end
  end.

Definition vfs_lseek (fd offset whence : Z) (s : vfs) : option (Z * vfs) :=
  match vget_fd s fd with
  | None => Some (-1, s)
  | Some f =>
      let seek nxt := if nxt <? 0 then Some (-1, s) else Some (nxt, set_file fd (set_vf_offset nxt f) s) in
      if whence =? 0 then seek offset
      else if whence =? 1 then seek (i32 (i32 (vf_offset f) + offset))
      else if whence =? 2 then
        n ← vf_node f;
        match unnamedfs_vop_stat n s with
        | (_, Some st) => seek (i32 (i32 (st_size st) + offset))
        | (_, None) => Some (-1, s)
        end
      else Some (-1, s)
  end.

Definition vfs_readdir (fd size : Z) (s : vfs) : Z * option (list Z) * vfs :=
  if (fd <? 0) || (VFS_MAX_FILES <=? fd) || (size =? 0) then (-1, None, s) else
  match vget_fd s fd with
  | None => (-1, None, s)
  | Some f =>
      match vf_node f with
      | None => (-1, None, s)
      | Some n =>
          if negb (v_type (node s n) =? VFS_TYPE_DIR) then (-1, None, s) else
          let '(r, nm, s1) := unnamedfs_vop_readdir n size (vf_offset f) s in
          (r, nm, if r =? 0 then set_file fd (set_vf_offset (vf_offset f + 1) f) s1 else s1)
      end
  end.

Definition vfs_stat (path : list Z) (s : vfs) : option (Z * option vstat * vfs) :=
  let '(r, n, s1) := vfs_lookup path s in
  if negb (r =? 0) then Some (-1, None, s1) else
  n ← n; let '(rc, st) := unnamedfs_vop_stat n s1 in Some (rc, st, s1).

Definition vfs_fstat (fd : Z) (s : vfs) : Z * option vstat :=
  match vget_fd s fd with
  | None => (-1, None)
  | Some f => match vf_node f with None => (-1, None) | Some n => unnamedfs_vop_stat n s end
  end.

(** The text before the last slash and the name after it. *)
Definition split_parent (tmp : list Z) : list Z * list Z :=
  let '(nm, rest) := span (rev tmp) in
  match rest with
  | [] => ([SLASH], tmp)
  | _ :: [] => ([SLASH], rev nm)
  | _ :: before => (rev before, rev nm)
  end.

Definition vfs_mkdir (path : list Z) (s : vfs) : option (Z * vfs) :=
  if bool_decide (path = []) then Some (-1, s) else
  if VFS_MAX_PATH <=? Z.of_nat (length path) then Some (-1, s) else
  let '(parent_path, name) := split_parent (rev (drop_slashes (rev path))) in
  if bool_decide (name = []) then Some (-1, s) else
  if VFS_MAX_NAME <=? Z.of_nat (length name) then Some (-1, s) else
  let '(r, parent, s1) := vfs_lookup parent_path s in
  if negb (r =? 0) then Some (-1, s1) else
  p ← parent;
  if negb (v_type (node s1 p) =? VFS_TYPE_DIR) then Some (-1, s1) else
  let '(r2, _, s2) := vfs_lookup path s1 in
  if r2 =? 0 then Some (-1, s2) else
  let '(rc, s3) := unnamedfs_vop_mkdir p name s2 in
  Some (rc, if rc =? 0 then invalidate_rd (dcache_invalidate (path_normalize path VFS_MAX_PATH) s3) else s3).

(** The end of [vfs_unlink] and [vfs_rmdir], for the node [target]. *)
Definition remove_name (norm name : list Z) (parent target : nat) (s : vfs) : Z * vfs :=
  let '(rc, s1) := unnamedfs_vop_unlink parent name s in
  (rc, if rc =? 0 then invalidate_rd (dcache_invalidate_node (Some target) (dcache_invalidate norm s1)) else s1).

Definition vfs_unlink (path : list Z) (s : vfs) : option (Z * vfs) :=
  if bool_decide (path = []) then Some (-1, s) else
  let norm := path_normalize path VFS_MAX_PATH in
  let '(r, target, s1) := vfs_lookup norm s in
  if negb (r =? 0) then Some (-1, s1) else
  t ← target;
  if v_type (node s1 t) =? VFS_TYPE_DIR then Some (-1, s1) else
  let '(parent_path, name) := split_parent norm in
  let '(r2, parent, s2) := vfs_lookup parent_path s1 in
  if negb (r2 =? 0) then Some (-1, s2) else
  p ← parent;
  Some (remove_name norm (take 63 name) p t s2).

Definition vfs_rmdir (path : list Z) (s : vfs) : option (Z * vfs) :=
  if bool_decide (path = []) then Some (-1, s) else
  let norm := path_normalize path VFS_MAX_PATH in
  if bool_decide (norm = [SLASH]) then Some (-1, s) else
  let '(r, target, s1) := vfs_lookup norm s in
  if negb (r =? 0) then Some (-1, s1) else
  t ← target;
  if negb (v_type (node s1 t) =? VFS_TYPE_DIR) then Some (-1, s1) else
  let '(parent_path, name) := split_parent norm in
  let '(r2, parent, s2) := vfs_lookup parent_path s1 in
  if negb (r2 =? 0) then Some (-1, s2) else
  p ← parent;
  let '(rd, _, s3) := unnamedfs_vop_readdir t VFS_MAX_NAME 0 s2 in
  if rd =? 0 then Some (-1, s3) else Some (remove_name norm (take 63 name) p t s3).

(** Mounting is not implemented in the code: both calls fail. *)
Definition vfs_mount (s : vfs) : Z * vfs := (-1, s).
Definition vfs_unmount (s : vfs) : Z * vfs := (-1, s).

Fixpoint close_all (n : nat) (i : Z) (s : vfs) : vfs :=
  match n with
  | O => s
  | S n' => close_all n' (i + 1) (if (fd_used s !!! Z.to_nat i : bool) then snd (vfs_close i s) else s)
  end.
Definition vfs_shutdown (s : vfs) : Z * vfs :=
  let s1 := close_all 64 0 s in
  (0, dcache_init (with_root (unnamedfs_mnt s1) (root s1) 0 s1)).

(** ** The process context *)

(** [files] is always NULL. *)
Record vfs_context := mk_context { num_files : Z; cx_cwd : option nat; cx_root : option nat }.
(** The static variables [global_context] and [context_initialized]. *)
Record contexts := mk_contexts { global_context : vfs_context; context_initialized : bool }.
Definition vfs_context_init (s : vfs) (ctx : option vfs_context) : Z * option vfs_context :=
  match ctx with None => (-1, None) | Some _ => (0, Some (mk_context 0 (root s) (root s))) end.
Definition vfs_context_destroy (ctx : option vfs_context) : Z * option vfs_context := (0, ctx).
Definition vfs_get_current_context (s : vfs) (c : contexts) : contexts :=
  if context_initialized c then c else
  mk_contexts (default (global_context c) (snd (vfs_context_init s (Some (global_context c))))) true.
(** What [vfs_shutdown] does to them. *)
Definition shutdown_contexts (c : contexts) : contexts := mk_contexts (global_context c) false.
