(* ===== verification/VfsCorrect.v ===== *)
(** * vfs.c: correctness of path lookup, of the caches and of readdir *)
From S2P Require Import Prelude Mem LibString Path Bitmap UnnamedFs Vfs.

(** ** Reference: resolving components in the inode table, without caches *)

Definition ref_component (s : vfs) (k : nat) (name : list Z) : option nat :=
  let m := dmem s in
  let a := vinode s (Z.of_nat k) in
  if bool_decide (name = [DOT]) then Some k else
  if bool_decide (name = [DOT; DOT]) then
    if (k =? 0)%nat then Some 0%nat
    else Some (default 0%nat (Z.to_nat <$> vscan s (fun c => i_ino m c =? i_parent m a)))
  else if is_dir m a then Z.to_nat <$> vscan s (named m name (Z.of_nat k))
  else None.

Fixpoint ref_walk (s : vfs) (k : nat) (cs : list (list Z)) : option nat :=
  match cs with [] => Some k | c :: cs' => k1 ← ref_component s k c; ref_walk s k1 cs' end.

(** The table names its own indices, inode 0 is the root directory. *)
Record table_ok (s : vfs) : Prop := {
  to_device : device (unnamedfs_mnt s) <> 0;
  to_count : 1 <= vcount s <= 256;
  to_ino : forall i, 0 <= i < vcount s ->
    i_ino (dmem s) (vinode s i) = i \/ i_ino (dmem s) (vinode s i) = 0 /\ i_flags (dmem s) (vinode s i) = 0;
  to_root : i_ino (dmem s) (vinode s 0) = 0;
  to_nonnull : forall i, 0 <= i < vcount s -> vinode s i <> 0
}.

(** The node of inode [k] is up to date. *)
Definition fresh (s : vfs) (k : nat) : Prop :=
  Z.of_nat k < vcount s /\ i_ino (dmem s) (vinode s (Z.of_nat k)) = Z.of_nat k /\
  v_data (node s k) = vinode s (Z.of_nat k) /\
  v_type (node s k) = if is_dir (dmem s) (vinode s (Z.of_nat k)) then VFS_TYPE_DIR else VFS_TYPE_FILE.

(** The parts of the state a lookup does not change. *)
Record same_disk (s s' : vfs) : Prop := {
  sd_fs : fs s' = fs s;
  sd_mnt : unnamedfs_mnt s' = unnamedfs_mnt s;
  sd_root : root s' = root s
}.
#[export] Instance same_disk_refl : Reflexive same_disk.
Proof. by intros s. Qed.
#[export] Instance same_disk_trans : Transitive same_disk.
Proof. intros s1 s2 s3 [] []. split; congruence. Qed.

Lemma same_disk_vinode s s' i : same_disk s s' -> vinode s' i = vinode s i.
Proof. intros []. unfold vinode. by rewrite sd_mnt0. Qed.
Lemma same_disk_dmem s s' : same_disk s s' -> dmem s' = dmem s.
Proof. intros []. unfold dmem. by rewrite sd_fs0. Qed.
Lemma same_disk_count s s' : same_disk s s' -> vcount s' = vcount s.
Proof. intros H. unfold vcount. rewrite (same_disk_dmem _ _ H). by destruct H as [_ -> _]. Qed.
Lemma same_disk_vscan s s' p : same_disk s s' -> vscan s' p = vscan s p.
Proof.
  intros H. unfold vscan. rewrite (same_disk_count _ _ H). f_equal. unfold vinode. by destruct H as [_ -> _].
Qed.
Lemma same_disk_component s s' k c : same_disk s s' -> ref_component s' k c = ref_component s k c.
Proof.
  intros H. unfold ref_component. by rewrite !(same_disk_vscan _ _ _ H), (same_disk_dmem _ _ H), (same_disk_vinode _ _ _ H).
Qed.
Lemma same_disk_walk s s' k cs : same_disk s s' -> ref_walk s' k cs = ref_walk s k cs.
Proof.
  intros H. revert k; induction cs as [|c cs IH]; intros k; [done|]. cbn [ref_walk].
  rewrite (same_disk_component _ _ _ _ H). destruct (ref_component s k c); [apply IH|done].
Qed.
Lemma same_disk_table s s' : same_disk s s' -> table_ok s -> table_ok s'.
Proof.
  intros H []. pose proof (same_disk_count _ _ H) as Hc. pose proof (same_disk_dmem _ _ H) as Hm. split.
  - by destruct H as [_ -> _].
  - by rewrite Hc.
  - intros i. rewrite Hc, Hm, (same_disk_vinode _ _ _ H). apply to_ino0.
  - by rewrite Hm, (same_disk_vinode _ _ _ H).
  - intros i. rewrite Hc, (same_disk_vinode _ _ _ H). apply to_nonnull0.
Qed.

Lemma vscan_Some s p i : vscan s p = Some i ->
  0 <= i < vcount s /\ p (vinode s i) = true /\ forall j, 0 <= j < i -> p (vinode s j) = false.
Proof.
  unfold vscan. destruct (find_from _ _ _) as [k|] eqn:E; [|done]. intros [= <-].
  apply find_from_Some in E as (Hk & Hp & Hj). split_and!; [lia|lia|done|].
  intros j Hjk. specialize (Hj (Z.to_nat j) ltac:(lia)). by rewrite Z2Nat.id in Hj by lia.
Qed.

(** The state a lookup leaves: same disk, same caches, root and [k] fresh. *)
Record looked_up (s s' : vfs) (k : nat) : Prop := {
  lu_disk : same_disk s s';
  lu_len : length (nodes s') = 256%nat;
  lu_init : nodes_initialized s' = true;
  lu_dcache : dcache s' = dcache s;
  lu_tick : dcache_tick s' = dcache_tick s;
  lu_fresh : fresh s' k;
  lu_fresh0 : fresh s' 0
}.

Lemma inode_to_vnode_fresh s i :
  table_ok s -> length (nodes s) = 256%nat -> nodes_initialized s = true -> fresh s 0 ->
  0 <= i < vcount s -> i_ino (dmem s) (vinode s i) = i ->
  exists s', inode_to_vnode (vinode s i) s = (Some (Z.to_nat i), s') /\ looked_up s s' (Z.to_nat i).
Proof.
  intros T Hl Hini F0 Hi Hino. unfold inode_to_vnode. rewrite Hini, Hino. pose proof (to_count _ T).
  replace (UNAMEDFS_MAX_FILES <=? i) with false by (unfold UNAMEDFS_MAX_FILES; lia).
  eexists. split; [done|]. set (s' := with_nodes _ s).
  assert (Hd : same_disk s s') by done.
  assert (Fi : fresh s' (Z.to_nat i)).
  { unfold fresh. rewrite Z2Nat.id by lia. rewrite (same_disk_count _ _ Hd), (same_disk_vinode _ _ _ Hd), (same_disk_dmem _ _ Hd).
    split_and!; [lia|done| |]; unfold node, s'; cbn [nodes with_nodes]; rewrite list_lookup_total_insert_eq by lia; done. }
  split; try done; [cbn; by rewrite length_insert|].
  destruct (Z.eq_dec i 0) as [->|Hne]; [done|]. destruct F0 as (H1 & H2 & H3 & H4). split_and!; try done;
    unfold node, s' in *; cbn [nodes with_nodes]; rewrite list_lookup_total_insert_ne by lia; done.
Qed.

(** A state in which lookups start: all nodes initialised, root and [k] fresh. *)
Record ready (s : vfs) (k : nat) : Prop := {
  rd_table : table_ok s;
  rd_len : length (nodes s) = 256%nat;
  rd_init : nodes_initialized s = true;
  rd_rootn : root s = Some 0%nat;
  rd_root : fresh s 0;
  rd_cur : fresh s k
}.

Lemma looked_up_ready s s' k k' : ready s k -> looked_up s s' k' -> ready s' k'.
Proof.
  intros [] []. split; try done; [by eapply same_disk_table|]. destruct lu_disk0 as [_ _ ->]. done.
Qed.

Lemma ready_refl s k : ready s k -> looked_up s s k.
Proof. intros []. by split. Qed.

Lemma component_ref s k name :
  ready s k ->
  exists s', match ref_component s k name with
             | Some k1 => vfs_lookup_component (Some k) name s = (0, Some k1, s') /\ looked_up s s' k1
             | None => vfs_lookup_component (Some k) name s = (-1, None, s') /\ looked_up s s' k
             end.
Proof.
  intros R. pose proof R as [T Hl Hi Hr F0 F]. pose proof F as (Fk & Fino & Fdata & Ftype).
  unfold ref_component, vfs_lookup_component. case_bool_decide as E1; [exists s; split; [done|by apply ready_refl]|].
  case_bool_decide as E2.
  - rewrite Fdata. replace (vinode s (Z.of_nat k) =? 0) with false by (pose proof (to_nonnull _ T (Z.of_nat k) ltac:(lia)); lia).
    cbn [negb]. rewrite Fino. destruct (k =? 0)%nat eqn:Ek; bool_to_prop.
    + subst k. exists s. split; [done|by apply ready_refl].
    + replace (Z.of_nat k =? 0) with false by lia.
      destruct (vscan s _) as [i|] eqn:Es; cbn [default from_option fmap option_fmap option_map id].
      * apply vscan_Some in Es as (Hir & Hip & Hj). bool_to_prop.
        assert (Hii : i_ino (dmem s) (vinode s i) = i).
        { destruct (to_ino _ T i Hir) as [|[Hz _]]; [done|]. destruct (Z.eq_dec i 0) as [->|Hne]; [apply (to_root _ T)|].
          specialize (Hj 0 ltac:(lia)). bool_to_prop. rewrite (to_root _ T) in Hj. lia. }
        destruct (inode_to_vnode_fresh s i T Hl Hi F0 Hir Hii) as (s' & -> & L). by exists s'.
      * rewrite Hr. exists s. split; [done|]. by split.
  - unfold unnamedfs_vop_lookup. rewrite Ftype, Fdata, Fino.
    destruct (is_dir (dmem s) (vinode s (Z.of_nat k))); cbn [negb Z.eqb VFS_TYPE_DIR VFS_TYPE_FILE];
      [|exists s; split; [done|by apply ready_refl]].
    replace (vinode s (Z.of_nat k) =? 0) with false by (pose proof (to_nonnull _ T (Z.of_nat k) ltac:(lia)); lia).
    replace (device (unnamedfs_mnt s) =? 0) with false by (pose proof (to_device _ T); lia).
    rewrite !bool_decide_eq_false_2 by done. cbn [orb].
    destruct (vscan s _) as [i|] eqn:Es; cbn [fmap option_fmap option_map]; [|exists s; split; [done|by apply ready_refl]].
    apply vscan_Some in Es as (Hir & Hip & _). unfold named in Hip. bool_to_prop.
    assert (Hii : i_ino (dmem s) (vinode s i) = i) by (destruct (to_ino _ T i Hir) as [|[_ Hz]]; [done|lia]).
    destruct (inode_to_vnode_fresh s i T Hl Hi F0 Hir Hii) as (s' & -> & L). by exists s'.
Qed.

(** The character walk visits the components. *)
Fixpoint walk_list (cs : list (list Z)) (n : option nat) (s : vfs) : Z * option nat * vfs :=
  match cs with
  | [] => (0, n, s)
  | c :: cs' => let '(r, n1, s1) := vfs_lookup_component n c s in
                if r =? 0 then walk_list cs' n1 s1 else (-1, None, s1)
  end.

Lemma comps_from_head cur p : cur <> [] ->
  exists x l, comps_from cur p = x :: l /\ (length cur <= length x)%nat.
Proof.
  revert cur; induction p as [|c p IH]; intros cur Hc; cbn [comps_from].
  - destruct cur as [|y cur]; [done|]. eexists _, []. split; [done|]. by rewrite length_rev.
  - case_if.
    + destruct cur as [|y cur]; [done|]. eexists _, _. split; [done|]. by rewrite length_rev.
    + destruct (IH (c :: cur)) as (x & l & -> & Hx); [done|]. exists x, l. split; [done|]. cbn in Hx. lia.
Qed.

Lemma lookup_walk_list p cur n s :
  Forall (fun c => length c <= 63)%nat (comps_from cur p) ->
  lookup_walk p cur n s = walk_list (comps_from cur p) n s.
Proof.
  revert cur n s; induction p as [|c p IH]; intros cur n s Hf; cbn [lookup_walk comps_from] in *.
  - destruct cur; [done|]. cbn [walk_list]. by destruct (vfs_lookup_component n _ s) as [[r n1] s1].
  - destruct (c =? SLASH).
    + destruct cur as [|y cur]; cbn [app] in *; [by apply IH|]. apply Forall_cons in Hf as [_ Hf]. cbn [walk_list].
      destruct (vfs_lookup_component n _ s) as [[r n1] s1]. case_if; [by apply IH|done].
    + destruct (comps_from_head (c :: cur) p) as (x & l & Hx & Hlen); [done|].
      pose proof Hf as Hf'. rewrite Hx in Hf'. apply Forall_cons in Hf' as [Hx63 _]. cbn in Hlen.
      replace (length cur <? 63)%nat with true by lia. by apply IH.
Qed.

Lemma walk_list_ref cs k s :
  ready s k ->
  exists s' k', looked_up s s' k' /\
    match ref_walk s k cs with
    | Some k1 => walk_list cs (Some k) s = (0, Some k1, s') /\ k' = k1
    | None => walk_list cs (Some k) s = (-1, None, s')
    end.
Proof.
  revert k s; induction cs as [|c cs IH]; intros k s R; cbn [walk_list ref_walk].
  { exists s, k. split; [by apply ready_refl|done]. }
  destruct (component_ref s k c R) as (s1 & H1). destruct (ref_component s k c) as [k1|]; cbn [mbind option_bind].
  - destruct H1 as [-> L1]. cbn [Z.eqb]. destruct (IH k1 s1 (looked_up_ready _ _ _ _ R L1)) as (s2 & k2 & L2 & H2).
    rewrite (same_disk_walk _ _ _ _ (lu_disk _ _ _ L1)) in H2. exists s2, k2. split; [|done].
    destruct L1, L2. split; try done; [by etransitivity|congruence|congruence].
  - destruct H1 as [-> L1]. exists s1, k. done.
Qed.

(** ** The dentry cache is transparent *)

(** Every valid entry holds what resolving its path gives. *)
Definition coherent (s : vfs) : Prop :=
  length (dcache s) = 32%nat /\
  forall i e, dcache s !! i = Some e -> d_valid e = true ->
    exists k, d_node e = Some k /\ ref_walk s 0 (comps (d_path e)) = Some k.

Lemma coherent_put s i e t :
  coherent s -> (d_valid e = true -> exists k, d_node e = Some k /\ ref_walk s 0 (comps (d_path e)) = Some k) ->
  coherent (with_dcache (<[i := e]> (dcache s)) t s).
Proof.
  intros [Hl Hc] He. assert (Hd : same_disk s (with_dcache (<[i := e]> (dcache s)) t s)) by done.
  split; cbn [dcache with_dcache]; [by rewrite length_insert|]. intros j x Hj Hv.
  rewrite (same_disk_walk _ _ _ _ Hd). apply list_lookup_insert_Some in Hj as [(_ & <- & _)|[_ Hj]]; [by apply He|by eapply Hc].
Qed.

Lemma coherent_looked_up s s' k : coherent s -> looked_up s s' k -> coherent s'.
Proof.
  intros [Hl Hc] L. split; [by rewrite (lu_dcache _ _ _ L)|]. intros i e. rewrite (lu_dcache _ _ _ L). intros Hi Hv.
  rewrite (same_disk_walk _ _ _ _ (lu_disk _ _ _ L)). by eapply Hc.
Qed.

Lemma dcache_lookup_cases path s :
  coherent s ->
  (exists k s', dcache_lookup path s = (Some k, s') /\ ref_walk s 0 (comps path) = Some k /\ coherent s' /\ same_disk s s' /\
     nodes s' = nodes s /\ nodes_initialized s' = nodes_initialized s) \/
  dcache_lookup path s = (None, s).
Proof.
  intros Hc. unfold dcache_lookup. destruct (find_from _ _ _) as [i|] eqn:E; [left|by right].
  apply find_from_Some in E as (Hi & Hh & _). unfold entry_hits in Hh. bool_to_prop.
  destruct (lookup_lt_is_Some_2 (dcache s) i) as [e He]; [unfold DENTRY_CACHE_SIZE in *; destruct Hc; lia|].
  rewrite (list_lookup_total_correct _ _ _ He) in *. apply bool_decide_eq_true in H0.
  destruct (proj2 Hc i e He H) as (k & Hk & Hw). rewrite H0 in Hw. rewrite Hk. eexists k, _. split; [done|]. split_and!; try done.
  apply coherent_put; [done|]. intros _. exists k. cbn. by rewrite H0.
Qed.

Lemma dcache_insert_coherent path k s :
  coherent s -> (length path <= 255)%nat -> ref_walk s 0 (comps path) = Some k ->
  coherent (dcache_insert path (Some k) s) /\ same_disk s (dcache_insert path (Some k) s) /\
  nodes (dcache_insert path (Some k) s) = nodes s /\ nodes_initialized (dcache_insert path (Some k) s) = nodes_initialized s.
Proof.
  intros Hc Hp Hw. split_and!; try done. cbn [dcache_insert]. apply coherent_put; [done|]. intros _. exists k. cbn.
  by rewrite take_ge by lia.
Qed.

Lemma ready_same s s' : ready s 0 -> same_disk s s' -> nodes s' = nodes s -> nodes_initialized s' = nodes_initialized s -> ready s' 0.
Proof.
  intros [] Hd Hn Hi. pose proof (same_disk_table _ _ Hd rd_table0). pose proof Hd as [].
  assert (Hf : fresh s' 0).
  { destruct rd_root0 as (? & ? & ? & ?). unfold fresh, node. rewrite Hn, (same_disk_count _ _ Hd), (same_disk_dmem _ _ Hd), (same_disk_vinode _ _ _ Hd).
    by split_and!. }
  split; [done|by rewrite Hn|by rewrite Hi|by rewrite sd_root0|done|done].
Qed.

Lemma all_slashes_comps p : forallb (Z.eqb SLASH) p = true -> comps p = [].
Proof.
  induction p as [|c p IH]; [done|]. cbn [forallb]. intros H. bool_to_prop. subst c. by apply IH.
Qed.


(** ** Replacement in the dentry cache *)

Lemma choose_victim_spec es i victim oldest :
  match choose_victim i es victim oldest with
  | Some v => (exists e, es !! (v - i)%nat = Some e /\ (i <= v)%nat /\
                 (d_valid e = false \/
                  d_lru e < oldest /\ forall j x, es !! j = Some x -> d_valid x = true /\ d_lru e <= d_lru x)) \/
              Some v = victim /\ forall j x, es !! j = Some x -> d_valid x = true /\ oldest <= d_lru x
  | None => victim = None /\ forall j x, es !! j = Some x -> d_valid x = true /\ oldest <= d_lru x
  end.
Proof.
  revert i victim oldest; induction es as [|e es IH]; intros i victim oldest; cbn [choose_victim].
  { destruct victim; [right|]; (split; [done|]); intros j x Hj; done. }
  destruct (d_valid e) eqn:Ev; cbn [negb].
  2: { left. exists e. rewrite Nat.sub_diag. split_and!; [done|lia|by left]. }
  destruct (d_lru e <? oldest) eqn:El; bool_to_prop.
  - specialize (IH (S i) (Some i) (d_lru e)). destruct (choose_victim _ _ _ _) as [v|]; [|by destruct IH as [? _]].
    left. destruct IH as [(x & Hx & Hv & Hc)|[[= ->] Hall]].
    + exists x. replace (v - i)%nat with (S (v - S i)) by lia. split_and!; [done|lia|]. destruct Hc as [?|[Hlt Hall]]; [by left|].
      right. split; [lia|]. intros [|j] y Hy; cbn in Hy; [injection Hy as <-; split; [done|lia]|by eapply Hall].
    + exists e. rewrite Nat.sub_diag. split_and!; [done|lia|]. right. split; [done|].
      intros [|j] y Hy; cbn in Hy; [injection Hy as <-; split; [done|lia]|by eapply Hall].
  - specialize (IH (S i) victim oldest). destruct (choose_victim _ _ _ _) as [v|].
    + destruct IH as [(x & Hx & Hv & Hc)|[Hvic Hall]].
      * left. exists x. replace (v - i)%nat with (S (v - S i)) by lia. split_and!; [done|lia|].
        destruct Hc as [?|[Hlt Hall]]; [by left|]. right. split; [lia|].
        intros [|j] y Hy; cbn in Hy; [injection Hy as <-; split; [done|lia]|by eapply Hall].
      * right. split; [done|]. intros [|j] y Hy; cbn in Hy; [injection Hy as <-; split; [done|lia]|by eapply Hall].
    + destruct IH as [-> Hall]. split; [done|]. intros [|j] y Hy; cbn in Hy; [injection Hy as <-; split; [done|lia]|by eapply Hall].
Qed.

(** Inserting a path that is not cached makes it a hit, and replaces a single
    slot: an invalid one if there is any, otherwise the least recently used.
    Every other entry stays. *)
Theorem dcache_insert_lru s path k :
  length (dcache s) = 32%nat -> (length path <= 255)%nat ->
  (forall i e, dcache s !! i = Some e -> d_lru e < 2 ^ 64 - 1 /\ entry_hits path e = false) ->
  let s' := dcache_insert path (Some k) s in
  fst (dcache_lookup path s') = Some k /\
  exists v old, dcache s !! v = Some old /\ (forall i, i <> v -> dcache s' !! i = dcache s !! i) /\
    (d_valid old = true -> forall j e, dcache s !! j = Some e -> d_valid e = true /\ d_lru old <= d_lru e).
Proof.
  intros Hl Hp Hall s'. pose proof (choose_victim_spec (dcache s) 0 None (2 ^ 64 - 1)) as Hv.
  unfold s'. cbn [dcache_insert]. destruct (choose_victim 0 (dcache s) None (2 ^ 64 - 1)) as [v|] eqn:Ev.
  2: { destruct (lookup_lt_is_Some_2 (dcache s) 0) as [e He]; [lia|]. destruct Hv as [_ Hv]. specialize (Hv _ _ He).
       destruct (Hall _ _ He). lia. }
  destruct Hv as [(old & Ho & _ & Hc)|[? _]]; [|done]. rewrite Nat.sub_0_r in Ho. cbn [default from_option id].
  assert (Hlt : (v < 32)%nat) by (apply lookup_lt_Some in Ho; lia).
  rewrite take_ge by lia. set (new := mk_dentry path (Some k) (hash_path path) (dcache_tick s) true).
  assert (Hhit : entry_hits path new = true).
  { unfold entry_hits. cbn. rewrite Z.eqb_refl. by apply bool_decide_eq_true_2. }
  split.
  - unfold dcache_lookup. cbn [dcache with_dcache]. destruct (find_from _ _ _) as [i|] eqn:Ef.
    + apply find_from_Some in Ef as (Hi & Hh & _). unfold DENTRY_CACHE_SIZE in Hi. destruct (decide (i = v)) as [->|Hne].
      * rewrite list_lookup_total_insert_eq by lia. done.
      * rewrite list_lookup_total_insert_ne in Hh by done.
        destruct (lookup_lt_is_Some_2 (dcache s) i) as [e He]; [lia|]. rewrite (list_lookup_total_correct _ _ _ He) in Hh.
        destruct (Hall _ _ He) as [_ Hf]. by rewrite Hf in Hh.
    + pose proof (find_from_None _ _ _ Ef v ltac:(unfold DENTRY_CACHE_SIZE; lia)) as Hn. cbn in Hn.
      rewrite list_lookup_total_insert_eq in Hn by lia. by rewrite Hhit in Hn.
  - exists v, old. split_and!; [done| |].
    + intros i Hi. cbn [dcache with_dcache]. by rewrite list_lookup_insert_ne.
    + intros Hvo. destruct Hc as [Hc|[_ Hc]]; [congruence|done].
Qed.

(** ** Directory listings *)

Definition is_child (s : vfs) (ino : Z) (i : nat) : bool :=
  let a := vinode s (Z.of_nat i) in negb (i_flags (dmem s) a =? 0) && (i_parent (dmem s) a =? ino).

Lemma scan_child_nth n i ino found index s :
  0 <= found <= index -> index < 2 ^ 32 - 1 ->
  scan_child n i ino found index s = Z.of_nat <$> List.filter (is_child s ino) (seq i n) !! Z.to_nat (index - found).
Proof.
  revert i found; induction n as [|n IH]; intros i found Hf Hb; cbn [scan_child seq List.filter]; [done|].
  fold (is_child s ino i). destruct (is_child s ino i).
  - destruct (found =? index) eqn:E; bool_to_prop; [by rewrite E, Z.sub_diag|].
    rewrite u32_small by lia. rewrite IH by lia. replace (Z.to_nat (index - found)) with (S (Z.to_nat (index - (found + 1)))) by lia. done.
  - by apply IH.
Qed.

(** A valid readdir cache holds the children of its directory. *)
Definition rd_coherent (s : vfs) : Prop :=
  rd_valid (rdcache s) = true -> forall d, rd_dir (rdcache s) = Some d ->
    child_inos (rdcache s) = children s (i_ino (dmem s) (v_data (node s d))).

Lemma children_lookup s ino k i :
  children s ino !! k = Some i -> 0 <= i < vcount s /\ i_flags (dmem s) (vinode s i) <> 0.
Proof.
  unfold children. rewrite list_lookup_fmap. destruct (_ !! k) as [j|] eqn:E; [|done]. intros [= <-].
  apply list_elem_of_lookup_2, list_elem_of_In, filter_In in E as [Hin Hc]. apply in_seq in Hin. bool_to_prop. split; [lia|done].
Qed.

Lemma vop_readdir_lists n size index s :
  v_type (node s n) = VFS_TYPE_DIR -> v_data (node s n) <> 0 -> device (unnamedfs_mnt s) <> 0 ->
  vcount s <= 256 -> rd_coherent s -> 0 <= index < 2 ^ 32 - 1 ->
  exists s', rd_coherent s' /\ same_disk s s' /\ file_table s' = file_table s /\
    unnamedfs_vop_readdir n size index s =
      match children s (i_ino (dmem s) (v_data (node s n))) !! Z.to_nat index with
      | Some i => (0, Some (inode_name s i size), s')
      | None => (-1, None, s')
      end.
Proof.
  intros Ht Hdat Hdev Hcnt Hrc Hi. unfold unnamedfs_vop_readdir. rewrite Ht. cbn [negb Z.eqb VFS_TYPE_DIR].
  replace (device (unnamedfs_mnt s) =? 0) with false by lia. replace (v_data (node s n) =? 0) with false by lia. cbn [orb].
  set (ino := i_ino (dmem s) (v_data (node s n))).
  assert (Hlen : (length (children s ino) <= 256)%nat).
  { unfold children. rewrite length_map. etransitivity; [apply List.filter_length_le|]. rewrite length_seq. lia. }
  destruct (rd_valid (rdcache s) && bool_decide (rd_dir (rdcache s) = Some n)) eqn:Er.
  - bool_to_prop. apply bool_decide_eq_true in H0. exists s. split_and!; try done. rewrite (Hrc H n H0). fold ino.
    destruct (children s ino !! Z.to_nat index) as [i|] eqn:Ei; [|done]. apply children_lookup in Ei as [Hir Hfl].
    replace (vcount s <=? i) with false by lia. by replace (i_flags (dmem s) (vinode s i) =? 0) with false by lia.
  - destruct (8 <? length (children s ino))%nat.
    + rewrite take_ge by lia. exists (with_rdcache (mk_rdcache (Some n) (children s ino) true) s).
      split_and!; try done. by intros _ d [= <-].
    + exists s. split_and!; try done. rewrite scan_child_nth by lia. rewrite Z.sub_0_r. unfold children.
      rewrite list_lookup_fmap. unfold is_child. by destruct (List.filter _ _ !! Z.to_nat index).
Qed.

(** Successive [vfs_readdir] calls on a directory enumerate its live children
    in table order and then fail, whether the call scans the table, fills the
    readdir cache or reads from it; the cache stays coherent. *)
Theorem vfs_readdir_lists fd size s f n :
  vget_fd s fd = Some f -> vf_node f = Some n -> v_type (node s n) = VFS_TYPE_DIR -> v_data (node s n) <> 0 ->
  device (unnamedfs_mnt s) <> 0 -> 0 < size -> vcount s <= 256 -> rd_coherent s -> 0 <= vf_offset f < 2 ^ 32 - 1 ->
  exists s', rd_coherent s' /\ same_disk s s' /\
    match children s (i_ino (dmem s) (v_data (node s n))) !! Z.to_nat (vf_offset f) with
    | Some i => vfs_readdir fd size s = (0, Some (inode_name s i size), s') /\
                file_table s' = <[Z.to_nat fd := mk_vfile (Some n) (vf_offset f + 1) (vf_mode f) (vf_fd f)]> (file_table s)
    | None => vfs_readdir fd size s = (-1, None, s') /\ file_table s' = file_table s
    end.
Proof.
  intros Hg Hn Ht Hdat Hdev Hsz Hcnt Hrc Hoff. unfold vfs_readdir.
  assert (Hfd : (fd <? 0) || (VFS_MAX_FILES <=? fd) = false) by (unfold vget_fd in Hg; by destruct (_ || _)).
  rewrite Hfd, Hg, Hn, Ht. replace (size =? 0) with false by lia. cbn [orb negb Z.eqb VFS_TYPE_DIR].
  destruct (vop_readdir_lists n size (vf_offset f) s Ht Hdat Hdev Hcnt Hrc Hoff) as (s1 & H1 & H2 & H3 & ->).
  destruct (children s _ !! Z.to_nat (vf_offset f)) as [i|]; cbn [Z.eqb].
  - exists (set_file fd (set_vf_offset (vf_offset f + 1) f) s1). destruct H2. split_and!; try done.
    cbn. unfold set_vf_offset. by rewrite Hn, u32_small, H3 by lia.
  - exists s1. by split_and!.
Qed.

(** ** The file system after [vfs_init], RAM disk at 1 MiB *)

Definition vfs_boot : vfs :=
  mk_vfs (mk_ufs (fun x => if x <? 0x10000 then 0x41 else 0) (bitmap_init 0) [] (mk_mount 0 0 0) false (mk_icache [] 0 0 false))
    0x100000 (mk_mount 0 0 0) (replicate 256 inhabitant) false (replicate 32 inhabitant) 0 (mk_rdcache None [] false)
    (replicate 64 inhabitant) (replicate 64 false) None 0 0.
Definition vfs_up : vfs := snd (vfs_init vfs_boot).

Lemma vfs_up_facts :
  device (unnamedfs_mnt vfs_up) = 0x100000 /\ vcount vfs_up = 5 /\
  Forall (fun i => i_ino (dmem vfs_up) (vinode vfs_up i) = i /\ vinode vfs_up i <> 0) [0; 1; 2; 3; 4] /\
  length (nodes vfs_up) = 256%nat /\ nodes_initialized vfs_up = true /\ root vfs_up = Some 0%nat /\
  v_data (node vfs_up 0) = vinode vfs_up 0 /\ v_type (node vfs_up 0) = VFS_TYPE_DIR /\
  is_dir (dmem vfs_up) (vinode vfs_up 0) = true /\
  length (dcache vfs_up) = 32%nat /\ Forall (fun e => d_valid e = false /\ d_lru e < 2 ^ 64 - 1) (dcache vfs_up).
Proof. apply (bool_decide_unpack _). vm_compute. exact I. Qed.

Lemma vfs_up_index i : 0 <= i < vcount vfs_up -> i_ino (dmem vfs_up) (vinode vfs_up i) = i /\ vinode vfs_up i <> 0.
Proof.
  destruct vfs_up_facts as (_ & Hc & Hf & _). rewrite Hc. intros Hi. rewrite Forall_forall in Hf. apply Hf.
  rewrite !elem_of_cons. lia.
Qed.

Lemma vfs_up_ready : ready vfs_up 0.
Proof.
  pose proof vfs_up_facts as (Hd & Hc & _ & Hl & Hi & Hr & H1 & H2 & H3 & _).
  assert (Hf : fresh vfs_up 0).
  { unfold fresh. change (Z.of_nat 0) with 0. rewrite H3, Hc. split_and!; [lia|apply vfs_up_index; rewrite Hc; lia|exact H1|exact H2]. }
  split; [|exact Hl|exact Hi|exact Hr|exact Hf|exact Hf].
  split; [rewrite Hd; lia|rewrite Hc; lia| | |].
  - intros i Hir. left. by apply vfs_up_index.
  - apply vfs_up_index. rewrite Hc. lia.
  - intros i Hir. by apply vfs_up_index.
Qed.

Lemma vfs_up_invalid i e : dcache vfs_up !! i = Some e -> d_valid e = false /\ d_lru e < 2 ^ 64 - 1.
Proof.
  intros He. pose proof vfs_up_facts as (_ & _ & _ & _ & _ & _ & _ & _ & _ & _ & Hf). rewrite Forall_forall in Hf.
  apply Hf. by eapply list_elem_of_lookup_2.
Qed.

Lemma vfs_up_coherent : coherent vfs_up.
Proof.
  split; [apply vfs_up_facts|]. intros i e He Hv. destruct (vfs_up_invalid i e He) as [H _]. rewrite H in Hv. discriminate.
Qed.


Lemma dcache_insert_lru_witness : fst (dcache_lookup path_etc (dcache_insert path_etc (Some 2%nat) vfs_up)) = Some 2%nat.
Proof.
  apply (dcache_insert_lru vfs_up path_etc 2).
  - apply vfs_up_facts.
  - cbn. lia.
  - intros i e He. destruct (vfs_up_invalid i e He) as [Hv Hlt]. split; [exact Hlt|]. unfold entry_hits. by rewrite Hv.
Defined.

(** The root directory, open as descriptor 0. *)
Definition vfs_dir : vfs := match vfs_open [SLASH] 1 vfs_up with Some (_, s) => s | None => vfs_up end.
Definition dir_entry : vfile := mk_vfile (Some 0%nat) 0 1 0.

Lemma vfs_dir_facts :
  fd_used vfs_dir !! 0%nat = Some true /\
  ((fun f => (vf_node f, vf_offset f, vf_mode f, vf_fd f)) <$> file_table vfs_dir !! 0%nat) = Some (Some 0%nat, 0, 1, 0) /\
  v_type (node vfs_dir 0) = VFS_TYPE_DIR /\ v_data (node vfs_dir 0) <> 0 /\
  device (unnamedfs_mnt vfs_dir) <> 0 /\ vcount vfs_dir = 5 /\ rd_valid (rdcache vfs_dir) = false.
Proof. apply (bool_decide_unpack _). vm_compute. exact I. Qed.

Lemma vfs_dir_fd : vget_fd vfs_dir 0 = Some dir_entry.
Proof.
  destruct vfs_dir_facts as (Hu & Hf & _). unfold vget_fd. cbn [Z.ltb Z.compare orb VFS_MAX_FILES Z.leb Z.to_nat].
  rewrite (list_lookup_total_correct _ _ _ Hu). destruct (file_table vfs_dir !! 0%nat) as [[a b c d]|] eqn:E; [|discriminate].
  rewrite (list_lookup_total_correct _ _ _ E). injection Hf as -> -> -> ->. reflexivity.
Qed.

Lemma vfs_readdir_lists_witness : exists r nm s', vfs_readdir 0 64 vfs_dir = (r, nm, s').
Proof.
  destruct vfs_dir_facts as (_ & _ & Ht & Hd & Hv & Hc & Hr).
  destruct (vfs_readdir_lists 0 64 vfs_dir dir_entry 0 vfs_dir_fd eq_refl Ht Hd Hv ltac:(lia) ltac:(rewrite Hc; lia))
    as (s' & _ & _ & H).
  - intros Hx. exfalso. rewrite Hr in Hx. discriminate Hx.
  - cbn. lia.
  - destruct (children _ _ !! _) as [i|]; destruct H as [H _]; eexists _, _, s'; exact H.
Defined.

(** ** Behaviour outside the theorems' hypotheses *)

(** After a successful [vfs_rmdir], [inode_to_vnode] of the cleared inode turns
    the node of the root into a file: /etc, which is still there, cannot be
    looked up any more. *)
Lemma rmdir_breaks_root :
  (let '(r, n, _) := vfs_lookup path_etc vfs_up in (r, n)) = (0, Some 2%nat) /\
  match vfs_rmdir path_tmp vfs_up with
  | Some (r, s) => r = 0 /\ v_type (node s 0) = VFS_TYPE_FILE /\ fst (fst (vfs_lookup path_etc s)) = -1 /\
                   fst (find_inode_by_path path_etc (fs s)) = 2
  | None => False
  end.
Proof. vm_compute. by split_and!. Qed.

(** The cache key is cut at 255 characters: two long paths with a common
    prefix are confused.  [dots] is "/." 130 times. *)
Definition dots : list Z := concat (replicate 130 [SLASH; DOT]).
Lemma long_paths_collide :
  snd (fst (vfs_lookup (dots ++ path_etc) vfs_up)) = Some 2%nat /\
  snd (fst (vfs_lookup (dots ++ path_etc) (snd (vfs_lookup (dots ++ path_bin) vfs_up)))) = Some 1%nat.
Proof. vm_compute. by split. Qed.
