(* ===== verification/Tcp.v ===== *)
(** * tcp.c, the TCP/IP stub

    Packets, receive buffers and user buffers are in flat memory; an interface
    is a record with its sixteen sockets.  Strings are character lists without
    the NUL.  The null checks on the interface pointer have no counterpart. *)
From S2P Require Import Prelude Mem LibString.

Definition TCP_FIN : Z := 0x01.
Definition TCP_SYN : Z := 0x02.
Definition TCP_ACK : Z := 0x10.

Definition SOCKET_CLOSED : Z := 0.
Definition SOCKET_LISTEN : Z := 1.
Definition SOCKET_SYN_SENT : Z := 2.
Definition SOCKET_SYN_RECV : Z := 3.
Definition SOCKET_ESTABLISHED : Z := 4.
Definition SOCKET_FIN_WAIT_1 : Z := 5.
Definition SOCKET_CLOSE_WAIT : Z := 7.

(** ** Checksum *)

(** The words of the data, and the last byte of an odd length. *)
Fixpoint sum_words (data : list Z) (sum : Z) : Z :=
  match data with
  | a :: b :: rest => sum_words rest (u32 (sum + Z.lor a (Z.shiftl b 8)))
  | [a] => u32 (sum + a)
  | [] => sum
  end.

(** [while (sum >> 16) sum = (sum & 0xFFFF) + (sum >> 16);] *)
Fixpoint fold_sum (fuel : nat) (sum : Z) : option Z :=
  match fuel with
  | O => None
  | S f => if Z.shiftr sum 16 =? 0 then Some sum
           else fold_sum f (u32 (Z.land sum 0xFFFF + Z.shiftr sum 16))
  end.

Definition tcp_checksum (data : list Z) : option Z :=
  sum ← fold_sum 4 (sum_words data 0); Some (u16 (Z.lnot sum)).

(** ** Addresses *)

Definition INADDR_NONE : Z := 0xFFFFFFFF.
Definition is_digit (c : Z) : bool := (48 <=? c) && (c <=? 57).
Definition DOT : Z := 46.

(** One octet; [None] for INADDR_NONE. *)
Fixpoint octet_loop (s : list Z) (part digits : Z) : option (Z * list Z) :=
  match s with
  | c :: s' =>
      if is_digit c then
        let part := u32 (part * 10 + (c - 48)) in
        if 255 <? part then None else
        if 3 <? digits + 1 then None else octet_loop s' part (digits + 1)
      else Some (part, s)
  | [] => Some (part, s)
  end.

Fixpoint addr_loop (n : nat) (i : Z) (s : list Z) (ip : Z) : Z :=
  match n with
  | O => ip
  | S n' =>
      match s with
      | c :: _ =>
          if negb (is_digit c) then INADDR_NONE else
          match octet_loop s 0 0 with
          | None => INADDR_NONE
          | Some (part, rest) =>
              let ip := Z.lor ip (u32 (Z.shiftl part (24 - i * 8))) in
              if i <? 3 then
                match rest with
                | d :: rest' =>
                    if negb (d =? DOT) then INADDR_NONE else
                    match rest' with [] => INADDR_NONE | _ => addr_loop n' (i + 1) rest' ip end
                | [] => INADDR_NONE
                end
              else match rest with [] => addr_loop n' (i + 1) rest ip | _ => INADDR_NONE end
          end
      | [] => INADDR_NONE
      end
  end.

Definition tcp_inet_addr (addr : list Z) : Z :=
  match addr with [] => 0 | _ => addr_loop 4 0 addr 0 end.

(** ** Sockets *)

Record socket := mk_socket {
  local_ip : Z; local_port : Z; remote_ip : Z; remote_port : Z; state : Z;
  send_seq : Z; recv_ack : Z; recv_buf : Z; recv_len : Z; send_buf : Z; send_len : Z
}.
#[export] Instance socket_inhabited : Inhabited socket := populate (mk_socket 0 0 0 0 0 0 0 0 0 0 0).
Record net_if := mk_net_if {
  mac : list Z; ip : Z; netmask : Z; gateway : Z; sockets : list socket; socket_count : Z
}.

Definition set_state (v : Z) (s : socket) : socket :=
  mk_socket (local_ip s) (local_port s) (remote_ip s) (remote_port s) v (send_seq s) (recv_ack s)
    (recv_buf s) (recv_len s) (send_buf s) (send_len s).
Definition set_seq (v : Z) (s : socket) : socket :=
  mk_socket (local_ip s) (local_port s) (remote_ip s) (remote_port s) (state s) v (recv_ack s)
    (recv_buf s) (recv_len s) (send_buf s) (send_len s).
Definition set_peer (rip rport : Z) (s : socket) : socket :=
  mk_socket (local_ip s) (local_port s) rip rport (state s) (send_seq s) (recv_ack s)
    (recv_buf s) (recv_len s) (send_buf s) (send_len s).
Definition set_ack (v : Z) (s : socket) : socket :=
  mk_socket (local_ip s) (local_port s) (remote_ip s) (remote_port s) (state s) (send_seq s) v
    (recv_buf s) (recv_len s) (send_buf s) (send_len s).
Definition set_recv_len (v : Z) (s : socket) : socket :=
  mk_socket (local_ip s) (local_port s) (remote_ip s) (remote_port s) (state s) (send_seq s) (recv_ack s)
    (recv_buf s) v (send_buf s) (send_len s).

Definition with_sockets (ss : list socket) (n : Z) (i : net_if) : net_if :=
  mk_net_if (mac i) (ip i) (netmask i) (gateway i) ss n.
Definition sock (i : net_if) (fd : Z) : socket := sockets i !!! Z.to_nat fd.
Definition put_sock (fd : Z) (s : socket) (i : net_if) : net_if :=
  with_sockets (<[Z.to_nat fd := s]> (sockets i)) (socket_count i) i.
Definition bad_fd (fd : Z) : bool := (fd <? 0) || (16 <=? fd).

Definition tcp_init (i : net_if) (m : option (list Z)) (addr : Z) : Z * net_if :=
  match m with
  | None => (-1, i)
  | Some m => (0, mk_net_if (take 6 m) addr 0xFFFFFF00 (Z.lor (Z.land addr 0xFFFFFF00) 1)
                    (set_state SOCKET_CLOSED <$> sockets i) 0)
  end.

Definition tcp_socket (i : net_if) (port : Z) : Z * net_if :=
  match find_from (fun k => state (sockets i !!! k) =? SOCKET_CLOSED) 0 16 with
  | None => (-1, i)
  | Some k =>
      let s := sockets i !!! k in
      let s' := mk_socket (ip i) port (remote_ip s) (remote_port s) SOCKET_CLOSED 0 0
                  (recv_buf s) (recv_len s) (send_buf s) (send_len s) in
      (Z.of_nat k, with_sockets (<[k := s']> (sockets i)) (i32 (socket_count i + 1)) i)
  end.

Definition tcp_listen (i : net_if) (fd : Z) : Z * net_if :=
  if bad_fd fd then (-1, i) else (0, put_sock fd (set_state SOCKET_LISTEN (sock i fd)) i).

(** Not implemented in the code. *)
Definition tcp_accept (i : net_if) (fd : Z) : Z * net_if := (-1, i).

Definition tcp_connect (i : net_if) (fd rip rport : Z) : Z * net_if :=
  if bad_fd fd then (-1, i) else
  (0, put_sock fd (set_seq 1000 (set_state SOCKET_SYN_SENT (set_peer rip rport (sock i fd)))) i).

Definition tcp_send (i : net_if) (fd data len : Z) : Z * net_if :=
  if bad_fd fd || (data =? 0) then (-1, i) else
  if negb (state (sock i fd) =? SOCKET_ESTABLISHED) then (-1, i) else
  (i32 len, put_sock fd (set_seq (u32 (send_seq (sock i fd) + len)) (sock i fd)) i).

(** [tcp_memcpy] copies byte by byte. *)
Definition tcp_recv (i : net_if) (m : mem) (fd buf len : Z) : Z * net_if * mem :=
  if bad_fd fd || (buf =? 0) then (-1, i, m) else
  let s := sock i fd in
  if negb (state s =? SOCKET_ESTABLISHED) then (-1, i, m) else
  if recv_len s =? 0 then (0, i, m) else
  let n := if len <? recv_len s then len else recv_len s in
  (i32 n, put_sock fd (set_ack (u32 (recv_ack s + n)) (set_recv_len (recv_len s - n) s)) i,
   copy_bytes (Z.to_nat n) m buf (recv_buf s)).

Definition tcp_close (i : net_if) (fd : Z) : Z * net_if :=
  if bad_fd fd then (-1, i) else
  let st := if state (sock i fd) =? SOCKET_ESTABLISHED then SOCKET_FIN_WAIT_1 else SOCKET_CLOSED in
  let i1 := put_sock fd (set_state st (sock i fd)) i in
  (0, with_sockets (sockets i1) (i32 (socket_count i1 - 1)) i1).

(** Packet fields; the headers are packed, 14 + 20 + 20 bytes. *)
Definition load16 (m : mem) (a : Z) : Z := m.[a] + 256 * m.[a + 1].
Definition HEADERS : Z := 54.
Definition pkt_src_ip (m : mem) (p : Z) : Z := load32 m (p + 26).
Definition pkt_dest_ip (m : mem) (p : Z) : Z := load32 m (p + 30).
Definition pkt_src_port (m : mem) (p : Z) : Z := load16 m (p + 34).
Definition pkt_dest_port (m : mem) (p : Z) : Z := load16 m (p + 36).
Definition pkt_seq (m : mem) (p : Z) : Z := load32 m (p + 38).
Definition pkt_ack (m : mem) (p : Z) : Z := load32 m (p + 42).
Definition pkt_flag (m : mem) (p bit : Z) : bool := negb (Z.land m.[p + 47] bit =? 0).

(** What a packet does to the first socket it matches; [None]: no match. *)
Definition match_packet (m : mem) (p : Z) (s : socket) : option socket :=
  if (state s =? SOCKET_LISTEN) && (pkt_dest_port m p =? local_port s) then
    Some (if pkt_flag m p TCP_SYN
          then set_ack (u32 (pkt_seq m p + 1)) (set_state SOCKET_SYN_RECV (set_peer (pkt_src_ip m p) (pkt_src_port m p) s))
          else s)
  else if (local_port s =? pkt_dest_port m p) && (remote_port s =? pkt_src_port m p) && (remote_ip s =? pkt_src_ip m p) then
    let s1 := if pkt_flag m p TCP_ACK
              then set_seq (pkt_ack m p) (if state s =? SOCKET_SYN_SENT then set_state SOCKET_ESTABLISHED s else s)
              else s in
    Some (if pkt_flag m p TCP_FIN then set_state SOCKET_CLOSE_WAIT s1 else s1)
  else None.

Fixpoint first_match (m : mem) (p : Z) (ss : list socket) : option (list socket) :=
  match ss with
  | [] => None
  | s :: ss' => match match_packet m p s with
                | Some s' => Some (s' :: ss')
                | None => cons s <$> first_match m p ss'
                end
  end.

Definition tcp_process_packet (i : net_if) (m : mem) (p len : Z) : Z * net_if :=
  if (p =? 0) || (len <? HEADERS) then (-1, i) else
  if negb (pkt_dest_ip m p =? ip i) then (-1, i) else
  match first_match m p (sockets i) with
  | Some ss => (0, with_sockets ss (socket_count i) i)
  | None => (-1, i)
  end.

(** ** The checksum *)

(** The sum of the words, without wrap-around. *)
Fixpoint words_sum (data : list Z) : Z :=
  match data with a :: b :: rest => a + 256 * b + words_sum rest | [a] => a | [] => 0 end.

Abbreviation bytes := (Forall (fun v => 0 <= v < 256)).

Lemma words_sum_bound data : bytes data -> 0 <= words_sum data <= 65535 * ((Z.of_nat (length data) + 1) / 2).
Proof.
  induction data as [data IH] using (induction_ltof1 _ (@length Z)). unfold ltof in IH. intros Hb.
  destruct data as [|a [|b data]]; cbn [words_sum length].
  - cbn. lia.
  - apply Forall_cons in Hb as [? _]. cbn. lia.
  - apply Forall_cons in Hb as [? Hb]. apply Forall_cons in Hb as [? Hb]. specialize (IH data ltac:(cbn; lia) Hb).
    replace ((Z.of_nat (S (S (length data))) + 1) / 2) with ((Z.of_nat (length data) + 1) / 2 + 1) by zlia. lia.
Qed.

Lemma sum_words_spec data acc :
  bytes data -> 0 <= acc -> acc + words_sum data < 2 ^ 32 -> sum_words data acc = acc + words_sum data.
Proof.
  revert acc. induction data as [data IH] using (induction_ltof1 _ (@length Z)). unfold ltof in IH. intros acc Hb Ha Hs.
  destruct data as [|a [|b data]]; cbn [words_sum sum_words] in *; [lia| |].
  - apply Forall_cons in Hb as [? _]. by rewrite u32_small by lia.
  - apply Forall_cons in Hb as [? Hb]. apply Forall_cons in Hb as [? Hb]. pose proof (words_sum_bound data Hb) as [? _].
    rewrite lor_shiftl_add by lia. change (2 ^ 8) with 256. rewrite u32_small by lia.
    rewrite IH by (cbn; done || lia). lia.
Qed.

(** Folding keeps the value modulo 65535, and zero only for zero. *)
Lemma fold_sum_spec sum :
  0 <= sum < 2 ^ 32 ->
  exists r, fold_sum 4 sum = Some r /\ 0 <= r < 65536 /\ (r - sum) mod 65535 = 0 /\ (r = 0 <-> sum = 0).
Proof.
  assert (Hstep : forall f s, 0 <= s < 2 ^ 32 -> fold_sum (S f) s =
    if s <? 65536 then Some s else fold_sum f (s mod 65536 + s / 65536)).
  { intros f s Hs. cbn [fold_sum]. rewrite Z.shiftr_div_pow2 by lia. change 0xFFFF with (Z.ones 16). rewrite Z.land_ones by lia.
    change (2 ^ 16) with 65536. rewrite u32_small by zlia. destruct (s <? 65536) eqn:E; bool_to_prop.
    - by replace (s / 65536 =? 0) with true by zlia.
    - by replace (s / 65536 =? 0) with false by zlia. }
  intros Hs. rewrite Hstep by done. case_if; bool_to_prop; [exists sum; rewrite Z.sub_diag; split_and!; try done; lia|].
  set (s1 := sum mod 65536 + sum / 65536). assert (H1 : 0 < s1 < 131071 /\ (s1 - sum) mod 65535 = 0).
  { split; [unfold s1; zlia|]. replace (s1 - sum) with ((- (sum / 65536)) * 65535) by (unfold s1; zlia). apply Z.mod_mul. lia. }
  clearbody s1. rewrite Hstep by lia. case_if; bool_to_prop; [exists s1; split_and!; try done; lia|].
  rewrite Hstep by zlia. replace (s1 mod 65536 + s1 / 65536 <? 65536) with true by zlia.
  eexists. split; [done|]. split_and!; [zlia|zlia| |zlia].
  replace (s1 mod 65536 + s1 / 65536 - sum) with ((s1 - sum) + (- (s1 / 65536)) * 65535) by zlia.
  rewrite Z.mod_add by lia. apply H1.
Qed.

Lemma words_sum_app data a b :
  Nat.even (length data) = true -> words_sum (data ++ [a; b]) = words_sum data + a + 256 * b.
Proof.
  induction data as [data IH] using (induction_ltof1 _ (@length Z)). unfold ltof in IH. intros He.
  destruct data as [|x [|y data]]; [cbn; lia|done|]. cbn [app words_sum]. rewrite IH by (cbn in *; done || lia). lia.
Qed.

(** C9. [tcp_checksum] terminates and is a valid Internet checksum: appending it to
    any data of even length (up to 128 KiB, where the 32-bit sum cannot
    overflow) makes the checksum of the whole zero, which is how a receiver
    verifies it. *)
Theorem checksum_verifies data :
  bytes data -> Nat.even (length data) = true -> Z.of_nat (length data) <= 131070 ->
  exists c, tcp_checksum data = Some c /\ 0 <= c < 65536 /\ tcp_checksum (data ++ [c mod 256; c / 256]) = Some 0.
Proof.
  intros Hb He Hl. pose proof (words_sum_bound data Hb) as Hw. unfold tcp_checksum.
  rewrite (sum_words_spec data 0) by (done || zlia). rewrite Z.add_0_l.
  destruct (fold_sum_spec (words_sum data)) as (r & -> & Hr & Hm & Hz); [zlia|]. cbn [mbind option_bind].
  assert (Hc : u16 (Z.lnot r) = 65535 - r).
  { unfold u16, Z.lnot. replace (Z.pred (- r)) with (65535 - r + (-1) * 2 ^ 16) by lia. rewrite Z.mod_add, Z.mod_small by lia. done. }
  rewrite Hc. eexists. split; [done|]. split; [lia|].
  assert (Hsum : words_sum (data ++ [(65535 - r) mod 256; (65535 - r) / 256]) = words_sum data + (65535 - r)).
  { rewrite words_sum_app by done. zlia. }
  rewrite sum_words_spec; [| |lia|rewrite Hsum; zlia].
  2: { apply Forall_app. split; [done|]. repeat (apply Forall_cons; split; [zlia|]). constructor. }
  rewrite Hsum, Z.add_0_l. destruct (fold_sum_spec (words_sum data + (65535 - r))) as (r2 & -> & Hr2 & Hm2 & Hz2); [zlia|].
  cbn [mbind option_bind]. assert (Hdiv : r2 mod 65535 = 0).
  { replace r2 with ((r2 - (words_sum data + (65535 - r))) + (- (r - words_sum data)) + 65535 * 1) by lia.
    rewrite (Z.mul_comm 65535), Z.mod_add by lia. rewrite Z.add_mod, Hm2, Z.add_0_l, Z.mod_mod by lia.
    apply Z.mod_opp_l_z; [lia|done]. }
  assert (r2 = 65535).
  { assert (r2 <> 0) by (intros H0; apply Hz2 in H0; lia). zlia. }
  subst r2. done.
Qed.

Lemma checksum_verifies_witness : exists c, tcp_checksum [0x45; 0x00; 0xFF; 0xFF] = Some c /\
  tcp_checksum ([0x45; 0x00; 0xFF; 0xFF] ++ [c mod 256; c / 256]) = Some 0.
Proof.
  destruct (checksum_verifies [0x45; 0x00; 0xFF; 0xFF]) as (c & H1 & _ & H2).
  - repeat (apply Forall_cons; split; [lia|]). constructor.
  - done.
  - cbn. lia.
  - by exists c.
Defined.

(** ** Dotted addresses *)

(** Decimal digits of an octet, and the dotted notation. *)
Definition dec (n : Z) : list Z :=
  if n <? 10 then [48 + n] else if n <? 100 then [48 + n / 10; 48 + n mod 10]
  else [48 + n / 100; 48 + n / 10 mod 10; 48 + n mod 10].
Definition dotted (a b c d : Z) : list Z := dec a ++ DOT :: dec b ++ DOT :: dec c ++ DOT :: dec d.

Definition not_digit (s : list Z) : Prop := match s with [] => True | c :: _ => is_digit c = false end.

Lemma octet_step c s part k :
  0 <= c < 10 -> 0 <= part -> part * 10 + c <= 255 -> k < 3 ->
  octet_loop ((48 + c) :: s) part k = octet_loop s (part * 10 + c) (k + 1).
Proof.
  intros Hc Hp Hb Hk. cbn [octet_loop]. replace (is_digit (48 + c)) with true by (unfold is_digit; lia).
  replace (48 + c - 48) with c by lia. rewrite u32_small by lia.
  replace (255 <? part * 10 + c) with false by lia. by replace (3 <? k + 1) with false by lia.
Qed.

Lemma octet_dec n s : 0 <= n < 256 -> not_digit s -> octet_loop (dec n ++ s) 0 0 = Some (n, s).
Proof.
  intros Hn Hs. assert (Hend : forall p k, octet_loop s p k = Some (p, s)).
  { intros p k. destruct s as [|c s]; [done|]. cbn [octet_loop not_digit] in *. by rewrite Hs. }
  unfold dec. repeat case_if; bool_to_prop; cbn [app];
    repeat (rewrite octet_step by zlia); rewrite Hend; f_equal; f_equal; zlia.
Qed.

Lemma dec_head n : 0 <= n < 256 -> exists c l, dec n = c :: l /\ is_digit c = true.
Proof. intros Hn. unfold dec. repeat case_if; bool_to_prop; eexists _, _; split; try done; unfold is_digit; zlia. Qed.

Lemma addr_step n i s ip o rest :
  0 <= o < 256 -> 0 <= i < 3 -> rest <> [] -> s = dec o ++ DOT :: rest ->
  addr_loop (S n) i s ip = addr_loop n (i + 1) rest (Z.lor ip (u32 (Z.shiftl o (24 - i * 8)))).
Proof.
  intros Ho Hi Hr ->. destruct (dec_head o Ho) as (c & l & Hd & Hc).
  pose proof (octet_dec o (DOT :: rest) Ho eq_refl) as Hoct. cbn [addr_loop]. rewrite Hd in *. cbn [app] in *.
  rewrite Hc, Hoct. cbn [negb]. replace (i <? 3) with true by lia. rewrite Z.eqb_refl. cbn [negb]. by destruct rest.
Qed.

(** Disjoint octets add up. *)
Lemma lor_octets a b c d :
  0 <= a < 256 -> 0 <= b < 256 -> 0 <= c < 256 -> 0 <= d < 256 ->
  Z.lor (Z.lor (Z.lor (Z.lor 0 (u32 (Z.shiftl a 24))) (u32 (Z.shiftl b 16))) (u32 (Z.shiftl c 8))) (u32 (Z.shiftl d 0))
  = a * 2 ^ 24 + b * 2 ^ 16 + c * 2 ^ 8 + d.
Proof.
  intros Ha Hb Hc Hd. assert (Hu : forall x k, 0 <= k <= 24 -> 0 <= x < 256 -> u32 (Z.shiftl x k) = Z.shiftl x k).
  { intros x k Hk Hx. rewrite Z.shiftl_mul_pow2 by lia. apply u32_small.
    assert (0 < 2 ^ k <= 2 ^ 24) by (split; [apply Z.pow_pos_nonneg; lia|apply Z.pow_le_mono_r; lia]). nia. }
  rewrite !Hu, Z.lor_0_l, Z.shiftl_0_r by lia.
  rewrite (Z.lor_comm _ d), (Z.lor_comm _ (Z.shiftl c 8)), Z.lor_assoc, (lor_shiftl_add d c) by lia.
  rewrite (Z.lor_comm _ (Z.shiftl b 16)), Z.lor_assoc, (lor_shiftl_add (d + c * 2 ^ 8) b) by lia.
  rewrite lor_shiftl_add by lia. lia.
Qed.

(** [tcp_inet_addr] inverts the dotted notation: for all octets the parsed
    address is the big-endian number they form. *)
Theorem inet_addr_roundtrip a b c d :
  0 <= a < 256 -> 0 <= b < 256 -> 0 <= c < 256 -> 0 <= d < 256 ->
  tcp_inet_addr (dotted a b c d) = a * 2 ^ 24 + b * 2 ^ 16 + c * 2 ^ 8 + d.
Proof.
  intros Ha Hb Hc Hd. destruct (dec_head a Ha) as (x & l & Hx & _). unfold tcp_inet_addr.
  assert (Hne : dotted a b c d = x :: (l ++ DOT :: dec b ++ DOT :: dec c ++ DOT :: dec d)) by (unfold dotted; by rewrite Hx).
  rewrite Hne. rewrite <- Hne. unfold dotted.
  assert (Hn : forall o r, 0 <= o < 256 -> dec o ++ r <> []) by (intros o r Ho; destruct (dec_head o Ho) as (? & ? & -> & _); done).
  rewrite (addr_step 3 0 _ 0 a (dec b ++ DOT :: dec c ++ DOT :: dec d)) by (done || lia || by apply Hn).
  rewrite (addr_step 2 _ _ _ b (dec c ++ DOT :: dec d)) by (done || lia || by apply Hn).
  rewrite (addr_step 1 _ _ _ c (dec d)) by (done || lia || (rewrite <- (app_nil_r (dec d)); by apply Hn)).
  destruct (dec_head d Hd) as (y & l2 & Hy & Hyd). pose proof (octet_dec d [] Hd I) as Hoct. rewrite app_nil_r in Hoct.
  cbn [addr_loop]. rewrite Hoct. rewrite Hy at 1. rewrite Hyd. cbn [negb].
  etransitivity; [|by apply lor_octets]. reflexivity.
Qed.

Lemma inet_addr_roundtrip_witness : tcp_inet_addr (dotted 192 168 0 5) = 192 * 2 ^ 24 + 168 * 2 ^ 16 + 0 * 2 ^ 8 + 5.
Proof. apply (inet_addr_roundtrip 192 168 0 5); lia. Defined.

(** ** The socket state machine *)

(** A call on the interface, with the memory it reads where it reads any. *)
Inductive net_op :=
| OSocket (port : Z) | OListen (fd : Z) | OAccept (fd : Z) | OConnect (fd rip rport : Z)
| OSend (fd data len : Z) | ORecv (m : mem) (fd buf len : Z) | OClose (fd : Z)
| OPacket (m : mem) (p len : Z).

Definition net_step (i : net_if) (o : net_op) : net_if :=
  match o with
  | OSocket port => (tcp_socket i port).2
  | OListen fd => (tcp_listen i fd).2
  | OAccept fd => (tcp_accept i fd).2
  | OConnect fd rip rport => (tcp_connect i fd rip rport).2
  | OSend fd data len => (tcp_send i fd data len).2
  | ORecv m fd buf len => (tcp_recv i m fd buf len).1.2
  | OClose fd => (tcp_close i fd).2
  | OPacket m p len => (tcp_process_packet i m p len).2
  end.

(** *** Which socket a call works on *)

(** A packet for this interface, with room for the headers. *)
Definition arrives (i : net_if) (m : mem) (p len : Z) : Prop :=
  p <> 0 /\ HEADERS <= len /\ pkt_dest_ip m p = ip i.
(** The socket listens on the packet's port, or has the packet's sender as its peer. *)
Definition listens (m : mem) (p : Z) (s : socket) : Prop := state s = SOCKET_LISTEN /\ local_port s = pkt_dest_port m p.
Definition peers (m : mem) (p : Z) (s : socket) : Prop :=
  local_port s = pkt_dest_port m p /\ remote_port s = pkt_src_port m p /\ remote_ip s = pkt_src_ip m p.
Definition takes (m : mem) (p : Z) (s : socket) : Prop := listens m p s \/ peers m p s.

Definition acts (i : net_if) (o : net_op) (k : nat) : Prop :=
  let s := sockets i !!! k in
  match o with
  | OSocket _ => state s = SOCKET_CLOSED /\ forall n, (n < k)%nat -> state (sockets i !!! n) <> SOCKET_CLOSED
  | OListen fd | OConnect fd _ _ | OClose fd => fd = Z.of_nat k
  | OAccept _ => False
  | OSend fd data _ => fd = Z.of_nat k /\ data <> 0 /\ state s = SOCKET_ESTABLISHED
  | ORecv _ fd buf _ => fd = Z.of_nat k /\ buf <> 0 /\ state s = SOCKET_ESTABLISHED /\ recv_len s <> 0
  | OPacket m p len => arrives i m p len /\ takes m p s /\ forall n, (n < k)%nat -> ~ takes m p (sockets i !!! n)
  end.

(** *** The transitions of socket [k], by the call that makes them *)

Inductive sock_trans (i : net_if) (k : nat) : net_op -> socket -> socket -> Prop :=
| t_rest o s : ~ acts i o k -> sock_trans i k o s s
| t_socket port s : acts i (OSocket port) k ->
    sock_trans i k (OSocket port) s
      (mk_socket (ip i) port (remote_ip s) (remote_port s) SOCKET_CLOSED 0 0 (recv_buf s) (recv_len s) (send_buf s) (send_len s))
| t_listen fd s : acts i (OListen fd) k -> sock_trans i k (OListen fd) s (set_state SOCKET_LISTEN s)
| t_connect fd rip rport s : acts i (OConnect fd rip rport) k ->
    sock_trans i k (OConnect fd rip rport) s (set_seq 1000 (set_state SOCKET_SYN_SENT (set_peer rip rport s)))
| t_send fd data len s : acts i (OSend fd data len) k ->
    sock_trans i k (OSend fd data len) s (set_seq (u32 (send_seq s + len)) s)
| t_recv m fd buf len s : acts i (ORecv m fd buf len) k ->
    sock_trans i k (ORecv m fd buf len) s
      (set_ack (u32 (recv_ack s + Z.min len (recv_len s))) (set_recv_len (recv_len s - Z.min len (recv_len s)) s))
| t_fin fd s : acts i (OClose fd) k -> state s = SOCKET_ESTABLISHED ->
    sock_trans i k (OClose fd) s (set_state SOCKET_FIN_WAIT_1 s)
| t_close fd s : acts i (OClose fd) k -> state s <> SOCKET_ESTABLISHED ->
    sock_trans i k (OClose fd) s (set_state SOCKET_CLOSED s)
| t_syn m p len s : acts i (OPacket m p len) k -> listens m p s -> pkt_flag m p TCP_SYN = true ->
    sock_trans i k (OPacket m p len) s
      (set_ack (u32 (pkt_seq m p + 1)) (set_state SOCKET_SYN_RECV (set_peer (pkt_src_ip m p) (pkt_src_port m p) s)))
| t_no_syn m p len s : acts i (OPacket m p len) k -> listens m p s -> pkt_flag m p TCP_SYN = false ->
    sock_trans i k (OPacket m p len) s s
| t_establish m p len s : acts i (OPacket m p len) k -> ~ listens m p s -> state s = SOCKET_SYN_SENT ->
    pkt_flag m p TCP_ACK = true -> pkt_flag m p TCP_FIN = false ->
    sock_trans i k (OPacket m p len) s (set_seq (pkt_ack m p) (set_state SOCKET_ESTABLISHED s))
| t_ack m p len s : acts i (OPacket m p len) k -> ~ listens m p s -> state s <> SOCKET_SYN_SENT ->
    pkt_flag m p TCP_ACK = true -> pkt_flag m p TCP_FIN = false ->
    sock_trans i k (OPacket m p len) s (set_seq (pkt_ack m p) s)
| t_fin_ack m p len s : acts i (OPacket m p len) k -> ~ listens m p s ->
    pkt_flag m p TCP_ACK = true -> pkt_flag m p TCP_FIN = true ->
    sock_trans i k (OPacket m p len) s (set_seq (pkt_ack m p) (set_state SOCKET_CLOSE_WAIT s))
| t_remote_fin m p len s : acts i (OPacket m p len) k -> ~ listens m p s ->
    pkt_flag m p TCP_ACK = false -> pkt_flag m p TCP_FIN = true ->
    sock_trans i k (OPacket m p len) s (set_state SOCKET_CLOSE_WAIT s)
| t_ignored m p len s : acts i (OPacket m p len) k -> ~ listens m p s ->
    pkt_flag m p TCP_ACK = false -> pkt_flag m p TCP_FIN = false -> sock_trans i k (OPacket m p len) s s.

(** *** Packets find the first socket that takes them *)

Lemma listens_test m p s : (state s =? SOCKET_LISTEN) && (pkt_dest_port m p =? local_port s) = true <-> listens m p s.
Proof. unfold listens. rewrite andb_true_iff, !Z.eqb_eq. intuition congruence. Qed.
Lemma peers_test m p s :
  (local_port s =? pkt_dest_port m p) && (remote_port s =? pkt_src_port m p) && (remote_ip s =? pkt_src_ip m p) = true <-> peers m p s.
Proof. unfold peers. rewrite !andb_true_iff, !Z.eqb_eq. intuition congruence. Qed.
Lemma listens_dec m p s : listens m p s \/ ~ listens m p s.
Proof. rewrite <- listens_test. destruct (_ && _); [by left|by right]. Qed.

Lemma match_packet_takes m p s : match_packet m p s = None <-> ~ takes m p s.
Proof.
  unfold match_packet, takes. rewrite <- listens_test, <- peers_test.
  destruct ((state s =? SOCKET_LISTEN) && (pkt_dest_port m p =? local_port s)); [split; [done|]; intros []; by left|].
  destruct ((local_port s =? pkt_dest_port m p) && (remote_port s =? pkt_src_port m p) && (remote_ip s =? pkt_src_ip m p));
    [split; [done|]; intros []; by right|]. split; [by intros _ [?|?]|done].
Qed.

Lemma first_match_None m p ss : first_match m p ss = None -> forall n, (n < length ss)%nat -> ~ takes m p (ss !!! n).
Proof.
  induction ss as [|s ss IH]; cbn [first_match length]; [lia|]. destruct (match_packet m p s) eqn:E; [done|].
  intros Hf [|n] Hn; cbn; [by apply match_packet_takes|]. apply IH; [by destruct (first_match m p ss)|lia].
Qed.
Lemma first_match_Some m p ss ss' : first_match m p ss = Some ss' ->
  exists k s', (k < length ss)%nat /\ match_packet m p (ss !!! k) = Some s' /\ ss' = <[k := s']> ss /\
    forall n, (n < k)%nat -> ~ takes m p (ss !!! n).
Proof.
  revert ss'; induction ss as [|s ss IH]; intros ss'; cbn [first_match]; [done|]. destruct (match_packet m p s) as [s'|] eqn:E.
  - intros [= <-]. exists 0%nat, s'. cbn. split_and!; try done; lia.
  - destruct (first_match m p ss) as [ss1|]; [|done]. intros [= <-]. destruct (IH ss1 eq_refl) as (k & s' & Hk & Hm & -> & Hn).
    exists (S k), s'. cbn. split_and!; [lia|done|done|]. intros [|n] Hl; cbn; [by apply match_packet_takes|apply Hn; lia].
Qed.

Lemma acts_packet_unique i m p len k k' : acts i (OPacket m p len) k -> acts i (OPacket m p len) k' -> k = k'.
Proof.
  intros (_ & H1 & H2) (_ & H3 & H4). destruct (Nat.lt_trichotomy k k') as [Hl|[?|Hl]]; [|done|].
  - by destruct (H4 k Hl).
  - by destruct (H2 k' Hl).
Qed.

(** What [tcp_process_packet] does: one socket takes the packet, or none does. *)
Lemma packet_step i m p len :
  (exists k s', (k < length (sockets i))%nat /\ acts i (OPacket m p len) k /\ match_packet m p (sockets i !!! k) = Some s' /\
     sockets (net_step i (OPacket m p len)) = <[k := s']> (sockets i)) \/
  net_step i (OPacket m p len) = i /\ forall k, (k < length (sockets i))%nat -> ~ acts i (OPacket m p len) k.
Proof.
  cbn [net_step]. unfold tcp_process_packet. destruct ((p =? 0) || (len <? HEADERS)) eqn:E1.
  { right. split; [done|]. intros k _ ((? & ? & _) & _). lia. }
  destruct (Z.eqb_spec (pkt_dest_ip m p) (ip i)) as [E2|E2]; cbn [negb]; [|right; split; [done|]; by intros k _ ((_ & _ & ?) & _)].
  destruct (first_match m p (sockets i)) as [ss'|] eqn:E3.
  - left. destruct (first_match_Some _ _ _ _ E3) as (k & s' & Hk & Hm & -> & Hn). exists k, s'. split_and!; try done.
    split; [unfold arrives; split_and!; [lia|lia|done]|]. split; [|done]. destruct (listens_dec m p (sockets i !!! k)) as [?|Hnl]; [by left|right].
    apply peers_test. unfold match_packet in Hm. rewrite <- listens_test in Hnl.
    destruct ((state _ =? SOCKET_LISTEN) && _); [done|]. by case_match.
  - right. split; [done|]. intros k Hk (_ & Ht & _). by apply (first_match_None _ _ _ E3 k Hk).
Qed.

Section machine.
Context (i : net_if) (Hlen : length (sockets i) = 16%nat).

Lemma put_other k fd s : bad_fd fd = false -> fd <> Z.of_nat k -> sockets (put_sock fd s i) !!! k = sockets i !!! k.
Proof. unfold bad_fd. intros Hb Hne. cbn. apply list_lookup_total_insert_ne. lia. Qed.
Lemma put_same k s : (k < 16)%nat -> sockets (put_sock (Z.of_nat k) s i) !!! k = s.
Proof. intros Hk. cbn. rewrite Nat2Z.id. apply list_lookup_total_insert_eq. lia. Qed.
Lemma fd_in_range k : (k < 16)%nat -> bad_fd (Z.of_nat k) = false.
Proof. unfold bad_fd. lia. Qed.

Lemma net_step_length o : length (sockets (net_step i o)) = 16%nat.
Proof.
  destruct o; cbn [net_step]; unfold tcp_socket, tcp_listen, tcp_accept, tcp_connect, tcp_send, tcp_recv, tcp_close.
  1: destruct (find_from _ _ _); cbn; by rewrite ?length_insert.
  7: destruct (packet_step i m p len) as [(k & s' & _ & _ & _ & Hs)|[Hs _]]; cbn [net_step] in Hs; rewrite Hs; [by rewrite length_insert|done].
  all: repeat case_if; cbn; by rewrite ?length_insert.
Qed.

(** A socket the call does not work on keeps all its fields. *)
Lemma rest_keeps o k : (k < 16)%nat -> ~ acts i o k -> sockets (net_step i o) !!! k = sockets i !!! k.
Proof.
  intros Hk Hn. destruct o; cbn [net_step]; unfold tcp_socket, tcp_listen, tcp_accept, tcp_connect, tcp_send, tcp_recv, tcp_close.
  1: { destruct (find_from _ _ _) as [j|] eqn:E; [|done]. cbn. apply list_lookup_total_insert_ne. intros ->. apply Hn.
       apply find_from_Some in E as (_ & Hs & Hf). bool_to_prop. split; [done|]. intros n Hl. specialize (Hf n ltac:(lia)). cbn beta in Hf. lia. }
  7: { destruct (packet_step i m p len) as [(j & s' & _ & Ha & _ & Hs)|[Hs _]]; cbn [net_step] in Hs; rewrite Hs; [|done].
       apply list_lookup_total_insert_ne. by intros ->. }
  all: cbn [acts] in Hn; destruct (decide (fd = Z.of_nat k)) as [->|Hne].
  all: try (repeat case_if; cbn [fst snd with_sockets sockets]; rewrite ?put_other by (by destruct (bad_fd fd)); done).
  all: try done; unfold sock; rewrite fd_in_range, ?Nat2Z.id by done; cbn [orb].
  - destruct (Z.eqb_spec data 0); [done|]. destruct (Z.eqb_spec (state (sockets i !!! k)) SOCKET_ESTABLISHED); [|done]. by destruct Hn.
  - destruct (Z.eqb_spec buf 0); [done|]. destruct (Z.eqb_spec (state (sockets i !!! k)) SOCKET_ESTABLISHED); [|done]. cbn [negb].
    destruct (Z.eqb_spec (recv_len (sockets i !!! k)) 0); [done|]. by destruct Hn.
Qed.

(** A packet and the socket that takes it. *)
Lemma packet_effect m p len k s' : acts i (OPacket m p len) k -> (k < 16)%nat ->
  match_packet m p (sockets i !!! k) = Some s' -> sockets (net_step i (OPacket m p len)) !!! k = s'.
Proof.
  intros Ha Hk Hm. destruct (packet_step i m p len) as [(j & s2 & _ & Hj & Hm2 & ->)|[_ Hno]].
  - rewrite (acts_packet_unique _ _ _ _ _ _ Hj Ha) in Hm2 |- *. rewrite list_lookup_total_insert_eq by lia. congruence.
  - exfalso. apply (Hno k); [lia|done].
Qed.
Lemma match_listens m p s : listens m p s -> match_packet m p s = Some
  (if pkt_flag m p TCP_SYN then set_ack (u32 (pkt_seq m p + 1)) (set_state SOCKET_SYN_RECV (set_peer (pkt_src_ip m p) (pkt_src_port m p) s)) else s).
Proof. intros H%listens_test. unfold match_packet. by rewrite H. Qed.
Lemma match_peers m p s : ~ listens m p s -> takes m p s -> match_packet m p s = Some
  (let s1 := if pkt_flag m p TCP_ACK then set_seq (pkt_ack m p) (if state s =? SOCKET_SYN_SENT then set_state SOCKET_ESTABLISHED s else s) else s in
   if pkt_flag m p TCP_FIN then set_state SOCKET_CLOSE_WAIT s1 else s1).
Proof.
  intros Hn [?|H%peers_test]; [done|]. unfold match_packet. rewrite H. rewrite <- listens_test in Hn. by rewrite (not_true_is_false _ Hn).
Qed.

(** A transition tells the socket after the call. *)
Lemma trans_effect o k s' : (k < 16)%nat -> sock_trans i k o (sockets i !!! k) s' -> sockets (net_step i o) !!! k = s'.
Proof.
  intros Hk Ht. remember (sockets i !!! k) as s eqn:Es. destruct Ht as [o s Ha|port s Ha|fd s Ha|fd rip rport s Ha|fd data len s Ha
    |m fd buf len s Ha|fd s Ha Hs|fd s Ha Hs|m p len s Ha Hl Hf|m p len s Ha Hl Hf|m p len s Ha Hl Hs Hf Hg|m p len s Ha Hl Hs Hf Hg
    |m p len s Ha Hl Hf Hg|m p len s Ha Hl Hf Hg|m p len s Ha Hl Hf Hg].
  9-15: pose proof Ha as (_ & Htk & _); rewrite <- Es in Htk; apply packet_effect; [done|done|]; rewrite <- Es;
    rewrite ?(match_listens m p s), ?(match_peers m p s) by done; cbv zeta; rewrite ?Hf, ?Hg; try done.
  9: by replace (state s =? SOCKET_SYN_SENT) with true by lia.
  9: by replace (state s =? SOCKET_SYN_SENT) with false by lia.
  9: by destruct (state s =? SOCKET_SYN_SENT).
  - rewrite Es. by apply rest_keeps.
  - destruct Ha as [H1 H2]. cbn [net_step]. unfold tcp_socket. destruct (find_from _ 0 16) as [j|] eqn:E.
    + apply find_from_Some in E as (_ & Hj & Hf). assert (j = k) as ->.
      { destruct (Nat.lt_trichotomy j k) as [Hl|[?|Hl]]; [|done|].
        - apply H2 in Hl. bool_to_prop. done.
        - specialize (Hf k ltac:(lia)). cbn beta in Hf. rewrite H1 in Hf. done. }
      cbn. rewrite list_lookup_total_insert_eq by lia. by rewrite Es.
    + exfalso. pose proof (find_from_None _ _ _ E k ltac:(lia)) as Hf. cbn beta in Hf. by rewrite H1 in Hf.
  - cbn [acts] in Ha. subst fd. cbn [net_step]. unfold tcp_listen, sock. rewrite fd_in_range, Nat2Z.id by done. cbn [snd]. by rewrite put_same, Es.
  - cbn [acts] in Ha. subst fd. cbn [net_step]. unfold tcp_connect, sock. rewrite fd_in_range, Nat2Z.id by done. cbn [snd]. by rewrite put_same, Es.
  - destruct Ha as (-> & Hd & Hst). cbn [net_step]. unfold tcp_send, sock. rewrite fd_in_range, Nat2Z.id by done. cbn [orb].
    replace (data =? 0) with false by lia. rewrite Hst. cbn [Z.eqb SOCKET_ESTABLISHED Pos.eqb negb snd]. by rewrite put_same, Es.
  - destruct Ha as (-> & Hd & Hst & Hr). cbn [net_step]. unfold tcp_recv, sock. rewrite fd_in_range, Nat2Z.id by done. cbn [orb].
    replace (buf =? 0) with false by lia. rewrite Hst. cbn [Z.eqb SOCKET_ESTABLISHED Pos.eqb negb]. replace (recv_len _ =? 0) with false by lia.
    cbn [fst snd]. rewrite put_same by done. rewrite <- Es. replace (if len <? recv_len s then len else recv_len s) with (Z.min len (recv_len s)); [done|].
    destruct (Z.ltb_spec len (recv_len s)); lia.
  - cbn [acts] in Ha. subst fd. cbn [net_step]. unfold tcp_close, sock. rewrite fd_in_range, Nat2Z.id by done. cbn [snd sockets with_sockets].
    rewrite put_same by done. by rewrite <- Es, Hs.
  - cbn [acts] in Ha. subst fd. cbn [net_step]. unfold tcp_close, sock. rewrite fd_in_range, Nat2Z.id by done. cbn [snd sockets with_sockets].
    rewrite put_same by done. rewrite <- Es. by replace (state s =? SOCKET_ESTABLISHED) with false by lia.
Qed.

(** Every call is a transition of every socket. *)
Lemma trans_exists o k : (k < 16)%nat -> exists s', sock_trans i k o (sockets i !!! k) s'.
Proof.
  intros Hk. assert (Hdec : acts i o k \/ ~ acts i o k).
  { destruct o; cbn [acts]; try (destruct (decide (fd = Z.of_nat k)); [by left|by right]); try tauto.
    - destruct (find_from (fun n => state (sockets i !!! n) =? SOCKET_CLOSED) 0 16) as [j|] eqn:E.
      + apply find_from_Some in E as (_ & Hj & Hf). bool_to_prop. destruct (decide (j = k)) as [->|Hne].
        * left. split; [done|]. intros n Hl. specialize (Hf n ltac:(lia)). cbn beta in Hf. lia.
        * right. intros [H1 H2]. destruct (Nat.lt_trichotomy j k) as [Hl|[?|Hl]]; [by apply (H2 j)|done|].
          specialize (Hf k ltac:(lia)). cbn beta in Hf. by rewrite H1 in Hf.
      + right. intros [H1 _]. pose proof (find_from_None _ _ _ E k ltac:(lia)) as Hf. cbn beta in Hf. by rewrite H1 in Hf.
    - lia.
    - lia.
    - destruct (packet_step i m p len) as [(j & s2 & _ & Hj & _)|[_ Hno]]; [|right; apply (Hno k); lia].
      destruct (decide (j = k)) as [->|Hne]; [by left|]. right. intros Ha. apply Hne. by eapply acts_packet_unique. }
  destruct Hdec as [Ha|Hn]; [|by eexists; apply t_rest].
  destruct o as [| | | | | |fd|m p len];
    [by eexists; apply t_socket|by eexists; apply t_listen|done|by eexists; apply t_connect|by eexists; apply t_send|by eexists; apply t_recv| |].
  - destruct (decide (state (sockets i !!! k) = SOCKET_ESTABLISHED)); eexists; [by apply t_fin|by apply t_close].
  - destruct (listens_dec m p (sockets i !!! k)).
    { destruct (pkt_flag m p TCP_SYN) eqn:E; eexists; [by apply t_syn|by apply t_no_syn]. }
    destruct (pkt_flag m p TCP_ACK) eqn:E1, (pkt_flag m p TCP_FIN) eqn:E2; [| | |].
    + eexists. by apply t_fin_ack.
    + destruct (decide (state (sockets i !!! k) = SOCKET_SYN_SENT)); eexists; [by apply t_establish|by apply t_ack].
    + eexists. by apply t_remote_fin.
    + eexists. by apply t_ignored.
Qed.

Lemma net_step_trans o k s' : (k < 16)%nat ->
  sock_trans i k o (sockets i !!! k) s' <-> s' = sockets (net_step i o) !!! k.
Proof.
  intros Hk. split; [intros Ht; symmetry; by apply trans_effect|]. intros ->.
  destruct (trans_exists o k Hk) as [s' Ht]. by rewrite (trans_effect o k s' Hk Ht).
Qed.
End machine.

Definition run (i : net_if) (ops : list net_op) : net_if := fold_left net_step ops i.
Definition connects (fd : Z) (o : net_op) : bool :=
  match o with OConnect fd' _ _ => fd' =? fd | _ => false end.

Lemma run_keeps (P : net_if -> Prop) (ok : net_op -> Prop) ops i :
  (forall j o, P j -> ok o -> P (net_step j o)) -> Forall ok ops -> P i -> P (run i ops).
Proof.
  intros Hstep Hops. revert i. induction Hops as [|o ops Ho _ IH]; intros i Hi; [done|]. by apply IH, Hstep.
Qed.

(** C26. The calls implement the socket state machine [sock_trans], exactly: whatever
    sequence of calls and packets has been processed, the interface keeps its
    sixteen sockets, and for the next call the socket after it is the one and only
    successor that [sock_trans] allows.  A packet reaches the first socket that
    listens on its port or has its sender as the peer, and no other; SYN takes a
    listening socket to SYN_RECV with the sender as its peer, ACK takes SYN_SENT
    to ESTABLISHED, FIN leads to CLOSE_WAIT; [tcp_listen], [tcp_connect],
    [tcp_close] and data transfer change the socket they name, and sockets
    that a call does not work on keep every field. *)
Theorem sockets_follow_machine i ops o k s' :
  length (sockets i) = 16%nat -> (k < 16)%nat ->
  let j := run i ops in
  length (sockets j) = 16%nat /\
  (sock_trans j k o (sockets j !!! k) s' <-> s' = sockets (net_step j o) !!! k).
Proof.
  intros Hlen Hk j. assert (Hj : length (sockets j) = 16%nat).
  { apply (run_keeps (fun j => length (sockets j) = 16%nat) (fun _ => True)); [|by apply Forall_true|done].
    intros n o' Hn _. by apply net_step_length. }
  split; [done|]. by apply net_step_trans.
Qed.

Definition net_up : net_if :=
  (tcp_init (mk_net_if [] 0 0 0 (replicate 16 inhabitant) 0) (Some [2;0;0;0;0;1]) (tcp_inet_addr (dotted 10 0 0 2))).2.
(** A segment from 10.0.0.9:80 to 10.0.0.2:4000 with flags [fl], at address 1000. *)
Definition segment (fl : Z) : mem :=
  fun a => nth (Z.to_nat (a - 1000))
    (replicate 26 0 ++ [9;0;0;10; 2;0;0;10; 80;0; 160;15; 0;0;0;0; 7;0;0;0; 80; fl; 0;0;0;0;0;0]) 0.

(** A socket that connects and gets its SYN-ACK; the address is in the packet's
    byte order, the port is compared as stored. *)
Definition handshake : list net_op :=
  [OSocket 4000; OConnect 0 0x0A000009 80; OPacket (segment TCP_ACK) 1000 54].
Definition net_le : net_if := with_sockets (sockets net_up) 0 (mk_net_if (mac net_up) 0x0A000002 0 0 [] 0).

Example handshake_establishes : state (sock (run net_le handshake) 0) = SOCKET_ESTABLISHED.
Proof. vm_compute. reflexivity. Qed.

(** The SYN-ACK is for socket 0, which connected, and makes it established. *)
Lemma sockets_follow_machine_witness :
  let j := run net_le [OSocket 4000; OConnect 0 0x0A000009 80] in let o := OPacket (segment TCP_ACK) 1000 54 in
  state (sockets j !!! 0%nat) = SOCKET_SYN_SENT /\ acts j o 0 /\ state (sockets (net_step j o) !!! 0%nat) = SOCKET_ESTABLISHED.
Proof.
  intros j o. split; [reflexivity|].
  assert (Ha : acts j o 0%nat) by (split; [unfold arrives, HEADERS; split_and!; [lia|lia|reflexivity]|split; [right; split_and!; reflexivity|lia]]).
  split; [exact Ha|].
  destruct (sockets_follow_machine net_le [OSocket 4000; OConnect 0 0x0A000009 80] o 0%nat
    (set_seq 7 (set_state SOCKET_ESTABLISHED (sockets j !!! 0%nat))) eq_refl ltac:(lia)) as [_ [H _]].
  fold j in H. rewrite <- H; [reflexivity|]. apply (t_establish j 0 (segment TCP_ACK) 1000 54); [exact Ha|by intros [? _]|reflexivity|reflexivity|reflexivity].
Defined.

(** Never connecting: neither SYN_SENT nor ESTABLISHED. *)
Definition passive (k : nat) (i : net_if) : Prop :=
  length (sockets i) = 16%nat /\
  state (sockets i !!! k) <> SOCKET_SYN_SENT /\ state (sockets i !!! k) <> SOCKET_ESTABLISHED.

Lemma passive_step fd k i o :
  bad_fd fd = false -> Z.to_nat fd = k -> passive k i -> connects fd o = false -> passive k (net_step i o).
Proof.
  unfold bad_fd. intros Hfd <- (Hl & Hs & He) Hc. bool_to_prop. split; [by apply net_step_length|].
  pose proof (proj2 (net_step_trans i Hl o (Z.to_nat fd) _ ltac:(lia)) eq_refl) as Ht.
  remember (sockets (net_step i o) !!! Z.to_nat fd) as s' eqn:E. clear E.
  remember (sockets i !!! Z.to_nat fd) as s eqn:E. destruct Ht; cbn [state set_state set_seq set_ack set_peer set_recv_len]; try done.
  exfalso. cbn in Hc. match goal with H : acts _ (OConnect _ _ _) _ |- _ => cbn [acts] in H end. lia.
Qed.

Lemma passive_refuses fd i m d len :
  bad_fd fd = false -> passive (Z.to_nat fd) i ->
  tcp_send i fd d len = (-1, i) /\ tcp_recv i m fd d len = (-1, i, m).
Proof.
  intros Hfd (_ & _ & He). unfold tcp_send, tcp_recv, sock. rewrite Hfd. cbn [orb].
  case_if; [done|]. replace (_ =? SOCKET_ESTABLISHED) with false by lia. done.
Qed.

(** Data transfer needs an active open: from [tcp_init], after any calls and
    packets, a socket that was never passed to [tcp_connect] is not established,
    and [tcp_send] and [tcp_recv] refuse it and change nothing.  In particular a
    listening socket never carries data. *)
Theorem established_needs_connect i0 mac0 addr fd ops m d len :
  length (sockets i0) = 16%nat -> 0 <= fd < 16 ->
  Forall (fun o => connects fd o = false) ops ->
  let i := run (tcp_init i0 (Some mac0) addr).2 ops in
  state (sock i fd) <> SOCKET_ESTABLISHED /\
  tcp_send i fd d len = (-1, i) /\ tcp_recv i m fd d len = (-1, i, m).
Proof.
  intros Hl Hfd Hops i. assert (Hbad : bad_fd fd = false) by (unfold bad_fd; lia).
  assert (Hp : passive (Z.to_nat fd) i).
  { apply (run_keeps (passive (Z.to_nat fd)) (fun o => connects fd o = false)); [|done|].
    - intros j o Hj Ho. by eapply passive_step.
    - cbn [tcp_init snd]. split; [cbn; by rewrite length_fmap|]. cbn [sockets].
      destruct (lookup_lt_is_Some_2 (sockets i0) (Z.to_nat fd)) as [s Hs]; [lia|].
      rewrite (list_lookup_total_correct _ _ (set_state SOCKET_CLOSED s)) by (rewrite list_lookup_fmap, Hs; done). done. }
  split; [apply Hp|]. by apply passive_refuses.
Qed.

Lemma established_needs_connect_witness :
  let i := run net_up [OSocket 4000; OListen 0; OPacket (segment TCP_SYN) 1000 54; OPacket (segment TCP_ACK) 1000 54] in
  tcp_send i 0 5000 10 = (-1, i).
Proof.
  apply (established_needs_connect (mk_net_if [] 0 0 0 (replicate 16 inhabitant) 0) [2;0;0;0;0;1]
           (tcp_inet_addr (dotted 10 0 0 2)) 0
           [OSocket 4000; OListen 0; OPacket (segment TCP_SYN) 1000 54; OPacket (segment TCP_ACK) 1000 54]
           (segment 0)); [reflexivity|lia|].
  repeat (apply Forall_cons; split; [reflexivity|]). constructor.
Defined.

(** A socket is not reserved: two calls in a row return the same descriptor. *)
Example socket_twice : let '(a, i) := tcp_socket net_up 80 in let '(b, _) := tcp_socket i 81 in (a, b) = (0, 0).
Proof. vm_compute. reflexivity. Qed.
