(* ===== verification/Io.v ===== *)
(** * io.c, the VGA text console and the keyboard

    The screen is the list of its 80 x 25 visible cells; a write past them
    reaches memory that is not displayed.  The CRT controller is the register
    index and the four registers the code uses.  A [char] is a signed byte.
    Printed strings are character lists without the NUL. *)
From S2P Require Import Prelude.

Definition VGA_WIDTH : Z := 80.
Definition VGA_HEIGHT : Z := 25.
Definition VGA_COLOR_BLACK : Z := 0.
Definition VGA_COLOR_LIGHT_GREY : Z := 7.

Record console := mk_console {
  vga_buffer : list Z; cursor_x : Z; cursor_y : Z; color : Z;
  crt_index : Z; crt_start : Z; crt_end : Z; crt_high : Z; crt_low : Z
}.

Definition set_cells (v : list Z) (c : console) : console :=
  mk_console v (cursor_x c) (cursor_y c) (color c) (crt_index c) (crt_start c) (crt_end c) (crt_high c) (crt_low c).
Definition set_cursor (x y : Z) (c : console) : console :=
  mk_console (vga_buffer c) x y (color c) (crt_index c) (crt_start c) (crt_end c) (crt_high c) (crt_low c).

Definition make_vgaentry (c color : Z) : Z := Z.lor (u8 c) (Z.shiftl color 8).

Definition set_color (fg bg : Z) (c : console) : console :=
  mk_console (vga_buffer c) (cursor_x c) (cursor_y c) (u8 (Z.lor fg (Z.shiftl bg 4)))
    (crt_index c) (crt_start c) (crt_end c) (crt_high c) (crt_low c).

(** ** The CRT controller: port 0x3D4 selects a register, 0x3D5 accesses it *)
Definition outb (port v : Z) (c : console) : console :=
  let 'mk_console cells x y col i st en hi lo := c in
  if port =? 0x3D4 then mk_console cells x y col v st en hi lo
  else if port =? 0x3D5 then
    if i =? 0x0A then mk_console cells x y col i v en hi lo
    else if i =? 0x0B then mk_console cells x y col i st v hi lo
    else if i =? 0x0E then mk_console cells x y col i st en v lo
    else if i =? 0x0F then mk_console cells x y col i st en hi v
    else c
  else c.
Definition inb_crt (c : console) : Z :=
  if crt_index c =? 0x0A then crt_start c else if crt_index c =? 0x0B then crt_end c
  else if crt_index c =? 0x0E then crt_high c else if crt_index c =? 0x0F then crt_low c else 0.

Definition update_hw_cursor (c : console) : console :=
  let pos := u16 (cursor_y c * VGA_WIDTH + cursor_x c) in
  let c := outb 0x3D4 0x0F c in
  let c := outb 0x3D5 (u8 (Z.land pos 0xFF)) c in
  let c := outb 0x3D4 0x0E c in
  outb 0x3D5 (u8 (Z.land (Z.shiftr pos 8) 0xFF)) c.

(** ** Clearing and scrolling *)

Fixpoint fill_cells (n i : nat) (blank : Z) (v : list Z) : list Z :=
  match n with O => v | S n' => fill_cells n' (S i) blank (<[i := blank]> v) end.

Definition clear_screen (c : console) : console :=
  set_cursor 0 0 (set_cells (fill_cells (Z.to_nat (VGA_WIDTH * VGA_HEIGHT)) 0 (make_vgaentry 32 (color c)) (vga_buffer c)) c).

(** The hardware cursor is reset as [update_hw_cursor] does it. *)
Definition vga_clear (c : console) : console := update_hw_cursor (clear_screen c).

(** [rep movsl] and [rep stosl] on a buffer of 16-bit cells. *)
Fixpoint rep_movsl (n d s : nat) (v : list Z) : list Z :=
  match n with
  | O => v
  | S n' => let lo := v !!! s in let hi := v !!! S s in
            rep_movsl n' (d + 2) (s + 2) (<[S d := hi]> (<[d := lo]> v))
  end.
Fixpoint rep_stosl (n d : nat) (eax : Z) (v : list Z) : list Z :=
  match n with
  | O => v
  | S n' => rep_stosl n' (d + 2) eax (<[S d := Z.shiftr eax 16]> (<[d := Z.land eax 0xFFFF]> v))
  end.

Definition scroll (c : console) : console :=
  if VGA_HEIGHT <=? cursor_y c then
    let v := rep_movsl (Z.to_nat (VGA_WIDTH * (VGA_HEIGHT - 1) / 2)) 0 (Z.to_nat VGA_WIDTH) (vga_buffer c) in
    let blank := make_vgaentry 32 (color c) in
    let blank32 := u32 (Z.lor blank (Z.shiftl blank 16)) in
    let v := rep_stosl (Z.to_nat (VGA_WIDTH / 2)) (Z.to_nat ((VGA_HEIGHT - 1) * VGA_WIDTH)) blank32 v in
    set_cursor (cursor_x c) (VGA_HEIGHT - 1) (set_cells v c)
  else c.

(** ** Output *)

Definition put_char_at (ch x y : Z) (c : console) : console :=
  set_cells (<[Z.to_nat (u32 (y * VGA_WIDTH + x)) := make_vgaentry ch (color c)]> (vga_buffer c)) c.

Definition wrap_line (c : console) : console :=
  if VGA_WIDTH <=? cursor_x c then set_cursor 0 (cursor_y c + 1) c else c.

Definition io_putchar_nocursor (c : console) (ch : Z) : console :=
  scroll
    (if ch =? 10 then set_cursor 0 (cursor_y c + 1) c
     else if ch =? 13 then set_cursor 0 (cursor_y c) c
     else if ch =? 9 then wrap_line (set_cursor (Z.land (u32 (cursor_x c + 8)) (u32 (Z.lnot 7))) (cursor_y c) c)
     else if ch =? 8 then
       if 0 <? cursor_x c then put_char_at 32 (cursor_x c - 1) (cursor_y c) (set_cursor (cursor_x c - 1) (cursor_y c) c)
       else if 0 <? cursor_y c then
         put_char_at 32 (VGA_WIDTH - 1) (cursor_y c - 1) (set_cursor (VGA_WIDTH - 1) (cursor_y c - 1) c)
       else c
     else wrap_line (set_cursor (cursor_x c + 1) (cursor_y c) (put_char_at ch (cursor_x c) (cursor_y c) c))).

Definition io_putchar (c : console) (ch : Z) : console := update_hw_cursor (io_putchar_nocursor c ch).

Definition print_char (c : console) (ch : Z) : console :=
  if (32 <=? ch) && (ch <? 127) && (cursor_x c <? VGA_WIDTH - 1) then
    set_cursor (cursor_x c + 1) (cursor_y c) (put_char_at ch (cursor_x c) (cursor_y c) c)
  else io_putchar_nocursor c ch.

Definition io_print (str : list Z) (c : console) : console := update_hw_cursor (fold_left print_char str c).
Definition io_print_n (str : list Z) (n : nat) (c : console) : console :=
  update_hw_cursor (fold_left io_putchar_nocursor (take n str) c).
Definition io_println (str : list Z) (c : console) : console := io_putchar (io_print str c) 10.

Definition io_init (c : console) : console :=
  let c := clear_screen (set_color VGA_COLOR_LIGHT_GREY VGA_COLOR_BLACK c) in
  let c := outb 0x3D4 0x0A c in
  let c := outb 0x3D5 (u8 (Z.lor (Z.land (inb_crt c) 0xC0) 0)) c in
  let c := outb 0x3D4 0x0B c in
  outb 0x3D5 (u8 (Z.lor (Z.land (inb_crt c) 0xE0) 15)) c.

(** ** Keyboard *)

Definition KEY_UP : Z := 0x01.
Definition KEY_DOWN : Z := 0x02.
Definition KEY_LEFT : Z := 0x03.
Definition KEY_RIGHT : Z := 0x04.

(** The static variables of [io_getchar]. *)
Record kbd := mk_kbd { shift_pressed : bool; caps_lock : bool; extended : bool }.

(** A letter key, [c] the lower-case letter. *)
Definition letter (shift caps : bool) (c : Z) : Z := if xorb shift caps then c + (65 - 97) else c.
Definition either (shift : bool) (up low : Z) : Z := if shift then up else low.

(** The code of an ordinary key to its character, row by row. *)
Definition key_char (shift caps : bool) (code : Z) : Z :=
  match code with
  | 0x02 => either shift 33 49 | 0x03 => either shift 64 50 | 0x04 => either shift 35 51
  | 0x05 => either shift 36 52 | 0x06 => either shift 37 53 | 0x07 => either shift 94 54
  | 0x08 => either shift 38 55 | 0x09 => either shift 42 56 | 0x0A => either shift 40 57
  | 0x0B => either shift 41 48 | 0x0C => either shift 95 45 | 0x0D => either shift 43 61
  | 0x0E => 8 | 0x0F => 9
  | 0x10 => letter shift caps 113 | 0x11 => letter shift caps 119 | 0x12 => letter shift caps 101
  | 0x13 => letter shift caps 114 | 0x14 => letter shift caps 116 | 0x15 => letter shift caps 121
  | 0x16 => letter shift caps 117 | 0x17 => letter shift caps 105 | 0x18 => letter shift caps 111
  | 0x19 => letter shift caps 112 | 0x1A => either shift 123 91 | 0x1B => either shift 125 93
  | 0x1C => 10
  | 0x1E => letter shift caps 97 | 0x1F => letter shift caps 115 | 0x20 => letter shift caps 100
  | 0x21 => letter shift caps 102 | 0x22 => letter shift caps 103 | 0x23 => letter shift caps 104
  | 0x24 => letter shift caps 106 | 0x25 => letter shift caps 107 | 0x26 => letter shift caps 108
  | 0x27 => either shift 58 59 | 0x28 => either shift 34 39 | 0x29 => either shift 126 96
  | 0x2B => either shift 124 92
  | 0x2C => letter shift caps 122 | 0x2D => letter shift caps 120 | 0x2E => letter shift caps 99
  | 0x2F => letter shift caps 118 | 0x30 => letter shift caps 98 | 0x31 => letter shift caps 110
  | 0x32 => letter shift caps 109
  | 0x33 => either shift 60 44 | 0x34 => either shift 62 46 | 0x35 => either shift 63 47
  | 0x37 => 42 | 0x39 => 32
  | _ => 0
  end.

Definition clear_extended (k : kbd) : kbd := mk_kbd (shift_pressed k) (caps_lock k) false.

(** [status] and [scancode] are what ports 0x64 and 0x60 give. *)
Definition io_getchar (k : kbd) (status scancode : Z) : Z * kbd :=
  if Z.land status 0x01 =? 0 then (0, k) else
  if scancode =? 0xE0 then (0, mk_kbd (shift_pressed k) (caps_lock k) true) else
  let is_release := negb (Z.land scancode 0x80 =? 0) in
  let code := Z.land scancode 0x7F in
  let is_shift := (code =? 0x2A) || (code =? 0x36) in
  if is_release then
    (0, mk_kbd (if negb (extended k) && is_shift then false else shift_pressed k) (caps_lock k) false)
  else if negb (extended k) then
    if is_shift then (0, mk_kbd true (caps_lock k) (extended k)) else
    if code =? 0x3A then (0, mk_kbd (shift_pressed k) (negb (caps_lock k)) (extended k)) else
    (key_char (shift_pressed k) (caps_lock k) code, clear_extended k)
  else
    if code =? 0x48 then (KEY_UP, clear_extended k) else
    if code =? 0x50 then (KEY_DOWN, clear_extended k) else
    if code =? 0x4B then (KEY_LEFT, clear_extended k) else
    if code =? 0x4D then (KEY_RIGHT, clear_extended k) else
    (0, clear_extended k).

(** ** The screen *)

Lemma length_fill_cells n i b v : length (fill_cells n i b v) = length v.
Proof. revert i v. induction n as [|n IH]; intros i v; cbn; [done|]. by rewrite IH, length_insert. Qed.

Lemma length_rep_movsl n d s v : length (rep_movsl n d s v) = length v.
Proof. revert d s v. induction n as [|n IH]; intros d s v; cbn; [done|]. by rewrite IH, !length_insert. Qed.

Lemma length_rep_stosl n d a v : length (rep_stosl n d a v) = length v.
Proof. revert d v. induction n as [|n IH]; intros d v; cbn; [done|]. by rewrite IH, !length_insert. Qed.

Lemma fill_cells_lookup n i b v k :
  (i + n <= length v)%nat ->
  fill_cells n i b v !! k = if decide (i <= k < i + n)%nat then Some b else v !! k.
Proof.
  revert i v. induction n as [|n IH]; intros i v Hl; cbn [fill_cells].
  - rewrite decide_False by lia. done.
  - rewrite IH by (rewrite length_insert; lia). destruct (decide (k = i)) as [->|Hne].
    + rewrite list_lookup_insert_eq by lia. rewrite decide_False, decide_True by lia. done.
    + rewrite list_lookup_insert_ne by done. repeat case_decide; done || lia.
Qed.

(** An ascending copy to lower addresses reads only cells not yet written. *)
Lemma rep_movsl_lookup n d s v k :
  (d + 2 <= s)%nat -> (s + 2 * n <= length v)%nat ->
  rep_movsl n d s v !! k = if decide (d <= k < d + 2 * n)%nat then v !! (k + (s - d))%nat else v !! k.
Proof.
  revert d s v. induction n as [|n IH]; intros d s v Hd Hl; cbn [rep_movsl].
  { rewrite decide_False by lia. done. }
  rewrite IH by (rewrite ?length_insert; lia). replace (s + 2 - (d + 2))%nat with (s - d)%nat by lia.
  assert (Hlo : v !! s = Some (v !!! s)) by (apply list_lookup_lookup_total_lt; lia).
  assert (Hhi : v !! S s = Some (v !!! S s)) by (apply list_lookup_lookup_total_lt; lia).
  destruct (decide (k = d)) as [->|H0].
  { rewrite decide_False, decide_True by lia. rewrite list_lookup_insert_ne, list_lookup_insert_eq by lia.
    rewrite <- Hlo. f_equal. lia. }
  destruct (decide (k = S d)) as [->|H1].
  { rewrite decide_False, decide_True by lia. rewrite list_lookup_insert_eq by (rewrite length_insert; lia).
    rewrite <- Hhi. f_equal. lia. }
  repeat case_decide; try lia; rewrite !list_lookup_insert_ne by lia; done.
Qed.

Lemma rep_stosl_lookup n d b v k :
  (d + 2 * n <= length v)%nat -> 0 <= b < 65536 ->
  rep_stosl n d (u32 (Z.lor b (Z.shiftl b 16))) v !! k = if decide (d <= k < d + 2 * n)%nat then Some b else v !! k.
Proof.
  intros Hl Hb. assert (Hlo : Z.land (u32 (Z.lor b (Z.shiftl b 16))) 0xFFFF = b /\ Z.shiftr (u32 (Z.lor b (Z.shiftl b 16))) 16 = b).
  { rewrite lor_shiftl_add, u32_small by lia. change 0xFFFF with (Z.ones 16).
    rewrite Z.land_ones, Z.shiftr_div_pow2 by lia. change (2 ^ 16) with 65536. split; zlia. }
  destruct Hlo as [Hlo Hhi]. remember (u32 (Z.lor b (Z.shiftl b 16))) as w eqn:Hw. clear Hw.
  revert d v Hl. induction n as [|n IH]; intros d v Hl; cbn [rep_stosl].
  { rewrite decide_False by lia. done. }
  rewrite Hlo, Hhi, IH by (rewrite ?length_insert; lia).
  destruct (decide (k = d)) as [->|H0].
  { rewrite decide_False, decide_True by lia. by rewrite list_lookup_insert_ne, list_lookup_insert_eq by lia. }
  destruct (decide (k = S d)) as [->|H1].
  { rewrite decide_False, decide_True by lia. by rewrite list_lookup_insert_eq by (rewrite length_insert; lia). }
  repeat case_decide; try lia; rewrite ?list_lookup_insert_ne by lia; done.
Qed.

Lemma make_vgaentry_range ch col : 0 <= col < 256 -> 0 <= make_vgaentry ch col < 65536.
Proof. intros Hc. pose proof (u8_range ch). unfold make_vgaentry. rewrite lor_shiftl_add by lia. lia. Qed.

(** What the console keeps: 2000 cells, the cursor on the screen. *)
Definition on_screen (c : console) : Prop :=
  length (vga_buffer c) = 2000%nat /\ 0 <= cursor_x c < 80 /\ 0 <= cursor_y c < 25 /\ 0 <= color c < 256.

Definition blank (c : console) : Z := make_vgaentry 32 (color c).

(** The two string instructions move the screen one line up. *)
Lemma scroll_shifts c :
  length (vga_buffer c) = 2000%nat -> 0 <= color c < 256 -> 25 <= cursor_y c ->
  scroll c = set_cursor (cursor_x c) 24 (set_cells (drop 80 (vga_buffer c) ++ replicate 80 (blank c)) c).
Proof.
  intros Hl Hc Hy. unfold scroll. change VGA_HEIGHT with 25. rewrite (proj2 (Z.leb_le 25 _)) by done.
  change (25 - 1) with 24. f_equal. f_equal. apply list_eq. intros k.
  change (Z.to_nat (VGA_WIDTH * 24 / 2)) with 960%nat. change (Z.to_nat (VGA_WIDTH / 2)) with 40%nat.
  change (Z.to_nat (24 * VGA_WIDTH)) with 1920%nat. change (Z.to_nat VGA_WIDTH) with 80%nat.
  rewrite rep_stosl_lookup by (rewrite ?length_rep_movsl, ?Hl; try lia; by apply make_vgaentry_range).
  assert (Hd : length (drop 80 (vga_buffer c)) = 1920%nat) by (rewrite length_drop; lia).
  destruct (Nat.lt_ge_cases k 1920).
  - rewrite decide_False, rep_movsl_lookup, decide_True by lia.
    rewrite lookup_app_l, lookup_drop by lia. f_equal. lia.
  - rewrite lookup_app_r, Hd by lia. case_decide.
    + rewrite lookup_replicate_2 by lia. done.
    + rewrite rep_movsl_lookup, decide_False by lia.
      rewrite !lookup_ge_None_2 by (rewrite ?length_replicate; lia). done.
Qed.

(** ** Output keeps the cursor on the screen *)

Lemma scroll_on_screen c :
  length (vga_buffer c) = 2000%nat -> 0 <= cursor_x c < 80 -> 0 <= cursor_y c <= 25 -> 0 <= color c < 256 ->
  on_screen (scroll c).
Proof.
  intros Hl Hx Hy Hc. destruct (decide (cursor_y c = 25)) as [E|Hne].
  - rewrite scroll_shifts by lia. split; [|cbn; lia]. cbn [vga_buffer set_cursor set_cells].
    rewrite length_app, length_drop, length_replicate. lia.
  - unfold scroll. change VGA_HEIGHT with 25. replace (25 <=? cursor_y c) with false by lia. split; [done|lia].
Qed.

Lemma scroll_idle c : on_screen c -> scroll c = c.
Proof. intros (_ & _ & Hy & _). unfold scroll. change VGA_HEIGHT with 25. by replace (25 <=? cursor_y c) with false by lia. Qed.

Lemma putchar_on_screen c ch : on_screen c -> on_screen (io_putchar_nocursor c ch).
Proof.
  intros (Hl & Hx & Hy & Hc). pose proof (land_not_mask (u32 (cursor_x c + 8)) 3 (u32_range _) ltac:(lia)) as Htab.
  change (Z.ones 3) with 7 in Htab. rewrite u32_small in Htab at 2 by lia. change (2 ^ 3) with 8 in Htab.
  unfold io_putchar_nocursor, wrap_line, VGA_WIDTH. apply scroll_on_screen; repeat case_if; cbn in *; rewrite ?length_insert;
    bool_to_prop; try done; rewrite ?Htab in *; try lia; zlia.
Qed.

Lemma update_hw_cursor_screen c : on_screen c -> on_screen (update_hw_cursor c).
Proof. by destruct c. Qed.

(** Consoles that differ at most in the cursor registers of the hardware, which
    the code never reads, behave alike. *)
Definition same_screen : relation console := fun c d =>
  vga_buffer c = vga_buffer d /\ cursor_x c = cursor_x d /\ cursor_y c = cursor_y d /\ color c = color d /\
  crt_start c = crt_start d /\ crt_end c = crt_end d.

#[export] Instance same_screen_equiv : Equivalence same_screen.
Proof.
  split; [done|intros c d; unfold same_screen; naive_solver|].
  intros c d e. unfold same_screen. intros (-> & -> & -> & -> & -> & ->). done.
Qed.

#[export] Instance set_cursor_proper x y : Proper (same_screen ==> same_screen) (set_cursor x y).
Proof. intros c d (? & ? & ? & ? & ? & ?). done. Qed.
#[export] Instance set_cells_proper v : Proper (same_screen ==> same_screen) (set_cells v).
Proof. intros c d (? & ? & ? & ? & ? & ?). done. Qed.
#[export] Instance put_char_at_proper ch x y : Proper (same_screen ==> same_screen) (put_char_at ch x y).
Proof. intros c d H. unfold put_char_at. pose proof H as (-> & _ & _ & -> & _). by rewrite H. Qed.
#[export] Instance wrap_line_proper : Proper (same_screen ==> same_screen) wrap_line.
Proof. intros c d H. unfold wrap_line. pose proof H as (_ & -> & -> & _). case_if; [by rewrite H|done]. Qed.
#[export] Instance scroll_proper : Proper (same_screen ==> same_screen) scroll.
Proof. intros c d H. unfold scroll. pose proof H as (-> & -> & -> & -> & _). case_if; [by rewrite H|done]. Qed.
#[export] Instance putchar_proper : Proper (same_screen ==> (=) ==> same_screen) io_putchar_nocursor.
Proof.
  intros c d H ch ? <-. unfold io_putchar_nocursor. apply scroll_proper. pose proof H as (_ & Hx & Hy & _).
  rewrite Hx, Hy. repeat case_if; solve [exact H | rewrite H; reflexivity].
Qed.
#[export] Instance update_proper : Proper (same_screen ==> (=)) update_hw_cursor.
Proof. intros c d (? & ? & ? & ? & ? & ?). destruct c, d. cbn in *. by subst. Qed.

Lemma update_same c : same_screen (update_hw_cursor c) c.
Proof. by destruct c. Qed.

Lemma print_char_fast c ch : on_screen c -> print_char c ch = io_putchar_nocursor c ch.
Proof.
  intros Hc. unfold print_char. case_if; [|done]. bool_to_prop. unfold io_putchar_nocursor, VGA_WIDTH in *.
  replace (ch =? 10) with false by lia. replace (ch =? 13) with false by lia. replace (ch =? 9) with false by lia.
  replace (ch =? 8) with false by lia. unfold wrap_line, VGA_WIDTH. cbn [cursor_x set_cursor].
  replace (80 <=? cursor_x c + 1) with false by lia. symmetry. apply scroll_idle.
  destruct Hc as (Hl & Hx & Hy & Hcol). split; [cbn; by rewrite length_insert|cbn; lia].
Qed.

(** The cursor registers show the software cursor. *)
Definition hw_cursor (c : console) : Z := crt_high c * 256 + crt_low c.

Lemma update_shows c : on_screen c -> hw_cursor (update_hw_cursor c) = cursor_y c * 80 + cursor_x c.
Proof.
  intros (_ & Hx & Hy & _). destruct c as [v x y col i st en hi lo]. unfold hw_cursor.
  cbn [cursor_x cursor_y vga_buffer color update_hw_cursor outb crt_high crt_low Z.eqb Pos.eqb] in *.
  change 0xFF with (Z.ones 8). rewrite !Z.land_ones, Z.shiftr_div_pow2 by lia. unfold u16, VGA_WIDTH.
  rewrite (Z.mod_small (y * 80 + x)) by lia. change (2 ^ 8) with 256. rewrite !u8_small by zlia. zlia.
Qed.

Lemma print_fold str c :
  on_screen c ->
  on_screen (fold_left print_char str c) /\ fold_left print_char str c = fold_left io_putchar_nocursor str c.
Proof.
  revert c. induction str as [|ch str IH]; intros c Hc; [done|]. cbn [fold_left].
  rewrite print_char_fast by done. apply IH. by apply putchar_on_screen.
Qed.

Lemma putchar_fold str c d :
  same_screen c d -> same_screen (fold_left io_putchar str c) (fold_left io_putchar_nocursor str d).
Proof.
  revert c d. induction str as [|ch str IH]; intros c d H; [done|]. cbn [fold_left].
  apply IH. unfold io_putchar. by rewrite update_same, H.
Qed.

(** The last [io_putchar] leaves the hardware cursor up to date. *)
Lemma putchars_fold str c :
  str <> [] -> fold_left io_putchar str c = update_hw_cursor (fold_left io_putchar_nocursor str c).
Proof.
  destruct str as [|ch str _] using rev_ind; [done|]. intros _. rewrite !fold_left_app. cbn [fold_left].
  unfold io_putchar at 1. by rewrite (putchar_fold str c c).
Qed.

(** C25. On a console whose cursor is on the screen, [io_print], with its fast
    path and its single update of the hardware cursor, has exactly the effect of
    [io_putchar] on each character in turn, scrolling included; the cursor stays
    on the screen and the hardware shows it. *)
Theorem io_print_is_putchars str c :
  on_screen c ->
  io_print str c = update_hw_cursor (fold_left io_putchar str c) /\
  on_screen (io_print str c) /\ hw_cursor (io_print str c) = cursor_y (io_print str c) * 80 + cursor_x (io_print str c).
Proof.
  intros Hc. destruct (print_fold str c Hc) as [Hs Hf]. unfold io_print. split; [by rewrite Hf, (putchar_fold str c c)|].
  split; [by apply update_hw_cursor_screen|]. rewrite update_shows by done. by destruct (fold_left print_char str c).
Qed.

Definition screen0 : console := io_init (mk_console (replicate 2000 0) 0 0 0 0 0 0 0 0).

Lemma screen0_on : on_screen screen0.
Proof. split; [vm_compute; reflexivity|]. vm_compute. split_and!; congruence. Qed.

Lemma io_print_is_putchars_witness :
  io_print (replicate 2100 65 ++ [9; 8; 10; -3]) screen0 =
  update_hw_cursor (fold_left io_putchar (replicate 2100 65 ++ [9; 8; 10; -3]) screen0).
Proof. exact (proj1 (io_print_is_putchars (replicate 2100 65 ++ [9; 8; 10; -3]) screen0 screen0_on)). Defined.

(** ** Printed text *)

Definition position (c : console) : Z := cursor_y c * 80 + cursor_x c.

Lemma putchar_printable c ch :
  on_screen c -> 32 <= ch < 127 -> position c + 1 < 2000 ->
  let c' := io_putchar_nocursor c ch in
  position c' = position c + 1 /\ color c' = color c /\
  vga_buffer c' = <[Z.to_nat (position c) := make_vgaentry ch (color c)]> (vga_buffer c).
Proof.
  intros Hc Hch Hp. pose proof (putchar_on_screen c ch Hc) as Hs. destruct Hc as (Hl & Hx & Hy & Hcol).
  cbv zeta. revert Hs. unfold io_putchar_nocursor, position in *.
  replace (ch =? 10) with false by lia. replace (ch =? 13) with false by lia. replace (ch =? 9) with false by lia.
  replace (ch =? 8) with false by lia. intros _.
  set (d := wrap_line _). assert (Hd : cursor_y d * 80 + cursor_x d = cursor_y c * 80 + cursor_x c + 1 /\ color d = color c /\
    0 <= cursor_x d < 80 /\ vga_buffer d = <[Z.to_nat (cursor_y c * 80 + cursor_x c) := make_vgaentry ch (color c)]> (vga_buffer c)).
  { unfold d, wrap_line, put_char_at. change VGA_WIDTH with 80. rewrite u32_small by lia.
    cbn [cursor_x set_cursor]. case_if; bool_to_prop; cbn; split_and!; done || lia. }
  destruct Hd as (Hpos & Hdc & Hdx & Hdv). rewrite scroll_idle; [done|]. split; [by rewrite Hdv, length_insert|].
  rewrite Hdc. lia.
Qed.

(** Printable text that fits on the screen appears in consecutive cells from
    the cursor on, in the current colour and across line ends; every other cell
    is unchanged and the cursor stands behind the text. *)
Theorem io_print_text str c :
  on_screen c -> Forall (fun ch => 32 <= ch < 127) str -> position c + Z.of_nat (length str) < 2000 ->
  let c' := io_print str c in
  let p := Z.to_nat (position c) in
  position c' = position c + Z.of_nat (length str) /\
  forall k, vga_buffer c' !! k =
    if decide (p <= k < p + length str)%nat then (fun ch => make_vgaentry ch (color c)) <$> str !! (k - p)%nat
    else vga_buffer c !! k.
Proof.
  intros Hc Hstr Hfit. unfold io_print. destruct (print_fold str c Hc) as [_ Hf]. rewrite Hf. clear Hf.
  assert (Hupd : forall d, position (update_hw_cursor d) = position d /\ vga_buffer (update_hw_cursor d) = vga_buffer d)
    by (by intros []).
  cbv zeta. rewrite (proj1 (Hupd _)), (proj2 (Hupd _)). clear Hupd.
  revert c Hc Hfit. induction Hstr as [|ch str Hch Hstr IH]; intros c Hc Hfit; cbn [fold_left length] in *.
  { split; [lia|]. intros k. by rewrite decide_False by lia. }
  destruct (putchar_printable c ch Hc Hch ltac:(lia)) as (Hp & Hcol & Hv).
  destruct (IH (io_putchar_nocursor c ch)) as [Hpos Hk]; [by apply putchar_on_screen|lia|].
  split; [lia|]. intros k. rewrite Hk, Hp, Hcol, Hv. destruct Hc as (Hl & Hx & Hy & _). unfold position in *.
  set (q := cursor_y c * 80 + cursor_x c) in *. assert (0 <= q) by lia.
  destruct (decide (k = Z.to_nat q)) as [->|Hne].
  - rewrite decide_False, decide_True by lia. rewrite list_lookup_insert_eq by lia. by rewrite Nat.sub_diag.
  - rewrite list_lookup_insert_ne by lia. repeat case_decide; try lia; [|done].
    replace (k - Z.to_nat q)%nat with (S (k - Z.to_nat (q + 1))) by lia. done.
Qed.

Lemma io_print_text_witness :
  vga_buffer (io_print (replicate 85 66) screen0) !! 81%nat = Some 0x0742.
Proof.
  pose proof (io_print_text (replicate 85 66) screen0 screen0_on) as H. cbv zeta in H.
  destruct H as [_ H].
  - apply Forall_forall. intros x Hx. apply elem_of_replicate in Hx as [-> _]. lia.
  - vm_compute. reflexivity.
  - rewrite H. vm_compute. reflexivity.
Defined.

(** ** Typing *)

(** The characters [io_getchar] gives for a sequence of scan codes. *)
Fixpoint feed (k : kbd) (codes : list Z) : list Z * kbd :=
  match codes with
  | [] => ([], k)
  | sc :: codes' =>
      let '(ch, k1) := io_getchar k 1 sc in
      let '(chs, k2) := feed k1 codes' in
      (if ch =? 0 then chs else ch :: chs, k2)
  end.

(** The scan codes (set 1) of one key stroke for a character: the key is found
    in the table; a shifted key is pressed and released inside a shift. *)
Definition arrow_code (ch : Z) : Z := if ch =? KEY_UP then 0x48 else if ch =? KEY_DOWN then 0x50 else if ch =? KEY_LEFT then 0x4B else 0x4D.
Definition stroke (caps : bool) (ch : Z) : list Z :=
  if ch <? 5 then [0xE0; arrow_code ch; 0xE0; arrow_code ch + 0x80] else
  match find_from (fun n => key_char false caps (Z.of_nat n) =? ch) 0 128 with
  | Some n => [Z.of_nat n; Z.of_nat n + 0x80]
  | None => match find_from (fun n => key_char true caps (Z.of_nat n) =? ch) 0 128 with
            | Some n => [0x2A; Z.of_nat n; Z.of_nat n + 0x80; 0xAA]
            | None => []
            end
  end.

Definition typeable (ch : Z) : bool :=
  ((1 <=? ch) && (ch <=? 4)) || ((8 <=? ch) && (ch <=? 10)) || ((32 <=? ch) && (ch <? 127)).
Definition idle (caps : bool) : kbd := mk_kbd false caps false.

Lemma feed_app k l1 l2 :
  feed k (l1 ++ l2) = let '(a, k1) := feed k l1 in let '(b, k2) := feed k1 l2 in (a ++ b, k2).
Proof.
  revert k. induction l1 as [|sc l1 IH]; intros k; cbn [feed app]; [by destruct (feed k l2)|].
  destruct (io_getchar k 1 sc) as [ch k1]. rewrite IH. destruct (feed k1 l1) as [a k2].
  destruct (feed k2 l2) as [b k3]. by case_if.
Qed.

(** Checked for every character and both settings of caps lock. *)
Lemma stroke_ok caps ch : typeable ch = true -> feed (idle caps) (stroke caps ch) = ([ch], idle caps).
Proof.
  intros Ht. assert (Hall : forallb (fun n => let c := Z.of_nat n in implb (typeable c)
    (match feed (idle caps) (stroke caps c) with
     | ([d], mk_kbd false caps' false) => (d =? c) && eqb caps' caps | _ => false end)) (seq 0 127) = true)
    by (destruct caps; vm_compute; reflexivity).
  rewrite forallb_forall in Hall. specialize (Hall (Z.to_nat ch)). cbv zeta in Hall.
  rewrite Z2Nat.id in Hall by (unfold typeable in Ht; lia). rewrite Ht in Hall.
  assert (Hin : In (Z.to_nat ch) (seq 0 127)) by (apply in_seq; unfold typeable in Ht; lia).
  specialize (Hall Hin). cbn [implb] in Hall.
  destruct (feed (idle caps) (stroke caps ch)) as [[|d [|? ?]] [[] caps' []]]; try done.
  apply andb_true_iff in Hall as [Hd Hc]. apply Z.eqb_eq in Hd. apply eqb_prop in Hc. by subst.
Qed.

(** [io_getchar] gives no other character. *)
Lemma getchar_typeable k status sc : let ch := fst (io_getchar k status sc) in ch = 0 \/ typeable ch = true.
Proof.
  assert (forall shift caps code, 0 <= code < 128 -> key_char shift caps code = 0 \/ typeable (key_char shift caps code) = true) as Hkey.
  { intros shift caps code Hc. assert (forallb (fun n => let ch := key_char shift caps (Z.of_nat n) in (ch =? 0) || typeable ch) (seq 0 128) = true)
      as Hall by (destruct shift, caps; vm_compute; reflexivity).
    rewrite forallb_forall in Hall. specialize (Hall (Z.to_nat code) ltac:(apply in_seq; lia)). cbv zeta in Hall.
    rewrite Z2Nat.id in Hall by lia. apply orb_true_iff in Hall as [Hz|Ht]; [left; lia|by right]. }
  cbv zeta. unfold io_getchar. repeat case_if; cbn [fst]; try (by left); try (by right). apply Hkey.
  change 0x7F with (Z.ones 7). rewrite Z.land_ones by lia. apply Z.mod_pos_bound. lia.
Qed.

(** The keyboard driver decodes what is typed: for every text of printable
    characters, newlines, tabs, backspaces and arrow keys, the scan codes of its
    key strokes, with the shifts they need under either caps lock setting, make
    [io_getchar] return exactly that text and leave no modifier pressed. *)
Theorem typing_roundtrip caps text :
  Forall (fun ch => typeable ch = true) text ->
  feed (idle caps) (concat (map (stroke caps) text)) = (text, idle caps).
Proof.
  induction 1 as [|ch text Hch _ IH]; [done|]. cbn [map concat]. by rewrite feed_app, stroke_ok, IH.
Qed.

(** "Hi /~" and an arrow, with caps lock on. *)
Lemma typing_roundtrip_witness :
  feed (idle true) (concat (map (stroke true) [72; 105; 32; 47; 126; 1])) = ([72; 105; 32; 47; 126; 1], idle true).
Proof. apply (typing_roundtrip true). repeat (apply Forall_cons; split; [reflexivity|]). constructor. Defined.
