(* ===== verification/Serial.v ===== *)
(** * serial.c, the serial debug port

    The state is what left the machine: the bytes on the QEMU debug console
    (port 0xE9) and on COM1.  The UART is not part of the source: the number of
    polls for which its transmitter stays busy before the next byte is a
    function of the bytes sent so far.  The configuration written by
    [serial_init] is kept as the list of register writes. *)
From Stdlib Require Import String Ascii.
From S2P Require Import Prelude.

(** A C string literal. *)
Fixpoint str (s : string) : list Z :=
  match s with
  | EmptyString => []
  | String c s' => Z.of_nat (nat_of_ascii c) :: str s'
  end.

Definition SERIAL_THR : Z := 0.
Definition SERIAL_IER : Z := 1.
Definition SERIAL_FCR : Z := 2.
Definition SERIAL_LCR : Z := 3.
Definition SERIAL_MCR : Z := 4.

Record serial := mk_serial {
  serial_initialized : bool; debugcon : list Z; com1 : list Z; uart_writes : list (Z * Z)
}.

Section Serial.
Context (busy : list Z -> nat).

(** [while (!serial_is_transmit_empty() && timeout-- > 0);] where the
    transmitter is busy for [n] polls; the timeout left. *)
Fixpoint wait_transmit (n : nat) (timeout : Z) : Z :=
  match n with
  | O => timeout
  | S n' => if 0 <? timeout then wait_transmit n' (timeout - 1) else timeout - 1
  end.

Definition serial_write_byte (byte : Z) (s : serial) : serial :=
  let dbg := debugcon s ++ [u8 byte] in
  let timeout := wait_transmit (busy (com1 s)) 10000 in
  mk_serial (serial_initialized s) dbg
    (if timeout <=? 0 then com1 s else com1 s ++ [u8 byte]) (uart_writes s).

Definition serial_write_str (bytes : list Z) (s : serial) : serial :=
  fold_left (fun s b => serial_write_byte b s) bytes s.

Definition serial_writeln (bytes : list Z) (s : serial) : serial :=
  serial_write_byte 10 (serial_write_byte 13 (serial_write_str bytes s)).

Definition uart_outb (reg v : Z) (s : serial) : serial :=
  mk_serial (serial_initialized s) (debugcon s) (com1 s) (uart_writes s ++ [(reg, v)]).

Definition serial_init (s : serial) : serial :=
  let s := uart_outb SERIAL_LCR 0x80 s in
  let s := uart_outb SERIAL_THR 0x03 s in
  let s := uart_outb SERIAL_IER 0x00 s in
  let s := uart_outb SERIAL_LCR 0x03 s in
  let s := uart_outb SERIAL_IER 0x00 s in
  let s := uart_outb SERIAL_FCR 0xC7 s in
  let s := uart_outb SERIAL_MCR 0x0B s in
  let s := mk_serial true (debugcon s) (com1 s) (uart_writes s) in
  serial_write_str (10 :: str "[Tinx Serial Debug Initialized]" ++ [10]) s.

Definition hex_chars : list Z := str "0123456789ABCDEF".
Definition serial_write_hex_digit (nibble : Z) (s : serial) : serial :=
  serial_write_byte (hex_chars !!! Z.to_nat (Z.land nibble 0xF)) s.

Definition serial_write_hex32 (value : Z) (s : serial) : serial :=
  let s := serial_write_str (str "0x") s in
  let s := serial_write_hex_digit (Z.land (Z.shiftr value 28) 0xF) s in
  let s := serial_write_hex_digit (Z.land (Z.shiftr value 24) 0xF) s in
  let s := serial_write_hex_digit (Z.land (Z.shiftr value 20) 0xF) s in
  let s := serial_write_hex_digit (Z.land (Z.shiftr value 16) 0xF) s in
  let s := serial_write_hex_digit (Z.land (Z.shiftr value 12) 0xF) s in
  let s := serial_write_hex_digit (Z.land (Z.shiftr value 8) 0xF) s in
  let s := serial_write_hex_digit (Z.land (Z.shiftr value 4) 0xF) s in
  serial_write_hex_digit (Z.land value 0xF) s.

Definition serial_write_hex8 (value : Z) (s : serial) : serial :=
  let s := serial_write_str (str "0x") s in
  let s := serial_write_hex_digit (Z.land (Z.shiftr value 4) 0xF) s in
  serial_write_hex_digit (Z.land value 0xF) s.

(** The digits into the buffer, least significant first; [None] when [fuel]
    steps, the size of the buffer, are not enough. *)
Fixpoint dec_digits (fuel : nat) (value : Z) (buf : list Z) : option (list Z) :=
  if 0 <? value then
    match fuel with
    | O => None
    | S f => dec_digits f (value / 10) (buf ++ [48 + value mod 10])
    end
  else Some buf.

(** [None]: a write behind the end of [buf]. *)
Definition serial_write_dec32 (value : Z) (s : serial) : option serial :=
  if value =? 0 then Some (serial_write_byte 48 s) else
  buf ← dec_digits 12 value [];
  Some (serial_write_str (rev buf) s).
End Serial.

(** ** What is written *)
Section SerialCorrect.
Context (busy : list Z -> nat).

Lemma write_str_debug bytes s :
  debugcon (serial_write_str busy bytes s) = debugcon s ++ map u8 bytes.
Proof.
  revert s. induction bytes as [|b bytes IH]; intros s; cbn [serial_write_str fold_left map]; [by rewrite app_nil_r|].
  fold (serial_write_str busy bytes (serial_write_byte busy b s)). rewrite IH. cbn. by rewrite <- app_assoc.
Qed.

(** The value a decimal or hexadecimal numeral stands for. *)
Definition digit_value (c : Z) : Z := if c <? 65 then c - 48 else c - 55.
Definition numeral (base : Z) (ds : list Z) : Z := fold_left (fun n c => n * base + digit_value c) ds 0.

Lemma numeral_app base ds c : numeral base (ds ++ [c]) = numeral base ds * base + digit_value c.
Proof. unfold numeral. by rewrite fold_left_app. Qed.

Lemma dec_digits_spec n fuel value buf :
  0 <= value < 10 ^ Z.of_nat n -> (n <= fuel)%nat ->
  exists ds, dec_digits fuel value buf = Some (buf ++ ds) /\ (length ds <= n)%nat /\ numeral 10 (rev ds) = value /\
    Forall (fun c => 48 <= c <= 57) ds /\ (ds <> [] -> last ds <> Some 48).
Proof.
  revert fuel value buf. induction n as [|n IH]; intros fuel value buf Hv Hf.
  { exists []. change (10 ^ Z.of_nat 0) with 1 in Hv. replace value with 0 by lia.
    destruct fuel; cbn; rewrite app_nil_r; split_and!; done || constructor. }
  destruct (0 <? value) eqn:E; bool_to_prop.
  2: { exists []. replace value with 0 by lia. destruct fuel; cbn; rewrite app_nil_r; split_and!; done || lia || constructor. }
  destruct fuel as [|fuel]; [lia|]. cbn [dec_digits]. replace (0 <? value) with true by lia.
  rewrite Nat2Z.inj_succ, Z.pow_succ_r in Hv by lia.
  destruct (IH fuel (value / 10) (buf ++ [48 + value mod 10])) as (ds & He & Hl & Hn & Hd & Hlast); [zlia|lia|].
  exists ((48 + value mod 10) :: ds). rewrite He, <- app_assoc. split_and!; [done|cbn; lia| |constructor; [zlia|done]|].
  - cbn [rev]. rewrite numeral_app, Hn. unfold digit_value. replace (_ <? 65) with true by zlia. zlia.
  - intros _. destruct ds as [|d ds]; [cbn; intros [=]|]; [|cbn [last]; apply Hlast; done].
    cbn in Hn. zlia.
Qed.

(** [serial_write_dec32] never overruns its twelve-byte buffer: for every
    32-bit value it terminates and writes at most ten decimal digits, without a
    leading zero, which read back as the value. *)
Theorem write_dec32_roundtrip value s :
  0 <= value < 2 ^ 32 ->
  exists s' ds, serial_write_dec32 busy value s = Some s' /\ debugcon s' = debugcon s ++ ds /\
    (1 <= length ds <= 10)%nat /\ numeral 10 ds = value /\ (head ds = Some 48 -> value = 0).
Proof.
  intros Hv. unfold serial_write_dec32. case_if; bool_to_prop.
  { subst. eexists _, [48]. cbn. split_and!; done || lia. }
  destruct (dec_digits_spec 10 12 value []) as (ds & -> & Hl & Hn & Hd & Hlast); [lia|lia|].
  cbn [mbind option_bind app]. eexists _, (rev ds). split; [done|]. rewrite write_str_debug.
  assert (Hne : ds <> []) by (intros ->; cbn in Hn; lia). split_and!.
  - f_equal. rewrite <- (map_id (rev ds)) at 2. apply map_ext_in. intros c Hc. apply u8_small.
    rewrite <- in_rev in Hc. rewrite Forall_forall in Hd. apply list_elem_of_In, Hd in Hc. lia.
  - rewrite length_rev. destruct ds; [done|cbn; lia].
  - by rewrite length_rev.
  - done.
  - intros Hh. exfalso. apply (Hlast Hne). rewrite <- (rev_involutive ds). destruct (rev ds) as [|c l]; [done|].
    cbn in *. injection Hh as ->. apply last_snoc.
Qed.
End SerialCorrect.

Lemma write_dec32_roundtrip_witness : exists s' ds,
  serial_write_dec32 (fun _ => 3%nat) 4294967295 (mk_serial true [] [] []) = Some s' /\ debugcon s' = [] ++ ds /\
  numeral 10 ds = 4294967295.
Proof.
  destruct (write_dec32_roundtrip (fun _ => 3%nat) 4294967295 (mk_serial true [] [] [])) as (s' & ds & H1 & H2 & _ & H3 & _); [lia|].
  exists s', ds. exact (conj H1 (conj H2 H3)).
Defined.
