(* ===== verification/Syscall.v ===== *)
(** * syscall.c: the int 0x80 layer

    The kernel state puts the components together: the IPC and scheduler state,
    the file system with the memory its buffers live in, the console, the
    keyboard with the scan codes waiting in the controller, the serial port and
    the break.  A handler returns a value, halts the machine or dereferences a
    bad pointer.  User buffers are in the memory of the file system ([kmem]); the
    other variables of the kernel have no address here.  The code refuses only
    pointers below 0x1000, so a call with a pointer to these variables would
    overwrite them: such calls are not modelled.  Registers the handlers do not
    use are left out.  A path
    argument is read up to its NUL within [path_fuel] bytes. *)
From Stdlib Require Import String.
From S2P Require Import Prelude Mem LibString Alloc Heap Tcb Ipc Path Bitmap UnnamedFs Vfs Io Serial.

Definition SYS_EXIT : Z := 1.
Definition SYS_FORK : Z := 2.
Definition SYS_READ : Z := 3.
Definition SYS_WRITE : Z := 4.
Definition SYS_OPEN : Z := 5.
Definition SYS_CLOSE : Z := 6.
Definition SYS_UNLINK : Z := 10.
Definition SYS_EXECVE : Z := 11.
Definition SYS_LSEEK : Z := 19.
Definition SYS_GETPID : Z := 20.
Definition SYS_BRK : Z := 45.
Definition SYS_SBRK : Z := 46.
Definition SYS_MKDIR : Z := 83.
Definition SYS_YIELD : Z := 158.
Definition SYS_SLEEP : Z := 162.
Definition SYS_IPC_SEND : Z := 200.
Definition SYS_IPC_RECV : Z := 201.
Definition SYS_IPC_REPLY : Z := 202.
Definition SYS_GETTID : Z := 205.
Definition SBRK_HEAP_SIZE : Z := 0x200000.

Record regs := mk_regs { eax : Z; ebx : Z; ecx : Z; edx : Z }.

(** ** Messages in user memory: nine words *)
Definition load_message (m : mem) (p : Z) : message :=
  mk_message (i32 (load32 m p)) (i32 (load32 m (p + 4))) (load32 m (p + 8)) (load32 m (p + 12))
    [load32 m (p + 16); load32 m (p + 20); load32 m (p + 24); load32 m (p + 28)] (load32 m (p + 32)).
Fixpoint store_words (m : mem) (p : Z) (ws : list Z) : mem :=
  match ws with [] => m | w :: ws' => store_words (store32 m p (u32 w)) (p + 4) ws' end.
Definition store_message (m : mem) (p : Z) (g : message) : mem :=
  store_words m p (sender_tid g :: receiver_tid g :: msg_type g :: msg_id g :: payload g ++ [msg_flags g]).

(** A C string, if it ends within [n] bytes. *)
Fixpoint c_string (n : nat) (m : mem) (a : Z) : option (list Z) :=
  match n with
  | O => None
  | S n' => if m.[a] =? 0 then Some [] else cons m.[a] <$> c_string n' m (a + 1)
  end.

Section Syscall.
Context {A : Type} `{!Allocator A}.
Context (_kernel_end : Z) (busy : list Z -> nat) (path_fuel : nat).

Record kernel := mk_kernel {
  k_ipc : ipc A; k_vfs : vfs; k_con : console; k_kbd : kbd; k_keys : list Z; k_serial : serial;
  sbrk_heap_ptr : Z; sbrk_heap_end : Z; sbrk_initialized : bool
}.
Inductive outcome := Ret (r : Z) (k : kernel) | Halt (k : kernel) | Fault.

Definition with_ipc (x : ipc A) (k : kernel) : kernel :=
  mk_kernel x (k_vfs k) (k_con k) (k_kbd k) (k_keys k) (k_serial k) (sbrk_heap_ptr k) (sbrk_heap_end k) (sbrk_initialized k).
Definition with_vfs (s : vfs) (k : kernel) : kernel :=
  mk_kernel (k_ipc k) s (k_con k) (k_kbd k) (k_keys k) (k_serial k) (sbrk_heap_ptr k) (sbrk_heap_end k) (sbrk_initialized k).
Definition with_con (c : console) (k : kernel) : kernel :=
  mk_kernel (k_ipc k) (k_vfs k) c (k_kbd k) (k_keys k) (k_serial k) (sbrk_heap_ptr k) (sbrk_heap_end k) (sbrk_initialized k).
Definition with_keys (b : kbd) (l : list Z) (k : kernel) : kernel :=
  mk_kernel (k_ipc k) (k_vfs k) (k_con k) b l (k_serial k) (sbrk_heap_ptr k) (sbrk_heap_end k) (sbrk_initialized k).
Definition with_serial (s : serial) (k : kernel) : kernel :=
  mk_kernel (k_ipc k) (k_vfs k) (k_con k) (k_kbd k) (k_keys k) s (sbrk_heap_ptr k) (sbrk_heap_end k) (sbrk_initialized k).
Definition with_break (ptr brk : Z) (k : kernel) : kernel :=
  mk_kernel (k_ipc k) (k_vfs k) (k_con k) (k_kbd k) (k_keys k) (k_serial k) ptr brk true.

Definition kmem (k : kernel) : mem := dmem (k_vfs k).
Definition with_kmem (m : mem) (k : kernel) : kernel := with_vfs (with_dmem m (k_vfs k)) k.

(** Logging. *)
Definition log (bytes : list Z) (k : kernel) : kernel := with_serial (serial_write_str busy bytes (k_serial k)) k.
Definition logln (bytes : list Z) (k : kernel) : kernel := with_serial (serial_writeln busy bytes (k_serial k)) k.
Definition log_hex (v : Z) (k : kernel) : kernel := with_serial (serial_write_hex32 busy v (k_serial k)) k.
Definition log_dec (v : Z) (k : kernel) : option kernel :=
  s ← serial_write_dec32 busy v (k_serial k); Some (with_serial s k).
Definition print (bytes : list Z) (k : kernel) : kernel := with_con (io_print bytes (k_con k)) k.

Definition ret (r : option (Z * kernel)) : outcome := match r with Some (v, k) => Ret v k | None => Fault end.

(** ** Break *)

Definition sbrk_init (k : kernel) : kernel :=
  if sbrk_initialized k then k else
  let base := Z.land (u32 (_kernel_end + 0xFFF)) (u32 (Z.lnot 0xFFF)) in
  let k := with_break base base k in
  logln [] (log_hex base (log (str "[SYSCALL] sbrk heap base=0x") k)).

Definition handle_sbrk (r : regs) (k : kernel) : outcome :=
  let incr := i32 (ebx r) in
  let k := sbrk_init k in
  if negb (sbrk_initialized k) then Ret (-1) k else
  let old := sbrk_heap_end k in
  if incr =? 0 then Ret (i32 old) k else
  if incr <? 0 then
    if i32 (i32 (sbrk_heap_end k) + incr) <? i32 (sbrk_heap_ptr k) then Ret (-1) k
    else Ret (i32 old) (with_break (sbrk_heap_ptr k) (u32 (sbrk_heap_end k + incr)) k)
  else
    let new_brk := u32 (sbrk_heap_end k + incr) in
    if u32 (sbrk_heap_ptr k + SBRK_HEAP_SIZE) <? new_brk then Ret (-1) (logln (str "[SYSCALL] sbrk out of memory") k)
    else Ret (i32 old) (with_break (sbrk_heap_ptr k) new_brk k).

Definition handle_brk (r : regs) (k : kernel) : outcome :=
  let new_brk := ebx r in
  let k := sbrk_init k in
  if new_brk =? 0 then Ret (i32 (sbrk_heap_end k)) k else
  let base := sbrk_heap_ptr k in
  if (new_brk <? base) || (u32 (base + SBRK_HEAP_SIZE) <? new_brk) then Ret (-1) k
  else Ret 0 (with_break base new_brk k).

(** ** Tasks *)

Definition TID_LIMIT : nat := Z.to_nat 4095.

(** The first tid from 1 to 4095 whose task satisfies [p], as its task. *)
Definition scan_tids (p : task_state -> bool) (s : sched A) : option nat :=
  tid ← find_from (fun tid => match tcb_get_by_tid s (Z.of_nat tid) with
                              | Some i => p (state_of s i) | None => false end) 1 TID_LIMIT;
  tcb_get_by_tid s (Z.of_nat tid).

Definition get_current_task (s : sched A) : option nat :=
  match scan_tids (fun st => bool_decide (st = TASK_STATE_RUNNING)) s with
  | Some i => Some i
  | None =>
      match scan_tids (fun st => bool_decide (st = TASK_STATE_READY)) s with
      | Some i => Some i
      | None => scan_tids (fun st => bool_decide (st <> TASK_STATE_FREE) && bool_decide (st <> TASK_STATE_ZOMBIE)) s
      end
  end.

Definition ktid (k : kernel) (i : nat) : Z := tid_of (k_ipc k) i.
Definition current (k : kernel) : option nat := get_current_task (tasks (k_ipc k)).

(** kernel.c: disables interrupts, reports and halts. *)
Definition kernel_panic (message : list Z) (k : kernel) : outcome :=
  let k := with_ipc (set_tasks (hal_cli (tasks (k_ipc k))) (k_ipc k)) k in
  let k := logln [] k in
  let k := logln (str "========================================") k in
  let k := logln (str "!!! KERNEL PANIC !!!") k in
  let k := logln (str "========================================") k in
  let k := logln message (log (str "Reason: ") k) in
  let k := logln [] k in
  let k := logln (str "System halted. Please check serial output for CPU context.") k in
  let k := print ([10; 10] ++ str "*** KERNEL PANIC ***" ++ [10]) k in
  let k := print message k in
  let k := print ([10; 10] ++ str "System halted." ++ [10]) k in
  Halt (print (str "Check serial port for debug information." ++ [10]) k).

Definition handle_exit (r : regs) (k : kernel) : outcome :=
  match log_dec (ebx r) (log (str "[SYSCALL] sys_exit code=") k) with
  | None => Fault
  | Some k =>
      let k := logln [] k in
      match current k with
      | None => kernel_panic (str "sys_exit with no current task") k
      | Some cur =>
          match log_dec (u32 (ktid k cur)) (log (str "[SYSCALL] exiting tid ") k) with
          | None => Fault
          | Some k =>
              let k := logln [] k in
              let k := with_ipc (set_tasks (tcb_set_state (Some cur) TASK_STATE_ZOMBIE (tasks (k_ipc k))) (k_ipc k)) k in
              if ktid k cur =? 1
              then Halt (with_con (io_println (str "Task exited, system halted.") (k_con k)) k)
              else Ret 0 k
          end
      end
  end.

Definition handle_getpid (r : regs) (k : kernel) : outcome :=
  match current k with Some cur => Ret (ktid k cur) k | None => Ret 1 k end.

Definition handle_yield (r : regs) (k : kernel) : outcome := Ret 0 (logln (str "[SYSCALL] sys_yield") k).

(** ** Input and output *)

(** [for (i = 0; i < count; i++)] over a user buffer: to the console and the
    serial port, or to the serial port alone. *)
Fixpoint write_stdout (n : nat) (a : Z) (k : kernel) : kernel :=
  match n with
  | O => k
  | S n' =>
      let c := i8 (kmem k).[a] in
      let k := with_con (io_putchar (k_con k) c) k in
      write_stdout n' (u32 (a + 1)) (with_serial (serial_write_byte busy (u8 c) (k_serial k)) k)
  end.
Fixpoint write_stderr (n : nat) (a : Z) (k : kernel) : kernel :=
  match n with
  | O => k
  | S n' => write_stderr n' (u32 (a + 1)) (with_serial (serial_write_byte busy (kmem k).[a] (k_serial k)) k)
  end.

Definition handle_write (r : regs) (k : kernel) : outcome :=
  let fd := ebx r in let buf := ecx r in let count := edx r in
  if (buf =? 0) || (count =? 0) then Ret (-1) k else
  if buf <? 0x1000 then Ret (-1) k else
  if fd =? 1 then Ret (i32 count) (write_stdout (Z.to_nat count) buf k)
  else if fd =? 2 then Ret (i32 count) (write_stderr (Z.to_nat count) buf k)
  else if fd =? 0 then Ret (-1) k
  else let '(n, s) := vfs_write (i32 fd) buf count (k_vfs k) in Ret n (with_vfs s k).

(** [io_getchar] on the controller: a scan code is waiting or not. *)
Definition getchar (k : kernel) : Z * kernel :=
  match k_keys k with
  | [] => let '(c, b) := io_getchar (k_kbd k) 0 0 in (c, with_keys b [] k)
  | sc :: keys => let '(c, b) := io_getchar (k_kbd k) 1 sc in (c, with_keys b keys k)
  end.

(** Reads until no character is ready, a newline or [n] characters. *)
Fixpoint read_stdin (n : nat) (a : Z) (got : Z) (k : kernel) : Z * kernel :=
  match n with
  | O => (got, k)
  | S n' =>
      let '(c, k) := getchar k in
      if c =? 0 then (got, k) else
      let k := with_kmem (store8 (kmem k) a (u8 c)) k in
      if c =? 10 then (got + 1, k) else read_stdin n' (u32 (a + 1)) (got + 1) k
  end.

Definition handle_read (r : regs) (k : kernel) : outcome :=
  let fd := ebx r in let buf := ecx r in let count := edx r in
  if (buf =? 0) || (count =? 0) then Ret (-1) k else
  if buf <? 0x1000 then Ret (-1) k else
  if fd =? 0 then let '(got, k) := read_stdin (Z.to_nat count) buf 0 k in Ret (i32 got) k
  else let '(n, s) := vfs_read (i32 fd) buf count (k_vfs k) in Ret n (with_vfs s k).

Definition handle_open (r : regs) (k : kernel) : outcome :=
  if ebx r =? 0 then Ret (-1) k else
  if ebx r <? 0x1000 then Ret (-1) k else
  ret (path ← c_string path_fuel (kmem k) (ebx r);
       '(fd, s) ← vfs_open path (i32 (ecx r)) (k_vfs k);
       Some (fd, with_vfs s k)).

Definition handle_close (r : regs) (k : kernel) : outcome :=
  let '(n, s) := vfs_close (i32 (ebx r)) (k_vfs k) in Ret n (with_vfs s k).

Definition handle_lseek (r : regs) (k : kernel) : outcome :=
  ret ('(n, s) ← vfs_lseek (i32 (ebx r)) (i32 (ecx r)) (i32 (edx r)) (k_vfs k); Some (n, with_vfs s k)).

Definition handle_mkdir (r : regs) (k : kernel) : outcome :=
  if ebx r =? 0 then Ret (-1) k else
  if ebx r <? 0x1000 then Ret (-1) k else
  ret (path ← c_string path_fuel (kmem k) (ebx r);
       '(n, s) ← vfs_mkdir path (k_vfs k);
       Some (n, with_vfs s k)).

(** ** Messages *)

Definition handle_ipc_send (r : regs) (k : kernel) : outcome :=
  let sender_tid := ebx r in let receiver_tid := ecx r in let msg_ptr := edx r in
  if msg_ptr =? 0 then Ret (-1) k else
  if msg_ptr <? 0x1000 then Ret (-1) k else
  let from := if negb (sender_tid =? 0) then tcb_get_by_tid (tasks (k_ipc k)) (i32 sender_tid) else current k in
  let to_ := tcb_get_by_tid (tasks (k_ipc k)) (i32 receiver_tid) in
  match from, to_ with
  | Some _, Some _ =>
      let '(n, x) := ipc_send from to_ (Some (load_message (kmem k) msg_ptr)) (k_ipc k) in
      Ret n (with_ipc x k)
  | _, _ => Ret (-1) k
  end.

Definition handle_ipc_recv (r : regs) (k : kernel) : outcome :=
  let task_tid := ebx r in let msg_ptr := ecx r in let from_tid := edx r in
  if msg_ptr =? 0 then Ret (-1) k else
  if msg_ptr <? 0x1000 then Ret (-1) k else
  let task := if negb (task_tid =? 0) && negb (task_tid =? 0xFFFFFFFF)
              then tcb_get_by_tid (tasks (k_ipc k)) (i32 task_tid) else current k in
  match task with
  | None => Ret (-1) k
  | Some _ =>
      let '(n, out, x) := ipc_recv task (i32 from_tid) (k_ipc k) in
      let k := with_ipc x k in
      Ret n (match out with Some g => with_kmem (store_message (kmem k) msg_ptr g) k | None => k end)
  end.

Definition handle_ipc_reply (r : regs) (k : kernel) : outcome :=
  let to_tid := ebx r in let reply_ptr := ecx r in
  if reply_ptr =? 0 then Ret (-1) k else
  if reply_ptr <? 0x1000 then Ret (-1) k else
  match tcb_get_by_tid (tasks (k_ipc k)) (i32 to_tid) with
  | None => Ret (-1) k
  | to_ => let '(n, x) := ipc_reply to_ (Some (load_message (kmem k) reply_ptr)) (k_ipc k) in Ret n (with_ipc x k)
  end.

(** Not in the dispatch table. *)
Definition handle_kmalloc (r : regs) (k : kernel) : outcome :=
  ret ('(p, h) ← a_alloc (kheap (tasks (k_ipc k))) (ebx r);
       Some (i32 p, with_ipc (set_tasks (set_kheap h (tasks (k_ipc k))) (k_ipc k)) k)).

(** ** Dispatch *)

Definition unknown_syscall (r : regs) (k : kernel) : outcome :=
  match log_dec (eax r) (log (str "[SYSCALL] unknown syscall #") k) with
  | None => Fault
  | Some k =>
      let k := log_hex (eax r) (log (str " eax=0x") k) in
      let k := log_hex (ebx r) (log (str " ebx=0x") k) in
      let k := log_hex (ecx r) (log (str " ecx=0x") k) in
      Ret (-1) (logln [] k)
  end.

Definition dispatch (num : Z) (r : regs) (k : kernel) : outcome :=
  if num =? SYS_EXIT then handle_exit r k
  else if num =? SYS_READ then handle_read r k
  else if num =? SYS_WRITE then handle_write r k
  else if num =? SYS_OPEN then handle_open r k
  else if num =? SYS_CLOSE then handle_close r k
  else if num =? SYS_LSEEK then handle_lseek r k
  else if num =? SYS_GETPID then handle_getpid r k
  else if num =? SYS_BRK then handle_brk r k
  else if num =? SYS_SBRK then handle_sbrk r k
  else if num =? SYS_MKDIR then handle_mkdir r k
  else if num =? SYS_YIELD then handle_yield r k
  else if num =? SYS_IPC_SEND then handle_ipc_send r k
  else if num =? SYS_IPC_RECV then handle_ipc_recv r k
  else if num =? SYS_IPC_REPLY then handle_ipc_reply r k
  else if num =? SYS_GETTID then handle_getpid r k
  else if num =? SYS_SLEEP then Ret 0 k
  else if num =? SYS_FORK then Ret (-1) (logln (str "[SYSCALL] fork not implemented") k)
  else if num =? SYS_EXECVE then Ret (-1) (logln (str "[SYSCALL] execve not implemented") k)
  else if num =? SYS_UNLINK then Ret (-1) (logln (str "[SYSCALL] unlink stub") k)
  else unknown_syscall r k.

(** The result is also written to the caller's EAX. *)
Definition syscall_handler (r : regs) (k : kernel) : outcome * regs :=
  let o := dispatch (eax r) r k in
  (o, match o with Ret v _ => mk_regs (u32 v) (ebx r) (ecx r) (edx r) | _ => r end).

(** The IDT entry is installed by kernel.c's [idt_set_gate]; here its log and
    the break. *)
Definition syscall_init (k : kernel) : kernel :=
  let k := logln (str "[SYSCALL] Initializing syscall table...") k in
  let k := logln (str "[SYSCALL] IDT gate 0x80 installed (trap gate DPL3, 0xEE)") k in
  let k := sbrk_init k in
  let k := logln (str "[SYSCALL] Syscall layer ready (10+ handlers)") k in
  logln (str "[SYSCALL] Supported: exit(1) read(3) write(4) open(5) close(6) getpid(20) sbrk(45) mkdir(83) yield(158) ipc_send(200) recv(201) reply(202)") k.
End Syscall.
Arguments kernel A : clear implicits.
Arguments outcome A : clear implicits.
