(* ===== verification/SyscallCorrect.v ===== *)
(** * Properties of the system call layer *)
From Stdlib Require Import String.
From S2P Require Import Prelude Mem LibString Alloc Heap Tcb Ipc Path Bitmap UnnamedFs Vfs Io Serial Syscall.

(** ** Messages in memory *)

Lemma load_store_words_before ws m p b : b + 4 <= p -> load32 (store_words m p ws) b = load32 m b.
Proof.
  revert m p. induction ws as [|w ws IH]; intros m p Hb; [done|]. cbn [store_words].
  rewrite IH by lia. apply load32_store32_ne. lia.
Qed.

Lemma load_store_words ws m p n w :
  ws !! n = Some w -> load32 (store_words m p ws) (p + 4 * Z.of_nat n) = u32 w.
Proof.
  revert m p n. induction ws as [|v ws IH]; intros m p n Hn; [done|]. destruct n as [|n]; cbn [store_words].
  - injection Hn as ->. rewrite load_store_words_before by lia. replace (p + 4 * Z.of_nat 0) with p by lia.
    apply load32_store32_eq, u32_range.
  - replace (p + 4 * Z.of_nat (S n)) with (p + 4 + 4 * Z.of_nat n) by lia. by apply IH.
Qed.

Lemma peek_store_words_ne ws m p b :
  b < p \/ p + 4 * Z.of_nat (length ws) <= b -> (store_words m p ws).[b] = m.[b].
Proof.
  revert m p. induction ws as [|w ws IH]; intros m p Hb; [done|]. cbn [store_words length] in *.
  rewrite IH by lia. apply peek_store32_ne. lia.
Qed.

Lemma i32_u32 z : - 2 ^ 31 <= z < 2 ^ 31 -> i32 (u32 z) = z.
Proof. intros Hz. unfold i32, u32. rewrite Zplus_mod_idemp_l. fold (i32 z). by apply i32_small. Qed.

(** A message read from memory survives the way back. *)
Lemma load_store_message m m0 p q s t :
  - 2 ^ 31 <= s < 2 ^ 31 -> - 2 ^ 31 <= t < 2 ^ 31 ->
  let g := set_parties s t (load_message m0 p) in
  load_message (store_message m q g) q = g.
Proof.
  intros Hs Ht g. unfold load_message at 1. set (m' := store_message m q g).
  assert (Hw : forall n w, (sender_tid g :: receiver_tid g :: msg_type g :: msg_id g :: payload g ++ [msg_flags g]) !! n = Some w ->
    load32 m' (q + 4 * Z.of_nat n) = u32 w) by (intros n w; apply load_store_words).
  assert (H0 : load32 m' q = u32 s) by (rewrite <- (Hw 0%nat s eq_refl); f_equal; lia). clearbody m'.
  rewrite H0, (Hw 1%nat t eq_refl : load32 m' (q + 4) = _), (Hw 2%nat _ eq_refl : load32 m' (q + 8) = _),
    (Hw 3%nat _ eq_refl : load32 m' (q + 12) = _), (Hw 4%nat _ eq_refl : load32 m' (q + 16) = _),
    (Hw 5%nat _ eq_refl : load32 m' (q + 20) = _), (Hw 6%nat _ eq_refl : load32 m' (q + 24) = _),
    (Hw 7%nat _ eq_refl : load32 m' (q + 28) = _), (Hw 8%nat _ eq_refl : load32 m' (q + 32) = _).
  rewrite !i32_u32 by done. rewrite !u32_small by apply load32_range. done.
Qed.

(** Searching for a sender with one message, the last, from it. *)
Lemma ring_search_last r old g :
  contents r = old ++ [g] -> sender_tid g <> -1 ->
  Forall (fun h => sender_tid h <> sender_tid g) old -> ring_search r (sender_tid g) = Some (length old).
Proof.
  intros Hc Hg Hold. assert (Hn : rg_count r = S (length old)) by (rewrite <- length_contents, Hc, length_app; cbn; lia).
  assert (Hat : forall n h, (old ++ [g]) !! n = Some h -> ring_at r n = h).
  { intros n h Hh. rewrite <- Hc, lookup_contents in Hh. case_if_in Hh; [by injection Hh|done]. }
  unfold ring_search. rewrite Hn. cbn [Nat.eqb]. replace (sender_tid g =? -1) with false by lia.
  assert (Hlast : ring_at r (length old) = g) by (apply Hat; by rewrite lookup_app_r, Nat.sub_diag).
  destruct (find_from _ 0 _) as [n|] eqn:E.
  - apply find_from_Some in E as (Hb & Hp & Hk). f_equal. bool_to_prop.
    destruct (decide (n < length old)%nat) as [Hlt|]; [exfalso|lia].
    destruct (lookup_lt_is_Some_2 old n Hlt) as [h Hh]. rewrite (Hat n h) in Hp by (by apply lookup_app_l_Some).
    rewrite Forall_lookup in Hold. by apply (Hold n h Hh).
  - pose proof (find_from_None _ _ _ E (length old) ltac:(lia)) as Hp. cbv beta in Hp. rewrite Hlast in Hp. lia.
Qed.

Section SyscallCorrect.
Context {A : Type} `{!Allocator A}.
Context (_kernel_end : Z) (busy : list Z -> nat) (path_fuel : nat).
(** The linker script asserts that the kernel ends below 9 MB. *)
Context (Hend : 0 <= _kernel_end < 0x900000).
Implicit Types k : kernel A.

Abbreviation dispatch := (dispatch _kernel_end busy path_fuel).
Abbreviation syscall_handler := (syscall_handler _kernel_end busy path_fuel).

(** ** The invariant *)

(** The page-aligned start of the break region. *)
Definition break_base : Z := (_kernel_end + 0xFFF) / 4096 * 4096.

Lemma break_base_bounds : 0 <= break_base <= 0x900000.
Proof. unfold break_base. zlia. Qed.

Lemma break_base_mask : Z.land (u32 (_kernel_end + 0xFFF)) (u32 (Z.lnot 0xFFF)) = break_base.
Proof.
  change 0xFFF with (Z.ones 12) at 2. rewrite land_not_mask by (apply u32_range || lia).
  rewrite u32_small by lia. done.
Qed.

Definition break_ok k : Prop :=
  sbrk_initialized k = true ->
  sbrk_heap_ptr k = break_base /\ break_base <= sbrk_heap_end k <= break_base + SBRK_HEAP_SIZE.

(** The invariants of the parts: IPC with the scheduler, the console, the break. *)
Record kernel_ok k : Prop := {
  ok_ipc : ipc_ok (k_ipc k); ok_con : on_screen (k_con k); ok_break : break_ok k
}.

Definition regs_ok (r : regs) : Prop := 0 <= eax r < 2 ^ 32 /\ 0 <= ebx r < 2 ^ 32 /\ 0 <= ecx r < 2 ^ 32 /\ 0 <= edx r < 2 ^ 32.

(** Output, keyboard state and files do not enter it. *)
Lemma ok_serial k s : kernel_ok k -> kernel_ok (with_serial s k).
Proof. by intros []. Qed.
Lemma ok_keys k b l : kernel_ok k -> kernel_ok (with_keys b l k).
Proof. by intros []. Qed.
Lemma ok_vfs k s : kernel_ok k -> kernel_ok (with_vfs s k).
Proof. by intros []. Qed.
Lemma ok_with_ipc k x : kernel_ok k -> ipc_ok x -> kernel_ok (with_ipc x k).
Proof. by intros []. Qed.
Lemma ok_with_con k c : kernel_ok k -> on_screen c -> kernel_ok (with_con c k).
Proof. by intros []. Qed.

Lemma putchar_ok c ch : on_screen c -> on_screen (io_putchar c ch).
Proof. intros Hc. by apply update_hw_cursor_screen, putchar_on_screen. Qed.

Lemma ok_log_dec k k' v : log_dec busy v k = Some k' -> kernel_ok k -> kernel_ok k'.
Proof. unfold log_dec. destruct (serial_write_dec32 busy v (k_serial k)); [|done]. intros [= <-]. apply ok_serial. Qed.

#[local] Hint Resolve ok_serial ok_keys ok_vfs ok_with_ipc ok_with_con putchar_ok : core.

Lemma ok_sbrk_init k : kernel_ok k -> kernel_ok (sbrk_init _kernel_end busy k) /\ sbrk_initialized (sbrk_init _kernel_end busy k) = true.
Proof.
  intros Hk. unfold sbrk_init. destruct (sbrk_initialized k) eqn:E; [done|]. split; [|done].
  unfold logln, log_hex, log. do 3 apply ok_serial. destruct Hk. split; try done. intros _.
  cbn. rewrite break_base_mask. unfold SBRK_HEAP_SIZE. lia.
Qed.

Lemma ok_with_break k b : kernel_ok k -> break_base <= b <= break_base + SBRK_HEAP_SIZE -> kernel_ok (with_break break_base b k).
Proof. by intros []. Qed.

(** [o] keeps the invariant. *)
Definition outcome_ok (o : outcome A) : Prop := forall v k, o = Ret v k -> kernel_ok k.

Lemma outcome_ret v k : kernel_ok k -> outcome_ok (Ret v k).
Proof. by intros Hk ? ? [= <- <-]. Qed.
#[local] Hint Resolve outcome_ret : core.

Lemma outcome_opt r : (forall v k, r = Some (v, k) -> kernel_ok k) -> outcome_ok (ret r).
Proof. intros H. destruct r as [[v k]|]; [apply outcome_ret; by eapply H|by intros ?]. Qed.

(** ** Break *)

(** What a break call does to the size of the region in use. *)
Definition brk_size k : Z := if sbrk_initialized k then sbrk_heap_end k - break_base else 0.

Lemma sbrk_cases r k :
  kernel_ok k -> regs_ok r -> let n := i32 (ebx r) in let sz := brk_size k in
  exists v k', handle_sbrk _kernel_end busy r k = Ret v k' /\ kernel_ok k' /\ sbrk_initialized k' = true /\
    if (0 <=? sz + n) && (sz + n <=? SBRK_HEAP_SIZE) then v = break_base + sz /\ brk_size k' = sz + n
    else v = -1 /\ brk_size k' = sz.
Proof.
  intros Hk (_ & Hb & _) n sz. destruct (ok_sbrk_init k Hk) as [Hk1 Hi]. pose proof (ok_break _ Hk1 Hi) as [Hp He].
  assert (Hsz : brk_size (sbrk_init _kernel_end busy k) = sz).
  { unfold sz, brk_size. rewrite Hi. unfold sbrk_init. destruct (sbrk_initialized k); [done|].
    cbn. rewrite break_base_mask. lia. }
  unfold handle_sbrk. set (k1 := sbrk_init _kernel_end busy k) in *. rewrite Hi. cbn [negb].
  unfold brk_size in Hsz. rewrite Hi in Hsz. pose proof break_base_bounds as Hbb. pose proof (i32_range (ebx r)) as Hn.
  fold n in Hn |- *. rewrite Hp. unfold SBRK_HEAP_SIZE in *.
  rewrite (i32_small (sbrk_heap_end k1)), (i32_small break_base) by lia.
  rewrite (u32_small (break_base + _)) by lia.
  assert (Hset : forall b, break_base <= b <= break_base + 0x200000 ->
    kernel_ok (with_break break_base b k1) /\ sbrk_initialized (with_break break_base b k1) = true /\
    brk_size (with_break break_base b k1) = b - break_base) by (intros b Hbnd; split; [by apply ok_with_break|done]).
  assert (Hsame : brk_size k1 = sz) by (unfold brk_size; by rewrite Hi).
  destruct (n =? 0) eqn:E0; bool_to_prop.
  { eexists _, k1. split_and!; [done|done|done|]. rewrite Hsame. case_if; bool_to_prop; lia. }
  destruct (n <? 0) eqn:E1; bool_to_prop.
  - rewrite (i32_small (sbrk_heap_end k1 + n)) by lia. case_if; bool_to_prop.
    + eexists _, k1. split_and!; [done|done|done|]. rewrite Hsame. replace (0 <=? sz + n) with false by lia. done.
    + destruct (Hset (u32 (sbrk_heap_end k1 + n))) as (H1 & H2 & H3); [rewrite u32_small by lia; lia|].
      eexists _, _. split_and!; [done|done|done|]. rewrite H3, u32_small by lia.
      replace ((0 <=? sz + n) && (sz + n <=? 2097152)) with true by lia. lia.
  - rewrite (u32_small (sbrk_heap_end k1 + n)) by lia. case_if; bool_to_prop.
    + eexists _, _. split_and!; [done|by apply ok_serial|done|].
      replace ((0 <=? sz + n) && (sz + n <=? 2097152)) with false by lia. split; [done|]. exact Hsame.
    + destruct (Hset (sbrk_heap_end k1 + n)) as (H1 & H2 & H3); [lia|]. eexists _, _. split_and!; [done|done|done|].
      rewrite H3. replace ((0 <=? sz + n) && (sz + n <=? 2097152)) with true by lia. lia.
Qed.

Lemma brk_ok r k : kernel_ok k -> regs_ok r -> outcome_ok (handle_brk _kernel_end busy r k).
Proof.
  intros Hk (_ & Hb & _). destruct (ok_sbrk_init k Hk) as [Hk1 Hi]. pose proof (ok_break _ Hk1 Hi) as [Hp He].
  pose proof break_base_bounds as Hbb. unfold handle_brk. case_if; [by auto|]. rewrite Hp.
  unfold SBRK_HEAP_SIZE in *. rewrite u32_small by lia. case_if; bool_to_prop; [by auto|].
  apply outcome_ret, ok_with_break; [done|unfold SBRK_HEAP_SIZE; lia].
Qed.

(** ** The handlers keep the invariant *)

Lemma ok_write_stdout n a k : kernel_ok k -> kernel_ok (write_stdout busy n a k).
Proof.
  revert a k. induction n as [|n IH]; intros a k Hk; [done|]. cbn [write_stdout].
  apply IH, ok_serial, ok_with_con; [done|]. apply putchar_ok, Hk.
Qed.

Lemma ok_write_stderr n a k : kernel_ok k -> kernel_ok (write_stderr busy n a k).
Proof. revert a k. induction n as [|n IH]; intros a k Hk; [done|]. cbn [write_stderr]. by apply IH, ok_serial. Qed.

Lemma ok_getchar k : kernel_ok k -> kernel_ok (snd (getchar k)).
Proof. intros Hk. unfold getchar. destruct (k_keys k); destruct (io_getchar _ _ _); by apply ok_keys. Qed.

Lemma ok_read_stdin n a got k : kernel_ok k -> kernel_ok (snd (read_stdin n a got k)).
Proof.
  revert a got k. induction n as [|n IH]; intros a got k Hk; [done|]. cbn [read_stdin].
  pose proof (ok_getchar k Hk) as Hg. destruct (getchar k) as [c k1]. cbn [snd] in Hg.
  repeat case_if; [done|by apply ok_vfs|]. by apply IH, ok_vfs.
Qed.

Lemma ok_set_state k i st :
  st <> TASK_STATE_FREE -> st <> TASK_STATE_RUNNING -> kernel_ok k ->
  kernel_ok (with_ipc (set_tasks (tcb_set_state (Some i) st (tasks (k_ipc k))) (k_ipc k)) k).
Proof.
  intros H1 H2 Hk. apply ok_with_ipc; [done|]. destruct (ok_ipc _ Hk) as [Hp Hm [l Hl]].
  split; [done|done|]. exists l. by apply set_state_inv.
Qed.

Lemma exit_ok r k : kernel_ok k -> outcome_ok (handle_exit busy r k).
Proof.
  intros Hk. unfold handle_exit. destruct (log_dec busy (ebx r) _) as [k1|] eqn:E1; [|by intros ? ?].
  apply ok_log_dec in E1; [|by apply ok_serial]. destruct (current _) as [cur|]; [|by intros ? ?].
  destruct (log_dec busy _ _) as [k2|] eqn:E2; [|by intros ? ?].
  apply ok_log_dec in E2; [|by do 2 apply ok_serial]. case_if; [by intros ? ?|]. apply outcome_ret.
  by apply (ok_set_state (logln busy [] k2)), ok_serial.
Qed.

Lemma ipc_send_syscall_ok r k : kernel_ok k -> outcome_ok (handle_ipc_send r k).
Proof.
  intros Hk. unfold handle_ipc_send. do 2 (case_if; [by auto|]). cbv zeta.
  destruct (if negb (ebx r =? 0) then _ else _) as [from|]; [|by auto].
  destruct (tcb_get_by_tid _ (i32 (ecx r))) as [to_|]; [|by auto].
  pose proof (send_ok (k_ipc k) (Some from) (Some to_) (Some (load_message (kmem k) (edx r))) (ok_ipc _ Hk)) as Hs.
  destruct (ipc_send _ _ _ _) as [n x]. apply outcome_ret. by apply ok_with_ipc.
Qed.

Lemma ipc_recv_syscall_ok r k : kernel_ok k -> outcome_ok (handle_ipc_recv r k).
Proof.
  intros Hk. unfold handle_ipc_recv. do 2 (case_if; [by auto|]). cbv zeta.
  destruct (if negb (ebx r =? 0) && _ then _ else _) as [t|]; [|by auto].
  pose proof (recv_ok (k_ipc k) (Some t) (i32 (edx r)) (ok_ipc _ Hk)) as Hs.
  destruct (ipc_recv _ _ _) as [[n [g|]] x]; apply outcome_ret; [apply ok_vfs|]; by apply ok_with_ipc.
Qed.

Lemma ipc_reply_syscall_ok r k : kernel_ok k -> outcome_ok (handle_ipc_reply r k).
Proof.
  intros Hk. unfold handle_ipc_reply. do 2 (case_if; [by auto|]).
  destruct (tcb_get_by_tid _ (i32 (ebx r))) as [t|]; [|by auto].
  pose proof (reply_ok (k_ipc k) (Some t) (Some (load_message (kmem k) (ecx r))) (ok_ipc _ Hk)) as Hs.
  destruct (ipc_reply _ _ _) as [n x]. apply outcome_ret. by apply ok_with_ipc.
Qed.

Lemma files_ok r k :
  kernel_ok k -> outcome_ok (handle_open path_fuel r k) /\ outcome_ok (handle_close r k) /\
  outcome_ok (handle_lseek r k) /\ outcome_ok (handle_mkdir path_fuel r k).
Proof.
  intros Hk. unfold handle_open, handle_close, handle_lseek, handle_mkdir. split_and!.
  - do 2 (case_if; [by auto|]). apply outcome_opt. intros v k' H.
    apply bind_Some in H as (path & _ & H). apply bind_Some in H as ([fd s] & _ & [= <- <-]). by auto.
  - destruct (vfs_close _ _). by auto.
  - apply outcome_opt. intros v k' H. apply bind_Some in H as ([fd s] & _ & [= <- <-]). by auto.
  - do 2 (case_if; [by auto|]). apply outcome_opt. intros v k' H.
    apply bind_Some in H as (path & _ & H). apply bind_Some in H as ([fd s] & _ & [= <- <-]). by auto.
Qed.

Lemma io_ok r k : kernel_ok k -> outcome_ok (handle_read r k) /\ outcome_ok (handle_write busy r k).
Proof.
  intros Hk. unfold handle_read, handle_write. cbv zeta. split; do 2 (case_if; [by auto|]).
  - case_if.
    + pose proof (ok_read_stdin (Z.to_nat (edx r)) (ecx r) 0 k Hk) as Hr. destruct (read_stdin _ _ _ _). by auto.
    + destruct (vfs_read _ _ _ _). by auto.
  - case_if; [by apply outcome_ret, ok_write_stdout|]. case_if; [by apply outcome_ret, ok_write_stderr|].
    case_if; [by auto|]. destruct (vfs_write _ _ _ _). by auto.
Qed.

Lemma dispatch_ok num r k : kernel_ok k -> regs_ok r -> outcome_ok (dispatch num r k).
Proof.
  intros Hk Hr. destruct (files_ok r k Hk) as (Hopen & Hclose & Hseek & Hmk). destruct (io_ok r k Hk) as [Hrd Hwr].
  unfold Syscall.dispatch, handle_getpid, handle_yield.
  assert (Hlog : forall b, kernel_ok (logln busy b k)) by (intros b; by apply ok_serial).
  repeat first [case_if; [first [done | by auto | by apply exit_ok | by apply brk_ok | by apply ipc_send_syscall_ok
    | by apply ipc_recv_syscall_ok | by apply ipc_reply_syscall_ok | destruct (current k); by auto
    | destruct (sbrk_cases r k Hk Hr) as (v & k' & -> & Hk' & _); by auto]|]].
  unfold unknown_syscall. destruct (log_dec _ _ _) as [k1|] eqn:E; [|by intros ? ?].
  apply ok_log_dec in E; [|by apply ok_serial]. apply outcome_ret. unfold logln, log_hex, log. by repeat apply ok_serial.
Qed.

(** States reached by system calls. *)
Inductive calls k0 : kernel A -> Prop :=
| calls_none : calls k0 k0
| calls_one k k' r r' v : calls k0 k -> regs_ok r -> syscall_handler r k = (Ret v k', r') -> calls k0 k'.

(** Whatever system calls are made, in any order, with buffers apart from the
    variables of the kernel (as they are in this model, not in the code), the invariants of the parts hold together: the scheduler's and the IPC
    queues', the cursor on the screen, and a break inside the 2 MB region
    above the kernel. *)
Theorem syscalls_keep_kernel_ok k0 k : kernel_ok k0 -> calls k0 k -> kernel_ok k.
Proof.
  intros H0 Hc. induction Hc as [|k k' r r' v _ IH Hr Hs]; [done|].
  unfold Syscall.syscall_handler in Hs. injection Hs as Hd _. exact (dispatch_ok _ _ _ IH Hr _ _ Hd).
Qed.

(** ** The break as a counter *)

Fixpoint run_sbrk (incrs : list Z) k : option (list Z * kernel A) :=
  match incrs with
  | [] => Some ([], k)
  | n :: incrs' =>
      match syscall_handler (mk_regs SYS_SBRK (u32 n) 0 0) k with
      | (Ret _ k1, r) => '(rs, k2) ← run_sbrk incrs' k1; Some (eax r :: rs, k2)
      | _ => None
      end
  end.

(** The specification: a size between 0 and 2 MB. *)
Fixpoint spec_sbrk (incrs : list Z) (size : Z) : list Z * Z :=
  match incrs with
  | [] => ([], size)
  | n :: incrs' =>
      if (0 <=? size + n) && (size + n <=? SBRK_HEAP_SIZE)
      then let '(rs, z) := spec_sbrk incrs' (size + n) in (break_base + size :: rs, z)
      else let '(rs, z) := spec_sbrk incrs' size in (0xFFFFFFFF :: rs, z)
  end.

Lemma brk_size_range k : kernel_ok k -> 0 <= brk_size k <= SBRK_HEAP_SIZE.
Proof.
  intros Hk. unfold brk_size. destruct (sbrk_initialized k) eqn:E; [|unfold SBRK_HEAP_SIZE; lia].
  pose proof (ok_break _ Hk E). lia.
Qed.


End SyscallCorrect.

Section Calls.
Context {A : Type} `{!Allocator A}.
Context (_kernel_end : Z) (busy : list Z -> nat) (path_fuel : nat).
Implicit Types k : kernel A.

Abbreviation dispatch := (dispatch _kernel_end busy path_fuel).
Abbreviation syscall_handler := (syscall_handler _kernel_end busy path_fuel).
Abbreviation kernel_ok := (kernel_ok _kernel_end).

(** ** The current task *)

Lemma scan_tids_Some p (s : sched A) i :
  scan_tids p s = Some i -> exists tid, tcb_get_by_tid s tid = Some i /\ p (state_of s i) = true.
Proof.
  intros H. apply bind_Some in H as (tid & Hf & Hi). exists (Z.of_nat tid). split; [done|].
  apply find_from_Some in Hf as (_ & Hp & _). by rewrite Hi in Hp.
Qed.

Lemma scan_tids_None p (s : sched A) tid i :
  scan_tids p s = None -> 1 <= tid < 4096 -> tcb_get_by_tid s tid = Some i -> p (state_of s i) = false.
Proof.
  intros H Ht Hi. apply bind_None in H as [H|(n & Hf & Hn)].
  - assert (Hl : Z.of_nat TID_LIMIT = 4095) by reflexivity.
    pose proof (find_from_None _ _ _ H (Z.to_nat tid) ltac:(lia)) as Hp. cbv beta in Hp.
    rewrite Z2Nat.id in Hp by lia. by rewrite Hi in Hp.
  - apply find_from_Some in Hf as (_ & Hp & _). by rewrite Hn in Hp.
Qed.

(** A live task is found by its tid. *)
Lemma get_by_own_tid (s : sched A) l c :
  core_inv s l -> (c < TCB_MAX_TASKS)%nat -> state_of s c <> TASK_STATE_FREE -> 0 < t_tid (task_pool s c) ->
  tcb_get_by_tid s (t_tid (task_pool s c)) = Some c.
Proof.
  intros Hcore Hlt Hnf Htid. unfold tcb_get_by_tid, TCB_INVALID_TID. replace (_ =? -1) with false by lia.
  destruct (find_from _ 0 TCB_MAX_TASKS) as [i|] eqn:E.
  - apply find_from_Some in E as (_ & Hp & _). bool_to_prop. f_equal. apply (c_tids _ _ Hcore); lia.
  - pose proof (find_from_None _ _ _ E c ltac:(lia)) as Hp. cbv beta in Hp. rewrite Z.eqb_refl in Hp.
    unfold is_state in Hp. by rewrite bool_decide_eq_false_2 in Hp.
Qed.

(** SYS_GETPID returns the tid of the running task: under the scheduler's
    invariant, whenever the current task is RUNNING and its tid is below 4096. *)
Theorem getpid_is_current k c r :
  kernel_ok k -> current_task (tasks (k_ipc k)) = Some c ->
  state_of (tasks (k_ipc k)) c = TASK_STATE_RUNNING -> 1 <= ktid k c < 4096 -> eax r = SYS_GETPID ->
  syscall_handler r k = (Ret (ktid k c) k, mk_regs (ktid k c) (ebx r) (ecx r) (edx r)).
Proof.
  intros Hk Hc Hrun Htid Hr. destruct (x_tasks _ (ok_ipc _ _ Hk)) as [l [Hcore Hri]].
  destruct (r_current _ Hri c Hc) as [Hlt Hnf]. pose proof (get_by_own_tid _ l c Hcore Hlt Hnf) as Hown.
  change (t_tid (task_pool (tasks (k_ipc k)) c)) with (ktid k c) in Hown. specialize (Hown ltac:(lia)).
  assert (Hcur : current k = Some c).
  { assert (Hs : scan_tids (fun st => bool_decide (st = TASK_STATE_RUNNING)) (tasks (k_ipc k)) = Some c).
    { destruct (scan_tids _ _) as [i|] eqn:E.
      - apply scan_tids_Some in E as (tid & _ & Hp). apply bool_decide_eq_true in Hp.
        apply (r_running _ Hri) in Hp. congruence.
      - exfalso. pose proof (scan_tids_None _ _ _ _ E Htid Hown) as Hp. by rewrite Hrun in Hp. }
    unfold current, get_current_task. by rewrite Hs. }
  unfold Syscall.syscall_handler. rewrite Hr. replace (dispatch SYS_GETPID r k) with (handle_getpid r k) by reflexivity.
  unfold handle_getpid. rewrite Hcur. by rewrite u32_small by lia.
Qed.

(** ** Null pointers *)

(** The user pointer of a call, if it takes one. *)
Definition user_pointer (r : regs) : option Z :=
  let n := eax r in
  if (n =? SYS_READ) || (n =? SYS_WRITE) || (n =? SYS_IPC_RECV) || (n =? SYS_IPC_REPLY) then Some (ecx r)
  else if (n =? SYS_OPEN) || (n =? SYS_MKDIR) then Some (ebx r)
  else if n =? SYS_IPC_SEND then Some (edx r) else None.

(** No system call touches the first page: with a pointer argument below
    0x1000 each of the seven calls that take one returns -1 and changes
    nothing. *)
Theorem null_page_refused r k p :
  user_pointer r = Some p -> 0 <= p < 0x1000 ->
  syscall_handler r k = (Ret (-1) k, mk_regs 0xFFFFFFFF (ebx r) (ecx r) (edx r)).
Proof.
  intros Hp Hlt. unfold Syscall.syscall_handler.
  replace (dispatch (eax r) r k) with (@Ret A (-1) k); [done|]. symmetry.
  assert (Hg : (p <? 0x1000) = true) by lia.
  unfold user_pointer in Hp. cbv zeta in Hp.
  destruct (_ || _ || _ || _) eqn:E1 in Hp; [|destruct (_ || _) eqn:E2 in Hp; [|case_if_in Hp; [|done]]];
    injection Hp as <-.
  - apply orb_true_iff in E1 as [[[E|E]%orb_true_iff|E]%orb_true_iff|E]; apply Z.eqb_eq in E; rewrite E.
    + change (handle_read r k = Ret (-1) k). unfold handle_read. rewrite Hg. by case_if.
    + change (handle_write busy r k = Ret (-1) k). unfold handle_write. rewrite Hg. by case_if.
    + change (handle_ipc_recv r k = Ret (-1) k). unfold handle_ipc_recv. rewrite Hg. by case_if.
    + change (handle_ipc_reply r k = Ret (-1) k). unfold handle_ipc_reply. rewrite Hg. by case_if.
  - apply orb_true_iff in E2 as [E|E]; apply Z.eqb_eq in E; rewrite E.
    + change (handle_open path_fuel r k = Ret (-1) k). unfold handle_open. rewrite Hg. by case_if.
    + change (handle_mkdir path_fuel r k = Ret (-1) k). unfold handle_mkdir. rewrite Hg. by case_if.
  - apply Z.eqb_eq in Heqb. rewrite Heqb. change (handle_ipc_send r k = Ret (-1) k). unfold handle_ipc_send. rewrite Hg. by case_if.
Qed.

(** ** A message through two system calls *)

(** Delivering changes neither tids nor the queue of a task, and frees or kills
    no task. *)
Lemma deliver_keeps (x : ipc A) q t sender g i :
  let x1 := deliver q t sender g x in
  tid_of x1 i = tid_of x i /\ queue_of x1 i = queue_of x i /\
  (state_of (tasks x1) i = state_of (tasks x) i \/ state_of (tasks x1) i = TASK_STATE_READY).
Proof.
  cbv zeta. unfold deliver. set (y := put_queue q _ x).
  assert (Hy : tasks y = tasks x /\ queue_of y i = queue_of x i).
  { unfold y. destruct q as [n|n]; (split; [done|]); [|done]. unfold queue_of.
    replace (find_port_for_task _ i) with (find_port_for_task x i); [done|]. apply find_from_ext.
    intros j. cbn. destruct (j =? n)%nat eqn:E; [|done]. apply Nat.eqb_eq in E. by subst. }
  destruct Hy as [Ht Hq]. case_if.
  - unfold tid_of, set_wait, tcb_set_state, state_of. cbn [tasks set_tasks]. split_and!.
    + rewrite Ht. pool_case.
    + unfold queue_of in *. rewrite <- Hq. unfold tid_of. cbn [tasks set_tasks].
      replace (find_port_for_task _ i) with (find_port_for_task y i) by done. case_match; [done|]. f_equal. f_equal. pool_case.
    + rewrite Ht. destruct (decide (i = t)) as [->|]; [right|left]; pool_case.
  - unfold tid_of, state_of. rewrite Ht. split_and!; [done|done|by left].
Qed.

(** Two live tasks with their tids. *)
Definition peer k (i : nat) (tid : Z) : Prop :=
  (i < TCB_MAX_TASKS)%nat /\ live_task (k_ipc k) i = true /\ ktid k i = tid /\ 0 < tid < 2 ^ 31.

Lemma peer_found k i tid : kernel_ok k -> peer k i tid -> tcb_get_by_tid (tasks (k_ipc k)) tid = Some i.
Proof.
  intros Hk (Hi & Hl & <- & Ht). destruct (x_tasks _ (ok_ipc _ _ Hk)) as [l [Hcore _]].
  apply (get_by_own_tid _ l); [done|done| |apply Ht]. unfold live_task, task_is, is_state in Hl.
  bool_to_prop. by apply bool_decide_eq_false in H.
Qed.

Lemma send_syscall k i j s t p :
  kernel_ok k -> peer k i s -> peer k j t -> 0x1000 <= p < 2 ^ 32 ->
  let q := queue_of (k_ipc k) j in
  queue_full (k_ipc k) q = false ->
  handle_ipc_send (mk_regs SYS_IPC_SEND s t p) k =
    Ret 0 (with_ipc (deliver q j s (set_parties s t (load_message (kmem k) p)) (k_ipc k)) k).
Proof.
  intros Hk Hi Hj Hp q Hf. pose proof (peer_found k i s Hk Hi) as Gi. pose proof (peer_found k j t Hk Hj) as Gj.
  destruct Hi as (_ & Li & Ti & Hs), Hj as (_ & Lj & Tj & Ht). unfold ktid in *.
  unfold handle_ipc_send. cbn [ebx ecx edx]. replace (p =? 0) with false by lia. replace (p <? 0x1000) with false by lia.
  replace (s =? 0) with false by lia. cbn [negb]. rewrite !i32_small by lia. rewrite Gi, Gj.
  unfold ipc_send. rewrite Ti, Tj, Gi, Gj, Li, Lj. cbn [negb]. fold q. rewrite Hf, Ti. done.
Qed.

(** C24. A message goes from memory to memory: when the receiver's queue has
    room and holds nothing else from the sender, SYS_IPC_SEND followed by
    SYS_IPC_RECV by the receiver, asking for that sender, both return 0; the
    message at the receiver's pointer is the one at the sender's pointer with
    the two tids filled in, no other byte changes and the queue is as before. *)
Theorem ipc_syscall_roundtrip k i j s t p q :
  kernel_ok k -> peer k i s -> peer k j t -> 0x1000 <= p < 2 ^ 32 -> 0x1000 <= q < 2 ^ 32 ->
  let mq := queue_of (k_ipc k) j in
  queue_full (k_ipc k) mq = false ->
  Forall (fun h => sender_tid h <> s) (contents (get_queue (k_ipc k) mq)) ->
  exists k1 r1 k2 r2,
    syscall_handler (mk_regs SYS_IPC_SEND s t p) k = (Ret 0 k1, r1) /\
    syscall_handler (mk_regs SYS_IPC_RECV t q s) k1 = (Ret 0 k2, r2) /\
    load_message (kmem k2) q = set_parties s t (load_message (kmem k) p) /\
    (forall b, b < q \/ q + 36 <= b -> (kmem k2).[b] = (kmem k).[b]) /\
    contents (get_queue (k_ipc k2) mq) = contents (get_queue (k_ipc k) mq).
Proof.
  intros Hk Hi Hj Hp Hq mq Hf Hold. set (g := set_parties s t (load_message (kmem k) p)).
  set (x1 := deliver mq j s g (k_ipc k)). set (k1 := with_ipc x1 k).
  pose proof (send_syscall k i j s t p Hk Hi Hj Hp Hf) as Hsend. fold mq g x1 k1 in Hsend.
  destruct (deliver_ok (k_ipc k) mq j s g (ok_ipc _ _ Hk) (queue_of_valid _ _) Hf) as (Hx1 & Hc & _ & _). fold x1 in Hx1, Hc.
  assert (Hk1 : kernel_ok k1) by (by apply (ok_with_ipc _kernel_end)).
  destruct (deliver_keeps (k_ipc k) mq j s g j) as (Htid & Hqu & Hst). fold x1 in Htid, Hqu, Hst.
  assert (Hj1 : peer k1 j t).
  { destruct Hj as (Hb & Hl & Ht & Hr). split; [exact Hb|].
    split; [|split; [exact (eq_trans Htid Ht)|exact Hr]].
    unfold live_task, task_is, is_state in *. change (k_ipc k1) with x1. destruct Hst as [-> | ->]; done. }
  destruct Hi as (_ & _ & _ & Hs). pose proof (peer_found k1 j t Hk1 Hj1) as Gj. destruct Hj1 as (_ & Lj & Tj & Ht).
  pose proof (recv_lem x1 j j s Hx1) as Hrecv. unfold ktid in Tj. change (k_ipc k1) with x1 in *. rewrite Tj in Hrecv.
  specialize (Hrecv Gj Lj). cbv zeta in Hrecv. rewrite Hqu in Hrecv. fold mq in Hrecv.
  assert (Hsr : ring_search (get_queue x1 mq) s = Some (length (contents (get_queue (k_ipc k) mq))))
    by (apply (ring_search_last _ _ g); [done|cbn; lia|done]).
  rewrite Hsr in Hrecv. destruct (ipc_recv (Some j) s x1) as [[v out] x2] eqn:Er. destruct Hrecv as (-> & Hout & _ & Hc2 & _).
  rewrite Hc, lookup_app_r, Nat.sub_diag in Hout by done. cbn in Hout. subst out.
  set (k2 := with_kmem (store_message (kmem k) q g) (with_ipc x2 k1)).
  exists k1, (mk_regs 0 s t p), k2, (mk_regs 0 t q s).
  assert (Hrcv : handle_ipc_recv (mk_regs SYS_IPC_RECV t q s) k1 = Ret 0 k2).
  { unfold handle_ipc_recv. cbn [ebx ecx edx]. replace (q =? 0) with false by lia. replace (q <? 0x1000) with false by lia.
    replace (t =? 0) with false by lia. replace (t =? 0xFFFFFFFF) with false by lia. cbn [negb andb].
    rewrite !i32_small by lia. change (k_ipc k1) with x1. rewrite Gj, Er. done. }
  split_and!.
  - unfold Syscall.syscall_handler. change (dispatch _ _ k) with (handle_ipc_send (mk_regs SYS_IPC_SEND s t p) k). by rewrite Hsend.
  - unfold Syscall.syscall_handler. change (dispatch _ _ k1) with (handle_ipc_recv (mk_regs SYS_IPC_RECV t q s) k1). by rewrite Hrcv.
  - apply load_store_message; lia.
  - intros b Hb. apply peek_store_words_ne. cbn. lia.
  - change (k_ipc k2) with x2. rewrite Hc2, Hc. rewrite delete_take_drop, take_app_length, drop_ge by (rewrite length_app; cbn; lia).
    apply app_nil_r.
Qed.

(** ** Standard output *)

Lemma write_stdout_spec n a k :
  0 <= a -> a + Z.of_nat n <= 2 ^ 32 ->
  let bs := user_bytes n (kmem k) a in
  write_stdout busy n a k =
    with_serial (serial_write_str busy bs (k_serial k)) (with_con (fold_left io_putchar (map i8 bs) (k_con k)) k).
Proof.
  revert a k. induction n as [|n IH]; intros a k Ha Hn; cbn [user_bytes write_stdout map fold_left]; [by destruct k|].
  assert (Hb : u8 (i8 (kmem k).[a]) = (kmem k).[a]).
  { pose proof (peek_range (kmem k) a). unfold u8, i8. zlia. }
  rewrite Hb. destruct n as [|n]; [by destruct k|]. rewrite u32_small by lia. rewrite IH by lia. by destruct k.
Qed.

(** SYS_WRITE to descriptor 1 prints: for a buffer above the first page that
    does not wrap it returns the count; the console is as after [io_print] of
    the bytes, the same bytes are appended to the debug console, and nothing
    else of the kernel changes. *)
Theorem write_stdout_prints k buf count :
  kernel_ok k -> 0x1000 <= buf -> 0 < count < 2 ^ 31 -> buf + count <= 2 ^ 32 ->
  let bs := user_bytes (Z.to_nat count) (kmem k) buf in
  exists s, debugcon s = debugcon (k_serial k) ++ bs /\
    syscall_handler (mk_regs SYS_WRITE 1 buf count) k =
      (Ret count (with_serial s (with_con (io_print (map i8 bs) (k_con k)) k)), mk_regs count 1 buf count).
Proof.
  intros Hk Hbuf Hc Hfit bs. exists (serial_write_str busy bs (k_serial k)). split.
  { rewrite write_str_debug. f_equal. unfold bs. generalize buf. induction (Z.to_nat count) as [|n IH]; intros a; [done|].
    cbn. by rewrite u8_peek, IH. }
  assert (Hcon : fold_left io_putchar (map i8 bs) (k_con k) = io_print (map i8 bs) (k_con k)).
  { unfold io_print. destruct (print_fold (map i8 bs) (k_con k) (ok_con _ _ Hk)) as [_ ->].
    apply putchars_fold. unfold bs. by destruct (Z.to_nat count) eqn:E; [lia|]. }
  unfold Syscall.syscall_handler. change (dispatch _ _ k) with (handle_write busy (mk_regs SYS_WRITE 1 buf count) k).
  unfold handle_write. cbn [ebx ecx edx]. replace (buf =? 0) with false by lia. replace (count =? 0) with false by lia.
  replace (buf <? 0x1000) with false by lia. cbn [orb Z.eqb Pos.eqb]. rewrite write_stdout_spec by lia. fold bs.
  rewrite Hcon, i32_small, u32_small by lia. done.
Qed.
End Calls.

(** ** A concrete kernel *)
Section Witnesses.
#[local] Instance demo_allocator : Allocator heap := heap_allocator 0x200000 eq_refl eq_refl.

(** Task 1 runs, task 2 is ready. *)
Definition s_run : sched heap :=
  mk_sched (fun i => match i with
                     | 0 => Tcb.set_state TASK_STATE_RUNNING (task_with 1) | 1 => task_with 2 | _ => zero_tcb
                     end%nat) 3 None None (Some 0%nat) 0 true None false h_ready.

Lemma s_run_inv : sched_inv s_run [].
Proof.
  assert (Hp : forall i, t_next (task_pool s_run i) = None /\ t_prev (task_pool s_run i) = None /\
    t_kernel_stack (task_pool s_run i) = 0 /\ t_tid (task_pool s_run i) < 3 /\
    (state_of s_run i = TASK_STATE_RUNNING -> i = 0%nat)) by (intros [|[|i]]; done).
  split; [split|split]; try done.
  - split; try done; [constructor|]. intros i _. destruct (Hp i) as (? & ? & _). done.
  - intros i Hi. by apply not_elem_of_nil in Hi.
  - intros i. apply Hp.
  - intros [|[|i]] [|[|j]]; done.
  - exists bs_ready. apply ready_inv.
  - intros i Hi. by destruct (Hp i) as (_ & _ & ? & _).
  - intros i j _ Hi. by destruct (Hp i) as (_ & _ & ? & _).
  - intros i Hi. destruct (Hp i) as (_ & _ & _ & _ & H). by rewrite (H Hi).
  - intros c [= <-]. split; [unfold TCB_MAX_TASKS; lia|done].
Qed.

Definition vfs_blank (m : mem) : vfs :=
  mk_vfs (mk_ufs m (mk_bitmap [] 0) [] (mk_mount 0 0 0) false (mk_icache [] 0 0 false)) 0x100000 (mk_mount 0 0 0)
    [] false [] 0 (mk_rdcache None [] false) [] (replicate 64 false) None 0 0.
Definition k_demo : kernel heap :=
  mk_kernel (ipc_boot s_run) (vfs_blank (fun a => (a * 7 + 65) mod 251)) screen0 (idle false) []
    (mk_serial true [] [] []) 0 0 false.

Lemma k_demo_ok : kernel_ok 0x180123 k_demo.
Proof. split; [exact (ipc_init_ok_gen 0 0 s_run [] s_run_inv)|exact screen0_on|done]. Qed.

Abbreviation nobusy := (fun _ : list Z => 0%nat).

Lemma syscalls_keep_kernel_ok_witness :
  exists k, calls 0x180123 nobusy 64 k_demo k /\ kernel_ok 0x180123 k /\ sbrk_heap_end k = 0x182000.
Proof.
  destruct (syscall_handler 0x180123 nobusy 64 (mk_regs SYS_SBRK 0x1000 0 0) k_demo) as [[v k| |] r] eqn:E; [|by exfalso..].
  exists k. assert (Hc : calls 0x180123 nobusy 64 k_demo k).
  { eapply calls_one; [constructor| |exact E]. unfold regs_ok. cbn. unfold SYS_SBRK. lia. }
  split; [exact Hc|]. split.
  - apply (syscalls_keep_kernel_ok 0x180123 nobusy 64 ltac:(lia) k_demo k k_demo_ok Hc).
  - apply (f_equal (fun o => match fst o with Ret _ k => sbrk_heap_end k | _ => 0 end)) in E. cbn [fst] in E.
    rewrite <- E. vm_compute. reflexivity.
Defined.


Lemma getpid_is_current_witness :
  fst (syscall_handler 0x180123 nobusy 64 (mk_regs SYS_GETPID 0 0 0) k_demo) = Ret 1 k_demo.
Proof.
  exact (f_equal fst (getpid_is_current 0x180123 nobusy 64 k_demo 0 (mk_regs SYS_GETPID 0 0 0) k_demo_ok
    eq_refl eq_refl (conj (Z.le_refl 1) (eq_refl : 1 < 4096)) eq_refl)).
Defined.

Lemma null_page_refused_witness :
  fst (syscall_handler 0x180123 nobusy 64 (mk_regs SYS_IPC_SEND 1 2 0xFFC) k_demo) = Ret (-1) k_demo.
Proof.
  exact (f_equal fst (null_page_refused 0x180123 nobusy 64 (mk_regs SYS_IPC_SEND 1 2 0xFFC) k_demo 0xFFC eq_refl ltac:(lia))).
Defined.

Lemma ipc_syscall_roundtrip_witness : exists k1 r1 k2 r2,
  syscall_handler 0x180123 nobusy 64 (mk_regs SYS_IPC_SEND 1 2 0x2000) k_demo = (Ret 0 k1, r1) /\
  syscall_handler 0x180123 nobusy 64 (mk_regs SYS_IPC_RECV 2 0x3000 1) k1 = (Ret 0 k2, r2) /\
  load_message (kmem k2) 0x3000 = set_parties 1 2 (load_message (kmem k_demo) 0x2000).
Proof.
  destruct (ipc_syscall_roundtrip 0x180123 nobusy 64 k_demo 0 1 1 2 0x2000 0x3000 k_demo_ok)
    as (k1 & r1 & k2 & r2 & H1 & H2 & H3 & _); try lia.
  - split; [unfold TCB_MAX_TASKS; lia|]. split; [reflexivity|]. split; [reflexivity|lia].
  - split; [unfold TCB_MAX_TASKS; lia|]. split; [reflexivity|]. split; [reflexivity|lia].
  - reflexivity.
  - constructor.
  - exists k1, r1, k2, r2. exact (conj H1 (conj H2 H3)).
Defined.

Lemma write_stdout_prints_witness : exists s,
  debugcon s = user_bytes 100 (kmem k_demo) 0x2000 /\
  fst (syscall_handler 0x180123 nobusy 64 (mk_regs SYS_WRITE 1 0x2000 100) k_demo) =
    Ret 100 (with_serial s (with_con (io_print (map i8 (user_bytes 100 (kmem k_demo) 0x2000)) (k_con k_demo)) k_demo)).
Proof.
  destruct (write_stdout_prints 0x180123 nobusy 64 k_demo 0x2000 100 k_demo_ok ltac:(lia) ltac:(lia) ltac:(lia)) as (s & Hs & H).
  exists s. exact (conj Hs (f_equal fst H)).
Defined.
End Witnesses.
