(* ===== verification/Editor.v ===== *)
(** * editor.c, the text editor

    The line buffers are lists of bytes with their NUL, as in the code; a write
    past a buffer has no effect here and [EditorCorrect.v] shows that none
    happens, with one exception in [editor_load] noted there.  [file_buf] is the
    address of the file buffer on the stack.  The editor runs on the kernel
    state of [Syscall.v]; [editor_run] consumes the scan codes that wait in the
    keyboard controller and is left polling when they are used up. *)
From Stdlib Require Import String.
From S2P Require Import Prelude Mem Alloc Vfs Io Serial Syscall.

Definition EDITOR_MAX_LINES : Z := 256.
Definition EDITOR_MAX_COLS : Z := 256.
Definition EDITOR_MAX_FILE : Z := 4096.
Definition EDITOR_VIEW_ROWS : Z := 20.
Definition EDITOR_VIEW_COLS : Z := 76.
Definition CTRL_S : Z := 0x13.
Definition CTRL_Q : Z := 0x11.

(** ** C strings in buffers *)

(** The characters before the NUL. *)
Fixpoint cstr (row : list Z) : list Z :=
  match row with [] => [] | c :: row' => if c =? 0 then [] else c :: cstr row' end.
Definition ed_strlen (row : list Z) : Z := Z.of_nat (length (cstr row)).
(** [ed_strcpy(d, s)]: the characters and the NUL over the start of [d]. *)
Definition ed_strcpy (d s : list Z) : list Z :=
  let n := S (length (cstr s)) in take (length d) (cstr s ++ [0] ++ drop n d).
Definition set_at (i : Z) (v : Z) (row : list Z) : list Z := <[Z.to_nat i := v]> row.
Definition get_at (i : Z) (row : list Z) : Z := row !!! Z.to_nat i.

Record editor_state := mk_editor {
  lines : list (list Z); line_count : Z; e_cursor_x : Z; e_cursor_y : Z; scroll_y : Z; scroll_x : Z;
  filename : list Z; modified : bool; show_line_numbers : bool
}.
Definition set_lines (ls : list (list Z)) (ed : editor_state) : editor_state :=
  mk_editor ls (line_count ed) (e_cursor_x ed) (e_cursor_y ed) (scroll_y ed) (scroll_x ed) (filename ed) (modified ed) (show_line_numbers ed).
Definition set_count (n : Z) (ed : editor_state) : editor_state :=
  mk_editor (lines ed) n (e_cursor_x ed) (e_cursor_y ed) (scroll_y ed) (scroll_x ed) (filename ed) (modified ed) (show_line_numbers ed).
Definition move_to (x y : Z) (ed : editor_state) : editor_state :=
  mk_editor (lines ed) (line_count ed) x y (scroll_y ed) (scroll_x ed) (filename ed) (modified ed) (show_line_numbers ed).
Definition set_scroll (sy sx : Z) (ed : editor_state) : editor_state :=
  mk_editor (lines ed) (line_count ed) (e_cursor_x ed) (e_cursor_y ed) sy sx (filename ed) (modified ed) (show_line_numbers ed).
Definition set_modified (b : bool) (ed : editor_state) : editor_state :=
  mk_editor (lines ed) (line_count ed) (e_cursor_x ed) (e_cursor_y ed) (scroll_y ed) (scroll_x ed) (filename ed) b (show_line_numbers ed).

Definition line (ed : editor_state) (i : Z) : list Z := lines ed !!! Z.to_nat i.
Definition put_line (i : Z) (row : list Z) (ed : editor_state) : editor_state :=
  set_lines (<[Z.to_nat i := row]> (lines ed)) ed.

(** [memset] of the structure, then the fields. *)
Definition editor_init (name : option (list Z)) : editor_state :=
  mk_editor (replicate (Z.to_nat EDITOR_MAX_LINES) (replicate (Z.to_nat EDITOR_MAX_COLS) 0)) 1 0 0 0 0
    (match name with Some f => take 255 f | None => [] end) false true.

(** ** Editing *)

(** [for (i = len; i >= x; i--) line[i+1] = line[i];] with [n] steps left. *)
Fixpoint shift_right (n : nat) (i : Z) (row : list Z) : list Z :=
  match n with O => row | S n' => shift_right n' (i - 1) (set_at (i + 1) (get_at i row) row) end.
(** [for (i = x - 1; i < len; i++) line[i] = line[i+1];] *)
Fixpoint shift_left (n : nat) (i : Z) (row : list Z) : list Z :=
  match n with O => row | S n' => shift_left n' (i + 1) (set_at i (get_at (i + 1) row) row) end.

Definition editor_insert_char (c : Z) (ed : editor_state) : editor_state :=
  let x := e_cursor_x ed in let y := e_cursor_y ed in
  if (y <? 0) || (line_count ed <=? y) then ed else
  let row := line ed y in
  let len := ed_strlen row in
  if EDITOR_MAX_COLS - 1 <=? len then ed else
  let row := shift_right (Z.to_nat (len - x + 1)) len row in
  set_modified true (move_to (x + 1) y (put_line y (set_at x c row) ed)).

(** [for (i = 0; i <= clen; i++) prev[plen+i] = cur[i];] *)
Fixpoint append_row (n : nat) (i plen : Z) (prev cur : list Z) : list Z :=
  match n with O => prev | S n' => append_row n' (i + 1) plen (set_at (plen + i) (get_at i cur) prev) cur end.
(** Lines [i+1..] copied one up. *)
Fixpoint lines_up (n : nat) (i : Z) (ls : list (list Z)) : list (list Z) :=
  match n with
  | O => ls
  | S n' => lines_up n' (i + 1) (<[Z.to_nat i := ed_strcpy (ls !!! Z.to_nat i) (ls !!! Z.to_nat (i + 1))]> ls)
  end.
(** Lines [..i-1] copied one down, from the last. *)
Fixpoint lines_down (n : nat) (i : Z) (ls : list (list Z)) : list (list Z) :=
  match n with
  | O => ls
  | S n' => lines_down n' (i - 1) (<[Z.to_nat i := ed_strcpy (ls !!! Z.to_nat i) (ls !!! Z.to_nat (i - 1))]> ls)
  end.

Definition editor_backspace (ed : editor_state) : editor_state :=
  let x := e_cursor_x ed in let y := e_cursor_y ed in
  if 0 <? x then
    let row := line ed y in
    let len := ed_strlen row in
    set_modified true (move_to (x - 1) y (put_line y (shift_left (Z.to_nat (len - (x - 1))) (x - 1) row) ed))
  else if 0 <? y then
    let prev := line ed (y - 1) in
    let cur := line ed y in
    let plen := ed_strlen prev in
    let clen := ed_strlen cur in
    if plen + clen <? EDITOR_MAX_COLS - 1 then
      let ed := put_line (y - 1) (append_row (Z.to_nat (clen + 1)) 0 plen prev cur) ed in
      let ed := set_lines (lines_up (Z.to_nat (line_count ed - 1 - y)) y (lines ed)) ed in
      set_modified true (move_to plen (y - 1) (set_count (line_count ed - 1) ed))
    else ed
  else ed.

Fixpoint copy_tail (n : nat) (i x : Z) (cur new_line : list Z) : list Z :=
  match n with O => new_line | S n' => copy_tail n' (i + 1) x cur (set_at i (get_at (x + i) cur) new_line) end.

(** Only the first byte of [new_line] is initialised in the code, and nothing
    behind its NUL is read. *)
Definition editor_newline (ed : editor_state) : editor_state :=
  let x := e_cursor_x ed in let y := e_cursor_y ed in
  if EDITOR_MAX_LINES - 1 <=? line_count ed then ed else
  let cur := line ed y in
  let len := ed_strlen cur in
  let new_line := replicate (Z.to_nat EDITOR_MAX_COLS) 0 in
  let '(new_line, ed) :=
    if x <? len then
      (set_at (len - x) 0 (copy_tail (Z.to_nat (len - x)) 0 x cur new_line), put_line y (set_at x 0 cur) ed)
    else (new_line, ed) in
  let ed := set_lines (lines_down (Z.to_nat (line_count ed - (y + 1))) (line_count ed) (lines ed)) ed in
  let ed := put_line (y + 1) (ed_strcpy (line ed (y + 1)) new_line) ed in
  set_modified true (move_to 0 (y + 1) (set_count (line_count ed + 1) ed)).

Definition editor_ensure_scroll (ed : editor_state) : editor_state :=
  let x := e_cursor_x ed in let y := e_cursor_y ed in
  let sy := scroll_y ed in let sx := scroll_x ed in
  let sy := if y <? sy then y else sy in
  let sy := if sy + EDITOR_VIEW_ROWS <=? y then y - EDITOR_VIEW_ROWS + 1 else sy in
  let sx := if x <? sx then x else sx in
  let sx := if sx + EDITOR_VIEW_COLS <=? x then x - EDITOR_VIEW_COLS + 1 else sx in
  let sy := if sy <? 0 then 0 else sy in
  let sx := if sx <? 0 then 0 else sx in
  set_scroll sy sx ed.

(** ** Files *)

(** The text of a file into the lines: the loop with [line] and [col]. *)
Fixpoint load_loop (bytes : list Z) (ln col : Z) (ls : list (list Z)) : Z * Z * list (list Z) :=
  match bytes with
  | [] => (ln, col, ls)
  | c :: rest =>
      let put i v := <[Z.to_nat ln := set_at i v (ls !!! Z.to_nat ln)]> ls in
      if c =? 13 then load_loop rest ln col ls else
      if c =? 10 then
        if EDITOR_MAX_LINES <=? ln + 1 then (ln + 1, 0, put col 0) else load_loop rest (ln + 1) 0 (put col 0)
      else if col <? EDITOR_MAX_COLS - 1 then load_loop rest ln (col + 1) (put col c)
      else load_loop rest ln col ls
  end.

(** The rest of [editor_load], after reading [n] bytes.  The assignments to
    [line_count] of lines 67 to 98 all give [line + 1], or 1 for an empty file;
    [lines[256]] does not exist, its first byte is in [line_count]. *)
Definition load_bytes (bytes : list Z) (ed : editor_state) : editor_state :=
  let '(ln, col, ls) := load_loop bytes 0 0 (lines ed) in
  let put ls := <[Z.to_nat ln := set_at col 0 (ls !!! Z.to_nat ln)]> ls in
  let '(ls, count) :=
    if Z.of_nat (length bytes) =? 0 then (put ls, 1)
    else if (0 <? col) || (ln =? 0) then
      if ln <? EDITOR_MAX_LINES then (ls, ln + 1) else (put ls, ln + 1)
    else (put ls, ln + 1) in
  let count := if EDITOR_MAX_LINES <? count then EDITOR_MAX_LINES else count in
  set_modified false (set_scroll 0 (scroll_x ed) (move_to 0 0 (set_count count (set_lines ls ed)))).

Definition editor_load (file_buf : Z) (path : list Z) (ed : editor_state) (s : vfs) : option (Z * editor_state * vfs) :=
  '(fd, s) ← vfs_open path VFS_MODE_READ s;
  if fd <? 0 then Some (0, set_count 1 (put_line 0 (set_at 0 0 (line ed 0)) ed), s) else
  let '(n, s) := vfs_read fd file_buf (EDITOR_MAX_FILE - 1) s in
  let '(_, s) := vfs_close fd s in
  let n := if n <? 0 then 0 else n in
  let n := if EDITOR_MAX_FILE - 1 <? n then EDITOR_MAX_FILE - 1 else n in
  let s := with_dmem (store8 (dmem s) (file_buf + n) 0) s in
  Some (0, load_bytes (user_bytes (Z.to_nat n) (dmem s) file_buf) ed, s).

(** The buffer [editor_save] builds: [out], stopping when it is full. *)
Fixpoint save_loop (n : nat) (i : Z) (ed : editor_state) (out : list Z) : list Z :=
  match n with
  | O => out
  | S n' =>
      let l := cstr (line ed i) in
      if EDITOR_MAX_FILE <=? Z.of_nat (length out + length l + 1) then out else
      let out := out ++ l in
      if i <? line_count ed - 1 then
        if EDITOR_MAX_FILE <=? Z.of_nat (length out + 1) then out
        else save_loop n' (i + 1) ed (out ++ [10])
      else save_loop n' (i + 1) ed out
  end.
Definition save_bytes (ed : editor_state) : list Z := save_loop (Z.to_nat (line_count ed)) 0 ed [].

Definition editor_save (file_buf : Z) (ed : editor_state) (s : vfs) (con : console)
    : option (Z * editor_state * vfs * console) :=
  match filename ed with
  | [] => Some (-1, ed, s, con)
  | name =>
      let out := save_bytes ed in
      let s := with_dmem (put_bytes (dmem s) file_buf out) s in
      '(fd, s) ← vfs_open name (Z.lor VFS_MODE_READ VFS_MODE_WRITE) s;
      if fd <? 0 then Some (-1, ed, s, io_println (map i8 name) (io_print (str "editor: cannot open ") con)) else
      '(_, s) ← vfs_lseek fd 0 VFS_SEEK_SET s;
      let '(w, s) := vfs_write fd file_buf (Z.of_nat (length out)) s in
      let '(_, s) := vfs_close fd s in
      if w <? 0 then Some (-1, ed, s, con) else Some (0, set_modified false ed, s, con)
  end.

(** ** Drawing *)

(** The decimal digits of a number below 10^12, the size of the buffers. *)
Definition dec_str (n : Z) : list Z :=
  if n =? 0 then [48] else match dec_digits 12 n [] with Some buf => rev buf | None => [] end.
Definition put_dec (n : Z) (con : console) : console := fold_left io_putchar (dec_str n) con.

Definition draw_line (ed : editor_state) (con : console) (i : Z) : console :=
  let con :=
    if show_line_numbers ed then
      let ln := i + 1 in
      let con := if ln <? 10 then io_print (str "  ") con else if ln <? 100 then io_print (str " ") con else con in
      io_print (str "| ") (io_print (dec_str ln) con)
    else con in
  let text := cstr (line ed i) in
  let sx := Z.min (scroll_x ed) (Z.of_nat (length text)) in
  io_putchar (fold_left io_putchar (map i8 (take (Z.to_nat EDITOR_VIEW_COLS) (drop (Z.to_nat sx) text))) con) 10.

(** [end - start], the number of rows the window shows. *)
Definition rows_shown (ed : editor_state) : Z :=
  let start := scroll_y ed in Z.min (start + EDITOR_VIEW_ROWS) (line_count ed) - start.

Definition editor_draw (ed : editor_state) (con : console) : console :=
  let con := vga_clear con in
  let con := io_println (str "=== Tinx Editor (Ctrl+S save, Ctrl+Q quit) ===") con in
  let con := io_print (str "File: ") con in
  let con := io_print (match filename ed with [] => str "[No Name]" | f => map i8 f end) con in
  let con := if modified ed then io_print (str " *") con else con in
  let con := put_dec (e_cursor_y ed + 1) (io_print (str "  Line ") con) in
  let con := put_dec (line_count ed) (io_print (str "/") con) in
  let con := io_println [] con in
  let con := io_println (str "----------------------------------------") con in
  let con := fold_left (draw_line ed) (map (fun n => scroll_y ed + Z.of_nat n) (seq 0 (Z.to_nat (rows_shown ed)))) con in
  let con := fold_left io_putchar (replicate (Z.to_nat (EDITOR_VIEW_ROWS - rows_shown ed)) 10) con in
  let con := io_println (str "----------------------------------------") con in
  let con := put_dec (e_cursor_y ed + 1) (io_print (str "Row ") con) in
  let con := put_dec (e_cursor_x ed + 1) (io_print (str " Col ") con) in
  let con := if modified ed then io_print (str " [modified]") con else con in
  io_println [] con.

(** ** The editor loop *)

(** A key that edits or moves; [None] for a key the loop ignores. *)
Definition editor_key (c : Z) (ed : editor_state) : option editor_state :=
  let x := e_cursor_x ed in let y := e_cursor_y ed in
  let clamp y := Z.min x (ed_strlen (line ed y)) in
  if c =? KEY_UP then
    if 0 <? y then Some (editor_ensure_scroll (move_to (clamp (y - 1)) (y - 1) ed)) else None
  else if c =? KEY_DOWN then
    if y <? line_count ed - 1 then Some (editor_ensure_scroll (move_to (clamp (y + 1)) (y + 1) ed)) else None
  else if c =? KEY_LEFT then
    Some (editor_ensure_scroll
      (if 0 <? x then move_to (x - 1) y ed
       else if 0 <? y then move_to (ed_strlen (line ed (y - 1))) (y - 1) ed else ed))
  else if c =? KEY_RIGHT then
    Some (editor_ensure_scroll
      (if x <? ed_strlen (line ed y) then move_to (x + 1) y ed
       else if y <? line_count ed - 1 then move_to 0 (y + 1) ed else ed))
  else if c =? 8 then Some (editor_ensure_scroll (editor_backspace ed))
  else if (c =? 10) || (c =? 13) then Some (editor_ensure_scroll (editor_newline ed))
  else if (32 <=? c) && (c <? 127) then Some (editor_ensure_scroll (editor_insert_char c ed))
  else if c =? 9 then
    Some (editor_ensure_scroll (Nat.iter 4 (editor_insert_char 32) ed))
  else None.

Section EditorRun.
Context {A : Type} `{!Allocator A}.
Context (file_buf : Z).

(** Left by Ctrl+Q, polling the keyboard, or a bad pointer in the file system. *)
Inductive ed_result := EdQuit (ed : editor_state) (k : kernel A) | EdPolling (ed : editor_state) (k : kernel A) | EdFault.

Definition draw (ed : editor_state) (k : kernel A) : kernel A := with_con (editor_draw ed (k_con k)) k.
Definition say (s : string) (k : kernel A) : kernel A := with_con (io_println (str s) (k_con k)) k.

Definition save (ed : editor_state) (k : kernel A) : option (Z * editor_state * kernel A) :=
  '(r, ed, s, con) ← editor_save file_buf ed (k_vfs k) (k_con k);
  Some (r, ed, with_con con (with_vfs s k)).

(** [asking]: inside the question about unsaved changes. *)
Fixpoint editor_loop (fuel : nat) (asking : bool) (ed : editor_state) (k : kernel A) : ed_result :=
  match fuel with
  | O => EdPolling ed k
  | S f =>
      let '(c, k) := getchar k in
      if c =? 0 then editor_loop f asking ed k else
      if asking then
        if c =? CTRL_Q then EdQuit ed k
        else if c =? CTRL_S then match save ed k with Some (_, ed, k) => EdQuit ed k | None => EdFault end
        else editor_loop f false ed (draw ed k)
      else if c =? CTRL_S then
        match save ed k with
        | None => EdFault
        | Some (r, ed, k) => editor_loop f false ed (draw ed (say (if r =? 0 then "Saved." else "Save failed.") k))
        end
      else if c =? CTRL_Q then
        if modified ed
        then editor_loop f true ed (say "Unsaved changes! Press Ctrl+Q again to quit without save, or Ctrl+S to save." k)
        else EdQuit ed k
      else match editor_key c ed with
           | Some ed => editor_loop f false ed (draw ed k)
           | None => editor_loop f false ed k
           end
  end.

(** Each turn of the loop takes a scan code as long as there are any. *)
Definition editor_run (ed : editor_state) (k : kernel A) : ed_result :=
  match editor_loop (length (k_keys k)) false ed (draw ed k) with
  | EdQuit ed k => EdQuit ed (with_con (vga_clear (k_con k)) k)
  | r => r
  end.

Definition editor_open (path : list Z) (k : kernel A) : ed_result :=
  let ed := editor_init (Some path) in
  match path with
  | [] => editor_run ed k
  | _ => match editor_load file_buf path ed (k_vfs k) with
         | Some (_, ed, s) => editor_run ed (with_vfs s k)
         | None => EdFault
         end
  end.
End EditorRun.
