(* ===== verification/EditorCorrect.v ===== *)
(** * The editor is a gap buffer

    A well-formed editor stands for the text before and the text behind the
    cursor.  Every key acts on these two texts as one expects, and the buffers
    are never overrun. *)
From Stdlib Require Import String.
From S2P Require Import Prelude Mem Alloc Vfs Io Serial Syscall Editor.

(** ** Rows *)

Definition nonzero (t : list Z) : Prop := Forall (fun c => c <> 0) t.
Definition row_ok (row : list Z) : Prop := length row = 256%nat /\ (length (cstr row) < 256)%nat.

Lemma cstr_nonzero row : nonzero (cstr row).
Proof. induction row as [|c row IH]; cbn; [constructor|]. case_if; bool_to_prop; constructor; done. Qed.

Lemma row_cstr_lookup row k : (k < length (cstr row))%nat -> row !! k = cstr row !! k.
Proof.
  revert k. induction row as [|c row IH]; intros k Hk; cbn in *; [lia|]. case_if; cbn in *; [lia|].
  destruct k; [done|]. cbn. apply IH. lia.
Qed.

Lemma cstr_end row : (length (cstr row) < length row)%nat -> row !! length (cstr row) = Some 0.
Proof.
  induction row as [|c row IH]; cbn; [lia|]. case_if; bool_to_prop; cbn; [by subst|]. intros H. apply IH. lia.
Qed.

(** A buffer that holds [t] and then a NUL has the string [t]. *)
Lemma cstr_holds row t :
  nonzero t -> (forall k, (k < length t)%nat -> row !! k = t !! k) -> row !! length t = Some 0 -> cstr row = t.
Proof.
  intros Ht. revert row. induction Ht as [|c t Hc _ IH]; intros row Hk Hz; destruct row as [|d row]; cbn in *; try done.
  - injection Hz as ->. done.
  - pose proof (Hk 0%nat ltac:(lia)) as H0. injection H0 as ->. replace (c =? 0) with false by lia.
    f_equal. apply IH; [|done]. intros k Hlt. apply (Hk (S k)). lia.
Qed.

Lemma row_lookup row k :
  row_ok row -> (k <= length (cstr row))%nat ->
  row !! k = if decide (k < length (cstr row))%nat then cstr row !! k else Some 0.
Proof.
  intros [Hl Hc] Hk. case_decide; [by apply row_cstr_lookup|]. replace k with (length (cstr row)) by lia. apply cstr_end. lia.
Qed.

Lemma get_at_lookup row i v : 0 <= i -> row !! Z.to_nat i = Some v -> get_at i row = v.
Proof. intros _ H. unfold get_at. by apply list_lookup_total_correct. Qed.

Lemma length_set_at i v row : length (set_at i v row) = length row.
Proof. apply length_insert. Qed.

Lemma set_at_lookup i v row k :
  0 <= i < Z.of_nat (length row) -> set_at i v row !! k = if decide (Z.of_nat k = i) then Some v else row !! k.
Proof.
  intros Hi. unfold set_at. case_decide.
  - rewrite (list_lookup_insert_eq row) || (replace k with (Z.to_nat i) by lia; rewrite list_lookup_insert_eq by lia); done.
  - by rewrite list_lookup_insert_ne by lia.
Qed.

Lemma get_at_total row i : 0 <= i < Z.of_nat (length row) -> row !! Z.to_nat i = Some (get_at i row).
Proof. intros Hi. apply list_lookup_lookup_total_lt. lia. Qed.

(** ** The loops over one row *)

Lemma shift_right_spec n i row :
  Z.of_nat n <= i + 1 -> i + 1 < Z.of_nat (length row) ->
  length (shift_right n i row) = length row /\
  forall k, shift_right n i row !! k =
    if decide (i + 1 - Z.of_nat n < Z.of_nat k <= i + 1) then row !! (k - 1)%nat else row !! k.
Proof.
  revert i row. induction n as [|n IH]; intros i row Hn Hl; cbn [shift_right].
  { split; [done|]. intros k. by rewrite decide_False by lia. }
  destruct (IH (i - 1) (set_at (i + 1) (get_at i row) row)) as [Hlen Hk]; [lia|rewrite length_set_at; lia|].
  split; [by rewrite Hlen, length_set_at|]. intros k. rewrite Hk, !set_at_lookup by lia.
  repeat case_decide; try lia; try done.
  rewrite <- get_at_total by lia. f_equal. lia.
Qed.

Lemma shift_left_spec n i row :
  0 <= i -> i + Z.of_nat n < Z.of_nat (length row) ->
  length (shift_left n i row) = length row /\
  forall k, shift_left n i row !! k =
    if decide (i <= Z.of_nat k < i + Z.of_nat n) then row !! (k + 1)%nat else row !! k.
Proof.
  revert i row. induction n as [|n IH]; intros i row Hi Hl; cbn [shift_left].
  { split; [done|]. intros k. by rewrite decide_False by lia. }
  destruct (IH (i + 1) (set_at i (get_at (i + 1) row) row)) as [Hlen Hk]; [lia|rewrite length_set_at; lia|].
  split; [by rewrite Hlen, length_set_at|]. intros k. rewrite Hk, !set_at_lookup by lia.
  repeat case_decide; try lia; try done.
  rewrite <- get_at_total by lia. f_equal. lia.
Qed.

Lemma append_row_spec n i plen prev cur :
  0 <= i -> 0 <= plen -> plen + i + Z.of_nat n <= Z.of_nat (length prev) -> i + Z.of_nat n <= Z.of_nat (length cur) ->
  length (append_row n i plen prev cur) = length prev /\
  forall k, append_row n i plen prev cur !! k =
    if decide (plen + i <= Z.of_nat k < plen + i + Z.of_nat n) then cur !! (k - Z.to_nat plen)%nat else prev !! k.
Proof.
  revert i prev. induction n as [|n IH]; intros i prev Hi Hp Hl Hc; cbn [append_row].
  { split; [done|]. intros k. by rewrite decide_False by lia. }
  destruct (IH (i + 1) (set_at (plen + i) (get_at i cur) prev)) as [Hlen Hk]; try lia; [rewrite length_set_at; lia|].
  split; [by rewrite Hlen, length_set_at|]. intros k. rewrite Hk, !set_at_lookup by lia.
  repeat case_decide; try lia; try done.
  rewrite <- get_at_total by lia. f_equal. lia.
Qed.

Lemma copy_tail_spec n i x cur new :
  0 <= i -> 0 <= x -> i + Z.of_nat n <= Z.of_nat (length new) -> x + i + Z.of_nat n <= Z.of_nat (length cur) ->
  length (copy_tail n i x cur new) = length new /\
  forall k, copy_tail n i x cur new !! k =
    if decide (i <= Z.of_nat k < i + Z.of_nat n) then cur !! (k + Z.to_nat x)%nat else new !! k.
Proof.
  revert i new. induction n as [|n IH]; intros i new Hi Hx Hl Hc; cbn [copy_tail].
  { split; [done|]. intros k. by rewrite decide_False by lia. }
  destruct (IH (i + 1) (set_at i (get_at (x + i) cur) new)) as [Hlen Hk]; try lia; [rewrite length_set_at; lia|].
  split; [by rewrite Hlen, length_set_at|]. intros k. rewrite Hk, !set_at_lookup by lia.
  repeat case_decide; try lia; try done.
  rewrite <- get_at_total by lia. f_equal. lia.
Qed.

(** ** What the loops do to the strings *)

Lemma row_ok_cstr row t :
  length row = 256%nat -> nonzero t -> (length t < 256)%nat ->
  (forall k, (k <= length t)%nat -> row !! k = (t ++ [0]) !! k) -> row_ok row /\ cstr row = t.
Proof.
  intros Hl Ht Hlt Hk. assert (cstr row = t) as Hc.
  { apply cstr_holds; [done| |].
    - intros k Hk'. rewrite Hk by lia. by rewrite lookup_app_l.
    - rewrite Hk by lia. rewrite lookup_app_r, Nat.sub_diag by lia. done. }
  split; [|done]. split; [done|]. by rewrite Hc.
Qed.

Lemma row_ok_lookup row k : row_ok row -> (k <= length (cstr row))%nat -> row !! k = (cstr row ++ [0]) !! k.
Proof.
  intros Hr Hk. rewrite row_lookup by done. case_decide; [by rewrite lookup_app_l|].
  rewrite lookup_app_r by lia. by replace (k - length (cstr row))%nat with 0%nat by lia.
Qed.

Lemma empty_row_ok : row_ok (replicate (Z.to_nat EDITOR_MAX_COLS) 0).
Proof. split; [done|]. change (cstr (replicate (Z.to_nat EDITOR_MAX_COLS) 0)) with (@nil Z). apply Nat.lt_0_succ. Qed.

Lemma nonzero_app s t : nonzero (s ++ t) <-> nonzero s /\ nonzero t.
Proof. apply Forall_app. Qed.

Ltac at_row :=
  repeat (rewrite ?lookup_app, ?lookup_cons; repeat case_match; try lia; try done).

Lemma insert_row row l r c :
  row_ok row -> cstr row = l ++ r -> (length (l ++ r) < 255)%nat -> c <> 0 ->
  let row' := set_at (Z.of_nat (length l)) c
                (shift_right (Z.to_nat (ed_strlen row - Z.of_nat (length l) + 1)) (ed_strlen row) row) in
  row_ok row' /\ cstr row' = l ++ c :: r.
Proof.
  intros Hr Hc Hlen Hnz row'. pose proof (cstr_nonzero row) as Hz. rewrite Hc in Hz. apply nonzero_app in Hz as [Hz1 Hz2].
  pose proof Hr as [H256 _]. unfold row', ed_strlen. rewrite Hc, !length_app in *.
  destruct (shift_right_spec (Z.to_nat (Z.of_nat (length l + length r) - Z.of_nat (length l) + 1))
    (Z.of_nat (length l + length r)) row) as [Hl Hk]; [lia|lia|].
  apply row_ok_cstr.
  - by rewrite length_set_at, Hl.
  - apply nonzero_app. split; [done|by constructor].
  - rewrite length_app; cbn; lia.
  - intros k Hle. rewrite length_app in Hle; cbn in Hle. rewrite set_at_lookup, Hk by lia.
    repeat case_decide; try lia.
    + replace k with (length l) by lia. rewrite <- app_assoc, lookup_app_r, Nat.sub_diag by lia. done.
    + rewrite row_ok_lookup, Hc by (done || rewrite Hc, length_app; lia).
      rewrite <- !app_assoc, !(lookup_app_r l) by lia. replace (k - length l)%nat with (S (k - 1 - length l)) by lia. done.
    + rewrite row_ok_lookup, Hc by (done || rewrite Hc, length_app; lia). rewrite <- !app_assoc, !(lookup_app_l l) by lia. done.
Qed.

Lemma delete_row row l r c :
  row_ok row -> cstr row = l ++ c :: r ->
  let row' := shift_left (Z.to_nat (ed_strlen row - Z.of_nat (length l))) (Z.of_nat (length l)) row in
  row_ok row' /\ cstr row' = l ++ r.
Proof.
  intros Hr Hc row'. pose proof (cstr_nonzero row) as Hz. rewrite Hc in Hz. apply nonzero_app in Hz as [Hz1 Hz2].
  pose proof Hr as [H256 Hlt]. rewrite Hc in Hlt. unfold row', ed_strlen. rewrite Hc, !length_app in *. cbn [length] in *.
  destruct (shift_left_spec (Z.to_nat (Z.of_nat (length l + S (length r)) - Z.of_nat (length l)))
    (Z.of_nat (length l)) row) as [Hl Hk]; [lia|lia|].
  apply row_ok_cstr.
  - by rewrite Hl.
  - apply nonzero_app. split; [done|by inversion Hz2].
  - rewrite length_app; lia.
  - intros k Hle. rewrite length_app in Hle. rewrite Hk.
    case_decide; rewrite row_ok_lookup, Hc by (done || rewrite Hc, length_app; cbn; lia); rewrite <- !app_assoc.
    + rewrite !(lookup_app_r l) by lia. replace (k + 1 - length l)%nat with (S (k - length l)) by lia. done.
    + rewrite !(lookup_app_l l) by lia. done.
Qed.

Lemma join_row prev cur :
  row_ok prev -> row_ok cur -> (length (cstr prev) + length (cstr cur) < 255)%nat ->
  let row' := append_row (Z.to_nat (ed_strlen cur + 1)) 0 (ed_strlen prev) prev cur in
  row_ok row' /\ cstr row' = cstr prev ++ cstr cur.
Proof.
  intros Hp Hcur Hlt row'. unfold row'. pose proof Hp as [Hp256 _]. pose proof Hcur as [Hc256 _].
  destruct (append_row_spec (Z.to_nat (ed_strlen cur + 1)) 0 (ed_strlen prev) prev cur) as [Hl Hk];
    [lia|unfold ed_strlen; lia..|].
  apply row_ok_cstr.
  - by rewrite Hl.
  - apply nonzero_app. split; apply cstr_nonzero.
  - rewrite length_app; lia.
  - intros k Hle. rewrite length_app in Hle. rewrite Hk. unfold ed_strlen. case_decide; rewrite <- app_assoc.
    + rewrite lookup_app_r, row_ok_lookup by (done || lia). f_equal. lia.
    + rewrite lookup_app_l, row_ok_lookup by (done || lia). by rewrite lookup_app_l by lia.
Qed.

(** The line cut at the cursor, and the new line with what was behind it. *)
Lemma cut_row row l r :
  row_ok row -> cstr row = l ++ r -> let row' := set_at (Z.of_nat (length l)) 0 row in row_ok row' /\ cstr row' = l.
Proof.
  intros Hr Hc row'. unfold row'. pose proof (cstr_nonzero row) as Hz. rewrite Hc in Hz. apply nonzero_app in Hz as [Hz1 Hz2].
  pose proof Hr as [H256 Hlt]. rewrite Hc, length_app in Hlt.
  apply row_ok_cstr; [by rewrite length_set_at|done|lia|].
  intros k Hle. rewrite set_at_lookup by lia. case_decide.
  - rewrite lookup_app_r by lia. by replace (k - length l)%nat with 0%nat by lia.
  - rewrite row_ok_lookup, Hc by (done || rewrite Hc, length_app; lia). rewrite <- app_assoc, !(lookup_app_l l) by lia. done.
Qed.

Lemma tail_row row l r :
  row_ok row -> cstr row = l ++ r ->
  let row' := set_at (ed_strlen row - Z.of_nat (length l)) 0
                (copy_tail (Z.to_nat (ed_strlen row - Z.of_nat (length l))) 0 (Z.of_nat (length l)) row (replicate 256 0)) in
  row_ok row' /\ cstr row' = r.
Proof.
  intros Hr Hc row'. pose proof (cstr_nonzero row) as Hz. rewrite Hc in Hz. apply nonzero_app in Hz as [Hz1 Hz2].
  pose proof Hr as [H256 Hlt]. rewrite Hc in Hlt. unfold row', ed_strlen. rewrite Hc, !length_app in *.
  destruct (copy_tail_spec (Z.to_nat (Z.of_nat (length l + length r) - Z.of_nat (length l))) 0 (Z.of_nat (length l)) row
    (replicate 256 0)) as [Hl Hk]; [lia|lia|rewrite length_replicate; lia|lia|].
  rewrite length_replicate in Hl.
  apply row_ok_cstr; [by rewrite length_set_at, Hl|done|lia|].
  intros k Hle. rewrite set_at_lookup, Hk by lia. repeat case_decide; try lia.
  - rewrite lookup_app_r by lia. by replace (k - length r)%nat with 0%nat by lia.
  - rewrite row_ok_lookup, Hc by (done || rewrite Hc, length_app; lia).
    rewrite <- app_assoc, (lookup_app_r l) by lia. f_equal. lia.
Qed.

Lemma strcpy_row d s : row_ok d -> row_ok s -> row_ok (ed_strcpy d s) /\ cstr (ed_strcpy d s) = cstr s.
Proof.
  intros [Hd _] [Hs Hlt]. unfold ed_strcpy. rewrite Hd. apply row_ok_cstr; [|apply cstr_nonzero|done|].
  - rewrite length_take, !length_app, length_drop, Hd. cbn [length]. lia.
  - intros k Hle. rewrite lookup_take_lt by lia. rewrite app_assoc, lookup_app_l; [done|]. rewrite length_app. cbn [length]. lia.
Qed.

(** ** The strings of all the lines *)

Definition strings (ls : list (list Z)) : list (list Z) := map cstr ls.
Definition rows_ok (ls : list (list Z)) : Prop := length ls = 256%nat /\ Forall row_ok ls.

Lemma strings_row ls i t : strings ls !! i = Some t -> cstr (ls !!! i) = t.
Proof.
  intros H. apply list_lookup_fmap_Some in H as (row & -> & Hr). by rewrite (list_lookup_total_correct _ _ _ Hr).
Qed.

Lemma rows_ok_row ls i : rows_ok ls -> (i < 256)%nat -> row_ok (ls !!! i).
Proof.
  intros [Hl Hf] Hi. apply (Forall_lookup_1 _ ls i); [done|]. apply list_lookup_lookup_total_lt. lia.
Qed.

Lemma rows_ok_insert ls i row : rows_ok ls -> row_ok row -> rows_ok (<[i := row]> ls).
Proof. intros [Hl Hf] Hr. split; [by rewrite length_insert|]. by apply Forall_insert. Qed.

Lemma strings_insert ls i row A t B :
  strings ls = A ++ t :: B -> i = length A -> strings (<[i := row]> ls) = A ++ cstr row :: B.
Proof.
  intros Hs ->. unfold strings in *. change (map cstr (<[length A := row]> ls)) with (cstr <$> <[length A := row]> ls).
  rewrite list_fmap_insert. change (cstr <$> ls) with (map cstr ls). rewrite Hs.
  rewrite <- (Nat.add_0_r (length A)) at 1. by rewrite insert_app_r.
Qed.

Lemma strings_length ls : rows_ok ls -> length (strings ls) = 256%nat.
Proof. intros [Hl _]. unfold strings. by rewrite length_map. Qed.

Lemma middle_lookup {X} (A : list X) t B : (A ++ t :: B) !! length A = Some t.
Proof. rewrite lookup_app_r, Nat.sub_diag by lia. done. Qed.

Lemma copy_line ls A t B i j u :
  rows_ok ls -> strings ls = A ++ t :: B -> i = length A -> strings ls !! j = Some u ->
  rows_ok (<[i := ed_strcpy (ls !!! i) (ls !!! j)]> ls) /\
  strings (<[i := ed_strcpy (ls !!! i) (ls !!! j)]> ls) = A ++ u :: B.
Proof.
  intros Hok Hs Hi Hj. pose proof (strings_length _ Hok) as Hl.
  assert (i < 256)%nat by (rewrite <- Hl, Hs, length_app; cbn [length]; lia).
  assert (j < 256)%nat by (rewrite <- Hl; by eapply lookup_lt_Some).
  destruct (strcpy_row (ls !!! i) (ls !!! j)) as [H1 H2]; [by apply rows_ok_row..|].
  split; [by apply rows_ok_insert|]. erewrite strings_insert by done. by rewrite H2, (strings_row _ _ _ Hj).
Qed.

Lemma lines_up_spec post ls A cur rest i n :
  rows_ok ls -> strings ls = A ++ cur :: post ++ rest -> i = Z.of_nat (length A) -> n = length post ->
  rows_ok (lines_up n i ls) /\ exists z, strings (lines_up n i ls) = A ++ post ++ z :: rest.
Proof.
  revert ls A cur i n. induction post as [|q post IH]; intros ls A cur i n Hok Hs -> ->; cbn [length lines_up].
  { eauto. }
  destruct (copy_line ls A cur (q :: post ++ rest) (Z.to_nat (Z.of_nat (length A))) (Z.to_nat (Z.of_nat (length A) + 1)) q)
    as [H1 H2]; [done..|lia| |].
  { rewrite Hs. replace (Z.to_nat (Z.of_nat (length A) + 1)) with (length A + 1)%nat by lia. rewrite lookup_app_r by lia.
    by replace (length A + 1 - length A)%nat with 1%nat by lia. }
  destruct (IH _ (A ++ [q]) q (Z.of_nat (length A) + 1) (length post) H1) as [H3 [z H4]]; [|rewrite length_app; cbn; lia|done|].
  { rewrite H2, <- app_assoc. done. }
  split; [done|]. exists z. rewrite H4, <- app_assoc. done.
Qed.

Lemma lines_down_spec post ls A z rest i n :
  rows_ok ls -> strings ls = A ++ post ++ z :: rest -> i = Z.of_nat (length A + length post) -> n = length post ->
  rows_ok (lines_down n i ls) /\ exists w, strings (lines_down n i ls) = A ++ w :: post ++ rest.
Proof.
  revert ls z rest i n. induction post as [|q post IH] using rev_ind; intros ls z rest i n Hok Hs -> ->; cbn [length lines_down].
  { cbn. eauto. }
  rewrite length_app. cbn [length]. rewrite Nat.add_1_r. cbn [lines_down].
  destruct (copy_line ls (A ++ post ++ [q]) z rest (Z.to_nat (Z.of_nat (length A + S (length post))))
    (Z.to_nat (Z.of_nat (length A + S (length post)) - 1)) q) as [H1 H2]; [done|by rewrite Hs, <- !app_assoc|..].
  { rewrite !length_app. cbn. lia. }
  { rewrite Hs. rewrite <- app_assoc, app_assoc. replace (Z.to_nat (Z.of_nat (length A + S (length post)) - 1)) with (length (A ++ post))
      by (rewrite length_app; lia). apply middle_lookup. }
  destruct (IH _ q (q :: rest) (Z.of_nat (length A + S (length post)) - 1) (length post) H1) as [H3 [w H4]]; [|lia|done|].
  { rewrite H2, <- !app_assoc. done. }
  split; [done|]. exists w. rewrite H4, <- !app_assoc. done.
Qed.

(** ** The abstract editor: the text before and behind the cursor *)

Fixpoint first_line (t : list Z) : list Z :=
  match t with [] => [] | c :: t' => if c =? 10 then [] else c :: first_line t' end.
Definition last_line (t : list Z) : list Z := reverse (first_line (reverse t)).
Definition newlines (t : list Z) : nat := length (filter (fun c => c = 10) t).

Definition gap : Type := list Z * list Z.
Definition gap_goto (p : nat) (g : gap) : gap := (take p (g.1 ++ g.2), drop p (g.1 ++ g.2)).
Definition gap_insert (c : Z) (g : gap) : gap :=
  if (length (last_line g.1) + length (first_line g.2) <? 255)%nat then (g.1 ++ [c], g.2) else g.
Definition gap_newline (g : gap) : gap :=
  if (newlines (g.1 ++ g.2) <? 254)%nat then (g.1 ++ [10], g.2) else g.
(** A newline is deleted when the two lines fit into one. *)
Definition gap_backspace (g : gap) : gap :=
  let b := take (length g.1 - 1) g.1 in
  match last g.1 with
  | Some c => if (c =? 10) && negb (length (last_line b) + length (first_line g.2) <? 255)%nat then g else (b, g.2)
  | None => g
  end.
Definition gap_left (g : gap) : gap := gap_goto (length g.1 - 1) g.
Definition gap_right (g : gap) : gap := gap_goto (length g.1 + 1) g.
Definition gap_up (g : gap) : gap :=
  let col := length (last_line g.1) in
  if (col =? length g.1)%nat then g else
  let above := take (length g.1 - col - 1) g.1 in
  gap_goto (length above - length (last_line above) + col `min` length (last_line above)) g.
Definition gap_down (g : gap) : gap :=
  let col := length (last_line g.1) in
  let rest := length (first_line g.2) in
  if (rest =? length g.2)%nat then g else
  gap_goto (length g.1 + rest + 1 + col `min` length (first_line (drop (rest + 1) g.2))) g.

Definition gap_key (c : Z) (g : gap) : gap :=
  if c =? KEY_UP then gap_up g else if c =? KEY_DOWN then gap_down g
  else if c =? KEY_LEFT then gap_left g else if c =? KEY_RIGHT then gap_right g
  else if c =? 8 then gap_backspace g
  else if (c =? 10) || (c =? 13) then gap_newline g
  else if (32 <=? c) && (c <? 127) then gap_insert c g
  else if c =? 9 then Nat.iter 4 (gap_insert 32) g else g.

(** The two texts of an editor. *)
Definition closed (ts : list (list Z)) : list Z := concat (map (fun t => t ++ [10]) ts).
Definition opened (ts : list (list Z)) : list Z := concat (map (cons 10) ts).
Definition texts (ed : editor_state) : list (list Z) := strings (take (Z.to_nat (line_count ed)) (lines ed)).
Definition gap_of (ed : editor_state) : gap :=
  let ts := texts ed in
  let y := Z.to_nat (e_cursor_y ed) in
  let x := Z.to_nat (e_cursor_x ed) in
  (closed (take y ts) ++ take x (ts !!! y), drop x (ts !!! y) ++ opened (drop (S y) ts)).
(** The document: the lines with newlines between them. *)
Definition document (ed : editor_state) : list Z := (gap_of ed).1 ++ (gap_of ed).2.

Definition one_line (t : list Z) : Prop := Forall (fun c => c <> 10) t.

Lemma first_line_app t u : one_line t -> first_line (t ++ u) = t ++ first_line u.
Proof. induction 1 as [|c t Hc _ IH]; cbn; [done|]. replace (c =? 10) with false by lia. by rewrite IH. Qed.
Lemma first_line_opened ts : first_line (opened ts) = [].
Proof. by destruct ts. Qed.
Lemma last_line_app t u : one_line u -> last_line (t ++ u) = last_line t ++ u.
Proof.
  intros Hu. unfold last_line. rewrite reverse_app, first_line_app, reverse_app, reverse_involutive; [done|]. by apply Forall_reverse.
Qed.
Lemma closed_snoc ts t : closed (ts ++ [t]) = closed ts ++ t ++ [10].
Proof. unfold closed. rewrite map_app, concat_app. cbn. by rewrite app_nil_r. Qed.
Lemma last_line_closed ts : last_line (closed ts) = [].
Proof.
  destruct ts as [|ts t _] using rev_ind; [done|]. rewrite closed_snoc. unfold last_line.
  rewrite !reverse_app. cbn. done.
Qed.
Lemma newlines_app t u : newlines (t ++ u) = (newlines t + newlines u)%nat.
Proof. unfold newlines. by rewrite filter_app, length_app. Qed.
Lemma newlines_line t : one_line t -> newlines t = 0%nat.
Proof. unfold newlines. induction 1; [done|]. by rewrite filter_cons_False by lia. Qed.
Lemma newlines_closed ts : Forall one_line ts -> newlines (closed ts) = length ts.
Proof.
  induction 1 as [|t ts Ht _ IH]; [done|]. change (closed (t :: ts)) with ((t ++ [10]) ++ closed ts).
  rewrite !newlines_app, newlines_line, IH by done. done.
Qed.
Lemma newlines_opened ts : Forall one_line ts -> newlines (opened ts) = length ts.
Proof.
  induction 1 as [|t ts Ht _ IH]; [done|]. change (opened (t :: ts)) with ([10] ++ t ++ opened ts).
  rewrite !newlines_app, IH, (newlines_line t) by done. done.
Qed.

(** ** Well-formed editors *)

(** The lines before the cursor's, the cursor's line at both sides of the
    cursor, and the lines behind it; buffers past [line_count] do not matter. *)
Record holds (ed : editor_state) (pre : list (list Z)) (l r : list Z) (post : list (list Z)) : Prop := {
  holds_rows : rows_ok (lines ed);
  holds_strings : exists rest, strings (lines ed) = pre ++ (l ++ r) :: post ++ rest;
  holds_count : line_count ed = Z.of_nat (length pre + 1 + length post);
  holds_y : e_cursor_y ed = Z.of_nat (length pre);
  holds_x : e_cursor_x ed = Z.of_nat (length l);
  holds_pre : Forall one_line pre;
  holds_l : one_line l;
  holds_r : one_line r;
  holds_post : Forall one_line post
}.

Lemma texts_holds ed pre l r post : holds ed pre l r post -> texts ed = pre ++ (l ++ r) :: post.
Proof.
  intros []. destruct holds_strings0 as [rest Hs]. unfold texts, strings.
  rewrite <- firstn_map. fold (strings (lines ed)). rewrite Hs, holds_count0, !Nat2Z.id.
  change ((l ++ r) :: post ++ rest) with (((l ++ r) :: post) ++ rest). rewrite app_assoc.
  apply take_app_length'. rewrite length_app. cbn [length]. lia.
Qed.

Lemma gap_of_holds ed pre l r post :
  holds ed pre l r post -> gap_of ed = (closed pre ++ l, r ++ opened post).
Proof.
  intros H. unfold gap_of. rewrite (texts_holds _ _ _ _ _ H). destruct H. rewrite holds_y0, holds_x0, !Nat2Z.id.
  rewrite (list_lookup_total_correct _ _ _ (middle_lookup _ _ _)), take_app_length, take_app_length, drop_app_length.
  do 3 f_equal. change ((l ++ r) :: post) with ([l ++ r] ++ post). rewrite app_assoc.
  apply drop_app_length'. rewrite length_app. cbn. lia.
Qed.

Lemma holds_room ed pre l r post : holds ed pre l r post -> (length pre + 1 + length post <= 256)%nat.
Proof.
  intros []. destruct holds_strings0 as [rest Hs]. pose proof (strings_length _ holds_rows0) as H.
  rewrite Hs, length_app in H. cbn [length] in H. rewrite length_app in H. lia.
Qed.

Lemma strings_lookup ed pre l r post i t :
  holds ed pre l r post -> (pre ++ (l ++ r) :: post) !! i = Some t ->
  row_ok (line ed (Z.of_nat i)) /\ cstr (line ed (Z.of_nat i)) = t.
Proof.
  intros H Hi. pose proof (holds_room _ _ _ _ _ H). destruct H. destruct holds_strings0 as [rest Hs].
  pose proof (lookup_lt_Some _ _ _ Hi) as Hlt. rewrite length_app in Hlt. cbn [length] in Hlt.
  unfold line. rewrite Nat2Z.id. split; [apply rows_ok_row; [done|lia]|]. apply strings_row. rewrite Hs.
  change ((l ++ r) :: post ++ rest) with (((l ++ r) :: post) ++ rest). rewrite app_assoc. by apply lookup_app_l_Some.
Qed.

Lemma holds_row ed pre l r post :
  holds ed pre l r post ->
  row_ok (line ed (Z.of_nat (length pre))) /\ cstr (line ed (Z.of_nat (length pre))) = l ++ r /\
  ed_strlen (line ed (Z.of_nat (length pre))) = Z.of_nat (length l + length r).
Proof.
  intros H. destruct (strings_lookup _ _ _ _ _ (length pre) (l ++ r) H (middle_lookup _ _ _)) as [Hr Hc].
  unfold ed_strlen. by rewrite Hc, length_app.
Qed.

Lemma holds_short ed pre l r post : holds ed pre l r post -> (length l + length r < 256)%nat.
Proof. intros H. destruct (holds_row _ _ _ _ _ H) as ([_ Hlt] & Hc & _). rewrite Hc, length_app in Hlt. lia. Qed.

Lemma insert_holds c ed pre l r post :
  holds ed pre l r post -> c <> 0 -> c <> 10 -> (length l + length r < 255)%nat ->
  holds (editor_insert_char c ed) pre (l ++ [c]) r post.
Proof.
  intros H Hc0 Hc10 Hlt. destruct (holds_row _ _ _ _ _ H) as (Hr & Hc & Hlen).
  assert ((length (l ++ r) < 255)%nat) as Hlt' by (rewrite length_app; lia).
  destruct (insert_row _ l r c Hr Hc Hlt' Hc0) as [Hr' Hc']. rewrite Hlen in Hr', Hc'.
  pose proof H as []. destruct holds_strings0 as [rest Hs].
  unfold editor_insert_char. rewrite holds_y0, holds_x0, holds_count0, Hlen. unfold EDITOR_MAX_COLS.
  replace (_ || _) with false by lia. replace (256 - 1 <=? _) with false by lia.
  constructor; cbn; try done; [| |rewrite length_app; cbn; lia|apply Forall_app; repeat constructor; done].
  - apply rows_ok_insert; [done|]. apply Hr'.
  - exists rest. erewrite strings_insert by (done || lia). by rewrite Hc', <- app_assoc.
Qed.

Lemma insert_full c ed pre l r post :
  holds ed pre l r post -> (255 <= length l + length r)%nat -> editor_insert_char c ed = ed.
Proof.
  intros H Hge. destruct (holds_row _ _ _ _ _ H) as (Hr & Hc & Hlen). destruct H. unfold editor_insert_char.
  rewrite holds_y0, holds_count0, Hlen. unfold EDITOR_MAX_COLS. case_if; [done|]. by replace (256 - 1 <=? _) with true by lia.
Qed.

Lemma backspace_holds c ed pre l r post :
  holds ed pre (l ++ [c]) r post -> holds (editor_backspace ed) pre l r post.
Proof.
  intros H. destruct (holds_row _ _ _ _ _ H) as (Hr & Hc & Hlen). rewrite <- app_assoc in Hc.
  destruct (delete_row _ l r c Hr Hc) as [Hr' Hc'].
  pose proof H as []. destruct holds_strings0 as [rest Hs]. rewrite length_app in *. cbn [length] in *.
  unfold editor_backspace. rewrite holds_y0, holds_x0.
  replace (0 <? _) with true by lia. replace (Z.of_nat (length l + 1) - 1) with (Z.of_nat (length l)) by lia.
  apply Forall_app in holds_l0 as [Hl _].
  constructor; cbn; try done.
  - by apply rows_ok_insert.
  - exists rest. erewrite strings_insert by (done || lia). by rewrite Hc'.
Qed.

Lemma join_holds ed pre p r post :
  holds ed (pre ++ [p]) [] r post -> (length p + length r < 255)%nat -> holds (editor_backspace ed) pre p r post.
Proof.
  intros H Hlt. destruct (holds_row _ _ _ _ _ H) as (Hr & Hc & Hlen).
  destruct (strings_lookup _ _ _ _ _ (length pre) p H) as [Hpr Hpc].
  { rewrite <- app_assoc. apply middle_lookup. }
  pose proof H as []. destruct holds_strings0 as [rest Hs]. rewrite length_app in *. cbn [length app] in *.
  replace (Z.of_nat (length pre + 1)) with (Z.of_nat (length pre) + 1) in * by lia.
  destruct (join_row _ _ Hpr Hr) as [Hr' Hc']; [rewrite Hpc, Hc; lia|]. rewrite Hpc, Hc in Hc'.
  unfold editor_backspace. rewrite holds_y0, holds_x0. change (0 <? Z.of_nat 0) with false.
  replace (0 <? Z.of_nat (length pre) + 1) with true by lia. replace (Z.of_nat (length pre) + 1 - 1) with (Z.of_nat (length pre)) by lia.
  cbn iota. rewrite Hlen. unfold EDITOR_MAX_COLS. assert (ed_strlen (line ed (Z.of_nat (length pre))) = Z.of_nat (length p)) as Hplen
    by (unfold ed_strlen; by rewrite Hpc).
  rewrite Hlen in Hr', Hc'. rewrite Hplen in *. replace (_ <? 256 - 1) with true by lia.
  apply Forall_app in holds_pre0 as [Hpre Hp]. rewrite Forall_singleton in Hp.
  cbn [put_line set_lines lines line_count].
  match goal with |- context [lines_up ?n ?i ?ls] => destruct (lines_up_spec post ls (pre ++ [p ++ r]) r rest i n) as [H1 [z H2]] end.
  - by apply rows_ok_insert.
  - erewrite strings_insert; [|rewrite Hs, <- app_assoc; done|lia]. rewrite Hc', <- app_assoc. done.
  - rewrite length_app. cbn. lia.
  - lia.
  - constructor; cbn; try done; [|lia]. exists (z :: rest). etransitivity; [exact H2|]. by rewrite <- app_assoc.
Qed.

Lemma join_full ed pre p r post :
  holds ed (pre ++ [p]) [] r post -> (255 <= length p + length r)%nat -> editor_backspace ed = ed.
Proof.
  intros H Hge. destruct (holds_row _ _ _ _ _ H) as (Hr & Hc & Hlen).
  destruct (strings_lookup _ _ _ _ _ (length pre) p H) as [Hpr Hpc].
  { rewrite <- app_assoc. apply middle_lookup. }
  destruct H. unfold editor_backspace. rewrite holds_y0, holds_x0, Hlen. cbn [length]. change (0 <? Z.of_nat 0) with false.
  cbn iota. rewrite length_app. cbn [length]. replace (Z.of_nat (length pre + 1) - 1) with (Z.of_nat (length pre)) by lia.
  unfold ed_strlen. rewrite Hpc. unfold EDITOR_MAX_COLS. case_if; [|done]. by replace (_ <? 256 - 1) with false by lia.
Qed.

Lemma backspace_start ed r post : holds ed [] [] r post -> editor_backspace ed = ed.
Proof. intros []. unfold editor_backspace. rewrite holds_y0, holds_x0. done. Qed.

Lemma newline_holds ed pre l r post :
  holds ed pre l r post -> (length pre + 1 + length post < 255)%nat -> holds (editor_newline ed) (pre ++ [l]) [] r post.
Proof.
  intros H Hlt. destruct (holds_row _ _ _ _ _ H) as (Hr & Hc & Hlen). pose proof H as []. destruct holds_strings0 as [rest Hs].
  pose proof (strings_length _ holds_rows0) as H256. rewrite Hs, length_app in H256. cbn [length] in H256. rewrite length_app in H256.
  destruct rest as [|z rest]; [cbn in H256; lia|].
  unfold editor_newline. rewrite holds_y0, holds_x0, Hlen. unfold EDITOR_MAX_LINES, EDITOR_MAX_COLS.
  replace (256 - 1 <=? _) with false by lia.
  (* The line cut, and the new one. *)
  match goal with |- context [if ?b then ?t else ?e] => assert (exists new ls, (if b then t else e) = (new, set_lines ls ed) /\
    row_ok new /\ cstr new = r /\ rows_ok ls /\ strings ls = pre ++ l :: post ++ z :: rest)
    as (new & ls & -> & Hn & Hnr & Hls & Hss) end.
  { destruct (Z.ltb_spec (Z.of_nat (length l)) (Z.of_nat (length l + length r))) as [Hx|Hx].
    - destruct (cut_row _ l r Hr Hc) as [Hcr Hcc]. destruct (tail_row _ l r Hr Hc) as [Htr Htc]. rewrite Hlen in Htr, Htc.
      do 2 eexists. split; [reflexivity|]. split; [exact Htr|]. split; [exact Htc|]. split; [by apply rows_ok_insert|].
      erewrite strings_insert by (done || lia). by rewrite Hcc.
    - destruct r as [|c r]; [|cbn in Hx; lia]. exists (replicate 256 0), (lines ed). rewrite app_nil_r in Hs.
      split; [by destruct ed|]. split; [exact empty_row_ok|done]. }
  cbn [set_lines put_line lines line_count].
  match goal with |- context [lines_down ?n ?i ?ls] => destruct (lines_down_spec post ls (pre ++ [l]) z rest i n) as [H1 [w H2]] end;
    [done|by rewrite Hss, <- app_assoc|rewrite length_app; cbn; lia|lia|].
  set (ls2 := lines_down _ _ _) in *.
  destruct (strcpy_row (ls2 !!! Z.to_nat (Z.of_nat (length pre) + 1)) new) as [H3 H4]; [apply rows_ok_row; [done|lia]|done|].
  constructor; cbn; try done; try (rewrite length_app; cbn; lia).
  - by apply rows_ok_insert.
  - exists rest. erewrite strings_insert; [|exact H2|rewrite length_app; cbn; lia]. unfold line. cbn. by rewrite H4, Hnr.
  - by apply Forall_app; repeat constructor.
  - constructor.
Qed.

Lemma newline_full ed pre l r post :
  holds ed pre l r post -> (255 <= length pre + 1 + length post)%nat -> editor_newline ed = ed.
Proof. intros [] Hge. unfold editor_newline. rewrite holds_count0. by replace (_ <=? _) with true by (unfold EDITOR_MAX_LINES; lia). Qed.

(** ** The keys act on the two texts *)

Section Gaps.
Context (pre post : list (list Z)) (l r : list Z).
Context (Hpre : Forall one_line pre) (Hpost : Forall one_line post) (Hl : one_line l) (Hr : one_line r).
Notation g := (closed pre ++ l, r ++ opened post).

Lemma here_before : last_line (closed pre ++ l) = l.
Proof. by rewrite last_line_app, last_line_closed. Qed.
Lemma here_behind : first_line (r ++ opened post) = r.
Proof. by rewrite first_line_app, first_line_opened, app_nil_r. Qed.

Lemma gap_insert_here c :
  gap_insert c g = if (length l + length r <? 255)%nat then (closed pre ++ (l ++ [c]), r ++ opened post) else g.
Proof. unfold gap_insert. cbn [fst snd]. by rewrite here_before, here_behind, <- app_assoc. Qed.

Lemma gap_newline_here :
  gap_newline g = if (length pre + 1 + length post <? 255)%nat then (closed (pre ++ [l]) ++ [], r ++ opened post) else g.
Proof.
  unfold gap_newline. cbn [fst snd]. rewrite !newlines_app, newlines_closed, newlines_opened, !newlines_line by done.
  rewrite closed_snoc, app_nil_r, <- app_assoc. replace (_ <? 254)%nat with (length pre + 1 + length post <? 255)%nat; [done|].
  apply eq_true_iff_eq. rewrite !Nat.ltb_lt. lia.
Qed.

Lemma goto_here (b a : list Z) p (x : gap) : x.1 ++ x.2 = b ++ a -> p = length b -> gap_goto p x = (b, a).
Proof. intros He ->. unfold gap_goto. by rewrite He, take_app_length, drop_app_length. Qed.

Lemma gap_up_here pre' p :
  pre = pre' ++ [p] -> let m := (length l `min` length p)%nat in
  gap_up g = (closed pre' ++ take m p, drop m p ++ opened ((l ++ r) :: post)).
Proof.
  intros He m. unfold gap_up. cbn [fst snd]. rewrite here_before.
  assert (closed pre ++ l = (closed pre' ++ p) ++ 10 :: l) as Hb by (subst pre; by rewrite closed_snoc, <- !app_assoc).
  rewrite Hb, length_app. cbn [length]. replace (_ =? _)%nat with false by (symmetry; apply Nat.eqb_neq; lia).
  rewrite (take_app_length' (closed pre' ++ p)) by lia.
  assert (one_line p) as Hp by (subst pre; apply Forall_app in Hpre as [_ Hp]; by rewrite Forall_singleton in Hp).
  rewrite last_line_app, last_line_closed by done. cbn [app]. fold m.
  apply goto_here; cbn [fst snd].
  - change (opened ((l ++ r) :: post)) with (10 :: (l ++ r) ++ opened post).
    rewrite <- !app_assoc, (app_assoc (take m p)), take_drop. done.
  - rewrite !length_app, length_take. lia.
Qed.

Lemma gap_down_here q post' :
  post = q :: post' -> let m := (length l `min` length q)%nat in
  gap_down g = (closed (pre ++ [l ++ r]) ++ take m q, drop m q ++ opened post').
Proof.
  intros He m. unfold gap_down. cbn [fst snd]. rewrite here_before, here_behind.
  assert (opened post = 10 :: q ++ opened post') as Ha by (by subst post).
  rewrite Ha, length_app. cbn [length]. replace (_ =? _)%nat with false by (symmetry; apply Nat.eqb_neq; lia).
  change (10 :: q ++ opened post') with ([10] ++ q ++ opened post'). rewrite (app_assoc r [10]).
  rewrite (drop_app_length' (r ++ [10])) by (rewrite length_app; cbn; lia).
  assert (one_line q) as Hq by (subst post; by inversion Hpost).
  rewrite (first_line_app q), first_line_opened, app_nil_r by done. fold m.
  apply goto_here; cbn [fst snd].
  - rewrite closed_snoc, <- !app_assoc, (app_assoc (take m q)), take_drop. done.
  - rewrite closed_snoc, !length_app, length_take. cbn. lia.
Qed.
End Gaps.

Lemma scroll_holds ed pre l r post : holds ed pre l r post -> holds (editor_ensure_scroll ed) pre l r post.
Proof. by intros []. Qed.

Lemma move_holds ed pre l r post pre' l' r' post' :
  holds ed pre l r post -> pre ++ (l ++ r) :: post = pre' ++ (l' ++ r') :: post' ->
  holds (move_to (Z.of_nat (length l')) (Z.of_nat (length pre')) ed) pre' l' r' post'.
Proof.
  intros [] He. destruct holds_strings0 as [rest Hs].
  assert (Forall one_line (pre ++ (l ++ r) :: post)) as Hf by (apply Forall_app; split; [done|constructor; [by apply Forall_app|done]]).
  pose proof (f_equal length He) as Hlen. rewrite !length_app in Hlen. cbn [length] in Hlen.
  rewrite He, Forall_app, Forall_cons in Hf. destruct Hf as (Hp & Hlr & Hq). apply Forall_app in Hlr as [Hl' Hr'].
  constructor; cbn; try done; [|lia].
  exists rest. change ((l' ++ r') :: post' ++ rest) with (((l' ++ r') :: post') ++ rest).
  rewrite app_assoc, <- He, <- app_assoc. done.
Qed.

Definition stands (ed : editor_state) (g : gap) : Prop :=
  exists pre l r post, holds ed pre l r post /\ g = (closed pre ++ l, r ++ opened post).

Lemma stands_gap ed g : stands ed g -> gap_of ed = g.
Proof. intros (pre & l & r & post & H & ->). by apply gap_of_holds. Qed.

Lemma insert_stands c ed g : c <> 0 -> c <> 10 -> stands ed g -> stands (editor_insert_char c ed) (gap_insert c g).
Proof.
  intros H0 H10 (pre & l & r & post & H & ->). pose proof H as []. rewrite gap_insert_here by done.
  destruct (Nat.ltb_spec (length l + length r) 255).
  - exists pre, (l ++ [c]), r, post. split; [by apply insert_holds|done].
  - erewrite insert_full by (done || lia). by exists pre, l, r, post.
Qed.

Lemma newline_stands ed g : stands ed g -> stands (editor_newline ed) (gap_newline g).
Proof.
  intros (pre & l & r & post & H & ->). pose proof H as []. rewrite gap_newline_here by done.
  destruct (Nat.ltb_spec (length pre + 1 + length post) 255).
  - exists (pre ++ [l]), [], r, post. split; [by apply newline_holds|done].
  - erewrite newline_full by (done || lia). by exists pre, l, r, post.
Qed.

Lemma backspace_stands ed g : stands ed g -> stands (editor_backspace ed) (gap_backspace g).
Proof.
  intros (pre & l & r & post & H & ->). pose proof H as []. unfold gap_backspace. cbn [fst snd].
  destruct l as [|c l _] using rev_ind.
  - rewrite app_nil_r. destruct pre as [|p pre _] using rev_ind.
    + cbn. erewrite backspace_start by done. by exists [], [], r, post.
    + apply Forall_app in holds_pre0 as [Hpre Hp]. rewrite Forall_singleton in Hp.
      rewrite closed_snoc, app_assoc, last_snoc. change (10 =? 10) with true. cbn [andb].
      rewrite take_app_length' by (rewrite length_app; cbn; lia).
      rewrite last_line_app, last_line_closed, here_behind by done. cbn [app].
      destruct (Nat.ltb_spec (length p + length r) 255); cbn [negb].
      * exists pre, p, r, post. split; [by apply join_holds|done].
      * erewrite join_full by (done || lia). exists (pre ++ [p]), [], r, post. by rewrite closed_snoc, app_nil_r, <- app_assoc.
  - apply Forall_app in holds_l0 as [Hl Hc]. rewrite Forall_singleton in Hc.
    rewrite app_assoc, last_snoc. replace (c =? 10) with false by lia. cbn [andb].
    rewrite take_app_length' by (rewrite length_app; cbn; lia).
    exists pre, l, r, post. split; [by eapply backspace_holds|done].
Qed.

Lemma moved_stands ed pre l r post pre' l' r' post' x y g :
  holds ed pre l r post -> pre ++ (l ++ r) :: post = pre' ++ (l' ++ r') :: post' ->
  x = Z.of_nat (length l') -> y = Z.of_nat (length pre') -> g = (closed pre' ++ l', r' ++ opened post') ->
  stands (move_to x y ed) g.
Proof. intros H He -> -> ->. exists pre', l', r', post'. split; [by eapply move_holds|done]. Qed.

Lemma line_length ed pre l r post i t :
  holds ed pre l r post -> (pre ++ (l ++ r) :: post) !! i = Some t -> ed_strlen (line ed (Z.of_nat i)) = Z.of_nat (length t).
Proof. intros H Hi. destruct (strings_lookup _ _ _ _ _ _ _ H Hi) as [_ Hc]. unfold ed_strlen. by rewrite Hc. Qed.
Lemma line_length_above ed pre p l r post :
  holds ed (pre ++ [p]) l r post -> ed_strlen (line ed (Z.of_nat (length pre))) = Z.of_nat (length p).
Proof. intros H. apply (line_length _ _ _ _ _ _ _ H). rewrite <- app_assoc. apply middle_lookup. Qed.
Lemma line_length_below ed pre l r q post :
  holds ed pre l r (q :: post) -> ed_strlen (line ed (Z.of_nat (length pre) + 1)) = Z.of_nat (length q).
Proof.
  intros H. replace (Z.of_nat (length pre) + 1) with (Z.of_nat (length (pre ++ [l ++ r]))) by (rewrite length_app; cbn; lia).
  apply (line_length _ _ _ _ _ _ _ H). change ((l ++ r) :: q :: post) with ([l ++ r] ++ q :: post). rewrite app_assoc. apply middle_lookup.
Qed.

Definition go_left (ed : editor_state) : editor_state :=
  let x := e_cursor_x ed in let y := e_cursor_y ed in
  if 0 <? x then move_to (x - 1) y ed
  else if 0 <? y then move_to (ed_strlen (line ed (y - 1))) (y - 1) ed else ed.
Definition go_right (ed : editor_state) : editor_state :=
  let x := e_cursor_x ed in let y := e_cursor_y ed in
  if x <? ed_strlen (line ed y) then move_to (x + 1) y ed
  else if y <? line_count ed - 1 then move_to 0 (y + 1) ed else ed.
Definition go_to_line (y : Z) (ed : editor_state) : editor_state :=
  move_to (Z.min (e_cursor_x ed) (ed_strlen (line ed y))) y ed.

Lemma left_stands ed g : stands ed g -> stands (go_left ed) (gap_left g).
Proof.
  intros (pre & l & r & post & H & ->). pose proof H as []. unfold go_left, gap_left. cbn [fst snd]. rewrite holds_x0, holds_y0.
  destruct l as [|c l _] using rev_ind.
  - cbn [length]. change (0 <? Z.of_nat 0) with false. cbn iota. destruct pre as [|p pre _] using rev_ind.
    + cbn. exists [], [], r, post. by rewrite app_nil_l.
    + rewrite length_app. cbn [length]. replace (0 <? _) with true by lia.
      replace (Z.of_nat (length pre + 1) - 1) with (Z.of_nat (length pre)) by lia.
      eapply (moved_stands _ _ _ _ _ pre p [] (r :: post)); try done.
      * by rewrite <- app_assoc, app_nil_r.
      * by eapply line_length_above.
      * apply goto_here; cbn [fst snd]; rewrite closed_snoc, app_nil_r; [by rewrite <- !app_assoc|rewrite !length_app; cbn; lia].
  - rewrite length_app. cbn [length]. replace (0 <? _) with true by lia.
    eapply (moved_stands _ _ _ _ _ pre l (c :: r) post); try done; [by rewrite <- app_assoc|lia|].
    apply goto_here; cbn [fst snd]; [by rewrite <- !app_assoc|rewrite !length_app; cbn; lia].
Qed.

Lemma right_stands ed g : stands ed g -> stands (go_right ed) (gap_right g).
Proof.
  intros (pre & l & r & post & H & ->). pose proof H as []. destruct (holds_row _ _ _ _ _ H) as (_ & _ & Hlen).
  unfold go_right, gap_right. cbn [fst snd]. rewrite holds_x0, holds_y0, Hlen, holds_count0. destruct r as [|c r].
  - cbn [length]. replace (_ <? _) with false by lia. destruct post as [|q post].
    + cbn [length]. replace (_ <? _) with false by lia. exists pre, l, [], []. split; [done|].
      unfold gap_goto. cbn [fst snd app opened map concat]. rewrite app_nil_r, take_ge, drop_ge by lia. done.
    + cbn [length]. replace (_ <? _) with true by lia.
      eapply (moved_stands _ _ _ _ _ (pre ++ [l]) [] q post); try done.
      * by rewrite <- app_assoc, app_nil_r.
      * rewrite length_app. cbn. lia.
      * apply goto_here; cbn [fst snd]; rewrite closed_snoc, app_nil_r; [by rewrite <- !app_assoc|rewrite !length_app; cbn; lia].
  - cbn [length]. replace (_ <? _) with true by lia.
    eapply (moved_stands _ _ _ _ _ pre (l ++ [c]) r post); try done; [by rewrite <- app_assoc|rewrite length_app; cbn; lia|].
    apply goto_here; cbn [fst snd]; [by rewrite <- !app_assoc|rewrite !length_app; cbn; lia].
Qed.

Lemma up_stands ed g : stands ed g -> 0 < e_cursor_y ed -> stands (go_to_line (e_cursor_y ed - 1) ed) (gap_up g).
Proof.
  intros (pre & l & r & post & H & ->) Hy. pose proof H as []. rewrite holds_y0 in *.
  destruct pre as [|p pre _] using rev_ind; [cbn in Hy; lia|]. rewrite length_app. cbn [length].
  replace (Z.of_nat (length pre + 1) - 1) with (Z.of_nat (length pre)) by lia.
  unfold go_to_line. rewrite (line_length_above _ _ _ _ _ _ H), holds_x0.
  eapply (moved_stands _ _ _ _ _ pre (take (length l `min` length p) p) (drop (length l `min` length p) p) ((l ++ r) :: post)); try done.
  - by rewrite take_drop, <- app_assoc.
  - rewrite length_take. lia.
  - by apply gap_up_here.
Qed.

Lemma down_stands ed g :
  stands ed g -> e_cursor_y ed < line_count ed - 1 -> stands (go_to_line (e_cursor_y ed + 1) ed) (gap_down g).
Proof.
  intros (pre & l & r & post & H & ->) Hy. pose proof H as []. rewrite holds_y0, holds_count0 in *.
  destruct post as [|q post]; [cbn in Hy; lia|].
  unfold go_to_line. rewrite (line_length_below _ _ _ _ _ _ H), holds_x0.
  eapply (moved_stands _ _ _ _ _ (pre ++ [l ++ r]) (take (length l `min` length q) q) (drop (length l `min` length q) q) post); try done.
  - by rewrite take_drop, <- app_assoc.
  - rewrite length_take. lia.
  - rewrite length_app. cbn. lia.
  - by apply gap_down_here.
Qed.

(** At a boundary the vertical moves do nothing. *)
Lemma gap_up_top ed g : stands ed g -> e_cursor_y ed <= 0 -> gap_up g = g.
Proof.
  intros (pre & l & r & post & H & ->) Hy. destruct H. destruct pre; [|cbn in *; lia].
  unfold gap_up. cbn [fst snd]. rewrite here_before by done. cbn [closed map concat app]. by rewrite Nat.eqb_refl.
Qed.
Lemma gap_down_bottom ed g : stands ed g -> line_count ed - 1 <= e_cursor_y ed -> gap_down g = g.
Proof.
  intros (pre & l & r & post & H & ->) Hy. destruct H. destruct post; [|cbn in *; lia].
  unfold gap_down. cbn [fst snd]. rewrite here_behind by done. cbn [opened map concat]. by rewrite app_nil_r, Nat.eqb_refl.
Qed.

(** The cursor is inside the part of the text the screen shows. *)
Definition in_view (ed : editor_state) : Prop :=
  (0 <= scroll_y ed <= e_cursor_y ed /\ e_cursor_y ed < scroll_y ed + EDITOR_VIEW_ROWS) /\
  (0 <= scroll_x ed <= e_cursor_x ed /\ e_cursor_x ed < scroll_x ed + EDITOR_VIEW_COLS).
Definition ed_ok (ed : editor_state) : Prop := stands ed (gap_of ed) /\ in_view ed.

Lemma scroll_range y s h :
  0 <= y -> 0 < h ->
  let s1 := if y <? s then y else s in
  let s2 := if s1 + h <=? y then y - h + 1 else s1 in
  let s3 := if s2 <? 0 then 0 else s2 in 0 <= s3 <= y /\ y < s3 + h.
Proof.
  intros Hy Hh s1 s2 s3. unfold s3, s2, s1. destruct (Z.ltb_spec y s).
  - replace (y + h <=? y) with false by lia. destruct (Z.ltb_spec y 0); lia.
  - destruct (Z.leb_spec (s + h) y).
    + destruct (Z.ltb_spec (y - h + 1) 0); lia.
    + destruct (Z.ltb_spec s 0); lia.
Qed.

Lemma scroll_stands ed g : stands ed g -> stands (editor_ensure_scroll ed) g /\ in_view (editor_ensure_scroll ed).
Proof.
  intros (pre & l & r & post & H & ->). split; [exists pre, l, r, post; by split; [apply scroll_holds|]|].
  destruct H. unfold in_view.
  split; [apply (scroll_range (e_cursor_y ed) (scroll_y ed))|apply (scroll_range (e_cursor_x ed) (scroll_x ed))]; rewrite ?holds_y0, ?holds_x0; done || lia.
Qed.

Lemma key_stands c ed g :
  stands ed g -> in_view ed ->
  let ed' := default ed (editor_key c ed) in stands ed' (gap_key c g) /\ in_view ed'.
Proof.
  intros Hg Hv. unfold editor_key, gap_key.
  destruct (c =? KEY_UP). { destruct (Z.ltb_spec 0 (e_cursor_y ed)); cbn [default].
    - by apply scroll_stands, up_stands.
    - by erewrite gap_up_top by (done || lia). }
  destruct (c =? KEY_DOWN). { destruct (Z.ltb_spec (e_cursor_y ed) (line_count ed - 1)); cbn [default].
    - by apply scroll_stands, down_stands.
    - by erewrite gap_down_bottom by (done || lia). }
  destruct (c =? KEY_LEFT); [by apply scroll_stands, left_stands|].
  destruct (c =? KEY_RIGHT); [by apply scroll_stands, right_stands|].
  destruct (c =? 8); [by apply scroll_stands, backspace_stands|].
  destruct ((c =? 10) || (c =? 13)); [by apply scroll_stands, newline_stands|].
  destruct ((32 <=? c) && (c <? 127)) eqn:Hc; [bool_to_prop; apply scroll_stands, insert_stands; [lia..|done]|].
  destruct (c =? 9); [|done]. apply scroll_stands. by repeat (apply insert_stands; [done..|]).
Qed.

(** The keys one after the other, as the editor loop takes them. *)
Definition keys_typed (cs : list Z) (ed : editor_state) : editor_state :=
  fold_left (fun ed c => default ed (editor_key c ed)) cs ed.

Lemma keys_stand cs ed g :
  stands ed g -> in_view ed ->
  stands (keys_typed cs ed) (fold_left (fun g c => gap_key c g) cs g) /\ in_view (keys_typed cs ed).
Proof.
  revert ed g. induction cs as [|c cs IH]; intros ed g Hg Hv; cbn; [done|].
  destruct (key_stands c ed g Hg Hv) as [Hg' Hv']. by apply IH.
Qed.

(** C19. Whatever keys are typed, the editor is a gap buffer: printable keys, tab,
    Enter, backspace and the four arrows do to the text before and the text
    behind the cursor what the abstract editor does (insertion refused in a line
    of 255 characters or beyond 255 lines, joining refused when the line would not
    fit), the cursor stays inside the text and inside the window the screen
    shows, and no line buffer is overrun. *)
Theorem editor_refines_gap_buffer ed cs :
  ed_ok ed ->
  let ed' := keys_typed cs ed in
  ed_ok ed' /\ gap_of ed' = fold_left (fun g c => gap_key c g) cs (gap_of ed).
Proof.
  intros [Hg Hv]. destruct (keys_stand cs ed _ Hg Hv) as [Hg' Hv']. pose proof (stands_gap _ _ Hg') as He.
  split; [|done]. split; [|done]. by rewrite He.
Qed.

Lemma init_holds name : holds (editor_init name) [] [] [] [].
Proof.
  constructor; try done.
  - split; [done|]. apply Forall_replicate, empty_row_ok.
  - exists (replicate 255 []). vm_compute. reflexivity.
  - constructor.
  - constructor.
Qed.

Lemma init_ok name : ed_ok (editor_init name).
Proof.
  split; [|done]. rewrite (gap_of_holds _ _ _ _ _ (init_holds name)). exists [], [], [], []. split; [apply init_holds|done].
Qed.

(** Typing "ab", Enter, "c", left, backspace. *)
Lemma editor_refines_gap_buffer_witness :
  let ed' := keys_typed [97; 98; 10; 99; KEY_LEFT; 8] (editor_init None) in
  ed_ok ed' /\ gap_of ed' = ([97; 98], [99]).
Proof.
  destruct (editor_refines_gap_buffer (editor_init None) [97; 98; 10; 99; KEY_LEFT; 8] (init_ok None)) as [H1 H2].
  split; [exact H1|]. etransitivity; [exact H2|]. rewrite (gap_of_holds _ _ _ _ _ (init_holds None)). reflexivity.
Defined.

(** ** Saving and loading *)

Lemma document_holds ed pre l r post :
  holds ed pre l r post ->
  exists t ts, pre ++ (l ++ r) :: post = t :: ts /\ document ed = t ++ opened ts.
Proof.
  intros H. unfold document. rewrite (gap_of_holds _ _ _ _ _ H). cbn [fst snd]. clear H. destruct pre as [|p pre].
  - exists (l ++ r), post. cbn. by rewrite <- app_assoc.
  - exists p, (pre ++ (l ++ r) :: post). split; [done|].
    change (closed (p :: pre)) with ((p ++ [10]) ++ closed pre). rewrite <- !app_assoc. f_equal. cbn [app].
    clear p. induction pre as [|p pre IH]; cbn [app].
    + change (opened ((l ++ r) :: post)) with (10 :: (l ++ r) ++ opened post). by rewrite <- app_assoc.
    + change (opened (p :: ?x)) with (10 :: p ++ opened x).
      change (closed (p :: pre)) with ((p ++ [10]) ++ closed pre). rewrite <- !app_assoc. cbn [app]. by rewrite IH.
Qed.

Lemma save_loop_step n i ed out :
  save_loop (S n) i ed out =
  let l := cstr (line ed i) in
  if EDITOR_MAX_FILE <=? Z.of_nat (length out + length l + 1) then out else
  if i <? line_count ed - 1 then
    if EDITOR_MAX_FILE <=? Z.of_nat (length (out ++ l) + 1) then out ++ l
    else save_loop n (i + 1) ed ((out ++ l) ++ [10])
  else save_loop n (i + 1) ed (out ++ l).
Proof. reflexivity. Qed.

Lemma save_loop_spec ed D t ts out :
  (forall i u, (D ++ t :: ts) !! i = Some u -> cstr (line ed (Z.of_nat i)) = u) ->
  line_count ed = Z.of_nat (length (D ++ t :: ts)) ->
  (length (out ++ t ++ opened ts) <= 4094)%nat ->
  save_loop (S (length ts)) (Z.of_nat (length D)) ed out = out ++ t ++ opened ts.
Proof.
  revert D t out. induction ts as [|u ts IH]; intros D t out Hl Hc Hlen; rewrite save_loop_step; cbv zeta.
  - rewrite (Hl (length D) t (middle_lookup _ _ _)), Hc. unfold EDITOR_MAX_FILE. cbn [opened map concat] in *.
    rewrite !app_nil_r in *. rewrite length_app in *. cbn [length]. replace (4096 <=? _) with false by lia.
    by replace (_ <? _) with false by lia.
  - change (opened (u :: ts)) with (10 :: u ++ opened ts) in *.
    rewrite (Hl (length D) t (middle_lookup _ _ _)), Hc. unfold EDITOR_MAX_FILE.
    rewrite !length_app in *. cbn [length] in *. rewrite !length_app in Hlen. replace (4096 <=? _) with false by lia.
    replace (_ <? _) with true by lia.
    replace (Z.of_nat (length D) + 1) with (Z.of_nat (length (D ++ [t]))) by (rewrite length_app; cbn; lia).
    rewrite (IH (D ++ [t]) u); rewrite <- ?app_assoc; cbn [app]; try done.
    + rewrite Hc, !length_app. cbn. lia.
    + rewrite !length_app. cbn [length]. rewrite !length_app. lia.
Qed.

(** Buffers that were cleared before. *)
Definition pad (t : list Z) : list Z := t ++ replicate (256 - length t) 0.
Definition plain (t : list Z) : Prop := Forall (fun c => c <> 0 /\ c <> 10 /\ c <> 13) t.

Lemma pad_row t : nonzero t -> (length t < 256)%nat -> row_ok (pad t) /\ cstr (pad t) = t.
Proof.
  intros Ht Hl. apply row_ok_cstr; [|done..|].
  - unfold pad. rewrite length_app, length_replicate. lia.
  - intros k Hk. unfold pad. replace (256 - length t)%nat with (S (255 - length t)) by lia. cbn [replicate].
    change (0 :: ?x) with ([0] ++ x). rewrite app_assoc, lookup_app_l; [done|]. rewrite length_app. cbn. lia.
Qed.

Lemma pad_put t c : (length t < 255)%nat -> set_at (Z.of_nat (length t)) c (pad t) = pad (t ++ [c]).
Proof.
  intros Hl. unfold set_at, pad. rewrite Nat2Z.id, length_app. cbn [length].
  replace (256 - length t)%nat with (S (256 - (length t + 1))) by lia. cbn [replicate].
  rewrite <- (Nat.add_0_r (length t)) at 1. rewrite insert_app_r. by rewrite <- app_assoc.
Qed.

Lemma pad_end t : (length t < 256)%nat -> set_at (Z.of_nat (length t)) 0 (pad t) = pad t.
Proof.
  intros Hl. unfold set_at, pad. rewrite Nat2Z.id.
  replace (256 - length t)%nat with (S (256 - (length t + 1))) by lia. cbn [replicate].
  rewrite <- (Nat.add_0_r (length t)) at 1. rewrite insert_app_r. done.
Qed.

Lemma pads_put i v T u u' K :
  set_at i v (pad u) = pad u' ->
  <[Z.to_nat (Z.of_nat (length T)) := set_at i v (map pad (T ++ u :: K) !!! Z.to_nat (Z.of_nat (length T)))]> (map pad (T ++ u :: K))
  = map pad (T ++ u' :: K).
Proof.
  intros H. rewrite Nat2Z.id, !map_app. cbn [map]. rewrite <- (length_map pad T).
  rewrite (list_lookup_total_correct _ _ _ (middle_lookup _ _ _)), H.
  rewrite <- (Nat.add_0_r (length (map pad T))) at 1. by rewrite insert_app_r.
Qed.

Lemma load_line t T u K rest :
  plain t -> (length u + length t < 256)%nat ->
  load_loop (t ++ rest) (Z.of_nat (length T)) (Z.of_nat (length u)) (map pad (T ++ u :: K)) =
  load_loop rest (Z.of_nat (length T)) (Z.of_nat (length (u ++ t))) (map pad (T ++ (u ++ t) :: K)).
Proof.
  intros Ht. revert u. induction Ht as [|c t (H0 & H10 & H13) _ IH]; intros u Hl; [by rewrite app_nil_r|].
  cbn [app load_loop length] in *. replace (c =? 13) with false by lia. replace (c =? 10) with false by lia.
  unfold EDITOR_MAX_COLS. replace (_ <? 256 - 1) with true by lia.
  erewrite pads_put by (apply pad_put; lia).
  replace (Z.of_nat (length u) + 1) with (Z.of_nat (length (u ++ [c]))) by (rewrite length_app; cbn; lia).
  rewrite IH by (rewrite length_app; cbn; lia). by rewrite <- !app_assoc.
Qed.

Lemma load_lines ts T u k :
  Forall plain ts -> Forall (fun t => length t < 256)%nat ts -> (length u < 256)%nat ->
  (length T + 1 + length ts <= 256)%nat ->
  exists v, last (u :: ts) = Some v /\
  load_loop (opened ts) (Z.of_nat (length T)) (Z.of_nat (length u)) (map pad (T ++ u :: replicate (length ts + k) [])) =
  (Z.of_nat (length T + length ts), Z.of_nat (length v), map pad (T ++ u :: ts ++ replicate k [])).
Proof.
  intros Hp. revert T u. induction Hp as [|t ts Ht _ IH]; intros T u Hs Hu Hn.
  { exists u. cbn. by rewrite Nat.add_0_r. }
  rewrite Forall_cons in Hs. destruct Hs as [Hst Hs]. change (opened (t :: ts)) with ([10] ++ t ++ opened ts). cbn [app load_loop length] in *.
  change (10 =? 13) with false. change (10 =? 10) with true. cbn iota. unfold EDITOR_MAX_LINES. replace (256 <=? _) with false by lia.
  erewrite pads_put by (apply pad_end; lia). change (S (length ts) + k)%nat with (S (length ts + k)). cbn [replicate].
  replace (Z.of_nat (length T) + 1) with (Z.of_nat (length (T ++ [u]))) by (rewrite length_app; cbn; lia).
  replace (T ++ u :: [] :: replicate (length ts + k) []) with ((T ++ [u]) ++ [] :: replicate (length ts + k) [])
    by (by rewrite <- app_assoc).
  change 0 with (Z.of_nat (length (@nil Z))) at 1. rewrite load_line by (done || cbn; lia). cbn [app].
  destruct (IH (T ++ [u]) t) as [v [Hv He]]; [done..|rewrite length_app; cbn; lia|].
  exists v. split; [done|]. rewrite He, !length_app, <- app_assoc. cbn [length app]. f_equal. f_equal. lia.
Qed.

Lemma load_document t ts name :
  Forall plain (t :: ts) -> Forall (fun t => length t < 256)%nat (t :: ts) -> (length ts < 256)%nat ->
  holds (load_bytes (t ++ opened ts) (editor_init name)) [] [] t ts.
Proof.
  intros Hp Hs Hn. pose proof Hp as Hp'. pose proof Hs as Hs'. rewrite Forall_cons in Hp, Hs. destruct Hp as [Hpt Hp], Hs as [Hst Hs].
  assert (lines (editor_init name) = map pad ([] ++ [] :: replicate (length ts + (255 - length ts)) [])) as Hinit.
  { replace (length ts + (255 - length ts))%nat with 255%nat by lia. vm_compute. reflexivity. }
  unfold load_bytes. rewrite Hinit. change 0 with (Z.of_nat (length (@nil (list Z)))) at 1.
  change 0 with (Z.of_nat (length (@nil Z))) at 1. rewrite load_line by (done || cbn; lia). cbn [app].
  destruct (load_lines ts [] t (255 - length ts) Hp Hs) as [v [Hv He]]; [lia|cbn; lia|]. cbn [app] in He. rewrite He. clear He Hinit.
  set (K := replicate (255 - length ts) []). assert (Forall (fun t => nonzero t /\ length t < 256)%nat ((t :: ts) ++ K)) as Hall.
  { apply Forall_app. split; [|apply Forall_replicate; split; [constructor|cbn; lia]].
    rewrite Forall_forall in *. intros u Hu. split; [|by apply Hs']. eapply Forall_impl; [by apply Hp'|]. cbn. by intros ? []. }
  assert (rows_ok (map pad ((t :: ts) ++ K)) /\ strings (map pad ((t :: ts) ++ K)) = (t :: ts) ++ K) as [Hr Hstr].
  { split; [split|].
    - rewrite length_map, length_app. unfold K. rewrite length_replicate. cbn [length]. lia.
    - apply Forall_fmap. eapply Forall_impl; [exact Hall|]. intros u [??]. by apply pad_row.
    - unfold strings. rewrite map_map. rewrite <- (map_id ((t :: ts) ++ K)) at 2. apply map_ext_Forall.
      eapply Forall_impl; [exact Hall|]. intros u [??]. by apply pad_row. }
  (* The last NUL is there already. *)
  assert (exists D, t :: ts = D ++ [v] /\ length D = length ts) as [D [HD HlD]].
  { apply last_Some in Hv as [D HD]. exists D. split; [done|]. apply (f_equal length) in HD. rewrite length_app in HD. cbn in HD. lia. }
  assert (length v < 256)%nat as Hvl.
  { rewrite HD, <- app_assoc in Hall. apply Forall_app in Hall as [_ Hall]. cbn in Hall. rewrite Forall_cons in Hall. tauto. }
  assert (<[Z.to_nat (Z.of_nat (length ts)) := set_at (Z.of_nat (length v)) 0 (map pad (t :: ts ++ K) !!! Z.to_nat (Z.of_nat (length ts)))]>
    (map pad (t :: ts ++ K)) = map pad (t :: ts ++ K)) as Hput.
  { change (t :: ts ++ K) with ((t :: ts) ++ K). rewrite HD, <- HlD, <- app_assoc. apply pads_put, pad_end, Hvl. }
  replace (0 + length ts)%nat with (length ts) by lia. cbn [length Nat.add]. rewrite Hput.
  unfold EDITOR_MAX_LINES.
  match goal with |- context [if ?b then ?x else ?y] =>
    replace (if b then x else y) with (map pad (t :: ts ++ K), Z.of_nat (length ts) + 1) end.
  2:{ destruct (Z.eqb_spec (Z.of_nat (length (t ++ opened ts))) 0) as [Hz|_].
      - destruct ts; [done|]. rewrite length_app in Hz. cbn in Hz. lia.
      - by repeat case_if. }
  replace (256 <? _) with false by lia. assert (forall u, plain u -> one_line u) as Hone
    by (intros u Hu; eapply Forall_impl; [exact Hu|]; cbn; tauto).
  constructor; cbn; try done; try lia; try (by constructor).
  - exists K. exact Hstr.
  - by apply Hone.
  - eapply Forall_impl; [exact Hp|done].
Qed.

Lemma opened_elem ts t c : t ∈ ts -> c ∈ t -> c ∈ opened ts.
Proof.
  intros Ht Hc. unfold opened. apply list_elem_of_In, in_concat. exists (10 :: t).
  split; [apply in_map; by apply list_elem_of_In|]. right. by apply list_elem_of_In.
Qed.

(** Lines come from buffers, so they are short and have no NUL. *)
Lemma texts_plain ed pre l r post t ts :
  holds ed pre l r post -> pre ++ (l ++ r) :: post = t :: ts -> Forall (fun c => c <> 13) (t ++ opened ts) ->
  Forall plain (t :: ts) /\ Forall (fun t => length t < 256)%nat (t :: ts).
Proof.
  intros H He Hcr. rewrite <- Forall_and. apply Forall_forall. intros u Hu.
  assert (Forall (fun c => c <> 13) u) as H13.
  { apply Forall_forall. intros c Hc. rewrite Forall_forall in Hcr. apply Hcr, elem_of_app.
    apply elem_of_cons in Hu as [->|Hu]; [by left|right]. by eapply opened_elem. }
  assert (one_line u) as H10.
  { rewrite <- He in Hu. destruct H. rewrite elem_of_app, elem_of_cons in Hu.
    rewrite Forall_forall in holds_pre0, holds_post0.
    destruct Hu as [Hu|[->|Hu]]; [by apply holds_pre0|apply Forall_app; split; assumption|by apply holds_post0]. }
  rewrite <- He in Hu. apply list_elem_of_lookup in Hu as [i Hi].
  destruct (strings_lookup _ _ _ _ _ _ _ H Hi) as [[_ Hlt] <-]. split; [|done].
  pose proof (cstr_nonzero (line ed (Z.of_nat i))) as H0. unfold plain, nonzero, one_line in *. rewrite Forall_forall in *. intros c Hc. split; [by apply H0|]. split; [by apply H10|by apply H13].
Qed.

(** C39. Saving and loading: the bytes [editor_save] writes are the document when it
    has at most 4094 bytes, and an editor that loads them has the same lines
    and stands at the start of the document, provided the text has no carriage
    return (loading drops them). *)
Theorem save_load_round_trip ed name :
  ed_ok ed -> (length (document ed) <= 4094)%nat -> Forall (fun c => c <> 13) (document ed) ->
  save_bytes ed = document ed /\
  let ed' := load_bytes (save_bytes ed) (editor_init name) in
  ed_ok ed' /\ gap_of ed' = ([], document ed) /\ texts ed' = texts ed /\ modified ed' = false.
Proof.
  intros [(pre & l & r & post & H & _) _] Hlen Hcr.
  destruct (document_holds _ _ _ _ _ H) as (t & ts & He & Hd). pose proof (texts_holds _ _ _ _ _ H) as Ht.
  pose proof (holds_room _ _ _ _ _ H) as Hroom. rewrite Hd in *. rewrite He in Ht.
  pose proof (f_equal length He) as Hl. rewrite length_app in Hl. cbn [length] in Hl.
  destruct (texts_plain _ _ _ _ _ _ _ H He Hcr) as [Hplain Hshort].
  assert (save_bytes ed = t ++ opened ts) as Hsave.
  { unfold save_bytes. rewrite (holds_count _ _ _ _ _ H), Nat2Z.id. replace (length pre + 1 + length post)%nat with (S (length ts)) by lia.
    apply (save_loop_spec ed [] t ts []); [|rewrite (holds_count _ _ _ _ _ H); cbn; lia|done].
    intros i u Hi. cbn [app] in Hi. rewrite <- He in Hi. by eapply strings_lookup. }
  split; [done|]. rewrite Hsave. assert (length ts < 256)%nat as Hts by lia.
  pose proof (load_document t ts name Hplain Hshort Hts) as H'. cbv zeta.
  pose proof (gap_of_holds _ _ _ _ _ H') as Hg. split; [split|split; [|split]].
  - exists [], [], t, ts. done.
  - unfold in_view. rewrite (holds_y _ _ _ _ _ H'), (holds_x _ _ _ _ _ H'). unfold load_bytes.
    destruct (load_loop _ _ _ _) as [[??]?]. by repeat case_if.
  - exact Hg.
  - rewrite (texts_holds _ _ _ _ _ H'). done.
  - unfold load_bytes. destruct (load_loop _ _ _ _) as [[??]?]. by repeat case_if.
Qed.

(** A document of two lines. *)
Lemma save_load_round_trip_witness :
  let ed := keys_typed [104; 105; 10; 33] (editor_init None) in
  save_bytes ed = [104; 105; 10; 33] /\ gap_of (load_bytes (save_bytes ed) (editor_init None)) = ([], [104; 105; 10; 33]).
Proof.
  set (ed := keys_typed [104; 105; 10; 33] (editor_init None)).
  assert (ed_ok ed /\ gap_of ed = ([104; 105; 10; 33], [])) as [Hok Hg].
  { destruct (keys_stand [104; 105; 10; 33] (editor_init None) ([], [])) as [H1 H2]; [exists [], [], [], []; split; [apply init_holds|done]|done|].
    pose proof (stands_gap _ _ H1) as He. split; [split; [unfold ed; by rewrite He|exact H2]|etransitivity; [exact He|reflexivity]]. }
  assert (document ed = [104; 105; 10; 33]) as Hd by (unfold document; by rewrite Hg).
  destruct (save_load_round_trip ed None Hok) as (H1 & _ & H2 & _); rewrite Hd in *; [cbn; lia|repeat constructor; done|].
  split; [exact H1|exact H2].
Defined.

(** ** The editor at the keyboard *)

Section Keyboard.
Context {A : Type} `{!Allocator A}.
Context (file_buf : Z).

(** What [getchar] takes from the controller. *)
Lemma getchar_feed (k : kernel A) sc keys :
  k_keys k = sc :: keys ->
  exists c b, io_getchar (k_kbd k) 1 sc = (c, b) /\ getchar k = (c, with_keys b keys k) /\ (c = 0 \/ typeable c = true).
Proof.
  intros Hk. unfold getchar. rewrite Hk. pose proof (getchar_typeable (k_kbd k) 1 sc) as Ht.
  destruct (io_getchar (k_kbd k) 1 sc) as [c b]. eauto.
Qed.

Lemma editor_loop_types n ed (k : kernel A) :
  n = length (k_keys k) ->
  exists k', editor_loop file_buf n false ed k = EdPolling (keys_typed (fst (feed (k_kbd k) (k_keys k))) ed) k' /\
  k_vfs k' = k_vfs k /\ k_keys k' = [].
Proof.
  intros Hn. remember (k_keys k) as keys eqn:Hk. symmetry in Hk. revert n ed k Hk Hn.
  induction keys as [|sc keys IH]; intros n ed k Hk ->; cbn [length editor_loop feed].
  { exists k. done. }
  destruct (getchar_feed k sc keys Hk) as (c & b & Hio & Hg & Hc). rewrite Hg, Hio.
  assert (forall ed k1, k_keys k1 = keys -> k_kbd k1 = b -> k_vfs k1 = k_vfs k ->
    exists k' : kernel A, editor_loop file_buf (length keys) false ed k1 = EdPolling (keys_typed (fst (feed b keys)) ed) k' /\
    k_vfs k' = k_vfs k /\ k_keys k' = []) as Hgo.
  { intros ed1 k1 H1 H2 H3. destruct (IH (length keys) ed1 k1 H1 eq_refl) as (k' & H4 & H5 & H6). rewrite H2 in H4. exists k'.
    by rewrite <- H3. }
  destruct (feed b keys) as [cs b'] eqn:Hf. cbn [fst] in *.
  destruct (Z.eqb_spec c 0) as [Hz|Hz]; [by apply Hgo|]. destruct Hc as [Hc|Hc]; [done|].
  assert (c <> CTRL_S /\ c <> CTRL_Q) as [HS HQ] by (unfold typeable, CTRL_S, CTRL_Q in *; lia).
  apply Z.eqb_neq in HS, HQ. rewrite HS, HQ. cbn [keys_typed fold_left].
  destruct (editor_key c ed); by apply Hgo.
Qed.

(** The editor at the keyboard: whatever scan codes arrive, [editor_run] takes all
    of them, changes the text by exactly the characters the driver decodes, and
    is then left polling.  No scan code makes the driver return Ctrl+S or Ctrl+Q,
    so the editor never saves, never touches the file system and never returns
    to its caller. *)
Theorem editor_run_never_quits ed (k : kernel A) :
  exists k', editor_run file_buf ed k = EdPolling (keys_typed (fst (feed (k_kbd k) (k_keys k))) ed) k' /\
  k_vfs k' = k_vfs k /\ k_keys k' = [].
Proof.
  destruct (editor_loop_types (length (k_keys k)) ed (draw ed k) eq_refl) as (k' & H1 & H2 & H3).
  exists k'. unfold editor_run. by rewrite H1.
Qed.
End Keyboard.
