(* ===== verification/Descriptors.v ===== *)
(** * gdt.c and the gates of kernel.c: segment and interrupt descriptors

    The tables are lists of records with the fields of the packed C structures.
    [seg_base] and the other functions of the second part are how the processor
    reads a descriptor (Intel manual, volume 3, 3.4.5 and 6.11); the theorems
    say that what the kernel encodes is what the processor decodes.  The
    addresses of the assembly stubs are the function [isr_addr]. *)
From S2P Require Import Prelude.

Definition GDT_KERNEL_CODE_SEL : Z := 0x08.

Record gdt_entry := mk_gdt {
  limit_low : Z; base_low : Z; base_middle : Z; access : Z; granularity : Z; base_high : Z
}.
Definition gdt_null : gdt_entry := mk_gdt 0 0 0 0 0 0.
Record table_ptr := mk_ptr { ptr_limit : Z; ptr_base : Z }.

Definition gdt_set_gate (num : nat) (base limit acc gran : Z) (gdt : list gdt_entry) : list gdt_entry :=
  <[num := mk_gdt (Z.land limit 0xFFFF) (Z.land base 0xFFFF) (Z.land (Z.shiftr base 16) 0xFF) acc
      (Z.lor (Z.land (Z.shiftr limit 16) 0x0F) (Z.land gran 0xF0)) (Z.land (Z.shiftr base 24) 0xFF)]> gdt.

(** The table at [addr] and the register loaded by lgdt. *)
Definition gdt_init (addr : Z) (gdt : list gdt_entry) : table_ptr * list gdt_entry :=
  let gp := mk_ptr (u16 (8 * Z.of_nat (length gdt) - 1)) addr in
  let gdt := gdt_set_gate 0 0 0 0 0 gdt in
  let gdt := gdt_set_gate 1 0 0xFFFFFFFF 0x9A 0xCF gdt in
  let gdt := gdt_set_gate 2 0 0xFFFFFFFF 0x92 0xCF gdt in
  let gdt := gdt_set_gate 3 0 0xFFFFFFFF 0xFA 0xCF gdt in
  let gdt := gdt_set_gate 4 0 0xFFFFFFFF 0xF2 0xCF gdt in
  (gp, gdt).

Record idt_entry := mk_idt { idt_base_low : Z; sel : Z; zero : Z; flags : Z; idt_base_high : Z }.
Definition idt_clear : idt_entry := mk_idt 0 0 0 0 0.

Definition idt_set_gate (num : nat) (base fl : Z) (idt : list idt_entry) : list idt_entry :=
  <[num := mk_idt (Z.land base 0xFFFF) GDT_KERNEL_CODE_SEL 0 fl (Z.land (Z.shiftr base 16) 0xFFFF)]> idt.
Definition idt_set_gate_user (num : nat) (base : Z) (user : bool) (idt : list idt_entry) : list idt_entry :=
  idt_set_gate num base (if user then 0xEE else 0x8E) idt.

(** The table part of [idt_init]: cleared, 48 ring 0 gates and the system call
    gate. *)
Definition set_gates (isr_addr : nat -> Z) (n : nat) (idt : list idt_entry) : list idt_entry :=
  fold_left (fun idt i => idt_set_gate i (isr_addr i) 0x8E idt) (seq 0 n) idt.
Definition idt_table (isr_addr : nat -> Z) (addr : Z) (idt : list idt_entry) : table_ptr * list idt_entry :=
  let idtp := mk_ptr (u16 (8 * Z.of_nat (length idt) - 1)) addr in
  let idt := map (fun _ => idt_clear) idt in
  let idt := set_gates isr_addr 48 idt in
  (idtp, idt_set_gate 128 (isr_addr 128%nat) 0xEE idt).

(** ** What the processor reads *)

Definition seg_base (e : gdt_entry) : Z := base_low e + base_middle e * 2 ^ 16 + base_high e * 2 ^ 24.
Definition seg_limit (e : gdt_entry) : Z :=
  let l := limit_low e + Z.land (granularity e) 0xF * 2 ^ 16 in
  if Z.testbit (granularity e) 7 then l * 4096 + 4095 else l.
Definition present (a : Z) : bool := Z.testbit a 7.
Definition dpl (a : Z) : Z := Z.land (Z.shiftr a 5) 3.
Definition executable (a : Z) : bool := Z.testbit a 3.

Definition gate_offset (e : idt_entry) : Z := idt_base_low e + idt_base_high e * 2 ^ 16.
(** A 32-bit interrupt gate. *)
Definition interrupt_gate (e : idt_entry) : bool := Z.land (flags e) 0x1F =? 0x0E.

(** The fields have the widths of the structure. *)
Definition gdt_typed (e : gdt_entry) : Prop :=
  0 <= limit_low e < 2 ^ 16 /\ 0 <= base_low e < 2 ^ 16 /\ 0 <= base_middle e < 2 ^ 8 /\ 0 <= access e < 2 ^ 8 /\
  0 <= granularity e < 2 ^ 8 /\ 0 <= base_high e < 2 ^ 8.
Definition idt_typed (e : idt_entry) : Prop :=
  0 <= idt_base_low e < 2 ^ 16 /\ 0 <= sel e < 2 ^ 16 /\ 0 <= zero e < 2 ^ 8 /\ 0 <= flags e < 2 ^ 8 /\
  0 <= idt_base_high e < 2 ^ 16.

(** ** Bits and numbers *)

Lemma land_mask x k : 0 <= k -> Z.land x (Z.ones k) = x mod 2 ^ k.
Proof. intros Hk. by apply Z.land_ones. Qed.

Lemma base_split base : 0 <= base < 2 ^ 32 ->
  Z.land base 0xFFFF + Z.land (Z.shiftr base 16) 0xFF * 2 ^ 16 + Z.land (Z.shiftr base 24) 0xFF * 2 ^ 24 = base.
Proof.
  intros Hb. change 0xFFFF with (Z.ones 16). change 0xFF with (Z.ones 8).
  rewrite !land_mask, !Z.shiftr_div_pow2 by lia. lia.
Qed.

Lemma high_nibble g : 0 <= g < 2 ^ 8 -> Z.land g 0xF0 = Z.shiftl (Z.shiftr g 4) 4.
Proof.
  intros Hg. assert (forallb (fun n => Z.land (Z.of_nat n) 0xF0 =? Z.shiftl (Z.shiftr (Z.of_nat n) 4) 4) (seq 0 256) = true) as H
    by (vm_compute; reflexivity).
  rewrite forallb_forall in H. specialize (H (Z.to_nat g) ltac:(apply in_seq; lia)). rewrite Z2Nat.id in H by lia. lia.
Qed.

(** The granularity byte holds the high limit bits below the flags. *)
Lemma gran_byte limit gran :
  0 <= gran < 2 ^ 8 ->
  let b := Z.lor (Z.land (Z.shiftr limit 16) 0x0F) (Z.land gran 0xF0) in
  Z.land b 0xF = limit / 2 ^ 16 mod 2 ^ 4 /\ Z.testbit b 7 = Z.testbit gran 7 /\ 0 <= b < 2 ^ 8.
Proof.
  intros Hg b. pose proof (Z.mod_pos_bound (limit / 2 ^ 16) (2 ^ 4) ltac:(lia)) as Hm.
  assert (b = limit / 2 ^ 16 mod 2 ^ 4 + gran / 2 ^ 4 * 2 ^ 4) as Hb.
  { unfold b. rewrite high_nibble by done. change 0x0F with (Z.ones 4).
    rewrite land_mask, !Z.shiftr_div_pow2, lor_shiftl_add by lia. done. }
  rewrite Hb. change 0xF with (Z.ones 4). rewrite land_mask by lia. split; [|split].
  - rewrite Z.mod_add by lia. by apply Z.mod_small.
  - rewrite !Z.testbit_eqb by lia. f_equal. zlia.
  - zlia.
Qed.

(** ** The segment table *)

(** The processor reads back what [gdt_set_gate] encodes: in the chosen slot
    the base, the low 20 bits of the limit (in pages when the granularity bit is
    set), the access byte, all fields within their widths; the other slots are
    untouched. *)
Theorem gdt_set_gate_decodes gdt num base limit acc gran :
  (num < length gdt)%nat -> 0 <= base < 2 ^ 32 -> 0 <= limit < 2 ^ 32 -> 0 <= acc < 2 ^ 8 -> 0 <= gran < 2 ^ 8 ->
  let gdt' := gdt_set_gate num base limit acc gran gdt in
  length gdt' = length gdt /\
  (forall i, i <> num -> gdt' !! i = gdt !! i) /\
  exists e, gdt' !! num = Some e /\ gdt_typed e /\ seg_base e = base /\ access e = acc /\
    seg_limit e = if Z.testbit gran 7 then limit mod 2 ^ 20 * 4096 + 4095 else limit mod 2 ^ 20.
Proof.
  intros Hn Hb Hl Ha Hg gdt'. unfold gdt', gdt_set_gate. split; [apply length_insert|].
  split; [intros i Hi; by rewrite list_lookup_insert_ne by done|].
  eexists. split; [by apply list_lookup_insert_eq|]. destruct (gran_byte limit gran Hg) as (Hlow & H7 & Hrange).
  unfold gdt_typed, seg_base, seg_limit. cbn [limit_low base_low base_middle access granularity base_high].
  rewrite Hlow, H7, base_split by done. change 0xFFFF with (Z.ones 16). change 0xFF with (Z.ones 8). rewrite !land_mask by lia.
  split; [|split; [done|split; [done|]]].
  - repeat split; try lia; apply Z.mod_pos_bound; lia.
  - replace (limit mod 2 ^ 16 + limit / 2 ^ 16 mod 2 ^ 4 * 2 ^ 16) with (limit mod 2 ^ 20) by zlia. done.
Qed.

(** A segment of 64 bytes at 0x12345678 in the last slot. *)
Lemma gdt_set_gate_decodes_witness :
  exists e, gdt_set_gate 4 0x12345678 63 0x92 0x40 (replicate 5 gdt_null) !! 4%nat = Some e /\
    seg_base e = 0x12345678 /\ seg_limit e = 63.
Proof.
  destruct (gdt_set_gate_decodes (replicate 5 gdt_null) 4 0x12345678 63 0x92 0x40) as (_ & _ & e & H1 & _ & H2 & _ & H3);
    [cbn; lia|lia..|]. exists e. split; [exact H1|]. split; [exact H2|exact H3].
Defined.

(** The four segments after the null descriptor span the whole address space,
    two for the kernel and two for ring 3, code before data. *)
Lemma gdt_init_flat addr gdt :
  length gdt = 5%nat ->
  let '(gp, gdt') := gdt_init addr gdt in
  ptr_limit gp = 39 /\ ptr_base gp = addr /\ gdt' !! 0%nat = Some gdt_null /\
  Forall (fun '(i, ring, code) => exists e, gdt' !! i = Some e /\ seg_base e = 0 /\ seg_limit e = 2 ^ 32 - 1 /\
    present (access e) = true /\ dpl (access e) = ring /\ executable (access e) = code)
    [(1%nat, 0, true); (2%nat, 0, false); (3%nat, 3, true); (4%nat, 3, false)].
Proof.
  intros Hl. destruct gdt as [|e0 [|e1 [|e2 [|e3 [|e4 [|]]]]]]; try done. cbn [gdt_init]. repeat split.
  repeat constructor; eexists; (split; [reflexivity|]); vm_compute; done.
Qed.

(** ** The interrupt table *)

Lemma gate_split base : 0 <= base < 2 ^ 32 -> Z.land base 0xFFFF + Z.land (Z.shiftr base 16) 0xFFFF * 2 ^ 16 = base.
Proof. intros Hb. change 0xFFFF with (Z.ones 16). rewrite !land_mask, !Z.shiftr_div_pow2 by lia. zlia. Qed.

Lemma gate_typed base fl : 0 <= fl < 2 ^ 8 ->
  idt_typed (mk_idt (Z.land base 0xFFFF) GDT_KERNEL_CODE_SEL 0 fl (Z.land (Z.shiftr base 16) 0xFFFF)).
Proof.
  intros Hf. unfold idt_typed, GDT_KERNEL_CODE_SEL. cbn. change 0xFFFF with (Z.ones 16). rewrite !land_mask by lia.
  repeat split; try lia; apply Z.mod_pos_bound; lia.
Qed.

Lemma length_set_gates isr_addr n idt : length (set_gates isr_addr n idt) = length idt.
Proof.
  unfold set_gates. revert idt. generalize (seq 0 n). intros l. induction l as [|i l IH]; intros idt; cbn; [done|].
  rewrite IH. apply length_insert.
Qed.

Lemma set_gates_lookup isr_addr n idt i :
  (n <= length idt)%nat ->
  set_gates isr_addr n idt !! i =
  if decide (i < n)%nat then idt_set_gate i (isr_addr i) 0x8E idt !! i else idt !! i.
Proof.
  intros Hn. induction n as [|n IH]; [done|]. unfold set_gates in *. rewrite seq_S, fold_left_app. cbn [fold_left Nat.add].
  pose proof (length_set_gates isr_addr n idt) as Hlen. unfold set_gates in Hlen.
  unfold idt_set_gate at 1. destruct (decide (i = n)) as [->|Hne].
  - rewrite list_lookup_insert_eq, decide_True by lia. unfold idt_set_gate. by rewrite list_lookup_insert_eq by lia.
  - rewrite list_lookup_insert_ne, IH by lia. repeat case_decide; try lia; done.
Qed.

(** The interrupt table [idt_init] loads: each of the vectors 0 to 47 is a present
    interrupt gate of ring 0 to its own stub in the kernel code segment, vector
    0x80 is a gate that ring 3 may call to its stub, and every other vector is
    not present, so that no other interrupt can be raised by a program; all
    fields are within their widths. *)
Theorem idt_init_gates isr_addr addr idt :
  length idt = 256%nat -> (forall n, 0 <= isr_addr n < 2 ^ 32) ->
  let '(idtp, idt') := idt_table isr_addr addr idt in
  ptr_limit idtp = 2047 /\ ptr_base idtp = addr /\ length idt' = 256%nat /\
  forall i, (i < 256)%nat -> exists e, idt' !! i = Some e /\ idt_typed e /\
    if ((i <? 48) || (i =? 128))%nat
    then present (flags e) = true /\ interrupt_gate e = true /\ sel e = GDT_KERNEL_CODE_SEL /\
         gate_offset e = isr_addr i /\ dpl (flags e) = (if (i =? 128)%nat then 3 else 0)
    else present (flags e) = false.
Proof.
  intros Hl Ha. unfold idt_table. rewrite Hl. cbn [ptr_limit ptr_base]. split; [reflexivity|]. split; [done|].
  unfold idt_set_gate. rewrite length_insert, length_set_gates, length_map. split; [done|]. intros i Hi.
  assert (forall fl, gate_offset (mk_idt (Z.land (isr_addr i) 0xFFFF) GDT_KERNEL_CODE_SEL 0 fl (Z.land (Z.shiftr (isr_addr i) 16) 0xFFFF)) = isr_addr i)
    as Hoff by (intros fl; by apply gate_split).
  destruct (Nat.eqb_spec i 128) as [->|Hne].
  { eexists. split; [apply list_lookup_insert_eq; rewrite length_set_gates, length_map; lia|]. split; [by apply gate_typed|].
    rewrite orb_true_r, Hoff. done. }
  rewrite list_lookup_insert_ne, set_gates_lookup by (rewrite ?length_map; lia). rewrite orb_false_r.
  destruct (Nat.ltb_spec i 48) as [Hlt|Hge].
  - rewrite decide_True by done. eexists. split; [apply list_lookup_insert_eq; rewrite length_map; lia|].
    split; [by apply gate_typed|]. rewrite Hoff. done.
  - rewrite decide_False by lia. exists idt_clear. split; [|split; [by vm_compute|done]].
    destruct (lookup_lt_is_Some_2 idt i ltac:(lia)) as [e He]. change (map ?f idt) with (f <$> idt). by rewrite list_lookup_fmap, He.
Qed.

(** Stubs 16 bytes apart. *)
Lemma idt_init_gates_witness :
  let '(_, idt') := idt_table (fun n => 0x100000 + 16 * Z.of_nat (n `mod` 256)) 0x200000 (replicate 256 idt_clear) in
  exists e, idt' !! 128%nat = Some e /\ gate_offset e = 0x100800 /\ dpl (flags e) = 3.
Proof.
  pose proof (idt_init_gates (fun n => 0x100000 + 16 * Z.of_nat (n `mod` 256)) 0x200000 (replicate 256 idt_clear)) as H.
  destruct (idt_table _ _ _) as [p t]. destruct H as (_ & _ & _ & H); [reflexivity| |].
  - intros n. pose proof (Nat.mod_upper_bound n 256 ltac:(lia)). lia.
  - destruct (H 128%nat) as (e & H1 & _ & _ & _ & _ & H2 & H3); [lia|]. exists e. split; [exact H1|]. split; [exact H2|exact H3].
Defined.
