(* ===== verification/Hal.v ===== *)
(** * hal.c and the interrupt handling of kernel.c

    The machine is the kernel of [Syscall.v] with the hardware hal.c drives: the
    pair of 8259 interrupt controllers, the timer and the processor's CPUID.  The
    controllers are modelled as their data sheet describes them, command by
    command, because the kernel reads back what it wrote; the timer as the list
    of bytes written to it.  [cpuid] and [has_cpuid] are what the processor
    answers, [call_at] is code at an address that hal_register_syscall was
    given.  The interrupt flag is the one of [Tcb.v]. *)
From Stdlib Require Import String.
From S2P Require Import Prelude Mem Alloc Tcb Ipc Vfs Io Serial Syscall.

(** ** The 8259 interrupt controller *)

(** [next_icw]: which initialisation word the data port takes next, 0 for none;
    [show_isr]: the command port shows the in-service register, not the requests. *)
Record pic := mk_pic { imr : Z; in_service : Z; irr : Z; next_icw : Z; vector_offset : Z; show_isr : bool }.

Definition with_imr (v : Z) (p : pic) : pic := mk_pic v (in_service p) (irr p) (next_icw p) (vector_offset p) (show_isr p).
Definition with_in_service (v : Z) (p : pic) : pic := mk_pic (imr p) v (irr p) (next_icw p) (vector_offset p) (show_isr p).

(** The bit of the highest priority: the lowest set. *)
Definition lowest_bit (x : Z) : Z := Z.land x (- x).

Definition pic_command (v : Z) (p : pic) : pic :=
  if Z.testbit v 4 then mk_pic 0 (in_service p) (irr p) 2 (vector_offset p) false
  else if Z.testbit v 3 then
    if Z.testbit v 1 then mk_pic (imr p) (in_service p) (irr p) (next_icw p) (vector_offset p) (Z.testbit v 0) else p
  else if v =? 0x20 then with_in_service (in_service p - lowest_bit (in_service p)) p
  else p.
Definition pic_data (v : Z) (p : pic) : pic :=
  if next_icw p =? 2 then mk_pic (imr p) (in_service p) (irr p) 3 (Z.land v 0xF8) (show_isr p)
  else if next_icw p =? 3 then mk_pic (imr p) (in_service p) (irr p) 4 (vector_offset p) (show_isr p)
  else if next_icw p =? 4 then mk_pic (imr p) (in_service p) (irr p) 0 (vector_offset p) (show_isr p)
  else with_imr v p.

(** ** State *)

Definition PIC1_CMD : Z := 0x20.
Definition PIC1_DATA : Z := 0x21.
Definition PIC2_CMD : Z := 0xA0.
Definition PIC2_DATA : Z := 0xA1.
Definition PIC_EOI : Z := 0x20.
Definition PIT_CHANNEL0 : Z := 0x40.
Definition PIT_COMMAND : Z := 0x43.
Definition PIT_FREQ : Z := 1193182.
Definition PIT_DEFAULT_HZ : Z := 100.

(** The handlers of the interrupt table: the timer's, or code at an address. *)
Inductive isr_handler_t := pit_isr | isr_at (addr : Z).
#[global] Instance isr_handler_eq_dec : EqDecision isr_handler_t.
Proof. solve_decision. Defined.

Record hal := mk_hal {
  pic1 : pic; pic2 : pic; pit_writes : list (Z * Z);
  hal_isr_table : list (option isr_handler_t); hal_isr_table_initialized : bool; hal_pit_ticks : Z;
  hal_cpu_max_leaf : Z; hal_cpu_features_edx : Z; hal_cpu_features_ecx : Z; hal_cpu_vendor_str : list Z; hal_cpu_detected : bool;
  hal_initialized : bool
}.

Definition with_pics (p1 p2 : pic) (h : hal) : hal :=
  mk_hal p1 p2 (pit_writes h) (hal_isr_table h) (hal_isr_table_initialized h) (hal_pit_ticks h) (hal_cpu_max_leaf h)
    (hal_cpu_features_edx h) (hal_cpu_features_ecx h) (hal_cpu_vendor_str h) (hal_cpu_detected h) (hal_initialized h).
Definition with_pit (w : list (Z * Z)) (h : hal) : hal :=
  mk_hal (pic1 h) (pic2 h) w (hal_isr_table h) (hal_isr_table_initialized h) (hal_pit_ticks h) (hal_cpu_max_leaf h)
    (hal_cpu_features_edx h) (hal_cpu_features_ecx h) (hal_cpu_vendor_str h) (hal_cpu_detected h) (hal_initialized h).
Definition with_table (t : list (option isr_handler_t)) (ready : bool) (h : hal) : hal :=
  mk_hal (pic1 h) (pic2 h) (pit_writes h) t ready (hal_pit_ticks h) (hal_cpu_max_leaf h)
    (hal_cpu_features_edx h) (hal_cpu_features_ecx h) (hal_cpu_vendor_str h) (hal_cpu_detected h) (hal_initialized h).
Definition with_hal_ticks (t : Z) (h : hal) : hal :=
  mk_hal (pic1 h) (pic2 h) (pit_writes h) (hal_isr_table h) (hal_isr_table_initialized h) t (hal_cpu_max_leaf h)
    (hal_cpu_features_edx h) (hal_cpu_features_ecx h) (hal_cpu_vendor_str h) (hal_cpu_detected h) (hal_initialized h).
Definition with_cpu (leaf edx ecx : Z) (vendor : list Z) (h : hal) : hal :=
  mk_hal (pic1 h) (pic2 h) (pit_writes h) (hal_isr_table h) (hal_isr_table_initialized h) (hal_pit_ticks h) leaf edx ecx vendor true
    (hal_initialized h).
Definition with_hal_init (h : hal) : hal :=
  mk_hal (pic1 h) (pic2 h) (pit_writes h) (hal_isr_table h) (hal_isr_table_initialized h) (hal_pit_ticks h) (hal_cpu_max_leaf h)
    (hal_cpu_features_edx h) (hal_cpu_features_ecx h) (hal_cpu_vendor_str h) (hal_cpu_detected h) true.

(** Ports; io_wait writes to port 0x80, which does nothing. *)
Definition hal_outb (port v : Z) (h : hal) : hal :=
  if port =? PIC1_CMD then with_pics (pic_command v (pic1 h)) (pic2 h) h
  else if port =? PIC1_DATA then with_pics (pic_data v (pic1 h)) (pic2 h) h
  else if port =? PIC2_CMD then with_pics (pic1 h) (pic_command v (pic2 h)) h
  else if port =? PIC2_DATA then with_pics (pic1 h) (pic_data v (pic2 h)) h
  else if (port =? PIT_CHANNEL0) || (port =? PIT_COMMAND) then with_pit (pit_writes h ++ [(port, v)]) h
  else h.
Definition hal_inb (port : Z) (h : hal) : Z :=
  let read p := if show_isr p then in_service p else irr p in
  if port =? PIC1_CMD then read (pic1 h)
  else if port =? PIC1_DATA then imr (pic1 h)
  else if port =? PIC2_CMD then read (pic2 h)
  else if port =? PIC2_DATA then imr (pic2 h)
  else 0.

(** ** hal.c on the devices alone *)

Definition hal_pic_remap (offset1 offset2 : Z) (h : hal) : hal :=
  let m1 := hal_inb PIC1_DATA h in
  let m2 := hal_inb PIC2_DATA h in
  let h := hal_outb PIC1_CMD 0x11 h in
  let h := hal_outb PIC2_CMD 0x11 h in
  let h := hal_outb PIC1_DATA offset1 h in
  let h := hal_outb PIC2_DATA offset2 h in
  let h := hal_outb PIC1_DATA 0x04 h in
  let h := hal_outb PIC2_DATA 0x02 h in
  let h := hal_outb PIC1_DATA 0x01 h in
  let h := hal_outb PIC2_DATA 0x01 h in
  let h := hal_outb PIC1_DATA m1 h in
  hal_outb PIC2_DATA m2 h.

Definition irq_port (irq : Z) : Z := if irq <? 8 then PIC1_DATA else PIC2_DATA.
Definition irq_bit (irq : Z) : Z := u8 (Z.shiftl 1 (Z.land irq 7)).
Definition hal_mask_irq (irq : Z) (h : hal) : hal :=
  if 16 <=? irq then h else
  hal_outb (irq_port irq) (u8 (Z.lor (hal_inb (irq_port irq) h) (irq_bit irq))) h.
Definition hal_unmask_irq (irq : Z) (h : hal) : hal :=
  if 16 <=? irq then h else
  hal_outb (irq_port irq) (u8 (Z.land (hal_inb (irq_port irq) h) (u8 (Z.lnot (irq_bit irq))))) h.
Definition hal_enable_irq (irq : Z) (h : hal) : hal := hal_unmask_irq irq h.
Definition hal_disable_irq (irq : Z) (h : hal) : hal := hal_mask_irq irq h.
Definition hal_ack_irq (irq : Z) (h : hal) : hal :=
  let h := if 8 <=? irq then hal_outb PIC2_CMD PIC_EOI h else h in
  hal_outb PIC1_CMD PIC_EOI h.

Definition pit_divisor (hz : Z) : Z :=
  let hz := if hz =? 0 then PIT_DEFAULT_HZ else hz in
  let hz := if PIT_FREQ <? hz then PIT_FREQ else hz in
  let divisor := PIT_FREQ / hz in
  let divisor := if divisor =? 0 then 1 else divisor in
  if 0xFFFF <? divisor then 0xFFFF else divisor.
Definition hal_set_timer_frequency (hz : Z) (h : hal) : hal :=
  let divisor := pit_divisor hz in
  let h := hal_outb PIT_COMMAND 0x36 h in
  let h := hal_outb PIT_CHANNEL0 (u8 (Z.land divisor 0xFF)) h in
  hal_outb PIT_CHANNEL0 (u8 (Z.land (Z.shiftr divisor 8) 0xFF)) h.

Definition pit_get_ticks (h : hal) : Z := hal_pit_ticks h.
Definition pit_tick (h : hal) : hal := with_hal_ticks (u64 (hal_pit_ticks h + 1)) h.

Definition hal_has_isr (vector : Z) (h : hal) : bool :=
  if 256 <=? vector then false else bool_decide (hal_isr_table h !!! Z.to_nat vector <> None).

(** A 32-bit word as the four characters stored there. *)
Definition word_chars (w : Z) : list Z :=
  [Z.land w 0xFF; Z.land (Z.shiftr w 8) 0xFF; Z.land (Z.shiftr w 16) 0xFF; Z.land (Z.shiftr w 24) 0xFF].

Section Cpu.
Context (has_cpuid : bool) (cpuid : Z -> Z * Z * Z * Z).

Definition hal_detect_cpu (h : hal) : hal :=
  if hal_cpu_detected h then h else
  if negb has_cpuid then with_cpu 0 0 0 (hal_cpu_vendor_str h) h else
  let '(eax, ebx, ecx, edx) := cpuid 0 in
  let vendor := word_chars ebx ++ word_chars edx ++ word_chars ecx in
  if 1 <=? eax then
    let '(_, _, ecx1, edx1) := cpuid 1 in with_cpu eax edx1 ecx1 vendor h
  else with_cpu eax (hal_cpu_features_edx h) (hal_cpu_features_ecx h) vendor h.

Definition hal_get_cpu_vendor (h : hal) : Z * list Z * hal :=
  let h := hal_detect_cpu h in (hal_cpu_max_leaf h, hal_cpu_vendor_str h, h).
Definition hal_get_cpu_features (h : hal) : Z * hal := let h := hal_detect_cpu h in (hal_cpu_features_edx h, h).
Definition hal_get_cpu_features_ecx (h : hal) : Z * hal := let h := hal_detect_cpu h in (hal_cpu_features_ecx h, h).
End Cpu.

(** ** The machine *)

Section Machine.
Context {A : Type} `{!Allocator A}.
Context (_kernel_end : Z) (busy : list Z -> nat) (path_fuel : nat).
Context (has_cpuid : bool) (cpuid : Z -> Z * Z * Z * Z).

Record machine := mk_machine { mk : kernel A; hw : hal }.
Definition with_k (k : kernel A) (m : machine) : machine := mk_machine k (hw m).
Definition with_hw (h : hal) (m : machine) : machine := mk_machine (mk m) h.
Definition on_hw (f : hal -> hal) (m : machine) : machine := with_hw (f (hw m)) m.
Definition on_sched (f : sched A -> sched A) (m : machine) : machine :=
  with_k (with_ipc (set_tasks (f (tasks (k_ipc (mk m)))) (k_ipc (mk m))) (mk m)) m.
Definition mlog (s : string) (m : machine) : machine := with_k (logln busy (str s) (mk m)) m.
Definition iflag_of (m : machine) : bool := iflag (tasks (k_ipc (mk m))).

Context (call_at : Z -> Z -> machine -> machine).

(** A call that comes back, one that stops the processor for good, and a fault. *)
Inductive result := Run (m : machine) | Stop (m : machine) | Bad.

Definition hal_init (m : machine) : machine :=
  if hal_initialized (hw m) then m else
  let m := on_sched hal_cli m in
  let m := on_hw (with_table (replicate 256 None) true) m in
  let m := on_hw (hal_detect_cpu has_cpuid cpuid) m in
  let m := on_hw (hal_pic_remap 0x20 0x28) m in
  let m := on_hw (hal_outb PIC1_DATA 0xFF) m in
  let m := on_hw (hal_outb PIC2_DATA 0xFF) m in
  let m := mlog "[HAL] PIT disabled for debug - no timer IRQ" m in
  let m := on_hw with_hal_init m in
  let m := mlog "[HAL] HAL initialized (PIC remapped, no PIT)" m in
  on_sched hal_sti m.

Definition hal_register_isr (vector : Z) (handler : option isr_handler_t) (m : machine) : machine :=
  if 256 <=? vector then m else
  let m := on_hw (fun h => if hal_isr_table_initialized h then h else with_table (replicate 256 None) true h) m in
  let m := on_sched hal_cli m in
  let m := on_hw (fun h => with_table (<[Z.to_nat vector := handler]> (hal_isr_table h)) (hal_isr_table_initialized h) h) m in
  on_sched hal_sti m.
Definition hal_unregister_isr (vector : Z) (m : machine) : machine :=
  if 256 <=? vector then m else
  let m := on_sched hal_cli m in
  let m := on_hw (fun h => with_table (<[Z.to_nat vector := None]> (hal_isr_table h)) (hal_isr_table_initialized h) h) m in
  on_sched hal_sti m.
Definition hal_register_syscall (vector handler_addr fl : Z) (m : machine) : machine :=
  let m := hal_register_isr vector (if handler_addr =? 0 then None else Some (isr_at handler_addr)) m in
  let put f m := with_k (with_serial (f (k_serial (mk m))) (mk m)) m in
  let m := put (serial_write_str busy (str "[HAL] Syscall gate registered vector 0x")) m in
  let m := put (serial_write_hex8 busy vector) m in
  let m := put (serial_write_str busy (str " flags 0x")) m in
  let m := put (serial_write_hex8 busy fl) m in
  put (serial_writeln busy []) m.

Definition pit_init (m : machine) : machine :=
  let m := on_hw (hal_set_timer_frequency PIT_DEFAULT_HZ) m in
  let m := on_hw (with_hal_ticks 0) m in
  let m := hal_register_isr 0x20 (Some pit_isr) m in
  let m := on_hw (hal_unmask_irq 0) m in
  mlog "[HAL] PIT initialized at 100 Hz" m.

(** [scheduler_tick] can only fail on a broken queue. *)
Definition pit_irq_handler (m : machine) : option machine :=
  let m := on_hw pit_tick m in
  let k := mk m in
  s ← scheduler_tick (tasks (k_ipc k));
  Some (with_k (with_ipc (set_tasks s (k_ipc k)) k) m).

Definition hal_dispatch_isr (vector : Z) (m : machine) : option machine :=
  if vector <? 256 then
    match hal_isr_table (hw m) !!! Z.to_nat vector with
    | Some pit_isr => pit_irq_handler m
    | Some (isr_at a) => Some (call_at a vector m)
    | None => Some m
    end
  else Some m.

(** ** isr_handler of kernel.c *)

Definition pic_get_isr (h : hal) : Z * hal :=
  let h := hal_outb PIC1_CMD 0x0B h in
  let isr := hal_inb PIC1_CMD h in
  let h := hal_outb PIC2_CMD 0x0B h in
  (Z.lor isr (Z.shiftl (hal_inb PIC2_CMD h) 8), h).
Definition pic_set_mask (m1 m2 : Z) (h : hal) : hal := hal_outb PIC2_DATA m2 (hal_outb PIC1_DATA m1 h).
Definition pic_send_eoi (irq : Z) (h : hal) : hal :=
  let h := if 8 <=? irq then hal_outb PIC2_CMD 0x20 h else h in
  hal_outb PIC1_CMD 0x20 h.

(** The frame the assembly stub pushes. *)
Record frame := mk_frame {
  f_regs : regs; f_ds : Z; f_edi : Z; f_esi : Z; f_ebp : Z; f_esp : Z;
  int_no : Z; err_code : Z; f_eip : Z; f_cs : Z; f_eflags : Z
}.
Definition set_regs (r : regs) (f : frame) : frame :=
  mk_frame r (f_ds f) (f_edi f) (f_esi f) (f_ebp f) (f_esp f) (int_no f) (err_code f) (f_eip f) (f_cs f) (f_eflags f).

Definition exception_messages : list string :=
  ["Division By Zero"; "Debug"; "Non Maskable Interrupt"; "Breakpoint"; "Overflow"; "Bound Range Exceeded";
   "Invalid Opcode"; "Device Not Available"; "Double Fault"; "Coprocessor Segment Overrun"; "Invalid TSS";
   "Segment Not Present"; "Stack Fault"; "General Protection Fault"; "Page Fault"; "Reserved"; "x87 FPU Error";
   "Alignment Check"; "Machine Check"; "SIMD Floating-Point Exception"; "Virtualization Exception"; "Reserved";
   "Reserved"; "Reserved"; "Reserved"; "Reserved"; "Reserved"; "Reserved"; "Reserved"; "Reserved";
   "Security Exception"; "Reserved"]%string.
Definition exception_message (n : Z) : list Z := str (default EmptyString (exception_messages !! Z.to_nat n)).

(** One line of the register dump. *)
Definition dump (items : list (string * Z)) (k : kernel A) : kernel A :=
  logln busy [] (fold_left (fun k '(s, v) => log_hex busy v (log busy (str s) k)) items k).
Definition context_dump (f : frame) (k : kernel A) : kernel A :=
  let k := logln busy (str "=== CPU Context Dump ===") (logln busy [] k) in
  let k := dump [("EAX: ", eax (f_regs f)); ("  EBX: ", ebx (f_regs f)); ("  ECX: ", ecx (f_regs f))]%string k in
  let k := dump [("EDX: ", edx (f_regs f)); ("  ESI: ", f_esi f); ("  EDI: ", f_edi f)]%string k in
  let k := dump [("EBP: ", f_ebp f); ("  ESP: ", f_esp f); ("  EIP: ", f_eip f)]%string k in
  let k := dump [("CS:  ", f_cs f); ("  DS:  ", f_ds f); ("  EFLAGS: ", f_eflags f)]%string k in
  let k := log_hex busy (int_no f) (log busy (str "Interrupt: 0x") k) in
  let k := log busy (exception_message (int_no f)) (log busy (str " (") k) in
  let k := logln busy (str ")") k in
  dump [("Error Code: 0x", err_code f)]%string k.

Definition hex_digit (v : Z) : Z := let d := Z.land v 0xF in if d <? 10 then 48 + d else 55 + d.
Definition putc (c : Z) (k : kernel A) : kernel A := with_con (io_putchar (k_con k) c) k.
Definition println (bytes : list Z) (k : kernel A) : kernel A := with_con (io_println bytes (k_con k)) k.

Definition exception (f : frame) (m : machine) : result :=
  let n := int_no f in
  let k := context_dump f (mk m) in
  let k := print (10 :: str "!!! EXCEPTION: ") k in
  let k := print (str " (Interrupt 0x") (print (exception_message n) k) in
  let k := putc (hex_digit n) (putc (hex_digit (Z.shiftr n 4)) k) in
  let k := println (str ")") k in
  if (n =? 8) || (n =? 13) || (n =? 14) then
    let k := print (str "Error Code: 0x") k in
    let e := err_code f in
    let k := putc (hex_digit e) (putc (hex_digit (Z.shiftr e 4)) (putc (hex_digit (Z.shiftr e 8)) (putc (hex_digit (Z.shiftr e 12)) k))) in
    let k := println [] k in
    match kernel_panic busy (str "Critical exception occurred") k with
    | Halt k => Stop (with_k k m)
    | Ret _ k => Run (with_k k m)
    | Fault => Bad
    end
  else Run (with_k k m).

(** An IRQ: the registered handler, then the end of interrupt, with the
    spurious interrupts of the lowest priorities recognised. *)
Definition end_irq (irq : Z) (m : machine) : machine :=
  if irq =? 7 then
    let '(isr, h) := pic_get_isr (hw m) in
    let m := with_hw h m in
    if negb (Z.testbit isr 7) then mlog "[PIC] Spurious IRQ7 ignored" m
    else on_hw (pic_send_eoi irq) m
  else if irq =? 15 then
    let '(isr, h) := pic_get_isr (hw m) in
    let m := with_hw h m in
    if negb (Z.testbit isr 15)
    then on_hw (hal_outb PIC1_CMD 0x20) (mlog "[PIC] Spurious IRQ15 ignored (EOI master only)" m)
    else on_hw (pic_send_eoi irq) m
  else on_hw (pic_send_eoi irq) m.

Definition run (o : option machine) : result := match o with Some m => Run m | None => Bad end.

Definition isr_handler (f : frame) (m : machine) : result * frame :=
  let n := int_no f in
  if n =? 0x80 then
    let '(o, r) := syscall_handler _kernel_end busy path_fuel (f_regs f) (mk m) in
    (match o with Ret _ k => Run (with_k k m) | Halt k => Stop (with_k k m) | Fault => Bad end, set_regs r f)
  else if n <? 32 then (exception f m, f)
  else if n <? 0x30 then
    (run (m ← (if hal_has_isr n (hw m) then hal_dispatch_isr n m else Some m); Some (end_irq (n - 0x20) m)), f)
  else
    let k := logln busy (str " (no dump)") (log_hex busy n (log busy (str "[ISR] vector 0x") (mk m))) in
    let m := with_k k m in
    if hal_has_isr n (hw m) then (run (hal_dispatch_isr n m), f)
    else (Run (with_k (logln busy [] (log_hex busy n (log busy (str "[ISR] Unhandled vector 0x") (mk m)))) m), f).

(** ** Waiting for the timer *)

(** The frame of an interrupt taken at a halt instruction. *)
Definition irq_frame (n : Z) : frame := mk_frame (mk_regs 0 0 0 0) 0x10 0 0 0 0 n 0 0 0x08 0x202.

(** [hal_halt] with only the timer line active: the processor wakes when the
    interrupt is enabled, unmasked and not already in service; the controller
    marks it in service and gives the vector, the gate clears the interrupt flag
    and the return restores it.  [None]: the processor never wakes. *)
Definition halt_for_timer (m : machine) : option machine :=
  if iflag_of m && negb (Z.testbit (imr (pic1 (hw m))) 0) && (in_service (pic1 (hw m)) =? 0) then
    let m := on_hw (fun h => with_pics (with_in_service 1 (pic1 h)) (pic2 h) h) m in
    match fst (isr_handler (irq_frame (vector_offset (pic1 (hw m)))) (on_sched hal_cli m)) with
    | Run m => Some (on_sched hal_sti m)
    | _ => None
    end
  else None.

(** [while (hal_pit_ticks < target) hal_halt();] *)
Fixpoint sleep_loop (fuel : nat) (target : Z) (m : machine) : option machine :=
  if hal_pit_ticks (hw m) <? target then
    match fuel with O => None | S f => m ← halt_for_timer m; sleep_loop f target m end
  else Some m.
Definition hal_sleep_ticks (ticks : Z) (m : machine) : option machine :=
  if ticks =? 0 then Some m else
  sleep_loop (Z.to_nat ticks) (u64 (hal_pit_ticks (hw m) + ticks)) m.
Definition pit_sleep (ms : Z) (m : machine) : option machine :=
  if ms =? 0 then Some m else
  let ticks := u32 (ms + 9) / 10 in
  let ticks := if ticks =? 0 then 1 else ticks in
  hal_sleep_ticks ticks m.
End Machine.
Arguments machine A : clear implicits.
Arguments result A : clear implicits.
