(* ===== verification/HalCorrect.v ===== *)
(** * Interrupts are acknowledged and the timer keeps time *)
From Stdlib Require Import String.
From S2P Require Import Prelude Mem Alloc Heap Tcb Ipc Vfs Io Serial Syscall SyscallCorrect Hal.

(** ** The controllers *)

Lemma lowest_bit_set x k : 0 <= k -> lowest_bit x = 2 ^ k -> Z.testbit x k = true.
Proof.
  intros Hk H. assert (Z.testbit (lowest_bit x) k = true) as Hb by (rewrite H; by apply Z.pow2_bits_true).
  unfold lowest_bit in Hb. rewrite Z.land_spec in Hb. by apply andb_true_iff in Hb as [Hb _].
Qed.

(** Programming the vectors keeps the masks, whatever the controllers were doing. *)
Lemma remap_keeps_masks o1 o2 h :
  let h' := hal_pic_remap o1 o2 h in
  imr (pic1 h') = imr (pic1 h) /\ imr (pic2 h') = imr (pic2 h) /\
  vector_offset (pic1 h') = Z.land o1 0xF8 /\ vector_offset (pic2 h') = Z.land o2 0xF8 /\
  in_service (pic1 h') = in_service (pic1 h) /\ in_service (pic2 h') = in_service (pic2 h) /\
  next_icw (pic1 h') = 0 /\ next_icw (pic2 h') = 0.
Proof. by repeat split. Qed.

(** A controller that is initialised, with byte registers. *)
Record pic_ok (p : pic) : Prop := { po_icw : next_icw p = 0; po_imr : 0 <= imr p < 256 }.

Definition irq_masked (irq : Z) (h : hal) : bool :=
  Z.testbit (if irq <? 8 then imr (pic1 h) else imr (pic2 h)) (Z.land irq 7).

Lemma irq_bit_pow irq : 0 <= irq < 16 -> irq_bit irq = 2 ^ Z.land irq 7 /\ 0 <= Z.land irq 7 < 8.
Proof.
  intros Hi. change 7 with (Z.ones 3). rewrite Z.land_ones by lia. pose proof (Z.mod_pos_bound irq (2 ^ 3) ltac:(lia)) as Hm.
  split; [|lia]. unfold irq_bit. change 7 with (Z.ones 3). rewrite Z.land_ones, Z.shiftl_1_l by lia.
  apply Z.mod_small. split; [lia|]. apply Z.pow_lt_mono_r; lia.
Qed.

Lemma testbit_u8 z i : 0 <= i -> Z.testbit (u8 z) i = (i <? 8) && Z.testbit z i.
Proof.
  intros Hi. unfold u8. change 256 with (2 ^ 8). destruct (Z.ltb_spec i 8).
  - by rewrite Z.mod_pow2_bits_low by lia.
  - by rewrite Z.mod_pow2_bits_high by lia.
Qed.

Lemma set_bit_u8 m k i : 0 <= k < 8 -> 0 <= i < 8 -> Z.testbit (u8 (Z.lor m (2 ^ k))) i = Z.testbit m i || (i =? k).
Proof.
  intros Hk Hi. rewrite testbit_u8, Z.lor_spec, Z.pow2_bits_eqb by lia. replace (i <? 8) with true by lia. cbn [andb].
  by rewrite Z.eqb_sym.
Qed.
Lemma clear_bit_u8 m k i :
  0 <= k < 8 -> 0 <= i < 8 -> Z.testbit (u8 (Z.land m (u8 (Z.lnot (2 ^ k))))) i = Z.testbit m i && negb (i =? k).
Proof.
  intros Hk Hi. rewrite testbit_u8, Z.land_spec, testbit_u8, Z.lnot_spec, Z.pow2_bits_eqb by lia.
  replace (i <? 8) with true by lia. cbn [andb]. by rewrite (Z.eqb_sym k).
Qed.

(** The data port of an initialised controller is its mask. *)
Lemma data_port h irq v :
  pic_ok (pic1 h) -> pic_ok (pic2 h) ->
  hal_outb (irq_port irq) v h =
  if irq <? 8 then with_pics (with_imr v (pic1 h)) (pic2 h) h else with_pics (pic1 h) (with_imr v (pic2 h)) h.
Proof.
  intros [H1 _] [H2 _]. unfold irq_port. case_if; unfold hal_outb, pic_data; cbn; by rewrite ?H1, ?H2.
Qed.
Lemma data_port_in h irq : hal_inb (irq_port irq) h = if irq <? 8 then imr (pic1 h) else imr (pic2 h).
Proof. unfold irq_port. by case_if. Qed.

(** The sixteen lines are masked independently. *)
Lemma mask_irq_exact h irq j :
  pic_ok (pic1 h) -> pic_ok (pic2 h) -> 0 <= irq < 16 -> 0 <= j < 16 ->
  irq_masked j (hal_mask_irq irq h) = irq_masked j h || (j =? irq) /\
  irq_masked j (hal_unmask_irq irq h) = irq_masked j h && negb (j =? irq).
Proof.
  intros H1 H2 Hi Hj. unfold hal_mask_irq, hal_unmask_irq. replace (16 <=? irq) with false by lia.
  rewrite !data_port, data_port_in by done. destruct (irq_bit_pow irq Hi) as [Hb Hk]. rewrite Hb.
  destruct (irq_bit_pow j Hj) as [_ Hkj]. unfold irq_masked.
  assert ((irq <? 8) = (j <? 8) -> (Z.land j 7 =? Z.land irq 7) = (j =? irq)) as Hsame.
  { change 7 with (Z.ones 3). rewrite !Z.land_ones by lia. change (2 ^ 3) with 8. intros Hs. apply eq_true_iff_eq.
    rewrite !Z.eqb_eq. destruct (Z.ltb_spec irq 8), (Z.ltb_spec j 8); try done; zlia. }
  destruct (Z.ltb_spec irq 8) as [Hlt|Hge], (Z.ltb_spec j 8) as [Hjlt|Hjge]; cbn [pic1 pic2 with_pics imr with_imr].
  - rewrite set_bit_u8, clear_bit_u8, Hsame by done. done.
  - replace (j =? irq) with false by lia. by rewrite orb_false_r, andb_true_r.
  - replace (j =? irq) with false by lia. by rewrite orb_false_r, andb_true_r.
  - rewrite set_bit_u8, clear_bit_u8, Hsame by done. done.
Qed.

(** ** The timer's divisor *)

(** The divisor [hal_set_timer_frequency] programs fits the 16-bit counter for every
    requested frequency, the three port writes carry exactly that divisor, low
    byte first, and from 19 Hz to the input frequency the counter runs at the
    requested rate up to one step of the divisor. *)
Theorem pit_divisor_bounds hz h :
  0 <= hz < 2 ^ 32 ->
  let d := pit_divisor hz in
  1 <= d <= 0xFFFF /\
  (exists lo hi, pit_writes (hal_set_timer_frequency hz h) =
     pit_writes h ++ [(PIT_COMMAND, 0x36); (PIT_CHANNEL0, lo); (PIT_CHANNEL0, hi)] /\
     0 <= lo < 256 /\ 0 <= hi < 256 /\ lo + 256 * hi = d) /\
  (19 <= hz <= PIT_FREQ -> d * hz <= PIT_FREQ < (d + 1) * hz).
Proof.
  intros Hz d. assert (1 <= d <= 0xFFFF) as Hd by (unfold d, pit_divisor; repeat case_if; bool_to_prop; lia).
  split; [done|]. split.
  - do 2 eexists. split; [unfold hal_set_timer_frequency; fold d; cbn; by rewrite <- !app_assoc|].
    change 0xFF with (Z.ones 8). rewrite !Z.land_ones, !Z.shiftr_div_pow2 by lia. change (2 ^ 8) with 256.
    split; [apply u8_range|]. split; [apply u8_range|]. rewrite !u8_small by zlia. zlia.
  - intros Hr. unfold d, pit_divisor, PIT_FREQ in *. replace (hz =? 0) with false by lia. replace (1193182 <? hz) with false by lia.
    assert (hz * (1193182 / hz) <= 1193182 < hz * (1193182 / hz) + hz) as Hq.
    { pose proof (Z.div_mod 1193182 hz ltac:(lia)) as He. pose proof (Z.mod_pos_bound 1193182 hz ltac:(lia)). lia. }
    assert (1 <= 1193182 / hz <= 62799) as Hb by nia.
    replace (1193182 / hz =? 0) with false by lia. replace (0xFFFF <? 1193182 / hz) with false by lia. nia.
Qed.

Lemma pit_divisor_bounds_witness : pit_divisor 100 = 11931 /\ 11931 * 100 <= PIT_FREQ < 11932 * 100.
Proof.
  split; [reflexivity|]. destruct (pit_divisor_bounds 100 (mk_hal (mk_pic 0 0 0 0 0 false) (mk_pic 0 0 0 0 0 false) [] [] false 0 0 0 0 [] false false))
    as (_ & _ & H); [lia|]. apply H. unfold PIT_FREQ. lia.
Defined.

(** ** Interrupt requests *)

Section Interrupts.
Context {A : Type} `{!Allocator A}.
Context (_kernel_end : Z) (busy : list Z -> nat) (path_fuel : nat).
Context (call_at : Z -> Z -> machine A -> machine A).
Notation isr := (isr_handler _kernel_end busy path_fuel call_at).

(** What the controllers hold after the end of the interrupt: a line of the
    second controller is acknowledged at both, a spurious interrupt 7 at none,
    a spurious interrupt 15 at the first only. *)
Definition acknowledged (irq : Z) (s1 s2 : Z) : Z * Z :=
  if irq =? 7 then if Z.testbit s1 7 then (s1 - lowest_bit s1, s2) else (s1, s2)
  else if irq =? 15 then (s1 - lowest_bit s1, if Z.testbit s2 7 then s2 - lowest_bit s2 else s2)
  else if irq <? 8 then (s1 - lowest_bit s1, s2) else (s1 - lowest_bit s1, s2 - lowest_bit s2).

Definition services (h : hal) : Z * Z := (in_service (pic1 h), in_service (pic2 h)).

(** The register is read through the command ports. *)
Lemma get_isr_reads h :
  0 <= in_service (pic1 h) < 256 ->
  let '(v, h') := pic_get_isr h in
  Z.testbit v 7 = Z.testbit (in_service (pic1 h)) 7 /\ Z.testbit v 15 = Z.testbit (in_service (pic2 h)) 7 /\
  services h' = services h /\ imr (pic1 h') = imr (pic1 h) /\ imr (pic2 h') = imr (pic2 h) /\
  hal_pit_ticks h' = hal_pit_ticks h /\ hal_isr_table h' = hal_isr_table h /\
  vector_offset (pic1 h') = vector_offset (pic1 h) /\ next_icw (pic1 h') = next_icw (pic1 h).
Proof.
  intros H1. assert (pic_get_isr h = (Z.lor (in_service (pic1 h)) (Z.shiftl (in_service (pic2 h)) 8),
    let shown p := mk_pic (imr p) (in_service p) (irr p) (next_icw p) (vector_offset p) true in
    with_pics (shown (pic1 h)) (shown (pic2 h)) h)) as -> by reflexivity.
  rewrite !Z.lor_spec, !Z.shiftl_spec by lia. change (7 - 8) with (-1). change (15 - 8) with 7.
  rewrite (Z.testbit_neg_r _ (-1)), orb_false_r by lia. repeat split.
  rewrite <- (Z.mod_small (in_service (pic1 h)) (2 ^ 8)) at 1 by lia. by rewrite Z.mod_pow2_bits_high by lia.
Qed.

Lemma send_eoi irq h :
  let h' := pic_send_eoi irq h in
  services h' = (in_service (pic1 h) - lowest_bit (in_service (pic1 h)),
                 if 8 <=? irq then in_service (pic2 h) - lowest_bit (in_service (pic2 h)) else in_service (pic2 h)) /\
  imr (pic1 h') = imr (pic1 h) /\ imr (pic2 h') = imr (pic2 h) /\
  hal_pit_ticks h' = hal_pit_ticks h /\ hal_isr_table h' = hal_isr_table h /\
  vector_offset (pic1 h') = vector_offset (pic1 h) /\ next_icw (pic1 h') = next_icw (pic1 h).
Proof. unfold pic_send_eoi, services. by case_if. Qed.

(** What the end of an interrupt leaves alone. *)
Definition same_irq_setup (h h' : hal) : Prop :=
  imr (pic1 h') = imr (pic1 h) /\ imr (pic2 h') = imr (pic2 h) /\
  hal_pit_ticks h' = hal_pit_ticks h /\ hal_isr_table h' = hal_isr_table h /\
  vector_offset (pic1 h') = vector_offset (pic1 h) /\ next_icw (pic1 h') = next_icw (pic1 h).

Lemma end_irq_acknowledges irq (m : machine A) :
  0 <= irq < 16 -> 0 <= in_service (pic1 (hw m)) < 256 ->
  let m' := end_irq busy irq m in
  services (hw m') = acknowledged irq (in_service (pic1 (hw m))) (in_service (pic2 (hw m))) /\
  same_irq_setup (hw m) (hw m') /\ (irq <> 7 -> irq <> 15 -> mk m' = mk m) /\ k_ipc (mk m') = k_ipc (mk m).
Proof.
  intros Hi Hs m'. unfold m', end_irq, acknowledged, same_irq_setup. pose proof (get_isr_reads (hw m) Hs) as Hg.
  destruct (pic_get_isr (hw m)) as [v h]. destruct Hg as (H7 & H15 & Hsv & H1 & H2 & H3 & H4 & H5 & H6).
  unfold services in Hsv. injection Hsv as Hs1 Hs2.
  destruct (Z.eqb_spec irq 7) as [->|Hn7].
  { rewrite H7. destruct (Z.testbit (in_service (pic1 (hw m))) 7); cbn [negb].
    - destruct (send_eoi 7 h) as (E1 & E2 & E3 & E4 & E5 & E6 & E7). cbn [hw on_hw with_hw mk].
      rewrite E1, E2, E3, E4, E5, E6, E7. cbn [Z.leb Z.compare Pos.compare Pos.compare_cont]. by rewrite Hs1, Hs2.
    - unfold services. cbn. by rewrite Hs1, Hs2. }
  destruct (Z.eqb_spec irq 15) as [->|Hn15].
  { rewrite H15. destruct (Z.testbit (in_service (pic2 (hw m))) 7); cbn [negb].
    - destruct (send_eoi 15 h) as (E1 & E2 & E3 & E4 & E5 & E6 & E7). cbn [hw on_hw with_hw mk].
      rewrite E1, E2, E3, E4, E5, E6, E7. cbn [Z.leb Z.compare Pos.compare Pos.compare_cont]. by rewrite Hs1, Hs2.
    - unfold services. cbn. by rewrite Hs1, Hs2. }
  destruct (send_eoi irq (hw m)) as (E1 & E2 & E3 & E4 & E5 & E6 & E7). cbn [hw on_hw with_hw mk].
  rewrite E1, E2, E3, E4, E5, E6, E7. replace (irq <? 8) with (negb (8 <=? irq)) by (destruct (Z.leb_spec 8 irq), (Z.ltb_spec irq 8); lia || done).
  by case_if.
Qed.

(** The state an interrupt handler runs in: the scheduler is sound and the
    table has only the timer's handler. *)
Definition irq_ready (m : machine A) : Prop :=
  (exists l, sched_inv (tasks (k_ipc (mk m))) l) /\ length (hal_isr_table (hw m)) = 256%nat /\
  forall v a, hal_isr_table (hw m) !! v <> Some (Some (isr_at a)).

Lemma dispatch_ready v (m : machine A) :
  irq_ready m -> 0 <= v < 256 ->
  exists m1, (if hal_has_isr v (hw m) then hal_dispatch_isr call_at v m else Some m) = Some m1 /\ irq_ready m1 /\
    services (hw m1) = services (hw m) /\ pic1 (hw m1) = pic1 (hw m) /\ pic2 (hw m1) = pic2 (hw m) /\
    hal_isr_table (hw m1) = hal_isr_table (hw m) /\
    hal_pit_ticks (hw m1) = (if decide (hal_isr_table (hw m) !! Z.to_nat v = Some (Some pit_isr))
                             then u64 (hal_pit_ticks (hw m) + 1) else hal_pit_ticks (hw m)) /\
    k_vfs (mk m1) = k_vfs (mk m) /\ k_con (mk m1) = k_con (mk m) /\ k_keys (mk m1) = k_keys (mk m) /\ k_kbd (mk m1) = k_kbd (mk m).
Proof.
  intros Hr Hv. pose proof Hr as ((l & Hl) & Hlen & Hat). unfold hal_has_isr, hal_dispatch_isr.
  replace (256 <=? v) with false by lia. replace (v <? 256) with true by lia.
  destruct (lookup_lt_is_Some_2 (hal_isr_table (hw m)) (Z.to_nat v) ltac:(lia)) as [o Ho].
  rewrite (list_lookup_total_correct _ _ _ Ho), Ho. destruct o as [[|a]|]; [|by apply Hat in Ho|].
  - rewrite bool_decide_true, decide_True by done. unfold pit_irq_handler. cbn [mk on_hw with_hw].
    destruct (tick_inv _ _ Hl) as (s' & l' & -> & Hl' & _). cbn [mbind option_bind].
    eexists. split; [reflexivity|]. split; [|done]. split; [by exists l'|done].
  - rewrite bool_decide_false, decide_False by (done || tauto). exists m. done.
Qed.

(** C14. Every interrupt request is acknowledged: whatever line 0 to 15 raised it and
    whether a handler is registered or not, [isr_handler] returns, the
    controllers' in-service registers lose exactly the served request (at both
    controllers for a line of the second one), a spurious interrupt is
    recognised and acknowledged as the hardware asks for, and the masks, the vectors
    and the interrupt table stay as they were. *)
Theorem isr_acknowledges_irq (m : machine A) f irq :
  irq_ready m -> 0 <= irq < 16 -> int_no f = 0x20 + irq -> 0 <= in_service (pic1 (hw m)) < 256 ->
  exists m', isr f m = (Run m', f) /\ irq_ready m' /\
    services (hw m') = acknowledged irq (in_service (pic1 (hw m))) (in_service (pic2 (hw m))) /\
    imr (pic1 (hw m')) = imr (pic1 (hw m)) /\ imr (pic2 (hw m')) = imr (pic2 (hw m)) /\
    vector_offset (pic1 (hw m')) = vector_offset (pic1 (hw m)) /\ hal_isr_table (hw m') = hal_isr_table (hw m).
Proof.
  intros Hr Hi Hn Hs. unfold isr_handler. rewrite Hn. replace (0x20 + irq =? 0x80) with false by lia.
  replace (0x20 + irq <? 32) with false by lia. replace (0x20 + irq <? 0x30) with true by lia.
  destruct (dispatch_ready (0x20 + irq) m Hr ltac:(lia)) as (m1 & -> & Hr1 & _ & Hp1 & Hp2 & Ht & _).
  cbn [mbind option_bind run]. replace (0x20 + irq - 0x20) with irq by lia.
  destruct (end_irq_acknowledges irq m1) as (Ha & (E1 & E2 & _ & E4 & E5 & _) & _ & Hk); [done|by rewrite Hp1|].
  rewrite Hp1, Hp2 in *. eexists. split; [reflexivity|]. split; [|by rewrite E4, Ht].
  destruct Hr1 as (Hl & Hlen & Hat). split; [by rewrite Hk|]. rewrite E4. done.
Qed.

(** ** Sleeping *)

(** Timer interrupts arrive and are handled. *)
Record timer_ready (m : machine A) : Prop := {
  tr_irq : irq_ready m;
  tr_iflag : iflag_of m = true;
  tr_imr : Z.testbit (imr (pic1 (hw m))) 0 = false;
  tr_service : in_service (pic1 (hw m)) = 0;
  tr_vector : vector_offset (pic1 (hw m)) = 0x20;
  tr_handler : hal_isr_table (hw m) !! 32%nat = Some (Some pit_isr)
}.

(** The files, the screen and the keyboard. *)
Definition same_world (k k' : kernel A) : Prop :=
  k_vfs k' = k_vfs k /\ k_con k' = k_con k /\ k_keys k' = k_keys k /\ k_kbd k' = k_kbd k.

Lemma halt_ticks (m : machine A) :
  timer_ready m ->
  exists m', halt_for_timer _kernel_end busy path_fuel call_at m = Some m' /\ timer_ready m' /\
    hal_pit_ticks (hw m') = u64 (hal_pit_ticks (hw m) + 1) /\ same_world (mk m) (mk m').
Proof.
  intros [((l & Hl) & Hlen & Hat) Hif Himr Hsv Hvec Hpit]. unfold halt_for_timer. rewrite Hif, Himr, Hsv. cbn [negb andb Z.eqb].
  set (m1 := on_sched hal_cli _). assert (irq_ready m1) as Hr1.
  { split; [exists l; by apply iflag_inv|done]. }
  assert (vector_offset (pic1 (hw m1)) = 0x20) as Hv1 by done. change (vector_offset (pic1 (hw (on_hw _ m)))) with (vector_offset (pic1 (hw m))).
  rewrite Hvec. unfold isr_handler. cbn [int_no irq_frame]. change (0x20 =? 0x80) with false. change (0x20 <? 32) with false.
  change (0x20 <? 0x30) with true. cbn iota.
  destruct (dispatch_ready 0x20 m1 Hr1 ltac:(lia)) as (m2 & -> & Hr2 & _ & Hp1 & Hp2 & Ht & Htick & Hw).
  cbn [mbind option_bind run fst]. change (0x20 - 0x20) with 0.
  destruct (end_irq_acknowledges 0 m2) as (Ha & (E1 & E2 & E3 & E4 & E5 & _) & Hmk & Hk); [lia|rewrite Hp1; cbn; lia|].
  specialize (Hmk ltac:(lia) ltac:(lia)). eexists. split; [reflexivity|]. rewrite decide_True in Htick by done.
  destruct Hr2 as ((l2 & Hl2) & Hlen2 & Hat2).
  assert (in_service (pic1 (hw (end_irq busy 0 m2))) = 0) as Hz.
  { apply (f_equal fst) in Ha. cbn [fst services] in Ha. rewrite Ha, Hp1. reflexivity. }
  split; [constructor|split].
  - split; [exists l2; unfold on_sched; rewrite Hmk; by apply iflag_inv|]. cbn [hw on_sched with_k]. by rewrite E4.
  - done.
  - cbn [hw on_sched with_k]. by rewrite E1, Hp1.
  - done.
  - cbn [hw on_sched with_k]. by rewrite E5, Hp1.
  - cbn [hw on_sched with_k]. by rewrite E4, Ht.
  - cbn [hw on_sched with_k]. by rewrite E3, Htick.
  - unfold same_world. cbn [mk on_sched with_k]. rewrite Hmk. exact Hw.
Qed.

Lemma sleep_loop_waits n (m : machine A) target :
  timer_ready m -> target = hal_pit_ticks (hw m) + Z.of_nat n -> 0 <= hal_pit_ticks (hw m) -> target < 2 ^ 64 ->
  exists m', sleep_loop _kernel_end busy path_fuel call_at n target m = Some m' /\ timer_ready m' /\
    hal_pit_ticks (hw m') = target /\ same_world (mk m) (mk m').
Proof.
  revert m. induction n as [|n IH]; intros m Hr -> H0 Hlt; cbn [sleep_loop].
  - replace (_ <? _) with false by lia. exists m. split; [done|]. split; [done|]. split; [lia|done].
  - replace (_ <? _) with true by lia. destruct (halt_ticks m Hr) as (m1 & -> & Hr1 & Ht & Hw). cbn [mbind option_bind].
    unfold u64 in Ht. rewrite Z.mod_small in Ht by lia.
    destruct (IH m1 Hr1) as (m' & -> & Hr' & Ht' & Hw'); [lia..|]. exists m'. split; [done|]. split; [done|]. split; [lia|].
    destruct Hw as (W1 & W2 & W3 & W4), Hw' as (V1 & V2 & V3 & V4). unfold same_world. by rewrite V1, V2, V3, V4.
Qed.

(** C15. [pit_sleep] returns when the timer interrupt is set up: after exactly one tick per
    started ten milliseconds, each of them a timer interrupt handled and
    acknowledged, with the scheduler's invariant kept, and the files, the screen
    and the keyboard untouched. *)
Theorem pit_sleep_waits (m : machine A) ms :
  timer_ready m -> 0 <= ms < 2 ^ 32 - 9 -> 0 <= hal_pit_ticks (hw m) < 2 ^ 63 ->
  exists m', pit_sleep _kernel_end busy path_fuel call_at ms m = Some m' /\ timer_ready m' /\
    hal_pit_ticks (hw m') = hal_pit_ticks (hw m) + (ms + 9) / 10 /\ same_world (mk m) (mk m').
Proof.
  intros Hr Hms Ht. unfold pit_sleep. destruct (Z.eqb_spec ms 0) as [->|Hne].
  { exists m. split; [done|]. split; [done|]. split; [change ((0 + 9) / 10) with 0; lia|done]. }
  rewrite u32_small by lia. assert (1 <= (ms + 9) / 10 <= ms) as Hq by zlia. replace ((ms + 9) / 10 =? 0) with false by lia.
  unfold hal_sleep_ticks. replace ((ms + 9) / 10 =? 0) with false by lia. unfold u64. rewrite Z.mod_small by lia.
  apply sleep_loop_waits; [done|lia..].
Qed.
End Interrupts.

(** ** The boot sequence sets the timer interrupt up *)

Section Boot.
Context {A : Type} `{!Allocator A}.
Context (busy : list Z -> nat) (has_cpuid : bool) (cpuid : Z -> Z * Z * Z * Z).

(** hal_init, the registration of the handler and the unmasking of
    [kernel_main], on a machine whose scheduler runs. *)
Definition hal_boot (m : machine A) : machine A :=
  on_hw (hal_enable_irq 0) (hal_register_isr 0x20 (Some pit_isr) (hal_init busy has_cpuid cpuid m)).

Lemma detect_keeps h :
  let h' := hal_detect_cpu has_cpuid cpuid h in
  pic1 h' = pic1 h /\ pic2 h' = pic2 h /\ hal_isr_table h' = hal_isr_table h /\
  hal_isr_table_initialized h' = hal_isr_table_initialized h /\ hal_pit_ticks h' = hal_pit_ticks h.
Proof.
  unfold hal_detect_cpu. destruct (hal_cpu_detected h), (negb has_cpuid); try done.
  destruct (cpuid 0) as [[[??]?]?], (cpuid 1) as [[[??]?]?]. by case_if.
Qed.

Lemma hal_init_hw (m : machine A) :
  hal_initialized (hw m) = false ->
  hw (hal_init busy has_cpuid cpuid m) =
  with_hal_init (hal_outb PIC2_DATA 0xFF (hal_outb PIC1_DATA 0xFF
    (hal_pic_remap 0x20 0x28 (hal_detect_cpu has_cpuid cpuid (with_table (replicate 256 None) true (hw m)))))).
Proof. intros Hi. unfold hal_init. by rewrite Hi. Qed.

Lemma hal_init_sched (m : machine A) l :
  sched_inv (tasks (k_ipc (mk m))) l -> sched_inv (tasks (k_ipc (mk (hal_init busy has_cpuid cpuid m)))) l.
Proof. intros Hl. unfold hal_init. case_if; [done|]. by apply iflag_inv, iflag_inv. Qed.

Lemma masked_all h :
  let h' := hal_outb PIC2_DATA 0xFF (hal_outb PIC1_DATA 0xFF (hal_pic_remap 0x20 0x28 h)) in
  hal_isr_table h' = hal_isr_table h /\ hal_isr_table_initialized h' = hal_isr_table_initialized h /\
  in_service (pic1 h') = in_service (pic1 h) /\ vector_offset (pic1 h') = 0x20 /\ imr (pic1 h') = 0xFF /\
  next_icw (pic1 h') = 0 /\ hal_pit_ticks h' = hal_pit_ticks h /\ imr (pic2 h') = 0xFF.
Proof. done. Qed.

Lemma register_hw v x (m : machine A) :
  0 <= v < 256 -> hal_isr_table_initialized (hw m) = true ->
  hw (hal_register_isr v x m) = with_table (<[Z.to_nat v := x]> (hal_isr_table (hw m))) true (hw m) /\
  iflag_of (hal_register_isr v x m) = true.
Proof.
  intros Hv Hi. unfold hal_register_isr. replace (256 <=? v) with false by lia. unfold iflag_of, on_sched, on_hw.
  cbn [hw with_k with_hw mk]. rewrite Hi. by rewrite Hi.
Qed.

Lemma register_sched v x (m : machine A) l :
  sched_inv (tasks (k_ipc (mk m))) l -> sched_inv (tasks (k_ipc (mk (hal_register_isr v x m)))) l.
Proof. intros Hl. unfold hal_register_isr. case_if; [done|]. by apply iflag_inv, iflag_inv. Qed.

Lemma enable_timer h :
  next_icw (pic1 h) = 0 -> imr (pic1 h) = 0xFF ->
  hal_enable_irq 0 h = with_pics (with_imr 0xFE (pic1 h)) (pic2 h) h.
Proof.
  intros H1 H2. unfold hal_enable_irq, hal_unmask_irq. change (16 <=? 0) with false. cbn iota.
  change (irq_port 0) with PIC1_DATA. change (hal_inb PIC1_DATA h) with (imr (pic1 h)). rewrite H2.
  change (u8 (Z.land 0xFF (u8 (Z.lnot (irq_bit 0))))) with 0xFE. unfold hal_outb, pic_data. by rewrite H1.
Qed.

Lemma in_table : (32 < length (replicate 256 (@None isr_handler_t)))%nat.
Proof. rewrite length_replicate. lia. Qed.
Lemma vector_32 : 0 <= 0x20 < 256.
Proof. lia. Qed.

Lemma unmasked_ready (m : machine A) h l :
  sched_inv (tasks (k_ipc (mk m))) l -> iflag_of m = true ->
  hw m = with_table (<[32%nat := Some pit_isr]> (replicate 256 None)) true (with_hal_init h) ->
  in_service (pic1 h) = 0 -> vector_offset (pic1 h) = 0x20 -> imr (pic1 h) = 0xFF -> next_icw (pic1 h) = 0 ->
  timer_ready (on_hw (hal_enable_irq 0) m) /\ hal_pit_ticks (hw (on_hw (hal_enable_irq 0) m)) = hal_pit_ticks h.
Proof.
  intros Hl Hf Hw H1 H2 H3 H4.
  assert (hal_enable_irq 0 (hw m) = with_pics (with_imr 0xFE (pic1 (hw m))) (pic2 (hw m)) (hw m)) as Hen
    by (apply enable_timer; by rewrite Hw).
  destruct m as [k h0]. cbn [mk hw] in *. subst h0. unfold on_hw. cbn [hw]. rewrite Hen.
  split; [constructor|]; cbn [hw mk with_hw with_pics with_table with_hal_init hal_isr_table pic1 pic2 imr with_imr hal_pit_ticks]; try done.
  - split; [by exists l|]. cbn [hw with_hw with_pics hal_isr_table with_table].
    split; [by rewrite length_insert, length_replicate|]. intros v a Hv.
    destruct (decide (v = 32%nat)) as [->|Hne].
    + rewrite list_lookup_insert_eq in Hv by exact in_table. done.
    + rewrite list_lookup_insert_ne in Hv by done. apply lookup_replicate in Hv as [Hv _]. done.
Qed.

(** [hal_init] leaves all lines masked, the vectors at 0x20 and no handler. *)
Lemma hal_init_masked (m : machine A) :
  hal_initialized (hw m) = false -> in_service (pic1 (hw m)) = 0 ->
  exists h, hw (hal_init busy has_cpuid cpuid m) = with_hal_init h /\ hal_isr_table h = replicate 256 None /\
    hal_isr_table_initialized h = true /\ in_service (pic1 h) = 0 /\ vector_offset (pic1 h) = 0x20 /\ imr (pic1 h) = 0xFF /\
    next_icw (pic1 h) = 0 /\ hal_pit_ticks h = hal_pit_ticks (hw m) /\ imr (pic2 h) = 0xFF.
Proof.
  intros Hi Hs. rewrite (hal_init_hw m Hi). pose proof (detect_keeps (with_table (replicate 256 None) true (hw m))) as D.
  revert D. generalize (hal_detect_cpu has_cpuid cpuid (with_table (replicate 256 None) true (hw m))). intros d (D1 & _ & D3 & D4 & D5).
  pose proof (masked_all d) as T. revert T.
  generalize (hal_outb PIC2_DATA 0xFF (hal_outb PIC1_DATA 0xFF (hal_pic_remap 0x20 0x28 d))). intros h1 (T1 & T2 & T3 & T4 & T5 & T6 & T7 & T8).
  exists h1. rewrite T1, T2, T3, T7, D1, D3, D4, D5. done.
Qed.

(** Registering the handler and unmasking the line makes the timer ready. *)
Lemma registered_ready (m : machine A) h l :
  sched_inv (tasks (k_ipc (mk m))) l -> hw m = with_hal_init h -> hal_isr_table h = replicate 256 None ->
  hal_isr_table_initialized h = true -> in_service (pic1 h) = 0 -> vector_offset (pic1 h) = 0x20 -> imr (pic1 h) = 0xFF -> next_icw (pic1 h) = 0 ->
  let m' := on_hw (hal_enable_irq 0) (hal_register_isr 0x20 (Some pit_isr) m) in
  timer_ready m' /\ hal_pit_ticks (hw m') = hal_pit_ticks h.
Proof.
  intros Hl Hw T1 T2 T3 T4 T5 T6. destruct (register_hw 0x20 (Some pit_isr) m vector_32) as [Hw2 Hf]; [by rewrite Hw|].
  apply (unmasked_ready _ h l); try done; [by apply register_sched|]. rewrite Hw2, Hw. cbn [hal_isr_table with_hal_init]. by rewrite T1.
Qed.

Lemma boot_timer_ready (m : machine A) l :
  sched_inv (tasks (k_ipc (mk m))) l -> hal_initialized (hw m) = false -> in_service (pic1 (hw m)) = 0 ->
  timer_ready (hal_boot m) /\ hal_pit_ticks (hw (hal_boot m)) = hal_pit_ticks (hw m).
Proof.
  intros Hl Hi Hs. unfold hal_boot. destruct (hal_init_masked m Hi Hs) as (h & Hw & T1 & T2 & T3 & T4 & T5 & T6 & <- & _).
  apply (registered_ready _ h l); try done. by apply hal_init_sched.
Qed.
End Boot.

(** ** A concrete machine *)
#[local] Existing Instance demo_allocator.

Definition hal_reset : hal :=
  mk_hal (mk_pic 0 0 0 0 0 false) (mk_pic 0 0 0 0 0 false) [] (replicate 256 None) false 0 0 0 0 [] false false.
Definition m_demo : machine heap :=
  hal_boot (fun _ : list Z => 0%nat) true (fun _ : Z => (1, 0x756E6547, 0x6C65746E, 0x49656E69)) (mk_machine k_demo hal_reset).

Lemma m_demo_ready : timer_ready m_demo /\ hal_pit_ticks (hw m_demo) = 0.
Proof.
  destruct (boot_timer_ready (fun _ : list Z => 0%nat) true (fun _ : Z => (1, 0x756E6547, 0x6C65746E, 0x49656E69))
    (mk_machine k_demo hal_reset) [] s_run_inv eq_refl eq_refl) as [H1 H2]. exact (conj H1 H2).
Qed.

(** Sleeping 25 milliseconds takes three ticks. *)
Lemma pit_sleep_waits_witness :
  exists m', pit_sleep 0x180123 (fun _ : list Z => 0%nat) 64 (fun _ _ m => m) 25 m_demo = Some m' /\ hal_pit_ticks (hw m') = 3.
Proof.
  destruct m_demo_ready as [Hr Ht].
  destruct (pit_sleep_waits 0x180123 (fun _ : list Z => 0%nat) 64 (fun _ _ m => m) m_demo 25 Hr ltac:(lia) ltac:(rewrite Ht; lia))
    as (m' & H1 & _ & H2 & _).
  exists m'. split; [exact H1|]. rewrite H2, Ht. reflexivity.
Defined.

(** Line 15 in service, with the cascade line of the first controller. *)
Definition irq15 (m : machine heap) : machine heap :=
  on_hw (fun h => with_pics (with_in_service 4 (pic1 h)) (with_in_service 128 (pic2 h)) h) m.
Lemma irq15_ready (m : machine heap) :
  irq_ready m -> irq_ready (irq15 m) /\ in_service (pic1 (hw (irq15 m))) = 4 /\ in_service (pic2 (hw (irq15 m))) = 128.
Proof. done. Qed.

Lemma isr_acknowledges_irq_witness :
  exists m', isr_handler 0x180123 (fun _ : list Z => 0%nat) 64 (fun _ _ m => m) (irq_frame 0x2F) (irq15 m_demo) = (Run m', irq_frame 0x2F) /\
    services (hw m') = (0, 0).
Proof.
  destruct m_demo_ready as [Hr _]. destruct (irq15_ready _ (tr_irq _ Hr)) as (Hirq & H1 & H2).
  destruct (isr_acknowledges_irq 0x180123 (fun _ : list Z => 0%nat) 64 (fun _ _ m => m) (irq15 m_demo) (irq_frame 0x2F) 15 Hirq
    ltac:(lia) eq_refl ltac:(rewrite H1; lia)) as (m' & E1 & _ & E2 & _).
  exists m'. split; [exact E1|]. rewrite E2, H1, H2. reflexivity.
Defined.
