(* ===== verification/Ata.v ===== *)
(** * The disk behind the primary ATA channel

    The drive install.c talks to is not part of the source.  It is modelled by
    its programming interface, port by port (ATA/ATAPI-6, PIO data-in, PIO
    data-out and IDENTIFY DEVICE): task file registers, a command that makes the
    drive busy, then a transfer of 256 words through the data port.  How long the
    drive stays busy after its n-th command, counted in reads of the status
    register, is the function [delay].  A command transfers as many sectors as the
    sector count register says (0 for 256); it ends with the error bit and no
    transfer when one of them does not exist, or when the LBA bit of the drive
    register is clear, since the geometry behind cylinders, heads and sectors is not
    modelled.  There is no drive 1: while its bit is set nothing answers. *)
From S2P Require Import Prelude.

Definition ATA_PRIMARY_DATA : Z := 0x1F0.
Definition ATA_PRIMARY_SECCOUNT : Z := 0x1F2.
Definition ATA_PRIMARY_LBA_LOW : Z := 0x1F3.
Definition ATA_PRIMARY_LBA_MID : Z := 0x1F4.
Definition ATA_PRIMARY_LBA_HIGH : Z := 0x1F5.
Definition ATA_PRIMARY_DRIVE : Z := 0x1F6.
Definition ATA_PRIMARY_STATUS : Z := 0x1F7.
Definition ATA_PRIMARY_COMMAND : Z := 0x1F7.
Definition ATA_CMD_READ_SECTORS : Z := 0x20.
Definition ATA_CMD_WRITE_SECTORS : Z := 0x30.
Definition ATA_CMD_IDENTIFY : Z := 0xEC.
Definition ATA_STATUS_BSY : Z := 0x80.
Definition ATA_STATUS_DRQ : Z := 0x08.
Definition ATA_STATUS_ERR : Z := 0x01.

(** A transfer: nothing, words to be read, words written so far for a sector with the
    number of sectors after it, or a command that failed. *)
Inductive transfer := idle_drive | to_read (words : list Z) | to_write (lba : Z) (more : nat) (words : list Z) | failed.

Record ata := mk_ata {
  present : bool; disk : Z -> list Z; disk_sectors : Z; identity : list Z;
  lba_low : Z; lba_mid : Z; lba_high : Z; drive : Z; seccount : Z; busy_polls : nat; xfer : transfer; commands : nat
}.

Definition set_lba (lo mi hi dr : Z) (d : ata) : ata :=
  mk_ata (present d) (disk d) (disk_sectors d) (identity d) lo mi hi dr (seccount d) (busy_polls d) (xfer d) (commands d).
Definition set_count (n : Z) (d : ata) : ata :=
  mk_ata (present d) (disk d) (disk_sectors d) (identity d) (lba_low d) (lba_mid d) (lba_high d) (drive d) n (busy_polls d) (xfer d) (commands d).
Definition set_xfer (b : nat) (x : transfer) (d : ata) : ata :=
  mk_ata (present d) (disk d) (disk_sectors d) (identity d) (lba_low d) (lba_mid d) (lba_high d) (drive d) (seccount d) b x (commands d).
Definition set_disk (f : Z -> list Z) (d : ata) : ata :=
  mk_ata (present d) f (disk_sectors d) (identity d) (lba_low d) (lba_mid d) (lba_high d) (drive d) (seccount d) (busy_polls d) (xfer d) (commands d).
Definition count_command (d : ata) : ata :=
  mk_ata (present d) (disk d) (disk_sectors d) (identity d) (lba_low d) (lba_mid d) (lba_high d) (drive d) (seccount d) (busy_polls d) (xfer d) (S (commands d)).

(** The 28-bit address of the task file. *)
Definition lba_of (d : ata) : Z := lba_low d + lba_mid d * 2 ^ 8 + lba_high d * 2 ^ 16 + Z.land (drive d) 0x0F * 2 ^ 24.

(** Drive 0 is selected by bit 4 of the drive register; bit 6 means an LBA address. *)
Definition answers (d : ata) : bool := present d && negb (Z.testbit (drive d) 4).
Definition uses_lba (d : ata) : bool := Z.testbit (drive d) 6.
Definition sectors_asked (d : ata) : nat := if seccount d =? 0 then 256%nat else Z.to_nat (seccount d).
Fixpoint sectors_from (n : nat) (lba : Z) (f : Z -> list Z) : list Z :=
  match n with O => [] | S n' => f lba ++ sectors_from n' (lba + 1) f end.

Section Drive.
Context (delay : nat -> nat).

Definition start (x : transfer) (d : ata) : ata := set_xfer (delay (commands d)) x (count_command d).
Definition command (v : Z) (d : ata) : ata :=
  let n := sectors_asked d in
  let ok := uses_lba d && (lba_of d + Z.of_nat n <=? disk_sectors d) in
  if v =? ATA_CMD_READ_SECTORS then start (if ok then to_read (sectors_from n (lba_of d) (disk d)) else failed) d
  else if v =? ATA_CMD_WRITE_SECTORS then start (if ok then to_write (lba_of d) (n - 1) [] else failed) d
  else if v =? ATA_CMD_IDENTIFY then start (to_read (identity d)) d
  else start failed d.

Definition ata_outb (port v : Z) (d : ata) : ata :=
  if negb (present d) then d else
  if port =? ATA_PRIMARY_SECCOUNT then set_count v d
  else if port =? ATA_PRIMARY_LBA_LOW then set_lba v (lba_mid d) (lba_high d) (drive d) d
  else if port =? ATA_PRIMARY_LBA_MID then set_lba (lba_low d) v (lba_high d) (drive d) d
  else if port =? ATA_PRIMARY_LBA_HIGH then set_lba (lba_low d) (lba_mid d) v (drive d) d
  else if port =? ATA_PRIMARY_DRIVE then set_lba (lba_low d) (lba_mid d) (lba_high d) v d
  else if port =? ATA_PRIMARY_COMMAND then (if answers d then command v d else d)
  else d.

(** The status register; without a drive the bus reads 0. *)
Definition ata_inb_status (d : ata) : Z * ata :=
  if negb (answers d) then (0, d) else
  match busy_polls d with
  | S n => (ATA_STATUS_BSY, set_xfer n (xfer d) d)
  | O => (match xfer d with
          | idle_drive => 0x40
          | to_read _ | to_write _ _ _ => Z.lor 0x40 ATA_STATUS_DRQ
          | failed => Z.lor 0x40 ATA_STATUS_ERR
          end, d)
  end.

(** One word of the data port. *)
Definition ata_inw (d : ata) : Z * ata :=
  if negb (answers d) then (0, d) else
  match xfer d with
  | to_read (w :: ws) => (w, set_xfer (busy_polls d) (match ws with [] => idle_drive | _ => to_read ws end) d)
  | _ => (0, d)
  end.
Definition ata_outw (v : Z) (d : ata) : ata :=
  if negb (answers d) then d else
  match xfer d with
  | to_write lba more ws =>
      let ws := ws ++ [v] in
      if (length ws =? 256)%nat
      then set_xfer (delay (commands d)) (match more with O => idle_drive | S m => to_write (lba + 1) m [] end) (set_disk (fun s => if s =? lba then ws else disk d s) (count_command d))
      else set_xfer (busy_polls d) (to_write lba more ws) d
  | _ => d
  end.
End Drive.
