(* ===== verification/World.v ===== *)
(** * What the shell's commands run on

    The commands of shell.c and browser.c take no state argument: they work on the
    file system, the screen, the keyboard, the tasks, the heap, the disk and on the
    static variables of shell.c.  [world] holds all of it, and [M] is the state monad the
    commands are written in.  A command returns ([Ok]), polls the keyboard or waits
    for the timer forever ([Hang]: here the scan codes that were waiting are used
    up) or follows a bad pointer or writes past the end
    of a local array ([Crash]).

    Strings are lists of characters without their NUL; where the code truncates
    into a buffer the model truncates.  [local_buf] is the address of a local
    buffer; two locals are never in use at once. *)
From Stdlib Require Import String.
From S2P Require Import Prelude Mem Alloc Tcb Ipc Vfs Io Serial Syscall Hal Editor Ata.

Definition SHELL_MAX_ARGS : Z := 16.
Definition SHELL_MAX_CMD_LEN : Z := 256.
Definition SHELL_HISTORY_SIZE : Z := 16.
Definition DMESG_SIZE : Z := 2048.

(** The first [history_count] of the 16 history lines are in use. *)
Record shell_state := mk_shell {
  cwd : list Z; prompt : list Z; history : list (list Z); history_index : Z; history_count : Z; exit_code : Z
}.
(** The static variables of the file manager; [fm_entries] has 32 rows. *)
Record fm_state := mk_fm { fm_path : list Z; fm_selected : Z; fm_offset : Z; fm_entries : list (list Z); fm_num_entries : Z }.

Definition is_path (p : list Z) (s : string) : bool := bool_decide (p = str s).

(** [strncpy(d, s, n)] of shell.c: at most n - 1 characters. *)
Definition copy_n (n : Z) (s : list Z) : list Z := take (Z.to_nat (n - 1)) s.

Section World.
Context {A : Type} `{!Allocator A}.

Record world := mk_world { wm : machine A; sh : shell_state; dmesg_buf : list Z; fm : fm_state; tsc : list Z; wdisk : ata }.
Definition with_wm (m : machine A) (w : world) : world := mk_world m (sh w) (dmesg_buf w) (fm w) (tsc w) (wdisk w).
Definition with_sh (s : shell_state) (w : world) : world := mk_world (wm w) s (dmesg_buf w) (fm w) (tsc w) (wdisk w).
Definition with_dmesg (d : list Z) (w : world) : world := mk_world (wm w) (sh w) d (fm w) (tsc w) (wdisk w).
Definition with_fm (f : fm_state) (w : world) : world := mk_world (wm w) (sh w) (dmesg_buf w) f (tsc w) (wdisk w).
Definition with_disk (d : ata) (w : world) : world := mk_world (wm w) (sh w) (dmesg_buf w) (fm w) (tsc w) d.
Definition wk (w : world) : kernel A := mk (wm w).
Definition with_wk (k : kernel A) (w : world) : world := with_wm (with_k k (wm w)) w.

Inductive res (X : Type) := Ok (x : X) (w : world) | Hang (w : world) | Crash.
#[global] Arguments Ok {X}.
#[global] Arguments Hang {X}.
#[global] Arguments Crash {X}.

Definition M (X : Type) : Type := world -> res X.
Definition pure {X} (x : X) : M X := fun w => Ok x w.
Definition bind {X Y} (f : M X) (g : X -> M Y) : M Y :=
  fun w => match f w with Ok x w => g x w | Hang w => Hang w | Crash => Crash end.
Definition seqM {X Y} (f : M X) (g : M Y) : M Y := bind f (fun _ => g).
Definition get {X} (f : world -> X) : M X := fun w => Ok (f w) w.
Definition modify (f : world -> world) : M unit := fun w => Ok tt (f w).

(** ** The screen *)

Definition on_con (f : console -> console) : M unit := modify (fun w => with_wk (with_con (f (k_con (wk w))) (wk w)) w).
Definition say (s : list Z) : M unit := on_con (io_print (map i8 s)).
Definition sayln (s : list Z) : M unit := on_con (io_println (map i8 s)).
Definition put (c : Z) : M unit := on_con (fun con => io_putchar con (i8 c)).
Definition cls : M unit := on_con vga_clear.

(** ** Files: the calls of vfs.c; [None] from the file system is a crash *)

Definition on_vfs {X} (f : vfs -> option (X * vfs)) : M X :=
  fun w => match f (k_vfs (wk w)) with Some (x, s) => Ok x (with_wk (with_vfs s (wk w)) w) | None => Crash end.
Definition v_open (path : list Z) (mode : Z) : M Z := on_vfs (vfs_open path mode).
Definition v_close (fd : Z) : M Z := on_vfs (fun s => Some (vfs_close fd s)).
Definition v_read (fd buf n : Z) : M Z := on_vfs (fun s => Some (vfs_read fd buf n s)).
Definition v_write (fd buf n : Z) : M Z := on_vfs (fun s => Some (vfs_write fd buf n s)).
Definition v_lseek (fd off whence : Z) : M Z := on_vfs (vfs_lseek fd off whence).
Definition v_mkdir (path : list Z) : M Z := on_vfs (vfs_mkdir path).
Definition v_unlink (path : list Z) : M Z := on_vfs (vfs_unlink path).
(** The name when [vfs_readdir] gives 0. *)
Definition v_readdir (fd : Z) : M (option (list Z)) :=
  on_vfs (fun s => let '(r, n, s) := vfs_readdir fd VFS_MAX_NAME s in Some (if r =? 0 then n else None, s)).
(** The structure when [vfs_stat] gives 0. *)
Definition v_stat (path : list Z) : M (option vstat) :=
  on_vfs (fun s => '(r, st, s) ← vfs_stat path s; Some (if r =? 0 then st else None, s)).
Definition is_dir (st : option vstat) : bool := match st with Some st => st_type st =? VFS_TYPE_DIR | None => false end.

(** Bytes in memory. *)
Definition peek_bytes (n buf : Z) : M (list Z) := get (fun w => user_bytes (Z.to_nat n) (kmem (wk w)) buf).
Definition poke_bytes (buf : Z) (bs : list Z) : M unit := modify (fun w => with_wk (with_kmem (put_bytes (kmem (wk w)) buf bs) (wk w)) w).

(** ** The keyboard *)

(** One call of [io_getchar]. *)
Definition getch : M Z := fun w => let '(c, k) := getchar (wk w) in Ok c (with_wk k w).
(** [while (1) { c = io_getchar(); if (c == 0) continue; ... }]: [body] handles a
    character and says with [Some] that the loop is left.  Each turn takes a scan
    code as long as there are any, so the number of waiting scan codes is enough
    fuel; without one the loop polls on. *)
Fixpoint key_loop {X} (fuel : nat) (body : Z -> M (option X)) : M X :=
  match fuel with
  | O => fun w => Hang w
  | S f => bind getch (fun c => if c =? 0 then key_loop f body else
             bind (body c) (fun o => match o with Some x => pure x | None => key_loop f body end))
  end.
Definition on_keys {X} (body : Z -> M (option X)) : M X := fun w => key_loop (length (k_keys (wk w))) body w.

(** ** Loops over a directory *)

(** [while (vfs_readdir(fd, name, ..) == 0) body;]: the index of the descriptor
    grows with each name and a directory has at most as many names as there are
    inodes, so one turn more than inodes is enough. *)
Fixpoint each_entry {X} (n : nat) (fd : Z) (body : list Z -> X -> M X) (acc : X) : M X :=
  match n with
  | O => fun w => Hang w
  | S n' => bind (v_readdir fd) (fun o => match o with
              | Some name => bind (body name acc) (each_entry n' fd body)
              | None => pure acc
              end)
  end.
Definition entries {X} (fd : Z) (body : list Z -> X -> M X) (acc : X) : M X :=
  fun w => each_entry (S (Z.to_nat (vcount (k_vfs (wk w))))) fd body acc w.

(** [while ((n = vfs_read(fd, buf, size)) > 0) body;]: each turn reads at least one
    byte and files are smaller than the RAM disk; [body] gets the bytes and says
    with [false] that the loop is left. *)
Fixpoint each_read (fuel : nat) (fd buf size : Z) (body : list Z -> M bool) : M unit :=
  match fuel with
  | O => fun w => Hang w
  | S f => bind (v_read fd buf size) (fun n =>
             if 0 <? n then bind (peek_bytes n buf) (fun bs => bind (body bs) (fun go => if go then each_read f fd buf size body else pure tt))
             else pure tt)
  end.
Definition reads (fd buf size : Z) (body : list Z -> M bool) : M unit := each_read (S (Z.to_nat RAM_DISK_SIZE)) fd buf size body.

(** ** Numbers *)

(** [shell_print_dec] and [shell_print_dec64]. *)
Definition say_dec (v : Z) : M unit :=
  on_con (fun con => fold_left io_putchar (if v =? 0 then [48] else match dec_digits 24 v [] with Some buf => rev buf | None => [] end) con).
End World.
Arguments world A : clear implicits.
Arguments res A X : clear implicits.
Arguments M A X : clear implicits.

Declare Scope cmd_scope.
Delimit Scope cmd_scope with cmd.
Notation "x <- f ;; g" := (bind f (fun x => g)) (at level 100, f at next level, right associativity) : cmd_scope.
Notation "f ;; g" := (seqM f g) (at level 100, right associativity) : cmd_scope.
