(* ===== verification/Shell.v ===== *)
(** * shell.c, the command shell

    Commands run in the monad of [World.v].  [g_shell_current] is set before the
    first command runs, so the branches for a null pointer are left out.
    [cmd_browser] is in [Browser.v] and [cmd_install] in [Install.v]; they are
    arguments here and are put in by [Kernel.v].  [cpuid] is the processor's
    answer, [heap_used] the heap's count. *)
From Stdlib Require Import String.
From S2P Require Import Prelude Mem Alloc Tcb Ipc Vfs Io Serial Syscall Hal Editor World.
#[local] Open Scope cmd_scope.

(** ** Strings *)

Fixpoint is_prefix (pref s : list Z) : bool :=
  match pref, s with
  | [], _ => true
  | p :: pref', c :: s' => (p =? c) && is_prefix pref' s'
  | _, [] => false
  end.
Fixpoint common_prefix_len (a b : list Z) : Z :=
  match a, b with
  | x :: a', y :: b' => if x =? y then 1 + common_prefix_len a' b' else 0
  | _, _ => 0
  end.
Fixpoint skip_blanks (s : list Z) : list Z :=
  match s with c :: s' => if (c =? 32) || (c =? 9) then skip_blanks s' else s | [] => [] end.
(** [int] arithmetic wraps. *)
Fixpoint atoi_loop (s : list Z) (v : Z) : Z :=
  match s with c :: s' => if (48 <=? c) && (c <=? 57) then atoi_loop s' (i32 (i32 (v * 10) + (c - 48))) else v | [] => v end.
Definition shell_atoi (s : list Z) : Z :=
  match skip_blanks s with
  | 45 :: s' => i32 (- atoi_loop s' 0)
  | 43 :: s' => atoi_loop s' 0
  | s' => atoi_loop s' 0
  end.
Definition ends_in_slash (p : list Z) : bool := bool_decide (last p = Some 47).
(** A name behind a directory. *)
Definition add_slash (p : list Z) : list Z := if ends_in_slash p then p else p ++ [47].
Definition full_path (dir name : list Z) : list Z := if is_path dir "/" then 47 :: name else add_slash dir ++ name.

(** ** parse_command *)

Definition blank (c : Z) : bool := (c =? 32) || (c =? 9) || (c =? 10) || (c =? 13).
Definition quote (c : Z) : bool := (c =? 34) || (c =? 39).
Fixpoint skip_space (s : list Z) : list Z :=
  match s with c :: s' => if blank c then skip_space s' else s | [] => [] end.
(** The characters up to the first that satisfies [stop], and the rest behind it. *)
Fixpoint cut (stop : Z -> bool) (s : list Z) : list Z * list Z :=
  match s with
  | [] => ([], [])
  | c :: s' => if stop c then ([], s') else let '(w, r) := cut stop s' in (c :: w, r)
  end.
Fixpoint parse_loop (fuel : nat) (args : nat) (s : list Z) : list (list Z) :=
  match fuel, args with
  | S f, S n =>
      match skip_space s with
      | [] => []
      | c :: s' =>
          let '(w, r) := if quote c then cut (Z.eqb c) s' else cut (fun c => blank c || quote c) (c :: s') in
          w :: parse_loop f n r
      end
  | _, _ => []
  end.
Definition parse_command (cmd : list Z) : list (list Z) := parse_loop (length cmd) (Z.to_nat (SHELL_MAX_ARGS - 1)) cmd.

(** ** Shell state *)

Definition shell_init (w_history : list (list Z)) : shell_state := mk_shell (str "/") (str "tinx> ") w_history 0 0 0.
Definition dmesg_append (s buf : list Z) : list Z := buf ++ take (Z.to_nat (DMESG_SIZE - 1) - length buf) s.
Definition shell_build_prompt (out_len : Z) (st : shell_state) : list Z * shell_state :=
  let out := copy_n out_len (str "tinx:" ++ cwd st ++ str "$ ") in
  (out, mk_shell (cwd st) (copy_n 64 out) (history st) (history_index st) (history_count st) (exit_code st)).

Definition set_index (i : Z) (st : shell_state) : shell_state :=
  mk_shell (cwd st) (prompt st) (history st) i (history_count st) (exit_code st).
Definition set_cwd (p : list Z) (st : shell_state) : shell_state :=
  mk_shell p (prompt st) (history st) (history_index st) (history_count st) (exit_code st).
Definition set_exit (c : Z) (st : shell_state) : shell_state :=
  mk_shell (cwd st) (prompt st) (history st) (history_index st) (history_count st) c.
Definition hist (st : shell_state) (i : Z) : list Z := history st !!! Z.to_nat i.

(** The text written to [out] when the call gives 0. *)
Definition shell_get_history (st : shell_state) (i out_len : Z) : option (list Z) :=
  if (i <? 0) || (history_count st <=? i) then None else Some (copy_n out_len (hist st i)).
Definition shell_history_prev (out_len : Z) (st : shell_state) : option (list Z) * shell_state :=
  if history_count st =? 0 then (None, st) else
  let i := if 0 <? history_index st then history_index st - 1 else 0 in
  let st := set_index i st in
  if i <? history_count st then (Some (copy_n out_len (hist st i)), st) else (None, st).
Definition shell_history_next (out_len : Z) (st : shell_state) : option (list Z) * shell_state :=
  if history_count st =? 0 then (None, st) else
  if history_index st <? history_count st - 1 then
    let st := set_index (history_index st + 1) st in (Some (copy_n out_len (hist st (history_index st))), st)
  else (Some [], set_index (history_count st) st).

(** The part of [shell_exec] that keeps the history. *)
Definition history_add (cmd : list Z) (st : shell_state) : shell_state :=
  let n := history_count st in
  let '(h, n) :=
    if (n =? 0) || negb (bool_decide (hist st (n - 1) = cmd)) then
      if n <? SHELL_HISTORY_SIZE then (<[Z.to_nat n := cmd]> (history st), n + 1)
      else (drop 1 (take (Z.to_nat SHELL_HISTORY_SIZE) (history st)) ++ [cmd], n)
    else (history st, n) in
  mk_shell (cwd st) (prompt st) h n n (exit_code st).

(** The path of an argument: at most [out_len] - 1 characters. *)
Definition resolve_path (st : shell_state) (arg : list Z) (out_len : Z) : list Z :=
  match arg with
  | 47 :: _ => copy_n out_len arg
  | _ =>
      let out := copy_n out_len (cwd st) in
      let l := Z.of_nat (length out) in
      let out := if (0 <? l) && negb (ends_in_slash out) && (l + 1 <? out_len) then out ++ [47] else out in
      out ++ take (Z.to_nat (out_len - 1) - length out) arg
  end.

(** cd: no slash at the end except for the root; [n] characters. *)
Fixpoint drop_slashes (n : nat) (p : list Z) : list Z :=
  match n with
  | O => p
  | S n' => if (1 <? Z.of_nat (length p)) && ends_in_slash p then drop_slashes n' (take (length p - 1) p) else p
  end.

(** The builtins in the order of the table, with the texts of [cmd_help]. *)
Definition builtins : list (string * string) := [
  ("help", "     - Show this help message"); ("cd", "       - Change directory"); ("pwd", "      - Print working directory");
  ("ls", "       - List directory contents"); ("cat", "      - Display file contents (VFS)"); ("echo", "     - Print arguments");
  ("clear", "    - Clear screen"); ("exit", "     - Exit shell"); ("version", "  - Show version info");
  ("cpuinfo", "  - Show CPU information"); ("mkdir", "    - Create directory"); ("touch", "    - Create file");
  ("rm", "       - Remove file"); ("stat", "     - Show file stats"); ("write", "    - Write to file");
  ("fm", "       - Launch file manager"); ("browser", "  - Launch TUI web browser"); ("install", "  - Install to disk");
  ("uptime", "   - Show system uptime"); ("ps", "       - List tasks (TCB)"); ("kill", "     - Kill task by pid");
  ("meminfo", "  - Show heap/memory info"); ("dmesg", "    - Show kernel log"); ("edit", "     - Edit file (editor)");
  ("cp", "       - Copy file"); ("mv", "       - Move/rename file"); ("hexdump", "  - Hex dump file");
  ("sleep", "    - Sleep ms (PIT)"); ("bench", "    - Run benchmarks")]%string.
Definition names : list (list Z) := map (fun b => str (fst b)) builtins.
Definition find_builtin (name : list Z) : option nat := find_from (fun i => bool_decide (names !! i = Some name)) 0 (length names).

Section Shell.
Context {A : Type} `{!Allocator A}.
Context (_kernel_end : Z) (busy : list Z -> nat) (path_fuel : nat) (call_at : Z -> Z -> machine A -> machine A).
Context (cpuid : Z -> Z * Z * Z * Z) (heap_used : A -> option Z) (local_buf : Z).
Notation M := (M A).
Notation world := (world A).

Definition shell : M shell_state := get sh.
Definition on_shell (f : shell_state -> shell_state) : M unit := modify (fun w => with_sh (f (sh w)) w).
Definition path_arg (arg : list Z) : M (list Z) := st <- shell;; pure (resolve_path st arg 256).
(** [strcpy] and [strcat] into a local array of 256 bytes, which do not look at its
    size: a longer text is written over what lies behind the array. *)
Definition local_path (p : list Z) : M (list Z) := if Z.of_nat (length p) <? VFS_MAX_PATH then pure p else fun _ => Crash.
Definition print_prompt : M unit :=
  st <- shell;; let '(out, st) := shell_build_prompt 128 st in on_shell (fun _ => st);; say out.

(** ** Tab completion *)

(** The characters of the last word. *)
Fixpoint word_of (buf : list Z) (acc : list Z) : list Z :=
  match buf with [] => acc | c :: buf' => word_of buf' (if (c =? 32) || (c =? 9) then [] else acc ++ [c]) end.
(** Position of the last slash. *)
Fixpoint last_slash (p : list Z) (i : Z) (found : Z) : Z :=
  match p with [] => found | c :: p' => last_slash p' (i + 1) (if c =? 47 then i else found) end.
(** Directory and name part of the prefix. *)
Definition split_prefix (st : shell_state) (prefix : list Z) : list Z * list Z :=
  let s := last_slash prefix 0 (-1) in
  if 0 <=? s then
    let dir := take (Z.to_nat s) prefix in
    (if s =? 0 then str "/" else
     match dir with 47 :: _ => dir | _ => add_slash (cwd st) ++ dir end, drop (Z.to_nat (s + 1)) prefix)
  else (cwd st, prefix).

(** The completion written behind the cursor, when it fits. *)
Definition complete_with (max_len : Z) (buf add : list Z) : option (list Z) :=
  if (0 <? Z.of_nat (length add)) && (Z.of_nat (length buf + length add) <? max_len - 1) then Some (buf ++ add) else None.
Definition add_char (max_len : Z) (c : Z) (buf : list Z) : list Z :=
  if Z.of_nat (length buf) <? max_len - 1 then buf ++ [c] else buf.

(** The number of names with the prefix, and the first of them. *)
Definition count_matches (fd : Z) (pref : list Z) : M (Z * list Z) :=
  entries fd (fun name '(n, v) => pure (if is_prefix pref name then (n + 1, if n =? 0 then name else v) else (n, v))) (0, []).
Definition list_matches (fd : Z) (pref : list Z) : M unit :=
  entries fd (fun name _ => if is_prefix pref name then say name;; say (str "  ") else pure tt) tt.

(** Completion of file names: [Some] with the result of [shell_tab_complete],
    [None] when it goes on to the builtins. *)
Definition complete_file (max_len : Z) (prefix buf : list Z) : M (option (bool * list Z)) :=
  st <- shell;;
  let '(dir, pref) := split_prefix st prefix in
  dir <- local_path dir;;
  fd <- v_open dir VFS_MODE_READ;;
  if fd <? 0 then pure None else
  _ <- entries fd (fun _ (u : unit) => pure u) tt;;
  v_close fd;;
  fd <- v_open dir VFS_MODE_READ;;
  if fd <? 0 then pure None else
  nv <- count_matches fd pref;;
  let '(n, v) := nv in
  v_close fd;;
  if n =? 1 then
    match complete_with max_len buf (drop (length pref) v) with
    | Some buf => full <- local_path (full_path dir v);; d <- v_stat full;; pure (Some (true, add_char max_len (if is_dir d then 47 else 32) buf))
    | None => pure None
    end
  else if 1 <? n then
    sayln [];;
    fd <- v_open dir VFS_MODE_READ;;
    (if fd <? 0 then pure tt else list_matches fd pref;; v_close fd;; pure tt);;
    sayln [];; print_prompt;; say buf;; pure (Some (false, buf))
  else pure None.

Definition builtin_matches (prefix : list Z) : list (list Z) := List.filter (is_prefix prefix) names.
Definition common_len (ms : list (list Z)) : Z :=
  match ms with [] => 0 | m :: ms => fold_left (fun c m' => Z.min c (common_prefix_len m m')) ms (Z.of_nat (length m)) end.

Definition complete_builtin (max_len : Z) (prefix buf : list Z) : M (bool * list Z) :=
  match builtin_matches prefix with
  | [] => pure (false, buf)
  | [m] => match complete_with max_len buf (drop (length prefix) m) with
           | Some buf => pure (true, add_char max_len 32 buf)
           | None => pure (false, buf)
           end
  | m :: _ as ms =>
      match complete_with max_len buf (drop (length prefix) (take (Z.to_nat (common_len ms)) m)) with
      | Some buf => pure (true, buf)
      | None =>
          sayln [];;
          fold_right (fun m rest => say m;; say (str "  ");; rest) (pure tt) ms;;
          sayln [];; print_prompt;; say buf;; pure (false, buf)
      end
  end.

(** [buf] is the command line up to the cursor, which is at its end. *)
Definition shell_tab_complete (max_len : Z) (buf : list Z) : M (bool * list Z) :=
  match take 63 (word_of buf []) with
  | [] => pure (false, buf)
  | prefix =>
      if bool_decide (builtin_matches prefix = []) || bool_decide (47 ∈ prefix) then
        o <- complete_file max_len prefix buf;;
        match o with Some r => pure r | None => complete_builtin max_len prefix buf end
      else complete_builtin max_len prefix buf
  end.

(** ** Commands *)

Definition cmd := list (list Z) -> M Z.
Definition arg (args : list (list Z)) (i : nat) : list Z := args !!! i.
Definition usage (n : nat) (text : string) (args : list (list Z)) (body : M Z) : M Z :=
  if (length args <? n)%nat then sayln (str text);; pure 1 else body.

Definition cmd_help : cmd := fun _ =>
  sayln (str "Available commands:");;
  fold_right (fun b rest => say (str "  ");; say (str (fst b));; sayln (str (snd b));; rest) (pure tt) builtins;;
  sayln [];;
  sayln (str "Keys: UP/DOWN history, TAB completion, Ctrl+S/Q in editor");;
  pure 0.

Definition cmd_cd : cmd := fun args =>
  if (length args <? 2)%nat then on_shell (set_cwd (str "/"));; sayln (str "/");; pure 0 else
  let a := arg args 1 in
  path <- path_arg a;;
  st <- v_stat path;;
  if is_dir st then
    let c := copy_n 256 path in
    on_shell (set_cwd (drop_slashes (length c) c));;
    say (str "Changed directory to: ");; sayln path;; pure 0
  else
    st <- v_stat a;;
    if is_dir st then
      on_shell (set_cwd (copy_n 256 a));; say (str "Changed directory to: ");; sayln a;; pure 0
    else say (str "cd: no such directory: ");; sayln a;; pure 1.

Definition cmd_pwd : cmd := fun _ => st <- shell;; sayln (cwd st);; pure 0.

Definition ls_entry (path name : list Z) (count : Z) : M Z :=
  full <- local_path (full_path path name);;
  d <- v_stat full;;
  (if is_dir d then say (str "[D] ");; sayln name
   else
     say (str "    ");; say name;;
     s <- v_stat full;;
     (match s with Some s => say (str " (");; say_dec (st_size s);; say (str " bytes)") | None => pure tt end);;
     sayln []);;
  pure (count + 1).
Definition cmd_ls : cmd := fun args =>
  st <- shell;;
  let path := if (2 <=? length args)%nat then resolve_path st (arg args 1) 256 else copy_n 256 (cwd st) in
  fd <- v_open path VFS_MODE_READ;;
  if fd <? 0 then say (str "ls: cannot open ");; sayln path;; pure 1 else
  d <- v_stat path;;
  if match d with Some d => negb (st_type d =? VFS_TYPE_DIR) | None => false end
  then sayln path;; v_close fd;; pure 0
  else
    say (str "Listing ");; sayln path;;
    count <- entries fd (ls_entry path) 0;;
    (if count =? 0 then sayln (str "  (empty)") else pure tt);;
    v_close fd;; pure 0.

(** The resolved path, or the argument itself when that cannot be opened. *)
Definition open_either (a : list Z) (mode : Z) : M (Z * list Z) :=
  path <- path_arg a;;
  fd <- v_open path mode;;
  if fd <? 0 then
    fd <- v_open a mode;; pure (fd, if fd <? 0 then path else copy_n 256 a)
  else pure (fd, path).

Definition cmd_cat : cmd := fun args => usage 2 "Usage: cat <file>" args (
  o <- open_either (arg args 1) VFS_MODE_READ;;
  let '(fd, path) := o in
  if fd <? 0 then say (str "cat: cannot open ");; sayln (arg args 1);; pure 1 else
  d <- v_stat path;;
  if is_dir d then say (str "cat: is a directory: ");; sayln path;; v_close fd;; pure 1 else
  reads fd local_buf 511 (fun bs => poke_bytes (local_buf + Z.of_nat (length bs)) [0];; say (cstr bs);; pure true);;
  sayln [];; v_close fd;; pure 0).

Fixpoint echo_args (first : bool) (args : list (list Z)) : M unit :=
  match args with [] => pure tt | a :: rest => (if first then pure tt else say (str " "));; say a;; echo_args false rest end.
Definition cmd_echo : cmd := fun args => echo_args true (drop 1 args);; sayln [];; pure 0.
Definition cmd_clear : cmd := fun _ => cls;; pure 0.
Definition cmd_exit : cmd := fun _ => sayln (str "Shell exiting...");; pure 0.
Definition cmd_version : cmd := fun _ =>
  sayln (str "TINX v1.0 " ++ [34] ++ str "Handsome Dorito" ++ [34] ++ str " - Enhanced");;
  sayln (str "  - UnnamedFS filesystem support");;
  sayln (str "  - POSIX-like API");;
  sayln (str "  - Interactive shell with history & completion");;
  sayln (str "  - In-kernel text editor");;
  sayln (str "  - CPUID support");;
  pure 0.

(** Feature bits of CPUID leaf 1, EDX. *)
Definition cpu_features : list (Z * string) := [
  (0, "    - FPU (x87 FPU)"); (1, "    - VME (Virtual Mode Extensions)"); (2, "    - DE (Debugging Extensions)");
  (3, "    - PSE (Page Size Extensions)"); (4, "    - TSC (Time Stamp Counter)"); (5, "    - MSR (Model Specific Registers)");
  (6, "    - PAE (Physical Address Extensions)"); (7, "    - MCE (Machine Check Exception)"); (8, "    - CX8 (CMPXCHG8B)");
  (9, "    - APIC (Advanced PIC)"); (11, "    - SEP (SYSENTER/SYSEXIT)"); (15, "    - CMOV (Conditional Move)");
  (23, "    - MMX"); (24, "    - FXSR (FXSAVE/FXRSTOR)"); (25, "    - SSE"); (26, "    - SSE2")]%string.
Definition put_all (cs : list Z) : M unit := fold_right (fun c rest => put c;; rest) (pure tt) cs.
Definition cmd_cpuinfo : cmd := fun _ =>
  sayln (str "CPU Information:");;
  sayln (str "  Architecture: x86 (i386)");;
  sayln (str "  Mode: Protected Mode (32-bit)");;
  sayln (str "  Bootloader: Multiboot (GRUB)");;
  let '(_, ebx, ecx, edx) := cpuid 0 in
  say (str "  Vendor: ");;
  put_all (word_chars ebx ++ word_chars edx ++ word_chars ecx);;
  sayln [];;
  let '(_, _, _, edx) := cpuid 1 in
  sayln (str "  Features:");;
  fold_right (fun f rest => (if Z.testbit edx (fst f) then sayln (str (snd f)) else pure tt);; rest) (pure tt) cpu_features;;
  pure 0.

Definition cmd_mkdir : cmd := fun args => usage 2 "Usage: mkdir <directory>" args (
  let a := arg args 1 in
  path <- path_arg a;;
  r <- v_mkdir path;;
  if r =? 0 then say (str "Created directory: ");; sayln path;; pure 0 else
  r <- v_mkdir a;;
  if r =? 0 then say (str "Created directory: ");; sayln a;; pure 0 else
  say (str "Failed to create directory: ");; sayln path;; pure 1).

Definition rw : Z := Z.lor VFS_MODE_READ VFS_MODE_WRITE.
Definition cmd_touch : cmd := fun args => usage 2 "Usage: touch <file>" args (
  path <- path_arg (arg args 1);;
  fd <- v_open path rw;;
  if 0 <=? fd then v_close fd;; say (str "Created/touched file: ");; sayln path;; pure 0
  else say (str "Failed to create file: ");; sayln path;; pure 1).

Definition cmd_rm : cmd := fun args => usage 2 "Usage: rm <file>" args (
  let a := arg args 1 in
  path <- path_arg a;;
  r <- v_unlink path;;
  if r =? 0 then say (str "Removed: ");; sayln path;; pure 0 else
  r <- v_unlink a;;
  if r =? 0 then say (str "Removed: ");; sayln a;; pure 0 else
  say (str "Failed to remove: ");; sayln path;; pure 1).

Definition show_stat (path : list Z) (st : vstat) : M Z :=
  sayln (str "File Statistics:");;
  say (str "  Path: ");; sayln path;;
  say (str "  Type: ");;
  sayln (if st_type st =? VFS_TYPE_DIR then str "Directory" else if st_type st =? VFS_TYPE_FILE then str "Regular File" else str "Unknown");;
  say (str "  Size: ");; say_dec (st_size st);; sayln (str " bytes");;
  sayln (str "  Mode: RW");; pure 0.
Definition cmd_stat : cmd := fun args => usage 2 "Usage: stat <path>" args (
  let a := arg args 1 in
  path <- path_arg a;;
  st <- v_stat path;;
  match st with
  | Some st => show_stat path st
  | None =>
      st <- v_stat a;;
      match st with
      | Some st => show_stat (copy_n 256 a) st
      | None => say (str "Failed to stat: ");; sayln path;; pure 1
      end
  end).

(** The data is an argument, so it is in memory already; its address is that of
    the command's copy. *)
Definition cmd_write : cmd := fun args => usage 3 "Usage: write <file> <data>" args (
  o <- open_either (arg args 1) rw;;
  let '(fd, path) := o in
  if fd <? 0 then say (str "Failed to open: ");; sayln path;; pure 1 else
  let data := arg args 2 in
  poke_bytes local_buf data;;
  written <- v_write fd local_buf (Z.of_nat (length data));;
  v_close fd;;
  if 0 <? written then
    say (str "Wrote ");; say_dec (u32 written);; say (str " bytes to ");; sayln path;; pure 0
  else say (str "Failed to write to ");; sayln path;; pure 1).

(** The next value of the time stamp counter. *)
Definition rdtsc : M Z :=
  fun w => match tsc w with
           | [] => Ok 0 w
           | t :: rest => Ok t (mk_world (wm w) (sh w) (dmesg_buf w) (fm w) rest (wdisk w))
           end.
Definition cmd_uptime : cmd := fun _ =>
  ticks <- get (fun w => pit_get_ticks (hw (wm w)));;
  let secs := ticks / 100 in
  let mins := secs / 60 in
  say (str "Uptime: ");;
  say_dec (mins / 60);; say (str "h ");; say_dec (mins mod 60);; say (str "m ");; say_dec (secs mod 60);; sayln (str "s");;
  say (str "Ticks: ");; say_dec ticks;; sayln [];;
  t <- rdtsc;;
  say (str "TSC: ");; say_dec t;; sayln [];; pure 0.

Definition sched_of (w : world) : sched A := tasks (k_ipc (wk w)).
Definition state_name (s : task_state) : list Z :=
  match s with
  | TASK_STATE_FREE => str "FREE" | TASK_STATE_READY => str "READY" | TASK_STATE_RUNNING => str "RUNNING"
  | TASK_STATE_BLOCKED => str "BLOCKED" | TASK_STATE_ZOMBIE => str "ZOMBIE"
  end.

(** One line of ps. *)
Definition ps_line (t : tcb) : M unit :=
  say_dec (u32 (t_tid t));; say (str "  ");;
  say_dec (u32 (t_pid t));; say (str "  ");;
  let state := state_name (t_state t) in
  say state;; put_all (replicate (9 - length state) 32);;
  say_dec (t_priority t);; say (str "    ");;
  sayln (match t_name t with [] => str "(unnamed)" | n => n end).
Fixpoint ps_loop (n : nat) (tid found : Z) : M Z :=
  match n with
  | O => pure found
  | S n' =>
      s <- get sched_of;;
      match tcb_get_by_tid s tid with
      | Some i => ps_line (task_pool s i);; ps_loop n' (tid + 1) (found + 1)
      | None => ps_loop n' (tid + 1) found
      end
  end.
Definition cmd_ps : cmd := fun _ =>
  sayln (str "PID  PPID  STATE     PRIO  NAME");;
  sayln (str "--------------------------------");;
  found <- ps_loop 256 1 0;;
  if found =? 0 then
    sayln (str "No tasks found (TCB not initialized?)");;
    sayln (str "  Tip: tasks are created via tcb_allocate()");; pure 0
  else pure 0.

Definition set_sched (s : sched A) (w : world) : world := with_wk (with_ipc (set_tasks s (k_ipc (wk w))) (wk w)) w.
Definition cmd_kill : cmd := fun args => usage 2 "Usage: kill <pid>" args (
  let pid := shell_atoi (arg args 1) in
  s <- get sched_of;;
  match tcb_get_by_tid s pid with
  | None => say (str "kill: no such task ");; say_dec (u32 pid);; sayln [];; pure 1
  | Some i =>
      match tcb_free (Some i) s with
      | None => fun _ => Crash
      | Some s =>
          modify (set_sched s);;
          say (str "Killed task ");; say_dec (u32 pid);; sayln [];; pure 0
      end
  end).

(** The heap of the size KERNEL_HEAP_SIZE. *)
Context (heap_total : Z).
Definition cmd_meminfo : cmd := fun _ =>
  sayln (str "Memory Info:");;
  h <- get (fun w => kheap (sched_of w));;
  match heap_used h with
  | None => fun _ => Crash
  | Some used =>
      let free := u32 (heap_total - used) in
      say (str "  Kernel heap: ");; say_dec used;; say (str " / ");; say_dec (u32 (used + free));; sayln (str " bytes used");;
      say (str "  Free: ");; say_dec free;; sayln (str " bytes");;
      sayln (str "  Page size: 4096");;
      sayln (str "  Zones: see serial log");; pure 0
  end.

Definition cmd_dmesg : cmd := fun _ =>
  sayln (str "=== dmesg (kernel log) ===");;
  d <- get dmesg_buf;;
  (match d with [] => sayln (str "(no buffered log, check serial)") | _ => say d;; sayln [] end);;
  sayln (str "--- end dmesg ---");; pure 0.

Definition cmd_edit : cmd := fun args => usage 2 "Usage: edit <file>" args (
  path <- path_arg (arg args 1);;
  say (str "Editing ");; sayln path;;
  fun w => match editor_open local_buf path (wk w) with
           | EdQuit _ k => Ok 0 (with_wk k w)
           | EdPolling _ k => Hang (with_wk k w)
           | EdFault => Crash
           end).

Definition cmd_cp : cmd := fun args => usage 3 "Usage: cp <src> <dst>" args (
  st <- shell;;
  let dst := resolve_path st (arg args 2) 256 in
  o <- open_either (arg args 1) VFS_MODE_READ;;
  let '(fds, src) := o in
  if fds <? 0 then say (str "cp: cannot open src ");; sayln src;; pure 1 else
  n <- v_read fds local_buf 512;;
  v_close fds;;
  if n <? 0 then sayln (str "cp: read failed");; pure 1 else
  fdd <- v_open dst rw;;
  fdd_dst <- (if fdd <? 0 then fdd <- v_open (arg args 2) rw;; pure (fdd, if fdd <? 0 then dst else copy_n 256 (arg args 2))
              else pure (fdd, dst));;
  let '(fdd, dst) := fdd_dst in
  if fdd <? 0 then say (str "cp: cannot create dst ");; sayln dst;; pure 1 else
  v_lseek fdd 0 VFS_SEEK_SET;;
  w <- v_write fdd local_buf n;;
  v_close fdd;;
  if w <? 0 then sayln (str "cp: write failed");; pure 1 else
  say (str "Copied ");; say_dec (u32 n);; say (str " bytes ");; say src;; say (str " -> ");; sayln dst;; pure 0).

Definition cmd_mv : cmd := fun args => usage 3 "Usage: mv <src> <dst>" args (
  r <- cmd_cp args;;
  if negb (r =? 0) then pure r else
  let a := arg args 1 in
  src <- path_arg a;;
  r <- v_unlink src;;
  if r =? 0 then say (str "Moved ");; sayln src;; pure 0 else
  r <- v_unlink a;;
  if r =? 0 then say (str "Moved ");; sayln a;; pure 0 else
  say (str "mv: warning - copy succeeded but unlink failed for ");; sayln src;; pure 0).

Definition shell_print_hex (v : Z) (digits : nat) : M unit :=
  put_all (map (fun i => hex_digit (Z.shiftr v (Z.of_nat i * 4))) (rev (seq 0 digits))).
Definition dump_row (off : Z) (bs : list Z) : M unit :=
  shell_print_hex off 8;; say (str ": ");;
  fold_right (fun i rest =>
    (match bs !! i with Some b => shell_print_hex b 2;; put 32 | None => say (str "   ") end);;
    (if (i =? 7)%nat then put 32 else pure tt);; rest) (pure tt) (seq 0 16);;
  say (str " |");;
  put_all (map (fun b => if (32 <=? i8 b) && (i8 b <? 127) then b else 46) bs);;
  sayln (str "|").
(** [off] counts up to 2048, so 128 turns are enough. *)
Fixpoint dump_loop (fuel : nat) (fd off : Z) : M unit :=
  match fuel with
  | O => fun w => Hang w
  | S f =>
      n <- v_read fd local_buf 16;;
      if 0 <? n then
        bs <- peek_bytes n local_buf;;
        dump_row off bs;;
        if 2048 <=? off + 16 then sayln (str "... truncated") else dump_loop f fd (off + 16)
      else pure tt
  end.
Definition cmd_hexdump : cmd := fun args => usage 2 "Usage: hexdump <file>" args (
  o <- open_either (arg args 1) VFS_MODE_READ;;
  let '(fd, path) := o in
  if fd <? 0 then say (str "hexdump: cannot open ");; sayln path;; pure 1 else
  dump_loop 128 fd 0;;
  v_close fd;; pure 0).

Definition pit_sleep_ms (ms : Z) : M unit :=
  fun w => match pit_sleep _kernel_end busy path_fuel call_at ms (wm w) with Some m => Ok tt (with_wm m w) | None => Hang w end.
Definition cmd_sleep : cmd := fun args => usage 2 "Usage: sleep <ms>" args (
  let ms := shell_atoi (arg args 1) in
  let ms := if ms <? 0 then 0 else ms in
  let ms := if 10000 <? ms then 10000 else ms in
  say (str "Sleeping ");; say_dec ms;; sayln (str " ms...");;
  pit_sleep_ms ms;;
  sayln (str "Done.");; pure 0).

Fixpoint repeat_cmd (n : nat) (c : M unit) : M unit := match n with O => pure tt | S n' => c;; repeat_cmd n' c end.
Definition bench_kmalloc : M unit :=
  s <- get sched_of;;
  match a_alloc (kheap s) 32 with Some (_, h) => modify (set_sched (set_kheap h s)) | None => fun _ => Crash end.
Definition bench_open : M unit :=
  fd <- v_open (str "/") VFS_MODE_READ;; if 0 <=? fd then v_close fd;; pure tt else pure tt.
Definition cmd_bench : cmd := fun _ =>
  sayln (str "=== Benchmark ===");;
  start <- rdtsc;; repeat_cmd (Z.to_nat 1000) bench_kmalloc;; end_ <- rdtsc;;
  say (str "kmalloc 1000x32: ");; say_dec (u64 (end_ - start));; sayln (str " TSC ticks");;
  start <- rdtsc;; repeat_cmd 100 bench_open;; end_ <- rdtsc;;
  say (str "vfs_open/close 100x: ");; say_dec (u64 (end_ - start));; sayln (str " TSC ticks");;
  start <- rdtsc;; end_ <- rdtsc;;
  say (str "loop 10k: ");; say_dec (u64 (end_ - start));; sayln (str " TSC ticks");;
  say (str "sum=");; say_dec (fold_left Z.add (map Z.of_nat (seq 0 (Z.to_nat 10000))) 0);; sayln [];;
  sayln (str "Bench complete.");; pure 0.

(** ** The file manager *)

Definition fm_now : M fm_state := get fm.
Definition on_fm (f : fm_state -> fm_state) : M unit := modify (fun w => with_fm (f (fm w)) w).
Definition fm_add (name : list Z) (f : fm_state) : fm_state :=
  mk_fm (fm_path f) (fm_selected f) (fm_offset f) (<[Z.to_nat (fm_num_entries f) := name]> (fm_entries f)) (fm_num_entries f + 1).
Definition fm_select (i off : Z) (f : fm_state) : fm_state := mk_fm (fm_path f) i off (fm_entries f) (fm_num_entries f).
Definition fm_goto (p : list Z) (f : fm_state) : fm_state := mk_fm p (fm_selected f) (fm_offset f) (fm_entries f) (fm_num_entries f).
Definition fm_clear (f : fm_state) : fm_state := mk_fm (fm_path f) (fm_selected f) (fm_offset f) (fm_entries f) 0.
Definition fm_clamp (f : fm_state) : fm_state :=
  let i := if fm_num_entries f <=? fm_selected f then fm_num_entries f - 1 else fm_selected f in
  fm_select (if i <? 0 then 0 else i) (fm_offset f) f.

(** [while (fm_num_entries < 32 && vfs_readdir(..) == 0)], at most 32 turns. *)
Fixpoint fm_fill (n : nat) (fd : Z) : M unit :=
  match n with
  | O => pure tt
  | S n' =>
      f <- fm_now;;
      if fm_num_entries f <? 32 then
        o <- v_readdir fd;; match o with Some name => on_fm (fm_add name);; fm_fill n' fd | None => pure tt end
      else pure tt
  end.
Definition fm_refresh : M unit :=
  on_fm (fun f => let f := fm_clear f in if is_path (fm_path f) "/" then f else fm_add (str "..") f);;
  f <- fm_now;;
  fd <- v_open (fm_path f) VFS_MODE_READ;;
  if fd <? 0 then pure tt else
  fm_fill 32 fd;;
  v_close fd;;
  on_fm fm_clamp.

Definition fm_line (f : fm_state) (i : nat) (entry : list Z) : M unit :=
  say (if Z.of_nat i =? fm_selected f then str "> " else str "  ");;
  full <- local_path (full_path (fm_path f) entry);;
  d <- v_stat full;;
  say (if is_dir d then str "[D] " else str "    ");;
  sayln entry.
Definition fm_draw : M unit :=
  cls;;
  f <- fm_now;;
  sayln (str "=== Tinx File Manager ===");;
  say (str "Path: ");; sayln (fm_path f);;
  sayln [];;
  sayln (str "Files/Dirs:");;
  sayln (str "----------------------------------------");;
  fold_right (fun ie rest => fm_line f (fst ie) (snd ie);; rest) (pure tt) (let n := Z.to_nat (fm_num_entries f) in combine (seq 0 n) (take n (fm_entries f)));;
  sayln (str "----------------------------------------");;
  sayln (str "Controls: UP/DOWN=navigate, ENTER=open, Q=quit").

(** The parent of the current path: cut behind the last slash before the name. *)
Fixpoint drop_while_slash (rev_p : list Z) : list Z := match rev_p with 47 :: r => drop_while_slash r | r => r end.
Fixpoint drop_name (rev_p : list Z) : list Z := match rev_p with [] => [] | c :: r => if c =? 47 then rev_p else drop_name r end.
Definition fm_parent (p : list Z) : list Z :=
  match rev (drop_name (drop_while_slash (rev p))) with [] => str "/" | q => q end.

Definition fm_enter : M unit :=
  f <- fm_now;;
  if negb (0 <? fm_num_entries f) then pure tt else
  let entry := fm_entries f !!! Z.to_nat (fm_selected f) in
  if is_path entry ".." then
    (if is_path (fm_path f) "/" then pure tt else on_fm (fm_goto (fm_parent (fm_path f))));;
    fm_refresh;; fm_draw
  else
    new_path <- local_path (full_path (fm_path f) entry);;
    d <- v_stat new_path;;
    if is_dir d then on_fm (fm_goto new_path);; fm_refresh;; fm_draw
    else
      say (str "Selected file: ");; sayln entry;;
      say (str "Press any key to continue...");;
      getch;; fm_draw.

Definition is_key (c : Z) (ks : list Z) : bool := bool_decide (c ∈ ks).
Definition fm_key (c : Z) : M (option Z) :=
  f <- fm_now;;
  if is_key c [113; 81] then cls;; pure (Some 0)
  else if is_key c [110; 78; KEY_DOWN] then
    (if fm_selected f <? fm_num_entries f - 1 then
       let i := fm_selected f + 1 in
       on_fm (fm_select i (if fm_offset f + 20 <=? i then fm_offset f + 1 else fm_offset f));; fm_draw
     else pure tt);; pure None
  else if is_key c [112; 80; KEY_UP] then
    (if 0 <? fm_selected f then
       let i := fm_selected f - 1 in
       on_fm (fm_select i (if i <? fm_offset f then fm_offset f - 1 else fm_offset f));; fm_draw
     else pure tt);; pure None
  else if is_key c [10; 13] then fm_enter;; pure None
  else pure None.
Definition cmd_fm : cmd := fun _ =>
  on_fm (fun f => fm_select 0 0 (fm_goto (str "/") f));;
  fm_refresh;; fm_draw;;
  on_keys fm_key.

(** ** shell_exec *)

Context (cmd_browser cmd_install : cmd).
Definition builtin_funcs : list cmd :=
  [cmd_help; cmd_cd; cmd_pwd; cmd_ls; cmd_cat; cmd_echo; cmd_clear; cmd_exit; cmd_version; cmd_cpuinfo; cmd_mkdir; cmd_touch;
   cmd_rm; cmd_stat; cmd_write; cmd_fm; cmd_browser; cmd_install; cmd_uptime; cmd_ps; cmd_kill; cmd_meminfo; cmd_dmesg; cmd_edit;
   cmd_cp; cmd_mv; cmd_hexdump; cmd_sleep; cmd_bench].

Definition on_dmesg (s : list Z) : M unit := modify (fun w => with_dmesg (dmesg_append s (dmesg_buf w)) w).

Definition shell_exec (command : list Z) : M Z :=
  match skip_blanks command with
  | [] => pure 0
  | _ =>
      on_shell (history_add command);;
      let argv := parse_command (copy_n SHELL_MAX_CMD_LEN command) in
      match argv with
      | [] => pure 0
      | name :: _ =>
          match find_builtin name with
          | Some i =>
              code <- nth i builtin_funcs (fun _ => pure 0) argv;;
              on_shell (set_exit code);;
              on_dmesg (str "cmd: ");; on_dmesg command;; on_dmesg [10];;
              pure code
          | None =>
              say (str "Command not found: ");; sayln name;;
              on_shell (set_exit 127);; pure 127
          end
      end
  end.

Definition shell_run : M Z :=
  sayln (str "Tinx Shell v1.0 - Enhanced");;
  sayln (str "Type 'help' for available commands");;
  sayln [];;
  print_prompt;; pure 0.
End Shell.
