(* ===== verification/ShellCorrect.v ===== *)
(** * The shell: parsing, history, completion and the state it keeps *)
From Stdlib Require Import String.
From S2P Require Import Prelude Mem Alloc Tcb Ipc Vfs Io Serial Syscall Hal Editor World Shell.
#[local] Open Scope cmd_scope.

(** ** Arguments survive quoting *)

Definition quote_arg (a : list Z) : list Z := if bool_decide (34 ∈ a) then 39 :: a ++ [39] else 34 :: a ++ [34].
(** No argument contains both quotes. *)
Definition quotable (a : list Z) : Prop := ~ (34 ∈ a /\ 39 ∈ a).
#[global] Instance quotable_dec a : Decision (quotable a).
Proof. unfold quotable. apply _. Defined.
Definition command_line (args : list (list Z)) : list Z := concat (map (fun a => quote_arg a ++ [32]) args).

Lemma cut_at stop a c r :
  Forall (fun x => stop x = false) a -> stop c = true -> cut stop (a ++ c :: r) = (a, r).
Proof. induction 1 as [|x a Hx _ IH]; intros Hc; cbn; [by rewrite Hc|]. by rewrite Hx, (IH Hc). Qed.

Lemma parse_quoted f n a r :
  quotable a -> parse_loop (S f) (S n) (quote_arg a ++ r) = a :: parse_loop f n r.
Proof.
  intros Hq. unfold quote_arg. case_bool_decide as H34.
  - cbn [parse_loop app skip_space blank quote Z.eqb Pos.eqb orb]. rewrite <- app_assoc; cbn [app]. rewrite cut_at; [done| |done].
    apply Forall_forall. intros x Hx. apply Z.eqb_neq. intros <-. by apply Hq.
  - cbn [parse_loop app skip_space blank quote Z.eqb Pos.eqb orb]. rewrite <- app_assoc; cbn [app]. rewrite cut_at; [done| |done].
    apply Forall_forall. intros x Hx. apply Z.eqb_neq. by intros <-.
Qed.

Lemma parse_loop_blank f n r : parse_loop f n (32 :: r) = parse_loop f n r.
Proof. by destruct f, n. Qed.

Lemma parse_args args : forall f n, Forall quotable args -> (length args <= f)%nat -> (length args <= n)%nat ->
  parse_loop f n (command_line args) = args.
Proof.
  induction args as [|a args IH]; intros f n Hq Hf Hn; [by destruct f, n|].
  rewrite Forall_cons in Hq. destruct Hq as [Ha Hq]. cbn [length] in *. destruct f as [|f], n as [|n]; try lia.
  unfold command_line. cbn [map concat]. rewrite <- app_assoc, parse_quoted by done. f_equal.
  cbn [app]. rewrite parse_loop_blank. apply IH; [done|lia..].
Qed.

(** C20. Quoting and parsing are inverse: whatever up to fifteen arguments are given,
    empty ones and ones with blanks included, as long as none contains both
    kinds of quotes, [parse_command] finds exactly them in the command line that
    puts each in quotes. *)
Theorem parse_command_round_trip args :
  Forall quotable args -> (length args <= 15)%nat -> parse_command (command_line args) = args.
Proof.
  intros Hq Hn. unfold parse_command. apply parse_args; [done| |done].
  clear Hq Hn. induction args as [|a args IH]; [cbn; lia|].
  unfold command_line in *. cbn [map concat length]. rewrite !length_app. cbn [length].
  assert (1 <= length (quote_arg a))%nat by (unfold quote_arg; case_match; cbn; lia). lia.
Qed.

(** write "a b" 'say "hi"' and an empty argument. *)
Lemma parse_command_round_trip_witness :
  parse_command (command_line [str "write"; str "a b"; str "say " ++ [34] ++ str "hi" ++ [34]; []]) =
  [str "write"; str "a b"; str "say " ++ [34] ++ str "hi" ++ [34]; []].
Proof.
  apply (parse_command_round_trip [str "write"; str "a b"; str "say " ++ [34] ++ str "hi" ++ [34]; []]).
  - apply (bool_decide_unpack _). vm_compute. exact I.
  - cbn. lia.
Defined.

(** ** History *)

(** The commands the history holds, oldest first. *)
Definition recent (st : shell_state) : list (list Z) := take (Z.to_nat (history_count st)) (history st).
(** What it should hold: the last sixteen commands, one repeated at once only once. *)
Definition remember (c : list Z) (h : list (list Z)) : list (list Z) :=
  if bool_decide (last h = Some c) then h else drop (length h + 1 - 16) (h ++ [c]).

(** The arrays and indices of [shell_state]: rows that fit their buffers, no
    row equal to its predecessor, the path and the prompt within theirs. *)
Record shell_typed (st : shell_state) : Prop := {
  st_rows : length (history st) = 16%nat;
  st_count : 0 <= history_count st <= 16;
  st_index : 0 <= history_index st <= history_count st;
  st_fit : Forall (fun c => length c < 256)%nat (recent st);
  st_distinct : forall i c, recent st !! i = Some c -> recent st !! S i <> Some c;
  st_cwd : (length (cwd st) < 256)%nat;
  st_prompt : (length (prompt st) < 64)%nat
}.

Lemma length_recent st : shell_typed st -> length (recent st) = Z.to_nat (history_count st).
Proof. intros []. unfold recent. rewrite length_take. lia. Qed.

Lemma recent_hist st i : 0 <= i < history_count st -> shell_typed st -> recent st !! Z.to_nat i = Some (hist st i).
Proof.
  intros Hi []. unfold recent, hist. rewrite lookup_take_lt by lia. apply list_lookup_lookup_total_lt. lia.
Qed.

Lemma last_recent st : shell_typed st -> last (recent st) = if history_count st =? 0 then None else Some (hist st (history_count st - 1)).
Proof.
  intros Ht. rewrite last_lookup, length_recent by done. pose proof Ht as []. destruct (Z.eqb_spec (history_count st) 0) as [H0|H0].
  - unfold recent. by rewrite H0.
  - rewrite <- recent_hist by (done || lia). f_equal. lia.
Qed.

Lemma history_add_recent c st : shell_typed st -> recent (history_add c st) = remember c (recent st).
Proof.
  intros Ht. pose proof (length_recent st Ht) as Hlen. pose proof (last_recent st Ht) as Hlast. pose proof Ht as [].
  unfold remember, history_add. rewrite Hlast, Hlen. destruct (Z.eqb_spec (history_count st) 0) as [H0|H0]; cbn [orb].
  - rewrite bool_decide_false by done. unfold SHELL_HISTORY_SIZE. replace (history_count st <? 16) with true by lia.
    unfold recent. cbn [history history_count]. rewrite H0. cbn. destruct (history st); [done|]. done.
  - case_bool_decide as He.
    + rewrite bool_decide_true by (by rewrite He). unfold recent. done.
    + rewrite bool_decide_false by (intros [= ?]; done). cbn [negb]. unfold SHELL_HISTORY_SIZE.
      destruct (Z.ltb_spec (history_count st) 16).
      * unfold recent. cbn [history history_count]. replace (Z.to_nat (history_count st) + 1 - 16)%nat with 0%nat by lia. rewrite drop_0.
        replace (Z.to_nat (history_count st + 1)) with (S (Z.to_nat (history_count st))) by lia.
        rewrite (take_S_r _ _ c) by (apply list_lookup_insert_eq; lia). by rewrite take_insert_ge.
      * unfold recent. cbn [history history_count]. replace (history_count st) with 16 by lia. change (Z.to_nat 16) with 16%nat.
        rewrite !(take_ge (history st)) by lia. rewrite take_ge by (rewrite length_app, length_drop; cbn; lia).
        change (16 + 1 - 16)%nat with 1%nat. rewrite drop_app_le by lia. done.
Qed.

Lemma remember_length c h : (length h <= 16)%nat -> (length (remember c h) <= 16)%nat.
Proof. intros Hl. unfold remember. case_bool_decide; [done|]. rewrite length_drop, length_app. cbn. lia. Qed.

Lemma remember_distinct c h :
  (forall i x, h !! i = Some x -> h !! S i <> Some x) -> forall i x, remember c h !! i = Some x -> remember c h !! S i <> Some x.
Proof.
  intros Hd i x. unfold remember. case_bool_decide as Hl; [by apply Hd|]. rewrite !lookup_drop.
  replace (length h + 1 - 16 + S i)%nat with (S (length h + 1 - 16 + i)) by lia. generalize (length h + 1 - 16 + i)%nat. intros j Hj Hj'.
  pose proof (lookup_lt_Some _ _ _ Hj') as Hlt. rewrite length_app in Hlt. cbn in Hlt. rewrite lookup_app_l in Hj by lia.
  destruct (decide (S j < length h)%nat).
  - rewrite lookup_app_l in Hj' by lia. exact (Hd j x Hj Hj').
  - rewrite lookup_app_r in Hj' by lia. replace (S j - length h)%nat with 0%nat in Hj' by lia. injection Hj' as <-.
    apply Hl. rewrite last_lookup. by replace (pred (length h)) with j by lia.
Qed.

Lemma history_add_typed c st : shell_typed st -> (length c < 256)%nat -> shell_typed (history_add c st).
Proof.
  intros Ht Hc. pose proof (history_add_recent c st Ht) as Hr. pose proof (length_recent st Ht). pose proof Ht as [].
  assert (length (history (history_add c st)) = 16%nat /\ 0 <= history_count (history_add c st) <= 16 /\
    history_index (history_add c st) = history_count (history_add c st) /\ cwd (history_add c st) = cwd st /\
    prompt (history_add c st) = prompt st) as (H1 & H2 & H3 & H4 & H5).
  { unfold history_add, SHELL_HISTORY_SIZE. repeat case_match; cbn; simplify_eq; bool_to_prop; repeat split; try lia;
      rewrite ?length_insert, ?length_app, ?length_drop, ?length_take; cbn; lia. }
  constructor; rewrite ?H4, ?H5; try done; try lia.
  - rewrite Hr. unfold remember. case_bool_decide; [done|]. apply Forall_drop, Forall_app. split; [done|by constructor].
  - rewrite Hr. by apply remember_distinct.
Qed.

(** The arrow keys on the history. *)
Definition ups (k : nat) (st : shell_state) : shell_state := Nat.iter k (fun st => snd (shell_history_prev 256 st)) st.
Definition downs (k : nat) (st : shell_state) : shell_state := Nat.iter k (fun st => snd (shell_history_next 256 st)) st.

Lemma copy_n_short n s : Z.of_nat (length s) < n -> copy_n n s = s.
Proof. intros H. unfold copy_n. apply take_ge. lia. Qed.

Lemma set_index_typed i st : shell_typed st -> 0 <= i <= history_count st -> shell_typed (set_index i st).
Proof. by intros [] Hi. Qed.

Lemma prev_spec st :
  shell_typed st -> 0 < history_count st ->
  let i := Z.max 0 (history_index st - 1) in
  shell_history_prev 256 st = (recent st !! Z.to_nat i, set_index i st).
Proof.
  intros Ht Hc i. pose proof Ht as []. unfold shell_history_prev. replace (history_count st =? 0) with false by lia.
  replace (if 0 <? history_index st then history_index st - 1 else 0) with i by (unfold i; case_if; bool_to_prop; lia).
  assert (0 <= i < history_count st) as Hi by lia. cbn [set_index history_count]. replace (i <? history_count st) with true by lia.
  change (hist (set_index i st) i) with (hist st i). rewrite (recent_hist st i Hi Ht).
  rewrite copy_n_short; [done|]. pose proof (recent_hist st i Hi Ht) as Hr.
  pose proof (Forall_lookup_1 _ _ _ _ st_fit0 Hr) as Hl. cbn in Hl. lia.
Qed.

Lemma next_spec st :
  shell_typed st -> 0 < history_count st ->
  let i := Z.min (history_count st) (history_index st + 1) in
  shell_history_next 256 st = (if i <? history_count st then recent st !! Z.to_nat i else Some [], set_index i st).
Proof.
  intros Ht Hc i. pose proof Ht as []. unfold shell_history_next. replace (history_count st =? 0) with false by lia.
  destruct (Z.ltb_spec (history_index st) (history_count st - 1)).
  - replace (history_index st + 1) with i by lia. assert (0 <= i < history_count st) as Hi by lia.
    cbn [set_index history_index]. change (hist (set_index i st) i) with (hist st i). replace (i <? history_count st) with true by lia.
    rewrite (recent_hist st i Hi Ht), copy_n_short; [done|]. pose proof (recent_hist st i Hi Ht) as Hr.
    pose proof (Forall_lookup_1 _ _ _ _ st_fit0 Hr) as Hl. cbn in Hl. lia.
  - replace i with (history_count st) by lia. by rewrite Z.ltb_irrefl.
Qed.

Lemma set_index_twice i j st : set_index i (set_index j st) = set_index i st.
Proof. done. Qed.

Lemma ups_index k st :
  shell_typed st -> 0 < history_count st -> history_index st = history_count st ->
  ups k st = set_index (Z.max 0 (history_count st - Z.of_nat k)) st.
Proof.
  intros Ht Hc Hi. induction k as [|k IH].
  { cbn. rewrite Z.sub_0_r, Z.max_r by lia. rewrite <- Hi. by destruct st. }
  change (ups (S k) st) with (snd (shell_history_prev 256 (ups k st))). rewrite IH.
  rewrite prev_spec; [|apply set_index_typed; [done|lia]|done]. cbn [snd set_index history_index]. rewrite set_index_twice. f_equal. lia.
Qed.

Lemma downs_index j i st :
  shell_typed st -> 0 < history_count st -> 0 <= i <= history_count st ->
  downs j (set_index i st) = set_index (Z.min (history_count st) (i + Z.of_nat j)) st.
Proof.
  intros Ht Hc Hi. induction j as [|j IH].
  { cbn. by rewrite Z.add_0_r, Z.min_r by lia. }
  change (downs (S j) ?s) with (snd (shell_history_next 256 (downs j s))). rewrite IH.
  rewrite next_spec; [|apply set_index_typed; [done|lia]|done]. cbn [snd set_index history_index history_count]. rewrite set_index_twice. f_equal. lia.
Qed.

(** C21. The history: after a command is executed the history holds the last sixteen
    commands, one that is repeated at once only once; from there the k-th UP shows the k-th most
    recent command, and stays at the oldest; DOWN walks back the same way and ends
    on the empty line.  The arrays and indices stay within their bounds. *)
Theorem history_recall c st :
  shell_typed st -> (length c < 256)%nat ->
  let st1 := history_add c st in
  let h := remember c (recent st) in
  shell_typed st1 /\ recent st1 = h /\ last h = Some c /\
  (forall k, (1 <= k)%nat -> fst (shell_history_prev 256 (ups (k - 1) st1)) = h !! (length h - k)%nat) /\
  (forall k j, (k <= length h)%nat -> (1 <= j)%nat ->
     fst (shell_history_next 256 (downs (j - 1) (ups k st1))) = if (j <? k)%nat then h !! (length h - k + j)%nat else Some []).
Proof.
  intros Ht Hc st1 h. pose proof (history_add_typed c st Ht Hc) as Ht1. pose proof (history_add_recent c st Ht) as Hr.
  fold st1 in Ht1, Hr. fold h in Hr. pose proof (length_recent st1 Ht1) as Hlen. rewrite Hr in Hlen.
  assert (last h = Some c) as Hl.
  { unfold h, remember. case_bool_decide; [done|]. rewrite drop_app_le by lia. apply last_snoc. }
  assert (0 < history_count st1) as Hpos by (destruct (decide (0 < history_count st1)); [done|]; destruct h; [done|cbn in Hlen; lia]).
  assert (history_index st1 = history_count st1) as Hi by (unfold st1, history_add; repeat case_match; done).
  pose proof Ht1 as []. split; [done|]. split; [done|]. split; [done|]. split.
  - intros k Hk. rewrite ups_index, prev_spec; try done; [|apply set_index_typed; [done|lia]]. cbn [fst set_index history_index].
    change (recent (set_index _ st1)) with (recent st1). rewrite Hr. f_equal. lia.
  - intros k j Hk Hj. rewrite ups_index, downs_index by (done || lia). rewrite next_spec; [|apply set_index_typed; [done|lia]|done].
    cbn [fst set_index history_index history_count]. change (recent (set_index _ st1)) with (recent st1). rewrite Hr.
    destruct (Nat.ltb_spec j k).
    + replace (_ <? _) with true by lia. f_equal. lia.
    + by replace (_ <? _) with false by lia.
Qed.

(** ** What every command keeps *)

Record fm_typed (f : fm_state) : Prop := {
  fm_rows : length (fm_entries f) = 32%nat;
  fm_num : 0 <= fm_num_entries f <= 32;
  fm_sel : 0 <= fm_selected f < 32
}.

Section Keeps.
Context {A : Type} `{!Allocator A}.
Notation M := (M A).
Notation world := (world A).

(** The shell's variables, the log and the file manager's are well formed. *)
Definition typed (w : world) : Prop := shell_typed (sh w) /\ (length (dmesg_buf w) < 2048)%nat /\ fm_typed (fm w).
(** A command that returns or waits leaves them so. *)
Definition keeps {X} (m : M X) : Prop := forall w, typed w -> match m w with Ok _ w' | Hang w' => typed w' | Crash => True end.

Lemma keeps_pure {X} (x : X) : keeps (pure x).
Proof. by intros w Hw. Qed.
Lemma keeps_get {X} (f : world -> X) : keeps (get f).
Proof. by intros w Hw. Qed.
Lemma keeps_bind {X Y} (m : M X) (f : X -> M Y) : keeps m -> (forall x, keeps (f x)) -> keeps (bind m f).
Proof. intros Hm Hf w Hw. unfold bind. specialize (Hm w Hw). destruct (m w) as [x w'|w'|]; [by apply Hf|done|done]. Qed.
Lemma keeps_seq {X Y} (m : M X) (f : M Y) : keeps m -> keeps f -> keeps (seqM m f).
Proof. intros Hm Hf. by apply keeps_bind. Qed.
Lemma keeps_modify f : (forall w, typed w -> typed (f w)) -> keeps (modify f).
Proof. intros H w Hw. by apply H. Qed.
Lemma keeps_con f : keeps (on_con f).
Proof. by apply keeps_modify. Qed.
Lemma keeps_vfs {X} (f : vfs -> option (X * vfs)) : keeps (on_vfs f).
Proof. intros w Hw. unfold on_vfs. by destruct (f _) as [[x s]|]. Qed.
Lemma keeps_poke a bs : keeps (poke_bytes a bs).
Proof. by apply keeps_modify. Qed.
Lemma keeps_getch : keeps getch.
Proof. intros w Hw. unfold getch. by destruct (getchar (wk w)). Qed.
Lemma keeps_hang {X} : keeps (fun w => Hang w : res A X).
Proof. by intros w Hw. Qed.
Lemma keeps_crash {X} : keeps (fun _ => Crash : res A X).
Proof. by intros w Hw. Qed.

Lemma keeps_shell f : (forall st, shell_typed st -> shell_typed (f st)) -> keeps (on_shell f).
Proof. intros H. apply keeps_modify. intros w (H1 & H2 & H3). split; [by apply H|done]. Qed.
Lemma keeps_fm f : (forall st, fm_typed st -> fm_typed (f st)) -> keeps (on_fm f).
Proof. intros H. apply keeps_modify. intros w (H1 & H2 & H3). split; [done|]. split; [done|by apply H]. Qed.
Lemma keeps_dmesg s : keeps (on_dmesg s).
Proof.
  apply keeps_modify. intros w (H1 & H2 & H3). split; [done|]. split; [|done]. cbn. unfold dmesg_append.
  rewrite length_app, length_take. change (Z.to_nat (DMESG_SIZE - 1)) with 2047%nat. lia.
Qed.

Lemma keeps_key_loop {X} n (body : Z -> M (option X)) : (forall c, keeps (body c)) -> keeps (key_loop n body).
Proof.
  intros Hb. induction n as [|n IH]; cbn [key_loop]; [apply keeps_hang|].
  apply keeps_bind; [apply keeps_getch|]. intros c. case_if; [done|]. apply keeps_bind; [done|]. intros [x|]; [apply keeps_pure|done].
Qed.
Lemma keeps_on_keys {X} (body : Z -> M (option X)) : (forall c, keeps (body c)) -> keeps (on_keys body).
Proof. intros Hb w Hw. by apply keeps_key_loop. Qed.
Lemma keeps_entries {X} fd (body : list Z -> X -> M X) acc : (forall name x, keeps (body name x)) -> keeps (entries fd body acc).
Proof.
  intros Hb w Hw. unfold entries. generalize (S (Z.to_nat (vcount (k_vfs (wk w))))). intros n. revert w Hw. change (keeps (each_entry n fd body acc)).
  revert acc. induction n as [|n IH]; intros acc; cbn [each_entry]; [apply keeps_hang|].
  apply keeps_bind; [apply keeps_vfs|]. intros [name|]; [|apply keeps_pure]. apply keeps_bind; [done|]. apply IH.
Qed.
Lemma keeps_reads fd buf size body : (forall bs, keeps (body bs)) -> keeps (reads fd buf size body).
Proof.
  intros Hb. unfold reads. induction (S (Z.to_nat RAM_DISK_SIZE)) as [|n IH]; cbn [each_read]; [apply keeps_hang|].
  apply keeps_bind; [apply keeps_vfs|]. intros m. case_if; [|apply keeps_pure].
  apply keeps_bind; [apply keeps_get|]. intros bs. apply keeps_bind; [done|]. intros []; [done|apply keeps_pure].
Qed.
Lemma keeps_fold {X Y} (f : X -> M Y -> M Y) i l : (forall x m, keeps m -> keeps (f x m)) -> keeps i -> keeps (fold_right f i l).
Proof. intros Hf Hi. induction l as [|x l IH]; cbn [fold_right]; [done|by apply Hf]. Qed.
End Keeps.

Create HintDb keeps.
#[export] Hint Resolve keeps_pure keeps_get keeps_con keeps_vfs keeps_poke keeps_getch keeps_hang keeps_crash keeps_dmesg : keeps.

(** One step through the structure of a command. *)
Ltac keep_step :=
  match goal with
  | |- keeps (bind _ _) => apply keeps_bind
  | |- keeps (seqM _ _) => apply keeps_seq
  | |- keeps (entries _ _ _) => apply keeps_entries
  | |- keeps (reads _ _ _ _) => apply keeps_reads
  | |- keeps (on_keys _) => apply keeps_on_keys
  | |- keeps (usage _ _ _ _) => unfold usage
  | |- keeps (if ?b then _ else _) => destruct b
  | |- keeps (match ?o with Some _ => _ | None => _ end) => destruct o
  | |- keeps (let '(_, _) := ?p in _) => destruct p
  | |- keeps (match ?l with [] => _ | _ :: _ => _ end) => destruct l
  | |- keeps (fold_right _ _ _) => apply keeps_fold
  | |- keeps _ => solve [auto with keeps nocore | assumption
      | apply keeps_con | apply keeps_vfs | apply keeps_get | apply keeps_poke | apply keeps_getch]
  | |- forall _, _ => intro
  end.
Ltac keep := cbv zeta; repeat keep_step.

(** *** The commands *)

Section Commands.
Context {A : Type} `{!Allocator A}.
Context (_kernel_end : Z) (busy : list Z -> nat) (path_fuel : nat) (call_at : Z -> Z -> machine A -> machine A).
Context (cpuid : Z -> Z * Z * Z * Z) (heap_used : A -> option Z) (local_buf heap_total : Z).

Lemma length_copy_n n s : (length (copy_n n s) <= Z.to_nat (n - 1))%nat.
Proof. unfold copy_n. rewrite length_take. lia. Qed.

Lemma build_prompt_typed n st : shell_typed st -> shell_typed (snd (shell_build_prompt n st)).
Proof. intros []. constructor; try done. cbn. pose proof (length_copy_n 64 (copy_n n (str "tinx:" ++ cwd st ++ str "$ "))) as H. cbn in *. lia. Qed.
Lemma keeps_prompt : keeps (A := A) print_prompt.
Proof.
  intros w Hw. unfold print_prompt, shell, bind, get, seqM. pose proof (build_prompt_typed 128 (sh w) (proj1 Hw)) as H.
  destruct (shell_build_prompt 128 (sh w)) as [out st]. cbn [snd] in H. destruct Hw as (_ & H2 & H3). split; [done|]. split; done.
Qed.
Hint Resolve keeps_prompt : keeps.

Lemma keeps_path a : keeps (A := A) (path_arg a).
Proof. unfold path_arg, shell. keep. Qed.
Hint Resolve keeps_path : keeps.
Lemma keeps_open_either a m : keeps (A := A) (open_either a m).
Proof. unfold open_either. keep. Qed.
Hint Resolve keeps_open_either : keeps.

Lemma keeps_complete_builtin n p b : keeps (A := A) (complete_builtin n p b).
Proof. unfold complete_builtin. keep. Qed.
Lemma keeps_local_path p : keeps (A := A) (local_path p).
Proof. unfold local_path. keep. Qed.
Hint Resolve keeps_local_path : keeps.
Lemma keeps_complete_file n p b : keeps (A := A) (complete_file n p b).
Proof. unfold complete_file, shell, count_matches, list_matches. keep. Qed.
Hint Resolve keeps_complete_builtin keeps_complete_file : keeps.
Lemma keeps_tab n b : keeps (A := A) (shell_tab_complete n b).
Proof. unfold shell_tab_complete. keep. Qed.
Hint Resolve keeps_tab : keeps.

Lemma keeps_put_all cs : keeps (A := A) (put_all cs).
Proof. unfold put_all. keep. Qed.
Hint Resolve keeps_put_all : keeps.
Lemma keeps_help args : keeps (A := A) (cmd_help args).
Proof. unfold cmd_help. keep. Qed.

Lemma set_cwd_typed p st : (length p < 256)%nat -> shell_typed st -> shell_typed (set_cwd p st).
Proof. by intros Hp []. Qed.
Lemma copy_n_256 s : (length (copy_n 256 s) < 256)%nat.
Proof. pose proof (length_copy_n 256 s) as H. change (Z.to_nat (256 - 1)) with 255%nat in H. lia. Qed.
Lemma drop_slashes_length n p : (length (drop_slashes n p) <= length p)%nat.
Proof.
  revert p. induction n as [|n IH]; intros p; cbn [drop_slashes]; [lia|]. case_if; [|lia].
  specialize (IH (take (length p - 1) p)). rewrite length_take in IH. lia.
Qed.
Lemma keeps_set_cwd p : (length p < 256)%nat -> keeps (A := A) (on_shell (set_cwd p)).
Proof. intros Hp. apply keeps_shell. intros st. by apply set_cwd_typed. Qed.

Lemma keeps_cd args : keeps (A := A) (cmd_cd args).
Proof.
  unfold cmd_cd. keep; apply keeps_set_cwd.
  - cbn. lia.
  - eapply Nat.le_lt_trans; [apply drop_slashes_length|apply copy_n_256].
  - apply copy_n_256.
Qed.
Lemma keeps_pwd args : keeps (A := A) (cmd_pwd args).
Proof. unfold cmd_pwd, shell. keep. Qed.
Lemma keeps_ls args : keeps (A := A) (cmd_ls args).
Proof. unfold cmd_ls, ls_entry, shell. keep. Qed.
Lemma keeps_cat args : keeps (A := A) (cmd_cat local_buf args).
Proof. unfold cmd_cat. keep. Qed.
Lemma keeps_echo args : keeps (A := A) (cmd_echo args).
Proof. unfold cmd_echo. keep. generalize true. induction (drop 1 args) as [|a l IH]; intros b; cbn [echo_args]; keep. Qed.
Lemma keeps_cpuinfo args : keeps (A := A) (cmd_cpuinfo cpuid args).
Proof. unfold cmd_cpuinfo. keep; destruct (cpuid 0) as [[[??]?]?]; keep; destruct (cpuid 1) as [[[??]?]?]; keep. Qed.
Lemma keeps_files args :
  keeps (A := A) (cmd_clear args) /\ keeps (A := A) (cmd_exit args) /\ keeps (A := A) (cmd_version args) /\
  keeps (A := A) (cmd_mkdir args) /\ keeps (A := A) (cmd_touch args) /\ keeps (A := A) (cmd_rm args) /\
  keeps (A := A) (cmd_stat args) /\ keeps (A := A) (cmd_write local_buf args).
Proof.
  unfold cmd_clear, cmd_exit, cmd_version, cmd_mkdir, cmd_touch, cmd_rm, cmd_stat, show_stat, cmd_write.
  split_and!; keep.
Qed.
Lemma keeps_rdtsc : keeps (A := A) rdtsc.
Proof. intros w Hw. unfold rdtsc. by destruct (tsc w). Qed.
Hint Resolve keeps_rdtsc : keeps.
Lemma keeps_set_sched s : keeps (A := A) (modify (set_sched s)).
Proof. by apply keeps_modify. Qed.
Hint Resolve keeps_set_sched : keeps.

Lemma keeps_ps_loop n t f : keeps (A := A) (ps_loop n t f).
Proof. revert t f. induction n as [|n IH]; intros t f; cbn [ps_loop]; unfold ps_line; keep. Qed.
Hint Resolve keeps_ps_loop : keeps.
Lemma keeps_ps args : keeps (A := A) (cmd_ps args).
Proof. unfold cmd_ps. keep. Qed.
Lemma keeps_system args :
  keeps (A := A) (cmd_uptime args) /\ keeps (A := A) (cmd_kill args) /\ keeps (cmd_meminfo heap_used heap_total args) /\
  keeps (A := A) (cmd_dmesg args).
Proof. unfold cmd_uptime, cmd_kill, cmd_meminfo, cmd_dmesg. split_and!; keep. Qed.
Lemma keeps_edit args : keeps (A := A) (cmd_edit local_buf args).
Proof.
  unfold cmd_edit. keep. intros w Hw. by destruct (editor_open _ _ _).
Qed.
Lemma keeps_cp args : keeps (A := A) (cmd_cp local_buf args).
Proof. unfold cmd_cp, shell. keep. Qed.
Hint Resolve keeps_cp : keeps.
Lemma keeps_mv args : keeps (A := A) (cmd_mv local_buf args).
Proof. unfold cmd_mv. keep. Qed.
Lemma keeps_dump_loop n fd o : keeps (A := A) (dump_loop local_buf n fd o).
Proof. revert o. induction n as [|n IH]; intros o; cbn [dump_loop]; unfold dump_row, shell_print_hex; keep. Qed.
Hint Resolve keeps_dump_loop : keeps.
Lemma keeps_hexdump args : keeps (A := A) (cmd_hexdump local_buf args).
Proof. unfold cmd_hexdump. keep. Qed.
Lemma keeps_sleep args : keeps (cmd_sleep _kernel_end busy path_fuel call_at args).
Proof. unfold cmd_sleep. keep; intros w Hw; unfold pit_sleep_ms; by destruct (pit_sleep _ _ _ _ _ _). Qed.
Lemma keeps_repeat n m : keeps (A := A) m -> keeps (repeat_cmd n m).
Proof. intros Hm. induction n as [|n IH]; cbn [repeat_cmd]; keep. Qed.
Lemma keeps_bench args : keeps (A := A) (cmd_bench args).
Proof. unfold cmd_bench. keep; try apply keeps_repeat; unfold bench_kmalloc, bench_open; keep. Qed.

(** The file manager. *)
Lemma fm_select_typed i o f : 0 <= i < 32 -> fm_typed f -> fm_typed (fm_select i o f).
Proof. by intros Hi []. Qed.
Lemma fm_goto_typed p f : fm_typed f -> fm_typed (fm_goto p f).
Proof. by intros []. Qed.
Lemma fm_add_typed n f : fm_num_entries f < 32 -> fm_typed f -> fm_typed (fm_add n f).
Proof. intros Hn []. constructor; cbn; [by rewrite length_insert|lia|done]. Qed.
Lemma fm_clamp_typed f : fm_typed f -> fm_typed (fm_clamp f).
Proof. intros Hf. pose proof Hf as []. unfold fm_clamp. apply fm_select_typed; [|done]. repeat case_if; bool_to_prop; lia. Qed.
Lemma fm_restart_typed f : fm_typed f -> fm_typed (let f := fm_clear f in if is_path (fm_path f) "/" then f else fm_add (str "..") f).
Proof. intros Hf. assert (fm_typed (fm_clear f)) as Hc by (destruct Hf; constructor; cbn; lia). cbv zeta. case_if; [done|]. by apply fm_add_typed. Qed.

Lemma keeps_fm_fill n fd : keeps (A := A) (fm_fill n fd).
Proof.
  induction n as [|n IH]; cbn [fm_fill]; [keep|]. intros w Hw. unfold fm_now, bind at 1, get.
  destruct (Z.ltb_spec (fm_num_entries (fm w)) 32) as [Hlt|]; [|done].
  unfold bind. unfold v_readdir, on_vfs.
  destruct (let '(r, n0, s0) := vfs_readdir fd VFS_MAX_NAME (k_vfs (wk w)) in _) as [[[name|] s0]|]; [|done|done].
  unfold seqM, bind, on_fm, modify. apply IH. destruct Hw as (H1 & H2 & H3). split; [done|]. split; [done|]. by apply fm_add_typed.
Qed.
Hint Resolve keeps_fm_fill : keeps.
Lemma keeps_fm_refresh : keeps (A := A) fm_refresh.
Proof.
  unfold fm_refresh, fm_now. keep; apply keeps_fm; [apply fm_restart_typed|apply fm_clamp_typed].
Qed.
Lemma keeps_fm_draw : keeps (A := A) fm_draw.
Proof. unfold fm_draw, fm_now, fm_line. keep. Qed.
Hint Resolve keeps_fm_refresh keeps_fm_draw : keeps.
Lemma keeps_fm_enter : keeps (A := A) fm_enter.
Proof. unfold fm_enter, fm_now. keep; apply keeps_fm; intros; by apply fm_goto_typed. Qed.
Hint Resolve keeps_fm_enter : keeps.

(** A move of the selection, made on the state it was computed from. *)
Lemma keeps_fm_key c : keeps (A := A) (fm_key c).
Proof.
  intros w Hw. unfold fm_key, fm_now, bind at 1, get. pose proof Hw as (H1 & H2 & Hf). pose proof Hf as [].
  case_if; [by apply (keeps_seq cls (pure (Some 0))); keep|].
  assert (forall i o, 0 <= i < 32 -> match seqM (on_fm (fm_select i o)) (seqM fm_draw (pure (@None Z))) w with Ok _ w' | Hang w' => typed w' | Crash => True end) as Hmove.
  { intros i o Hi. unfold seqM, bind at 1, on_fm, modify. apply (keeps_seq fm_draw (pure None)); [keep..|].
    split; [done|]. split; [done|]. by apply fm_select_typed. }
  case_if; [|case_if; [|case_if; [by apply (keeps_seq fm_enter (pure None)); keep|done]]].
  - destruct (Z.ltb_spec (fm_selected (fm w)) (fm_num_entries (fm w) - 1)); [|done]. cbv zeta.
    specialize (Hmove (fm_selected (fm w) + 1) (if fm_offset (fm w) + 20 <=? fm_selected (fm w) + 1 then fm_offset (fm w) + 1 else fm_offset (fm w)) ltac:(lia)).
    revert Hmove. unfold seqM, bind, on_fm, modify. by destruct (fm_draw _).
  - destruct (Z.ltb_spec 0 (fm_selected (fm w))); [|done]. cbv zeta.
    specialize (Hmove (fm_selected (fm w) - 1) (if fm_selected (fm w) - 1 <? fm_offset (fm w) then fm_offset (fm w) - 1 else fm_offset (fm w)) ltac:(lia)).
    revert Hmove. unfold seqM, bind, on_fm, modify. by destruct (fm_draw _).
Qed.
Hint Resolve keeps_fm_key : keeps.
Lemma keeps_fm_cmd args : keeps (A := A) (cmd_fm args).
Proof. unfold cmd_fm. keep. apply keeps_fm. intros f Hf. apply fm_select_typed; [lia|]. by apply fm_goto_typed. Qed.

(** *** Running a command line *)

Context (cmd_browser cmd_install : list (list Z) -> M A Z).
Context (Hbrowser : forall args, keeps (cmd_browser args)) (Hinstall : forall args, keeps (cmd_install args)).

Lemma set_exit_typed c st : shell_typed st -> shell_typed (set_exit c st).
Proof. by intros []. Qed.

Lemma keeps_builtins args :
  Forall (fun f : list (list Z) -> M A Z => keeps (f args))
    (builtin_funcs _kernel_end busy path_fuel call_at cpuid heap_used local_buf heap_total cmd_browser cmd_install).
Proof.
  destruct (keeps_files args) as (H1 & H2 & H3 & H4 & H5 & H6 & H7 & H8), (keeps_system args) as (S1 & S2 & S3 & S4).
  unfold builtin_funcs. repeat (apply Forall_cons; split).
  - apply keeps_help.
  - apply keeps_cd.
  - apply keeps_pwd.
  - apply keeps_ls.
  - apply keeps_cat.
  - apply keeps_echo.
  - exact H1.
  - exact H2.
  - exact H3.
  - apply keeps_cpuinfo.
  - exact H4.
  - exact H5.
  - exact H6.
  - exact H7.
  - exact H8.
  - apply keeps_fm_cmd.
  - apply Hbrowser.
  - apply Hinstall.
  - exact S1.
  - apply keeps_ps.
  - exact S2.
  - exact S3.
  - exact S4.
  - apply keeps_edit.
  - apply keeps_cp.
  - apply keeps_mv.
  - apply keeps_hexdump.
  - apply keeps_sleep.
  - apply keeps_bench.
  - constructor.
Qed.

Lemma keeps_exec command :
  (length command < 256)%nat ->
  keeps (shell_exec _kernel_end busy path_fuel call_at cpuid heap_used local_buf heap_total cmd_browser cmd_install command).
Proof.
  intros Hl. unfold shell_exec. destruct (skip_blanks command); [keep|]. apply keeps_seq.
  { apply keeps_shell. intros st Hst. by apply history_add_typed. }
  cbv zeta. destruct (parse_command _) as [|name args]; [keep|]. destruct (find_builtin name) as [i|].
  - apply keeps_bind.
    + destruct (nth_in_or_default i (builtin_funcs _kernel_end busy path_fuel call_at cpuid heap_used local_buf heap_total cmd_browser cmd_install)
        (fun _ => pure 0)) as [Hin| ->]; [|keep].
      pose proof (keeps_builtins (name :: args)) as Hall. rewrite List.Forall_forall in Hall. by apply (Hall _ Hin).
    + intros code. keep. apply keeps_shell. intros st. apply set_exit_typed.
  - keep. apply keeps_shell. intros st. apply set_exit_typed.
Qed.
End Commands.

(** ** Completion *)

Section Completion.
Context {A : Type} `{!Allocator A}.

(** What a command returns, when it returns. *)
Definition returns {X} (m : M A X) (Q : X -> Prop) : Prop := forall w, match m w with Ok x _ => Q x | _ => True end.
Lemma returns_pure {X} (x : X) (Q : X -> Prop) : Q x -> returns (pure x) Q.
Proof. by intros H w. Qed.
Lemma returns_bind {X Y} (m : M A X) (f : X -> M A Y) Q : (forall x, returns (f x) Q) -> returns (bind m f) Q.
Proof. intros Hf w. unfold bind. destruct (m w) as [x w'|w'|]; [apply Hf|done|done]. Qed.
Lemma returns_seq {X Y} (m : M A X) (f : M A Y) Q : returns f Q -> returns (seqM m f) Q.
Proof. intros Hf. by apply returns_bind. Qed.
Lemma returns_then {X Y} (m : M A X) (f : X -> M A Y) P Q :
  returns m P -> (forall x, P x -> returns (f x) Q) -> returns (bind m f) Q.
Proof. intros Hm Hf w. unfold bind. specialize (Hm w). destruct (m w) as [x w'|w'|]; [by apply Hf|done|done]. Qed.

(** The line grows at its end and stays within the buffer. *)
Definition extends (max_len : Z) (buf : list Z) (r : bool * list Z) : Prop :=
  exists add, snd r = buf ++ add /\ (Z.of_nat (length buf) < max_len -> Z.of_nat (length (snd r)) < max_len) /\
  (fst r = false -> add = []).

Lemma extends_same n buf : extends n buf (false, buf).
Proof. exists []. cbn. by rewrite app_nil_r. Qed.

Lemma complete_with_spec n buf add buf' :
  complete_with n buf add = Some buf' -> buf' = buf ++ add /\ add <> [] /\ Z.of_nat (length buf') < n - 1.
Proof.
  unfold complete_with. destruct (_ && _) eqn:H; [|done]. intros [= <-]. apply andb_true_iff in H as [H1 H2]. bool_to_prop.
  split; [done|]. split; [by destruct add|]. by rewrite length_app.
Qed.

Lemma extends_char n buf add buf' c : complete_with n buf add = Some buf' -> extends n buf (true, add_char n c buf').
Proof.
  intros H. apply complete_with_spec in H as (-> & _ & Hl). unfold extends, add_char. cbn [fst snd].
  replace (_ <? n - 1) with true by lia. exists (add ++ [c]). rewrite app_assoc. split; [done|]. split; [|done].
  intros _. rewrite length_app. cbn. lia.
Qed.
Lemma extends_word n buf add buf' : complete_with n buf add = Some buf' -> extends n buf (true, buf').
Proof. intros H. apply complete_with_spec in H as (-> & _ & Hl). exists add. cbn [fst snd]. split; [done|]. split; [lia|done]. Qed.

Ltac ret_step :=
  match goal with
  | |- returns (bind _ _) _ => apply returns_bind; intro
  | |- returns (seqM _ _) _ => apply returns_seq
  | |- returns (if ?b then _ else _) _ => destruct b
  | |- returns (let '(_, _) := ?p in _) _ => destruct p
  | |- returns (match ?o with Some _ => _ | None => _ end) _ => destruct o eqn:?
  | |- returns (pure _) _ => apply returns_pure
  end.

Lemma complete_builtin_extends n p buf : returns (complete_builtin n p buf) (extends n buf).
Proof.
  unfold complete_builtin. destruct (builtin_matches p) as [|m [|m' ms]].
  - apply returns_pure, extends_same.
  - destruct (complete_with _ _ _) as [buf'|] eqn:Hc; apply returns_pure; [by eapply extends_char|apply extends_same].
  - destruct (complete_with _ _ _) as [buf'|] eqn:Hc.
    + apply returns_pure. by eapply extends_word.
    + repeat ret_step. apply extends_same.
Qed.

Lemma complete_file_extends n p buf :
  returns (complete_file n p buf) (fun o => match o with Some r => extends n buf r | None => True end).
Proof.
  unfold complete_file. repeat ret_step; try done; [by eapply extends_char|apply extends_same].
Qed.

Lemma tab_extends n buf : returns (shell_tab_complete (A := A) n buf) (extends n buf).
Proof.
  unfold shell_tab_complete. destruct (take 63 (word_of buf [])) as [|c p]; [apply returns_pure, extends_same|].
  destruct (bool_decide _ || bool_decide _); [|apply complete_builtin_extends].
  eapply returns_then; [apply complete_file_extends|]. intros [r|] Hr; [by apply returns_pure|apply complete_builtin_extends].
Qed.

(** Tab completion cannot damage the command line: whatever is in it and whatever the
    directories hold, when [shell_tab_complete] returns it has only added
    characters behind the cursor, none if it reports no completion, and the line
    with its NUL still fits the buffer. *)
Theorem tab_complete_extends n buf w :
  match shell_tab_complete (A := A) n buf w with
  | Ok r _ => extends n buf r
  | _ => True
  end.
Proof. apply tab_extends. Qed.
End Completion.

(** ** A concrete shell *)

Definition shell0 : shell_state := shell_init (replicate 16 []).
Lemma shell0_typed : shell_typed shell0.
Proof. constructor; cbn; try lia; try done. Qed.

(** Two commands, one of them typed twice. *)
Lemma history_recall_witness :
  let st := history_add (str "ls") (history_add (str "pwd") shell0) in
  fst (shell_history_prev 256 (ups 1 (history_add (str "ls") st))) = Some (str "pwd").
Proof.
  set (st := history_add (str "ls") (history_add (str "pwd") shell0)).
  assert (shell_typed st) as Ht.
  { apply history_add_typed; [apply history_add_typed; [exact shell0_typed|]|]; cbn; lia. }
  destruct (history_recall (str "ls") st Ht ltac:(cbn; lia)) as (_ & _ & _ & H & _).
  specialize (H 2%nat ltac:(lia)). exact H.
Defined.
