(* ===== verification/Browser.v ===== *)
(** * browser.c, the text browser

    The page is the list of its [content_length] bytes.  A URL argument may point
    into the history, whose rows [browser_navigate] moves, so it is a reference
    ([url_ref]) that is read each time the code reads it.  [page_buf] is the
    address of [page_content]. *)
From Stdlib Require Import String.
From S2P Require Import Prelude Mem Alloc Tcb Ipc Vfs Io Serial Syscall Hal Editor World Shell.
#[local] Open Scope cmd_scope.

Definition BROWSER_MAX_PAGE_SIZE : Z := 4096.
Definition BROWSER_VIEWPORT_LINES : Z := 20.
Definition BROWSER_HISTORY_SIZE : Z := 16.
Definition HTTP_OK : Z := 200.
Definition HTTP_BAD_REQUEST : Z := 400.
Definition HTTP_NOT_FOUND : Z := 404.
Definition CONTENT_TEXT : Z := 1.
Definition CONTENT_UNKNOWN : Z := 2.

Record browser_state := mk_browser {
  current_url : list Z; page_content : list Z; content_type : Z; status_code : Z;
  scroll_offset : Z; viewport_lines : Z; b_history : list (list Z); b_index : Z; b_count : Z; status_message : list Z
}.
Definition content_length (b : browser_state) : Z := Z.of_nat (length (page_content b)).

(** The array of the history is not initialised. *)
Definition browser_init (rows : list (list Z)) : browser_state :=
  mk_browser [] [] CONTENT_UNKNOWN 0 0 BROWSER_VIEWPORT_LINES rows (-1) 0 [].

Definition set_url (u : list Z) (b : browser_state) : browser_state :=
  mk_browser u (page_content b) (content_type b) (status_code b) (scroll_offset b) (viewport_lines b) (b_history b) (b_index b) (b_count b) (status_message b).
Definition set_page (p : list Z) (b : browser_state) : browser_state :=
  mk_browser (current_url b) p (content_type b) (status_code b) (scroll_offset b) (viewport_lines b) (b_history b) (b_index b) (b_count b) (status_message b).
Definition set_status (code : Z) (msg : list Z) (b : browser_state) : browser_state :=
  mk_browser (current_url b) (page_content b) (content_type b) code (scroll_offset b) (viewport_lines b) (b_history b) (b_index b) (b_count b) msg.
Definition set_message (msg : list Z) (b : browser_state) : browser_state := set_status (status_code b) msg b.
Definition set_offset (o : Z) (b : browser_state) : browser_state :=
  mk_browser (current_url b) (page_content b) (content_type b) (status_code b) o (viewport_lines b) (b_history b) (b_index b) (b_count b) (status_message b).
Definition set_history (h : list (list Z)) (i n : Z) (b : browser_state) : browser_state :=
  mk_browser (current_url b) (page_content b) (content_type b) (status_code b) (scroll_offset b) (viewport_lines b) h i n (status_message b).

(** [browser_load_file]. *)
Definition browser_load_file (content : list Z) (b : browser_state) : browser_state :=
  let page := take (Z.to_nat (BROWSER_MAX_PAGE_SIZE - 1)) content in
  mk_browser (current_url b) page CONTENT_TEXT (status_code b) 0 (viewport_lines b) (b_history b) (b_index b) (b_count b) (status_message b).

(** ** Navigation *)

Inductive url_ref := url_text (s : list Z) | url_row (i : nat).
Definition deref (u : url_ref) (b : browser_state) : list Z :=
  match u with url_text s => s | url_row i => b_history b !!! i end.

(** The rows moved one down in place, one after the other, then the last row. *)
Fixpoint shift_rows (n : nat) (h : nat) (rows : list (list Z)) : list (list Z) :=
  match n with O => rows | S n' => shift_rows n' (S h) (<[h := rows !!! S h]> rows) end.
Definition add_history (u : url_ref) (b : browser_state) : browser_state :=
  if b_count b <? BROWSER_HISTORY_SIZE then
    set_history (<[Z.to_nat (b_count b) := deref u b]> (b_history b)) (b_count b) (b_count b + 1) b
  else
    let b := set_history (shift_rows 15 0 (b_history b)) (b_index b) (b_count b) b in
    set_history (<[15%nat := deref u b]> (b_history b)) (BROWSER_HISTORY_SIZE - 1) (b_count b) b.

Definition nl (s : string) : list Z := str s ++ [10].
Definition help_text : list Z :=
  nl "TINX TUI Web Browser Help" ++ nl "========================" ++ nl "" ++ nl "Commands:" ++
  nl "  open <url>   - Navigate to URL" ++ nl "  back         - Go back in history" ++ nl "  forward      - Go forward in history" ++
  nl "  reload       - Reload current page" ++ nl "  home         - Go to home page" ++ nl "  quit         - Exit browser" ++ nl "" ++
  nl "Navigation:" ++ nl "  UP/P         - Scroll up" ++ nl "  DOWN/N       - Scroll down" ++ nl "  G            - Go to URL" ++
  nl "  B            - Back" ++ nl "  F            - Forward" ++ nl "  Q            - Quit" ++ nl "" ++
  nl "Supported URLs:" ++ nl "  file://path  - Local files" ++ str "  about:xxx    - Built-in pages".
Definition version_text : list Z :=
  nl "TINX TUI Web Browser" ++ nl "Version 1.0" ++ nl "" ++ nl "Features:" ++ nl "  - Text-based rendering" ++
  nl "  - Local file support" ++ nl "  - History navigation" ++ nl "  - Simple HTML parsing" ++ nl "" ++ str "Built for Tinx Kernel".

Section Browser.
Context {A : Type} `{!Allocator A}.
Context (page_buf : Z).
Notation M := (M A).

Definition file_not_found (b : browser_state) : browser_state :=
  set_page [] (set_status HTTP_NOT_FOUND (str "File not found") b).

Definition browser_navigate (u : url_ref) (b : browser_state) : M (Z * browser_state) :=
  let url := deref u b in
  if is_path url "about:blank" then
    pure (0, set_status HTTP_OK (str "Blank page") (set_page [] (set_url url b)))
  else if is_path url "about:help" then
    pure (0, set_status HTTP_OK (str "Help page") (browser_load_file help_text (set_url url b)))
  else if is_path url "about:version" then
    pure (0, set_status HTTP_OK (str "Version info") (browser_load_file version_text (set_url url b)))
  else if is_prefix (str "file://") url then
    let path := match drop 7 url with [] => str "/" | p => p end in
    let b := set_url url b in
    fd <- v_open path VFS_MODE_READ;;
    if 0 <=? fd then
      n <- v_read fd page_buf (BROWSER_MAX_PAGE_SIZE - 1);;
      v_close fd;;
      if 0 <=? n then
        bs <- peek_bytes (Z.min n (BROWSER_MAX_PAGE_SIZE - 1)) page_buf;;
        pure (0, add_history u (set_message (str "Loaded") (set_offset 0 (set_status HTTP_OK (status_message b) (set_page bs b)))))
      else pure (-1, file_not_found b)
    else pure (-1, file_not_found b)
  else pure (-1, set_status HTTP_BAD_REQUEST (str "Unsupported URL scheme") (set_url url b)).

Definition browser_back (b : browser_state) : M (Z * browser_state) :=
  if 0 <? b_index b then
    let i := b_index b - 1 in
    r <- browser_navigate (url_row (Z.to_nat i)) (set_history (b_history b) i (b_count b) b);; pure (0, snd r)
  else pure (-1, b).
Definition browser_forward (b : browser_state) : M (Z * browser_state) :=
  if b_index b <? b_count b - 1 then
    let i := b_index b + 1 in
    r <- browser_navigate (url_row (Z.to_nat i)) (set_history (b_history b) i (b_count b) b);; pure (0, snd r)
  else pure (-1, b).

(** ** Drawing *)

(** The viewport: the characters from the scroll offset, 78 columns, until the
    lines are full; the lines shown. *)
Fixpoint draw_page (page : list Z) (col lines max : Z) : M Z :=
  match page with
  | [] => pure lines
  | c :: page' =>
      if lines <? max then
        if c =? 10 then put 10;; draw_page page' 0 (lines + 1) max
        else if col <? 78 then put c;; draw_page page' (col + 1) lines max
        else draw_page page' col lines max
      else pure lines
  end.
Definition rule : list Z := str "----------------------------------------".
Definition browser_draw_ui (b : browser_state) : M unit :=
  cls;;
  sayln (str "========================================");;
  sayln (str "     TINX TUI WEB BROWSER v1.0");;
  sayln (str "========================================");;
  say (str "URL: ");; sayln (current_url b);;
  sayln rule;;
  (if 0 <? content_length b then
     lines <- draw_page (drop (Z.to_nat (scroll_offset b)) (page_content b)) 0 0 (viewport_lines b);;
     put_all (replicate (Z.to_nat (viewport_lines b - lines)) 10)
   else
     sayln [];; sayln (str "  [No content loaded]");; sayln (str "  Use 'open <url>' to load a page");;
     sayln (str "  or 'help' for commands"));;
  sayln rule;;
  (match status_message b with
   | [] =>
       say (str "Status: ");;
       if status_code b =? HTTP_OK then sayln (str "OK")
       else if status_code b =? HTTP_NOT_FOUND then sayln (str "Not Found")
       else if negb (status_code b =? 0) then say (str "HTTP ");; say_dec (status_code b);; sayln []
       else sayln (str "Idle")
   | msg => say (str "Status: ");; sayln msg
   end);;
  sayln rule;;
  sayln (str "Controls: UP/DOWN=scroll, G=go, B=back, F=fwd, Q=quit").

(** ** Keys *)

Definition max_offset (b : browser_state) : Z := Z.max 0 (content_length b - viewport_lines b * 40).
(** [None]: quit. *)
Definition browser_input (c : Z) (b : browser_state) : M (option browser_state) :=
  let drawn b := browser_draw_ui b;; pure (Some b) in
  if is_key c [113; 81] then pure None
  else if is_key c [110; 78; KEY_DOWN] then
    if scroll_offset b <? max_offset b then drawn (set_offset (Z.min (scroll_offset b + 40) (max_offset b)) b)
    else pure (Some b)
  else if is_key c [112; 80; KEY_UP] then
    if 0 <? scroll_offset b then drawn (set_offset (Z.max 0 (scroll_offset b - 40)) b) else pure (Some b)
  else if is_key c [98; 66] then r <- browser_back b;; drawn (snd r)
  else if is_key c [102; 70] then r <- browser_forward b;; drawn (snd r)
  else if is_key c [103; 71] then drawn (set_message (str "Use 'open' command for navigation") b)
  else if is_key c [104; 72] then r <- browser_navigate (url_text (str "about:help")) b;; drawn (snd r)
  else pure (Some b).

(** The main loop; it polls on when the scan codes are used up. *)
Fixpoint browser_loop (fuel : nat) (b : browser_state) : M Z :=
  match fuel with
  | O => fun w => Hang w
  | S f =>
      c <- getch;;
      if c =? 0 then browser_loop f b else
      o <- browser_input c b;;
      match o with Some b => browser_loop f b | None => cls;; pure 0 end
  end.

Context (rows : list (list Z)).
Definition cmd_browser : list (list Z) -> M Z := fun args =>
  let b := browser_init rows in
  sayln (str "Starting TUI Web Browser...");;
  r <- browser_navigate (url_text (if (2 <=? length args)%nat then arg args 1 else str "about:help")) b;;
  let b := snd r in
  browser_draw_ui b;;
  fun w => browser_loop (length (k_keys (wk w))) b w.
End Browser.

(** ** browser_parse_html *)

(** What a tag puts into the text: [rest] is what follows the bracket. *)
Definition tag_text (rest : list Z) : list Z :=
  match rest with
  | 98 :: 114 :: _ => [10]
  | 112 :: c :: _ => if (c =? 62) || (c =? 32) then [10; 10] else []
  | 47 :: 112 :: _ => [10; 10]
  | 47 :: 100 :: 105 :: 118 :: _ => [10]
  | _ => []
  end.
Fixpoint html_loop (html : list Z) (in_tag : bool) (max_len : Z) (out : list Z) : list Z :=
  match html with
  | [] => out
  | c :: rest =>
      if Z.of_nat (length out) <? u32 (max_len - 1) then
        if c =? 60 then html_loop rest true max_len (out ++ tag_text rest)
        else if c =? 62 then html_loop rest false max_len out
        else html_loop rest in_tag max_len (if in_tag then out else out ++ [c])
      else out
  end.
(** The characters written before the NUL. *)
Definition browser_parse_html (html : list Z) (max_len : Z) : list Z := html_loop html false max_len [].
