(* ===== verification/BrowserCorrect.v ===== *)
(** * The browser: bounds, history and the tag stripper *)
From Stdlib Require Import String.
From S2P Require Import Prelude Mem Alloc Heap Tcb Ipc Vfs Io Serial Syscall SyscallCorrect Hal HalCorrect Editor Ata World Shell ShellCorrect Browser.
#[local] Open Scope cmd_scope.

(** ** The tag stripper *)

Lemma tag_text_short rest : (length (tag_text rest) <= 2)%nat.
Proof. unfold tag_text. repeat (case_match; try (cbn; lia)). Qed.
Lemma tag_text_newlines rest : Forall (fun c => c = 10) (tag_text rest).
Proof. unfold tag_text. repeat (case_match; try (repeat constructor)). Qed.

Lemma html_loop_bound html t max out :
  1 <= max < 2 ^ 32 -> Z.of_nat (length out) <= max -> Z.of_nat (length (html_loop html t max out)) <= max.
Proof.
  intros Hm. revert t out. induction html as [|c rest IH]; intros t out Ho; cbn [html_loop]; [done|].
  rewrite u32_small by lia. destruct (Z.ltb_spec (Z.of_nat (length out)) (max - 1)); [|done].
  pose proof (tag_text_short rest). repeat case_if; apply IH; rewrite ?length_app; cbn; lia.
Qed.

Definition no_bracket (s : list Z) : Prop := Forall (fun c => c <> 60 /\ c <> 62) s.

Lemma html_loop_clean html t max out : no_bracket out -> no_bracket (html_loop html t max out).
Proof.
  revert t out. induction html as [|c rest IH]; intros t out Ho; cbn [html_loop]; [done|].
  assert (no_bracket (tag_text rest)) as Ht by (eapply Forall_impl; [apply tag_text_newlines|]; intros ? ->; lia).
  repeat case_if; bool_to_prop; try done; apply IH; try done; try (by apply Forall_app).
  apply Forall_app. split; [done|]. by constructor.
Qed.

Lemma html_loop_text html max out :
  no_bracket html -> 1 <= max < 2 ^ 32 -> Z.of_nat (length out + length html) < max ->
  html_loop html false max out = out ++ html.
Proof.
  intros Hb Hm. revert out. induction Hb as [|c rest [H60 H62] _ IH]; intros out Hl; cbn [html_loop length] in *; [by rewrite app_nil_r|].
  rewrite u32_small by lia. replace (_ <? _) with true by lia. replace (c =? 60) with false by lia. replace (c =? 62) with false by lia.
  rewrite IH by (rewrite length_app; cbn; lia). by rewrite <- app_assoc.
Qed.

(** The tag stripper: for any page and any buffer size the text has no angle brackets,
    a page without brackets that fits is copied unchanged, and at most [max_len]
    characters are written before the NUL.  The bound is exact: a closing
    paragraph tag near the end fills all [max_len] characters, so the NUL goes
    one byte behind the buffer. *)
Theorem parse_html_bounds html max :
  1 <= max < 2 ^ 32 ->
  let out := browser_parse_html html max in
  Z.of_nat (length out) <= max /\ no_bracket out /\
  (no_bracket html -> Z.of_nat (length html) < max -> out = html) /\
  (2 <= max -> browser_parse_html (replicate (Z.to_nat (max - 2)) 97 ++ str "<p>") max = replicate (Z.to_nat (max - 2)) 97 ++ [10; 10]).
Proof.
  intros Hm out. split; [apply html_loop_bound; [done|cbn; lia]|]. split; [apply html_loop_clean; constructor|].
  split; [intros Hb Hl; by apply html_loop_text|]. intros H2. unfold browser_parse_html.
  assert (forall n out, Z.of_nat (length out + n) = max - 2 ->
    html_loop (replicate n 97 ++ str "<p>") false max out = out ++ replicate n 97 ++ [10; 10]) as Hgo.
  { induction n as [|n IH]; intros o Hl; cbn [replicate app html_loop].
    - change (str "<p>") with [60; 112; 62]. cbn [html_loop]. rewrite u32_small by lia. replace (_ <? _) with true by lia.
      change (60 =? 60) with true. change (tag_text [112; 62]) with [10; 10]. cbn iota. rewrite length_app. cbn [length].
      by replace (_ <? _) with false by lia.
    - rewrite u32_small by lia. replace (_ <? _) with true by lia. cbn [Z.eqb Pos.eqb]. rewrite IH by (rewrite length_app; cbn; lia).
      by rewrite <- app_assoc. }
  apply (Hgo _ []). cbn. lia.
Qed.

Lemma parse_html_bounds_witness : browser_parse_html (str "aaaaaa<p>") 8 = str "aaaaaa" ++ [10; 10].
Proof. destruct (parse_html_bounds [] 8 ltac:(lia)) as (_ & _ & _ & H). exact (H ltac:(lia)). Defined.

(** ** State *)

Record browser_typed (b : browser_state) : Prop := {
  bt_rows : length (b_history b) = 16%nat;
  bt_count : 0 <= b_count b <= 16;
  bt_index : -1 <= b_index b < Z.max 1 (b_count b);
  bt_page : content_length b < BROWSER_MAX_PAGE_SIZE;
  bt_lines : viewport_lines b = BROWSER_VIEWPORT_LINES;
  bt_scroll : 0 <= scroll_offset b;
  bt_view : 0 < content_length b -> scroll_offset b <= max_offset b
}.

Lemma length_shift_rows n h rows : length (shift_rows n h rows) = length rows.
Proof. revert h rows. induction n as [|n IH]; intros h rows; cbn [shift_rows]; [done|]. by rewrite IH, length_insert. Qed.

Lemma shift_rows_lookup n h rows i :
  (h + n < length rows)%nat ->
  shift_rows n h rows !! i = if decide (h <= i < h + n)%nat then rows !! S i else rows !! i.
Proof.
  revert h rows. induction n as [|n IH]; intros h rows Hl; cbn [shift_rows].
  - by rewrite decide_False by lia.
  - rewrite IH by (rewrite length_insert; lia). destruct (decide (i = h)) as [->|Hne].
    + rewrite decide_False, decide_True by lia. rewrite list_lookup_insert_eq by lia. symmetry. apply list_lookup_lookup_total_lt. lia.
    + repeat case_decide; try lia; by rewrite list_lookup_insert_ne by lia.
Qed.

Lemma add_history_typed u b : browser_typed b -> browser_typed (add_history u b).
Proof.
  intros []. unfold add_history, BROWSER_HISTORY_SIZE. destruct (Z.ltb_spec (b_count b) 16); constructor;
    cbn [b_history b_index b_count set_history]; rewrite ?length_insert, ?length_shift_rows; try done; lia.
Qed.

(** In a full history the row a reference points to is moved before it is read:
    what is recorded is the next row. *)
Lemma add_history_full_aliases i b :
  browser_typed b -> b_count b = 16 -> (i < 15)%nat ->
  b_history (add_history (url_row i) b) !! 15%nat = b_history b !! S i.
Proof.
  intros [] Hc Hi. unfold add_history, BROWSER_HISTORY_SIZE. replace (b_count b <? 16) with false by lia. cbn [b_history set_history deref].
  rewrite list_lookup_insert_eq by (rewrite length_shift_rows; lia).
  assert (shift_rows 15 0 (b_history b) !! i = b_history b !! S i) as Hs by (rewrite shift_rows_lookup by lia; by rewrite decide_True by lia).
  destruct (lookup_lt_is_Some_2 (b_history b) (S i) ltac:(lia)) as [r Hr]. rewrite Hr in *. f_equal. by apply list_lookup_total_correct.
Qed.

Lemma set_url_typed u b : browser_typed b -> browser_typed (set_url u b).
Proof. by intros []. Qed.
Lemma set_status_typed c m b : browser_typed b -> browser_typed (set_status c m b).
Proof. by intros []. Qed.
Lemma empty_page_typed b : browser_typed b -> browser_typed (set_page [] b).
Proof. intros []. by constructor. Qed.
(** A new page is shown from its start. *)
Lemma new_page_typed bs b :
  Z.of_nat (length bs) < BROWSER_MAX_PAGE_SIZE -> browser_typed b -> browser_typed (set_offset 0 (set_page bs b)).
Proof. intros Hl []. constructor; try done. intros _. cbn. unfold max_offset. lia. Qed.
Lemma load_file_typed c b : browser_typed b -> browser_typed (browser_load_file c b).
Proof.
  intros []. constructor; try done.
  - unfold content_length. cbn [page_content browser_load_file]. rewrite length_take. unfold BROWSER_MAX_PAGE_SIZE. lia.
  - intros _. cbn. unfold max_offset. lia.
Qed.
Lemma set_position_typed i b : browser_typed b -> -1 <= i < Z.max 1 (b_count b) -> browser_typed (set_history (b_history b) i (b_count b) b).
Proof. by intros [] Hi. Qed.
Lemma set_offset_typed o b : browser_typed b -> 0 <= o <= max_offset b -> browser_typed (set_offset o b).
Proof. intros [] Ho. constructor; cbn; try done; [lia|]. intros _. exact (proj2 Ho). Qed.
Lemma scroll_up_typed b : browser_typed b -> browser_typed (set_offset (Z.max 0 (scroll_offset b - 40)) b).
Proof.
  intros []. constructor; try done; cbn; [lia|]. intros Hp. specialize (bt_view0 Hp).
  change (max_offset (set_offset _ b)) with (max_offset b). unfold max_offset in *. lia.
Qed.

Section Browsing.
Context {A : Type} `{!Allocator A}.
Context (page_buf : Z) (rows : list (list Z)).

(** Navigation shows the URL it was given and keeps the state well formed. *)
Lemma navigate_returns u b :
  browser_typed b ->
  returns (A := A) (browser_navigate page_buf u b) (fun r => browser_typed (snd r) /\ current_url (snd r) = deref u b).
Proof.
  intros Hb. unfold browser_navigate. cbv zeta. set (url := deref u b). pose proof (set_url_typed url b Hb) as Hu.
  case_if; [by apply returns_pure; split; [apply set_status_typed, empty_page_typed|]|].
  case_if; [by apply returns_pure; split; [apply set_status_typed, load_file_typed|]|].
  case_if; [by apply returns_pure; split; [apply set_status_typed, load_file_typed|]|].
  case_if; [|by apply returns_pure; split; [apply set_status_typed|]].
  assert (browser_typed (file_not_found (set_url url b))) as Hnf by (by apply empty_page_typed, set_status_typed).
  apply returns_bind. intros fd. case_if; [|by apply returns_pure].
  apply returns_bind. intros n. apply returns_seq. case_if; [|by apply returns_pure]. bool_to_prop.
  intros w. unfold bind, peek_bytes, get, pure. cbn [snd]. split.
  - apply add_history_typed. unfold set_message. apply set_status_typed. cbn [set_status].
    assert (forall c m p b, set_offset 0 (set_status c m (set_page p b)) = set_status c m (set_offset 0 (set_page p b))) as Hcomm by done.
    rewrite Hcomm. apply set_status_typed, new_page_typed; [|done]. rewrite length_user_bytes. unfold BROWSER_MAX_PAGE_SIZE. lia.
  - unfold add_history. by case_if.
Qed.

Lemma navigate_keeps u b : keeps (A := A) (browser_navigate page_buf u b).
Proof. unfold browser_navigate. keep. Qed.

(** The browser's arrow through its history: back shows the URL before the current
    position and forward the one behind it, and fails without effect when there
    is none; whatever key is pressed and whatever the files hold, the page stays
    within its buffer, the history within its sixteen rows with the position
    inside it, and the window within the page. *)
Theorem browser_keys_typed c b w :
  browser_typed b ->
  (forall r w', browser_back (A := A) page_buf b w = Ok r w' ->
     if 0 <? b_index b then current_url (snd r) = b_history b !!! Z.to_nat (b_index b - 1) else r = (-1, b)) /\
  (forall r w', browser_forward (A := A) page_buf b w = Ok r w' ->
     if b_index b <? b_count b - 1 then current_url (snd r) = b_history b !!! Z.to_nat (b_index b + 1) else r = (-1, b)) /\
  (forall b' w', browser_input (A := A) page_buf c b w = Ok (Some b') w' -> browser_typed b').
Proof.
  intros Hb. pose proof Hb as [].
  assert (forall i, 0 <= i < Z.max 1 (b_count b) -> returns (A := A) (browser_navigate page_buf (url_row (Z.to_nat i)) (set_history (b_history b) i (b_count b) b))
    (fun r => browser_typed (snd r) /\ current_url (snd r) = b_history b !!! Z.to_nat i)) as Hnav.
  { intros i Hi. apply (navigate_returns (url_row (Z.to_nat i)) (set_history (b_history b) i (b_count b) b)). apply set_position_typed; [done|lia]. }
  assert (returns (A := A) (browser_back page_buf b) (fun r => browser_typed (snd r) /\
    if 0 <? b_index b then current_url (snd r) = b_history b !!! Z.to_nat (b_index b - 1) else r = (-1, b))) as Hback.
  { unfold browser_back. destruct (Z.ltb_spec 0 (b_index b)); [|by apply returns_pure].
    eapply returns_then; [apply Hnav; lia|]. intros r Hr. by apply returns_pure. }
  assert (returns (A := A) (browser_forward page_buf b) (fun r => browser_typed (snd r) /\
    if b_index b <? b_count b - 1 then current_url (snd r) = b_history b !!! Z.to_nat (b_index b + 1) else r = (-1, b))) as Hforward.
  { unfold browser_forward. destruct (Z.ltb_spec (b_index b) (b_count b - 1)); [|by apply returns_pure].
    eapply returns_then; [apply Hnav; lia|]. intros r Hr. by apply returns_pure. }
  split; [intros r w' He; specialize (Hback w); rewrite He in Hback; tauto|].
  split; [intros r w' He; specialize (Hforward w); rewrite He in Hforward; tauto|].
  assert (returns (A := A) (browser_input page_buf c b) (fun o => match o with Some b' => browser_typed b' | None => True end)) as Hin.
  { assert (forall b', browser_typed b' -> returns (A := A) (browser_draw_ui b';; pure (Some b')) (fun o => match o with Some b' => browser_typed b' | None => True end)) as Hdraw
      by (intros b' Hb'; by apply returns_seq, returns_pure).
    unfold browser_input. case_if; [by apply returns_pure|]. case_if.
    { destruct (Z.ltb_spec (scroll_offset b) (max_offset b)); [|by apply returns_pure]. apply Hdraw, set_offset_typed; [done|lia]. }
    case_if. { case_if; [by apply Hdraw, scroll_up_typed|by apply returns_pure]. }
    case_if; [eapply returns_then; [exact Hback|]; intros r [Hr _]; by apply Hdraw|].
    case_if; [eapply returns_then; [exact Hforward|]; intros r [Hr _]; by apply Hdraw|].
    case_if; [by apply Hdraw, set_status_typed|].
    case_if; [eapply returns_then; [by apply navigate_returns|]; intros r [Hr _]; by apply Hdraw|by apply returns_pure]. }
  intros b' w' He. specialize (Hin w). by rewrite He in Hin.
Qed.

(** The command keeps the shell's state. *)
Lemma draw_page_keeps page col lines max : keeps (A := A) (draw_page page col lines max).
Proof. revert col lines. induction page as [|c page IH]; intros col lines; cbn [draw_page]; keep. Qed.
Lemma draw_ui_keeps b : keeps (A := A) (browser_draw_ui b).
Proof. unfold browser_draw_ui. keep; first [apply draw_page_keeps|apply keeps_put_all]. Qed.
Lemma browser_input_keeps c b : keeps (A := A) (browser_input page_buf c b).
Proof.
  unfold browser_input, browser_back, browser_forward. keep; first [apply draw_ui_keeps|apply navigate_keeps].
Qed.
Lemma cmd_browser_keeps args : keeps (A := A) (cmd_browser page_buf rows args).
Proof.
  unfold cmd_browser. keep; try apply navigate_keeps; try apply draw_ui_keeps. intros w Hw.
  generalize (length (k_keys (wk w))). intros n. revert w Hw. change (keeps (A := A) (browser_loop page_buf n x.2)).
  generalize x.2. induction n as [|n IH]; intros b; cbn [browser_loop]; [keep|]. keep; first [apply browser_input_keeps|apply IH].
Qed.
End Browsing.

(** ** A concrete browser *)
#[local] Existing Instance demo_allocator.
Definition w_demo : world heap := mk_world m_demo shell0 [] (mk_fm (str "/") 0 0 (replicate 32 []) 0) []
  (mk_ata true (fun _ => replicate 256 0) 70 (replicate 60 0 ++ [70] ++ replicate 195 0) 0 0 0 0 0 0 idle_drive 0).
Definition browser0 : browser_state := browser_load_file help_text (browser_init (replicate 16 [])).

Lemma browser0_typed : browser_typed browser0.
Proof. apply load_file_typed. constructor; try done; cbn; lia. Qed.

(** UP at the start of the page, and no history to go back to. *)
Lemma browser_keys_typed_witness :
  browser_input 0x300000 KEY_UP browser0 w_demo = Ok (Some browser0) w_demo /\ browser_typed browser0 /\
  forall r w', browser_back 0x300000 browser0 w_demo = Ok r w' -> r = (-1, browser0).
Proof.
  destruct (browser_keys_typed 0x300000 KEY_UP browser0 w_demo browser0_typed) as (H1 & _ & H3).
  split; [reflexivity|]. split; [exact (H3 browser0 w_demo eq_refl)|exact H1].
Defined.
