(* ===== verification/Install.v ===== *)
(** * install.c, installation on a disk

    The drive is the one of [Ata.v].  The functions give [None] when a wait loop
    without a timeout never ends.  Buffers are lists of 512 bytes, the drive takes
    256 words. *)
From Stdlib Require Import String.
From S2P Require Import Prelude Mem Ata Serial.

Definition INSTALL_OK : Z := 0.
Definition INSTALL_ERR_NO_DISK : Z := -1.
Definition INSTALL_ERR_WRITE_FAIL : Z := -2.
Definition INSTALL_ERR_FULL : Z := -4.
Definition PART_TYPE_TINX : Z := 0xDE.

Section Install.
Context (delay : nat -> nat) (busy : list Z -> nat).
Notation outb := (ata_outb delay).

(** [while (timeout-- > 0)] *)
Fixpoint wait_loop (timeout : nat) (d : ata) : Z * ata :=
  match timeout with
  | O => (-1, d)
  | S t => let '(status, d) := ata_inb_status d in
           if Z.land status ATA_STATUS_BSY =? 0 then (0, d) else wait_loop t d
  end.
Definition ata_wait_ready (d : ata) : Z * ata := wait_loop (Z.to_nat 100000) d.

Definition ata_select_drive (n : Z) (d : ata) : Z * ata :=
  ata_wait_ready (outb ATA_PRIMARY_DRIVE (u8 (Z.lor 0xA0 (Z.shiftl (Z.land n 1) 4))) d).

(** [while (!(inb(STATUS) & DRQ)) io_wait();]: once the drive is no longer busy
    its status does not change, so [busy_polls] turns decide. *)
Fixpoint wait_drq (fuel : nat) (d : ata) : option ata :=
  let '(status, d) := ata_inb_status d in
  if negb (Z.land status ATA_STATUS_DRQ =? 0) then Some d else
  match fuel with O => None | S f => wait_drq f d end.

(** The task file for one sector and the command. *)
Definition sector_command (lba cmd : Z) (d : ata) : ata :=
  let d := outb ATA_PRIMARY_SECCOUNT 1 d in
  let d := outb ATA_PRIMARY_LBA_LOW (Z.land lba 0xFF) d in
  let d := outb ATA_PRIMARY_LBA_MID (Z.land (Z.shiftr lba 8) 0xFF) d in
  let d := outb ATA_PRIMARY_LBA_HIGH (Z.land (Z.shiftr lba 16) 0xFF) d in
  let d := outb ATA_PRIMARY_DRIVE (Z.lor 0xE0 (Z.land (Z.shiftr lba 24) 0x0F)) d in
  outb ATA_PRIMARY_COMMAND cmd d.

Fixpoint read_words (n : nat) (d : ata) : list Z * ata :=
  match n with O => ([], d) | S n' => let '(w, d) := ata_inw d in let '(ws, d) := read_words n' d in (w :: ws, d) end.
Definition write_words (ws : list Z) (d : ata) : ata := fold_left (fun d w => ata_outw delay w d) ws d.

(** Words of a byte buffer, low byte first. *)
Fixpoint words_of (bs : list Z) : list Z :=
  match bs with a :: b :: bs' => a + 256 * b :: words_of bs' | _ => [] end.
Fixpoint bytes_of (ws : list Z) : list Z :=
  match ws with w :: ws' => w mod 256 :: w / 256 :: bytes_of ws' | [] => [] end.

(** The bytes read when the result is 0. *)
Definition ata_read_sector (lba : Z) (d : ata) : option (Z * list Z * ata) :=
  let '(r, d) := ata_select_drive 0 d in
  if r <? 0 then Some (-1, [], d) else
  let '(r, d) := ata_wait_ready d in
  if r <? 0 then Some (-1, [], d) else
  let d := sector_command lba ATA_CMD_READ_SECTORS d in
  let '(r, d) := ata_wait_ready d in
  if r <? 0 then Some (-1, [], d) else
  d ← wait_drq (busy_polls d) d;
  let '(ws, d) := read_words 256 d in
  Some (0, bytes_of ws, d).

Definition ata_write_sector (lba : Z) (buffer : list Z) (d : ata) : option (Z * ata) :=
  let '(r, d) := ata_select_drive 0 d in
  if r <? 0 then Some (-1, d) else
  let '(r, d) := ata_wait_ready d in
  if r <? 0 then Some (-1, d) else
  let d := sector_command lba ATA_CMD_WRITE_SECTORS d in
  let '(r, d) := ata_wait_ready d in
  if r <? 0 then Some (-1, d) else
  d ← wait_drq (busy_polls d) d;
  let d := write_words (words_of buffer) d in
  let '(r, d) := ata_wait_ready d in
  if r <? 0 then Some (-1, d) else Some (0, d).

(** The loop of [ata_identify]; [None] for an error, otherwise what is left of
    the timeout after the test. *)
Fixpoint identify_wait (timeout : nat) (d : ata) : option Z * ata :=
  match timeout with
  | O => (Some (-1), d)
  | S t => let '(status, d) := ata_inb_status d in
           if negb (Z.land status ATA_STATUS_ERR =? 0) then (None, d)
           else if negb (Z.land status ATA_STATUS_DRQ =? 0) then (Some (Z.of_nat t), d)
           else identify_wait t d
  end.
Definition ata_identify (d : ata) : Z * list Z * ata :=
  let '(r, d) := ata_select_drive 0 d in
  if r <? 0 then (-1, [], d) else
  let d := outb ATA_PRIMARY_SECCOUNT 0 d in
  let d := outb ATA_PRIMARY_LBA_LOW 0 d in
  let d := outb ATA_PRIMARY_LBA_MID 0 d in
  let d := outb ATA_PRIMARY_LBA_HIGH 0 d in
  let d := outb ATA_PRIMARY_DRIVE 0xA0 d in
  let d := outb ATA_PRIMARY_COMMAND ATA_CMD_IDENTIFY d in
  let '(status, d) := ata_inb_status d in
  if status =? 0 then (-1, [], d) else
  match identify_wait (Z.to_nat 10000) d with
  | (None, d) => (-1, [], d)
  | (Some timeout, d) => if timeout <=? 0 then (-1, [], d) else let '(ws, d) := read_words 256 d in (0, ws, d)
  end.

(** ** install.c on a drive and the serial log *)

Definition log_line (s : string) (l : serial) : serial := serial_writeln busy (str s) l.

Definition install_init (d : ata) (l : serial) : Z * ata * serial :=
  let l := log_line "Install: Initializing disk subsystem..." l in
  let '(r, _, d) := ata_identify d in
  if r =? 0 then (INSTALL_OK, d, log_line "Install: Disk detected" l)
  else (INSTALL_ERR_NO_DISK, d, log_line "Install: No disk detected" l).

(** The text written to [disk_list]. *)
Definition install_detect_disks (d : ata) : Z * list Z * ata :=
  let '(r, _, d) := ata_identify d in if r =? 0 then (1, [48], d) else (0, [], d).

(** The number of sectors, when the call gives 0; [cylinders] divides it by 1008
    and reads it through the pointer for it. *)
Definition install_get_disk_info (disk_num : Z) (d : ata) : Z * Z * ata :=
  if negb (disk_num =? 0) then (-1, 0, d) else
  let '(r, buf, d) := ata_identify d in
  if negb (r =? 0) then (-1, 0, d) else
  (0, u32 (Z.lor (buf !!! 60%nat) (Z.shiftl (buf !!! 61%nat) 16)), d).
Definition cylinders_of (sectors : Z) : Z := sectors / (16 * 63).

(** Sectors [start_lba..] from the bytes of [data]. *)
Fixpoint write_sectors (n : nat) (lba : Z) (data : list Z) (d : ata) (l : serial) : option (Z * ata * serial) :=
  match n with
  | O => Some (0, d, l)
  | S n' =>
      '(r, d) ← ata_write_sector (u32 lba) (take 512 data) d;
      if negb (r =? 0) then Some (-1, d, l) else
      let l := serial_writeln busy [] (serial_write_hex32 busy (u32 lba) (serial_write_str busy (str "Install: Wrote sector ") l)) in
      write_sectors n' (lba + 1) (drop 512 data) d l
  end.
Definition install_write_sectors (disk_num start_lba : Z) (data : list Z) (sector_count : Z) (d : ata) (l : serial)
    : option (Z * ata * serial) :=
  if negb (disk_num =? 0) then Some (-1, d, l) else write_sectors (Z.to_nat sector_count) start_lba data d l.

(** The four bytes of a 32-bit field. *)
Definition le32 (v : Z) : list Z := [v mod 256; v / 256 mod 256; v / 65536 mod 256; v / 16777216 mod 256].
(** The boot record with its one partition. *)
Definition mbr_image (start_sector sector_count : Z) : list Z :=
  replicate 446 0 ++
  [0x80; 0; 0; 0; PART_TYPE_TINX; 0; 0; 0] ++ le32 start_sector ++ le32 sector_count ++
  replicate 48 0 ++ [0x55; 0xAA].
Definition install_write_mbr (disk_num start_sector sector_count : Z) (d : ata) : option (Z * ata) :=
  if negb (disk_num =? 0) then Some (-1, d) else ata_write_sector 0 (mbr_image start_sector sector_count) d.

Definition bootstrap_code : list Z :=
  [0xFA; 0x31; 0xC0; 0x8E; 0xD8; 0x8E; 0xC0; 0xBC; 0x00; 0x7C; 0xFB; 0xBE; 0x00; 0x7E; 0xBB; 0x02; 0x00; 0xBA; 0x20; 0x00;
   0x52; 0x50; 0xB0; 0xEC; 0xE6; 0x1F; 0x58; 0x5A; 0xB2; 0x01; 0xB0; 0x20; 0xE6; 0x1F; 0xBF; 0x00; 0x00; 0x01; 0x00;
   0xB9; 0x00; 0x10; 0xF3; 0xA5; 0xEA; 0x00; 0x00; 0x00; 0x01; 0x08; 0xEB; 0xFE].
Definition tinx_bootloader : list Z := bootstrap_code ++ replicate (510 - length bootstrap_code) 0 ++ [0x55; 0xAA].

(** [kernel_data]: the bytes from the kernel's address on, as many as are read. *)
Definition install_to_disk (disk_num : Z) (kernel_data : list Z) (kernel_size : Z) (d : ata) (l : serial) : option (Z * ata * serial) :=
  let l := log_line "Install: Starting installation..." l in
  let '(r, total_sectors, d) := install_get_disk_info disk_num d in
  if negb (r =? 0) then Some (INSTALL_ERR_NO_DISK, d, log_line "Install: Failed to get disk info" l) else
  let l := log_line " sectors" (serial_write_hex32 busy total_sectors (serial_write_str busy (str "Install: Disk has ") l)) in
  let kernel_sectors := u32 (kernel_size + 511) / 512 in
  let l := log_line " sectors" (serial_write_hex32 busy kernel_sectors (serial_write_str busy (str "Install: Kernel needs ") l)) in
  if total_sectors <? u32 (kernel_sectors + 64) then Some (INSTALL_ERR_FULL, d, log_line "Install: Disk too small" l) else
  let l := log_line "Install: Writing MBR..." l in
  '(r, d) ← install_write_mbr disk_num 64 kernel_sectors d;
  if negb (r =? 0) then Some (INSTALL_ERR_WRITE_FAIL, d, log_line "Install: Failed to write MBR" l) else
  let l := log_line "Install: Writing bootloader..." l in
  '(r, d) ← ata_write_sector 1 tinx_bootloader d;
  if negb (r =? 0) then Some (INSTALL_ERR_WRITE_FAIL, d, log_line "Install: Failed to write bootloader" l) else
  let l := log_line "Install: Writing kernel..." l in
  '(r, d, l) ← install_write_sectors disk_num 64 kernel_data kernel_sectors d l;
  if negb (r =? 0) then Some (INSTALL_ERR_WRITE_FAIL, d, log_line "Install: Failed to write kernel" l) else
  Some (INSTALL_OK, d, log_line "Install: Installation complete!" l).

Definition install_verify (d : ata) (l : serial) : option (Z * ata * serial) :=
  '(r, mbr, d) ← ata_read_sector 0 d;
  if negb (r =? 0) then Some (-1, d, log_line "Install: Verify failed - cannot read MBR" l) else
  if negb (mbr !!! 510%nat =? 0x55) || negb (mbr !!! 511%nat =? 0xAA)
  then Some (-1, d, log_line "Install: Verify failed - invalid MBR signature" l) else
  '(r, buf, d) ← ata_read_sector 64 d;
  if negb (r =? 0) then Some (-1, d, log_line "Install: Verify failed - cannot read kernel sector" l) else
  if existsb (fun b => negb (b =? 0)) buf then Some (0, d, log_line "Install: Verification successful" l)
  else Some (-1, d, log_line "Install: Verify failed - kernel sector is empty" l).
End Install.
