(* ===== verification/InstallCorrect.v ===== *)
(** * An installation is on the disk *)
From Stdlib Require Import String.
From S2P Require Import Prelude Mem Ata Serial Install.

(** ** Words and bytes *)

Definition byte (b : Z) : Prop := 0 <= b < 256.
Lemma bytes_words n bs : length bs = (2 * n)%nat -> Forall byte bs -> bytes_of (words_of bs) = bs /\ length (words_of bs) = n.
Proof.
  revert bs. induction n as [|n IH]; intros bs Hl Hb; [by destruct bs|].
  destruct bs as [|a [|b bs]]; cbn [length] in Hl; try lia. rewrite !Forall_cons in Hb. destruct Hb as (Ha & Hb & Hbs).
  unfold byte in *. destruct (IH bs) as [IH1 IH2]; [lia|done|]. cbn [words_of bytes_of length]. rewrite IH1, IH2. split; [|done].
  do 2 f_equal; [zlia|]. f_equal. zlia.
Qed.

(** ** The drive answers *)

(** Idle, with the disk [f]. *)
Record quiet (d : ata) (f : Z -> list Z) (n : Z) (ident : list Z) : Prop := {
  q_present : present d = true; q_busy : busy_polls d = 0%nat; q_xfer : xfer d = idle_drive;
  q_disk : forall s, disk d s = f s; q_sectors : disk_sectors d = n; q_ident : identity d = ident
}.

Section Drive.
Context (delay : nat -> nat).
(** The drive is never busy for longer than the timeouts allow. *)
Context (Hdelay : forall n, Z.of_nat (delay n) < 9999).

Lemma status_busy d n : answers d = true -> busy_polls d = S n -> ata_inb_status d = (ATA_STATUS_BSY, set_xfer n (xfer d) d).
Proof. intros H1 H2. unfold ata_inb_status. by rewrite H1, H2. Qed.

Lemma wait_ready_ok t d :
  answers d = true -> (busy_polls d < t)%nat -> wait_loop t d = (0, set_xfer 0 (xfer d) d).
Proof.
  revert d. induction t as [|t IH]; intros d Hp Hb; [lia|]. cbn [wait_loop]. destruct (busy_polls d) as [|n] eqn:Hn.
  - unfold ata_inb_status. rewrite Hp, Hn. cbn [negb].
    assert (Z.land (match xfer d with idle_drive => 0x40 | to_read _ | to_write _ _ _ => Z.lor 0x40 ATA_STATUS_DRQ | failed => Z.lor 0x40 ATA_STATUS_ERR end)
      ATA_STATUS_BSY =? 0 = true) as -> by (by destruct (xfer d)).
    f_equal. destruct d. cbn in *. by subst.
  - rewrite (status_busy d n) by done. change (Z.land ATA_STATUS_BSY ATA_STATUS_BSY =? 0) with false. cbn iota.
    rewrite IH; [done|done|cbn; lia].
Qed.

Lemma ata_ready_ok d : answers d = true -> Z.of_nat (busy_polls d) < 9999 -> ata_wait_ready d = (0, set_xfer 0 (xfer d) d).
Proof. intros Hp Hb. apply wait_ready_ok; [done|]. lia. Qed.

(** Idle and selected. *)
Definition chosen (d : ata) (f : Z -> list Z) (n : Z) (i : list Z) : Prop := quiet d f n i /\ answers d = true.

(** Selecting the drive while it is quiet only sets the register. *)
Lemma select_ok d f n i : quiet d f n i -> exists d', ata_select_drive delay 0 d = (0, d') /\ chosen d' f n i.
Proof.
  intros []. unfold ata_select_drive, ata_outb. rewrite q_present0. cbn [negb].
  rewrite ata_ready_ok; [|unfold answers; cbn; by rewrite q_present0|cbn; rewrite q_busy0; lia].
  eexists. split; [reflexivity|]. split; [by constructor|]. unfold answers; cbn; by rewrite q_present0.
Qed.

Lemma ready_quiet d f n i : chosen d f n i -> exists d', ata_wait_ready d = (0, d') /\ quiet d' f n i.
Proof. intros [[] Ha]. rewrite ata_ready_ok; [|done|rewrite q_busy0; lia]. eexists. split; [reflexivity|]. by constructor. Qed.

(** The registers hold the address. *)
Lemma lba_split lba : 0 <= lba < 2 ^ 28 ->
  Z.land lba 0xFF + Z.land (Z.shiftr lba 8) 0xFF * 2 ^ 8 + Z.land (Z.shiftr lba 16) 0xFF * 2 ^ 16 +
  Z.land (Z.lor 0xE0 (Z.land (Z.shiftr lba 24) 0x0F)) 0x0F * 2 ^ 24 = lba.
Proof.
  intros Hl. assert (Z.land (Z.lor 0xE0 (Z.land (Z.shiftr lba 24) 0x0F)) 0x0F = Z.land (Z.shiftr lba 24) 0x0F) as ->.
  { rewrite Z.land_lor_distr_l, <- Z.land_assoc. change (Z.land 0xE0 0x0F) with 0. by rewrite Z.lor_0_l. }
  change 0xFF with (Z.ones 8). change 0x0F with (Z.ones 4). rewrite !Z.land_ones, !Z.shiftr_div_pow2 by lia. zlia.
Qed.

(** The task file, register by register. *)
Lemma out_count v d : present d = true -> ata_outb delay ATA_PRIMARY_SECCOUNT v d = set_count v d.
Proof. intros H. unfold ata_outb. by rewrite H. Qed.
Lemma out_low v d : present d = true -> ata_outb delay ATA_PRIMARY_LBA_LOW v d = set_lba v (lba_mid d) (lba_high d) (drive d) d.
Proof. intros H. unfold ata_outb. by rewrite H. Qed.
Lemma out_mid v d : present d = true -> ata_outb delay ATA_PRIMARY_LBA_MID v d = set_lba (lba_low d) v (lba_high d) (drive d) d.
Proof. intros H. unfold ata_outb. by rewrite H. Qed.
Lemma out_high v d : present d = true -> ata_outb delay ATA_PRIMARY_LBA_HIGH v d = set_lba (lba_low d) (lba_mid d) v (drive d) d.
Proof. intros H. unfold ata_outb. by rewrite H. Qed.
Lemma out_drive v d : present d = true -> ata_outb delay ATA_PRIMARY_DRIVE v d = set_lba (lba_low d) (lba_mid d) (lba_high d) v d.
Proof. intros H. unfold ata_outb. by rewrite H. Qed.
Lemma out_command v d : answers d = true -> ata_outb delay ATA_PRIMARY_COMMAND v d = command delay v d.
Proof. intros H. pose proof H as [Hp _]%andb_true_iff. unfold ata_outb. rewrite Hp. cbn. by rewrite H. Qed.
Lemma task_file cnt lo mi hi dr cmd d : present d = true -> Z.testbit dr 4 = false ->
  ata_outb delay ATA_PRIMARY_COMMAND cmd (ata_outb delay ATA_PRIMARY_DRIVE dr (ata_outb delay ATA_PRIMARY_LBA_HIGH hi
    (ata_outb delay ATA_PRIMARY_LBA_MID mi (ata_outb delay ATA_PRIMARY_LBA_LOW lo (ata_outb delay ATA_PRIMARY_SECCOUNT cnt d))))) =
  command delay cmd (set_lba lo mi hi dr (set_count cnt d)).
Proof.
  intros Hp Hd. rewrite out_count, out_low, out_mid, out_high, out_drive by done. apply out_command.
  unfold answers. cbn [present drive set_lba set_count]. by rewrite Hp, Hd.
Qed.

Definition loaded (d : ata) (x : transfer) (f : Z -> list Z) (n : Z) (i : list Z) : Prop :=
  answers d = true /\ Z.of_nat (busy_polls d) < 9999 /\ xfer d = x /\ (forall s, disk d s = f s) /\ disk_sectors d = n /\ identity d = i.

Lemma start_loaded x d f n i lo mi hi dr cnt : quiet d f n i -> Z.testbit dr 4 = false ->
  loaded (start delay x (set_lba lo mi hi dr (set_count cnt d))) x f n i.
Proof.
  intros [] Hd. unfold loaded, start. split_and!; try done; [|apply Hdelay].
  unfold answers. cbn [present drive set_lba set_count set_xfer count_command]. by rewrite q_present0, Hd.
Qed.

(** The drive register of a sector command: drive 0, LBA, four bits of the address. *)
Lemma drive_bits a : let dr := Z.lor 0xE0 (Z.land a 0x0F) in Z.testbit dr 4 = false /\ Z.testbit dr 6 = true.
Proof. cbv zeta. rewrite !Z.lor_spec, !Z.land_spec. split; [by rewrite andb_false_r|done]. Qed.

Lemma lba_of_set lba d : 0 <= lba < 2 ^ 28 ->
  lba_of (set_lba (Z.land lba 0xFF) (Z.land (Z.shiftr lba 8) 0xFF) (Z.land (Z.shiftr lba 16) 0xFF) (Z.lor 0xE0 (Z.land (Z.shiftr lba 24) 0x0F)) d) = lba.
Proof. intros. unfold lba_of. cbn [lba_low lba_mid lba_high drive set_lba]. by apply lba_split. Qed.

Lemma read_command lba d f n i : quiet d f n i -> 0 <= lba < n -> n <= 2 ^ 28 ->
  loaded (sector_command delay lba ATA_CMD_READ_SECTORS d) (to_read (f lba)) f n i.
Proof.
  intros Hq Hl Hn. destruct (drive_bits (Z.shiftr lba 24)) as [B4 B6]. unfold sector_command.
  rewrite task_file by (apply Hq || done). unfold command. rewrite lba_of_set by lia. unfold uses_lba. cbn [drive set_lba]. rewrite B6.
  replace (disk_sectors _) with n by (symmetry; apply Hq). change (sectors_asked _) with 1%nat.
  destruct (Z.leb_spec (lba + Z.of_nat 1) n); [|lia]. rewrite Z.eqb_refl. cbn [andb sectors_from disk set_lba set_count].
  rewrite app_nil_r, (q_disk _ _ _ _ Hq). by apply start_loaded.
Qed.
Lemma write_command lba d f n i : quiet d f n i -> 0 <= lba < n -> n <= 2 ^ 28 ->
  loaded (sector_command delay lba ATA_CMD_WRITE_SECTORS d) (to_write lba 0 []) f n i.
Proof.
  intros Hq Hl Hn. destruct (drive_bits (Z.shiftr lba 24)) as [B4 B6]. unfold sector_command.
  rewrite task_file by (apply Hq || done). unfold command. rewrite lba_of_set by lia. unfold uses_lba. cbn [drive set_lba]. rewrite B6.
  replace (disk_sectors _) with n by (symmetry; apply Hq). change (sectors_asked _) with 1%nat.
  destruct (Z.leb_spec (lba + Z.of_nat 1) n); [|lia]. cbn [andb].
  change (ATA_CMD_WRITE_SECTORS =? ATA_CMD_READ_SECTORS) with false. rewrite Z.eqb_refl. cbn iota. by apply start_loaded.
Qed.

(** Ready again, the drive still has its transfer. *)
Definition served (d : ata) (x : transfer) (f : Z -> list Z) (n : Z) (i : list Z) : Prop := loaded d x f n i /\ busy_polls d = 0%nat.
Lemma loaded_ready d x f n i : loaded d x f n i -> exists d', ata_wait_ready d = (0, d') /\ served d' x f n i.
Proof. intros (? & ? & ? & ?). rewrite ata_ready_ok by done. eexists. split; [reflexivity|]. repeat split; try tauto; cbn; lia. Qed.
Lemma served_drq d x f n i fuel : served d x f n i -> (match x with to_read _ | to_write _ _ _ => true | _ => false end) = true ->
  wait_drq fuel d = Some d.
Proof.
  intros [(Hp & ? & Hx & ?) Hb] Hd. assert (ata_inb_status d = (Z.lor 0x40 ATA_STATUS_DRQ, d)) as E.
  { unfold ata_inb_status. rewrite Hp, Hb, Hx. by destruct x. }
  destruct fuel; cbn [wait_drq]; by rewrite E.
Qed.
Lemma served_quiet d f n i : served d idle_drive f n i -> quiet d f n i.
Proof. intros [([? _]%andb_true_iff & ? & ? & ? & ? & ?) ?]. by constructor. Qed.

(** The words come out in their order, *)
Lemma read_words_spec ws d f n i : ws <> [] -> served d (to_read ws) f n i ->
  exists d', read_words (length ws) d = (ws, d') /\ served d' idle_drive f n i.
Proof.
  revert d. induction ws as [|w ws IH]; intros d Hne [(Hp & Hb & Hx & Hr) Hb0]; [done|]. cbn [length read_words]. unfold ata_inw. rewrite Hp, Hx. cbn [negb].
  destruct ws as [|w' ws].
  - cbn [length read_words]. eexists. split; [reflexivity|]. repeat split; try done; try apply Hr; rewrite E; lia.
  - destruct (IH (set_xfer (busy_polls d) (to_read (w' :: ws)) d)) as (d' & E & Hs); [done|repeat split; try done; apply Hr|].
    rewrite E. eauto.
Qed.
(** and go in in theirs. *)
Lemma write_words_spec ws done_ lba d f n i : (length done_ + length ws = 256)%nat -> ws <> [] -> served d (to_write lba 0 done_) f n i ->
  loaded (write_words delay ws d) idle_drive (fun s => if s =? lba then done_ ++ ws else f s) n i.
Proof.
  unfold write_words. revert done_ d. induction ws as [|w ws IH]; intros dn d Hl Hne [(Hp & Hb & Hx & Hd & Hr) Hb0]; [done|].
  cbn [fold_left]. unfold ata_outw at 2. rewrite Hp, Hx, length_app. cbn [negb]. cbn [length] in Hl |- *. destruct ws as [|w' ws].
  - cbn [length fold_left] in Hl |- *. destruct (Nat.eqb_spec (length dn + 1) 256); [|lia].
    repeat split; try apply Hr; try done; [apply Hdelay|]. intros s. cbn [disk set_xfer set_disk]. by rewrite Hd.
  - destruct (Nat.eqb_spec (length dn + 1) 256) as [E|_]; [cbn [length] in Hl; lia|].
    replace (dn ++ w :: w' :: ws) with ((dn ++ [w]) ++ w' :: ws) by (by rewrite <- app_assoc).
    apply IH; [rewrite length_app; cbn [length] in *; lia|done|repeat split; try done; apply Hr].
Qed.

(** ** Sectors *)

Lemma write_sector_spec lba buf d f n i :
  quiet d f n i -> 0 <= lba < n -> n <= 2 ^ 28 -> length buf = 512%nat -> Forall byte buf ->
  exists d', ata_write_sector delay lba buf d = Some (0, d') /\ quiet d' (fun s => if s =? lba then words_of buf else f s) n i.
Proof.
  intros Hq Hl Hn Hlen Hb. unfold ata_write_sector. destruct (select_ok _ _ _ _ Hq) as (d1 & -> & Hq1). cbn [Z.ltb Z.compare].
  destruct (ready_quiet _ _ _ _ Hq1) as (d2 & -> & Hq2). cbn [Z.ltb Z.compare].
  destruct (loaded_ready _ _ _ _ _ (write_command lba _ _ _ _ Hq2 Hl Hn)) as (d3 & -> & Hs). cbn [Z.ltb Z.compare].
  rewrite (served_drq _ _ _ _ _ _ Hs eq_refl). cbn [mbind option_bind].
  destruct (bytes_words 256 buf Hlen Hb) as [_ Hw].
  assert (loaded (write_words delay (words_of buf) d3) idle_drive (fun s => if s =? lba then words_of buf else f s) n i) as Hld.
  { apply (write_words_spec (words_of buf) [] lba d3 f n i); [done| |done]. intros E. rewrite E in Hw. done. }
  destruct (loaded_ready _ _ _ _ _ Hld) as (d4 & -> & Hs4). cbn [Z.ltb Z.compare]. eexists. split; [reflexivity|]. by apply served_quiet.
Qed.

Lemma read_sector_spec lba d f n i :
  quiet d f n i -> 0 <= lba < n -> n <= 2 ^ 28 -> length (f lba) = 256%nat ->
  exists d', ata_read_sector delay lba d = Some (0, bytes_of (f lba), d') /\ quiet d' f n i.
Proof.
  intros Hq Hl Hn Hlen. unfold ata_read_sector. destruct (select_ok _ _ _ _ Hq) as (d1 & -> & Hq1). cbn [Z.ltb Z.compare].
  destruct (ready_quiet _ _ _ _ Hq1) as (d2 & -> & Hq2). cbn [Z.ltb Z.compare].
  destruct (loaded_ready _ _ _ _ _ (read_command lba _ _ _ _ Hq2 Hl Hn)) as (d3 & -> & Hs). cbn [Z.ltb Z.compare].
  rewrite (served_drq _ _ _ _ _ _ Hs eq_refl). cbn [mbind option_bind].
  destruct (read_words_spec (f lba) d3 f n i) as (d4 & E & Hs4); [intros E; rewrite E in Hlen; done|done|]. rewrite Hlen in E. rewrite E.
  eexists. split; [reflexivity|]. by apply served_quiet.
Qed.

(** The wait of [ata_identify] sees the words before its timeout. *)
Lemma identify_wait_ok t d ws f n i :
  loaded d (to_read ws) f n i -> (busy_polls d < t)%nat ->
  exists d', identify_wait t d = (Some (Z.of_nat (t - busy_polls d - 1)), d') /\ served d' (to_read ws) f n i.
Proof.
  revert d. induction t as [|t IH]; intros d (Hp & Hb & Hx & Hr) Ht; [lia|]. cbn [identify_wait]. destruct (busy_polls d) as [|b] eqn:E.
  - unfold ata_inb_status. rewrite Hp, E, Hx. cbn [negb].
    change (Z.land (Z.lor 64 ATA_STATUS_DRQ) ATA_STATUS_ERR =? 0) with true.
    change (Z.land (Z.lor 64 ATA_STATUS_DRQ) ATA_STATUS_DRQ =? 0) with false. cbn [negb].
    exists d. split; [do 3 f_equal; lia|]. repeat split; try done; try apply Hr; rewrite E; lia.
  - rewrite (status_busy d b) by done.
    change (Z.land ATA_STATUS_BSY ATA_STATUS_ERR =? 0) with true. change (Z.land ATA_STATUS_BSY ATA_STATUS_DRQ =? 0) with true. cbn [negb].
    destruct (IH (set_xfer b (xfer d) d)) as (d' & -> & Hs); [repeat split; try done; try apply Hr; cbn; lia|cbn; lia|].
    exists d'. split; [|done]. cbn [busy_polls set_xfer]. do 3 f_equal; lia.
Qed.

Lemma status_nonzero d ws f n i : loaded d (to_read ws) f n i ->
  exists st d', ata_inb_status d = (st, d') /\ (st =? 0) = false /\ loaded d' (to_read ws) f n i.
Proof.
  intros (Hp & Hb & Hx & Hr). unfold ata_inb_status. rewrite Hp. cbn [negb]. destruct (busy_polls d) as [|b] eqn:E.
  - rewrite Hx. do 2 eexists. split; [reflexivity|]. split; [done|]. repeat split; try done; try apply Hr; rewrite E; lia.
  - do 2 eexists. split; [reflexivity|]. split; [done|]. repeat split; try done; try apply Hr. cbn. lia.
Qed.

Lemma identify_spec d f n i : quiet d f n i -> length i = 256%nat ->
  exists d', ata_identify delay d = (0, i, d') /\ quiet d' f n i.
Proof.
  intros Hq Hlen. unfold ata_identify. destruct (select_ok _ _ _ _ Hq) as (d1 & -> & Hq1). cbn [Z.ltb Z.compare].
  destruct Hq1 as [Hq1 _]. rewrite task_file by (apply Hq1 || done).
  assert (loaded (command delay ATA_CMD_IDENTIFY (set_lba 0 0 0 160 (set_count 0 d1))) (to_read i) f n i) as Hld.
  { change (command delay ATA_CMD_IDENTIFY (set_lba 0 0 0 160 (set_count 0 d1))) with (start delay (to_read (identity d1)) (set_lba 0 0 0 160 (set_count 0 d1))).
    rewrite (q_ident _ _ _ _ Hq1). by apply start_loaded. }
  destruct (status_nonzero _ _ _ _ _ Hld) as (st & d2 & -> & -> & Hld2).
  destruct (identify_wait_ok (Z.to_nat 10000) d2 i f n i Hld2) as (d3 & -> & Hs); [destruct Hld2 as (_ & ? & _); lia|].
  destruct (Z.leb_spec (Z.of_nat (Z.to_nat 10000 - busy_polls d2 - 1)) 0); [destruct Hld2 as (_ & ? & _); lia|].
  destruct (read_words_spec i d3 f n i) as (d4 & E & Hs4); [intros E; rewrite E in Hlen; done|done|]. rewrite Hlen in E. rewrite E.
  eexists. split; [reflexivity|]. by apply served_quiet.
Qed.

(** The disk with [n] sectors of [data] from [lba] on. *)
Definition written (n : nat) (lba : Z) (data : list Z) (f : Z -> list Z) (s : Z) : list Z :=
  if (lba <=? s) && (s <? lba + Z.of_nat n) then words_of (take 512 (drop (512 * Z.to_nat (s - lba)) data)) else f s.

Lemma quiet_ext d f g n i : (forall s, f s = g s) -> quiet d f n i -> quiet d g n i.
Proof. intros He []. constructor; try done. intros s. by rewrite <- He. Qed.

Lemma written_step m lba data f s :
  written m (lba + 1) (drop 512 data) (fun s => if s =? lba then words_of (take 512 data) else f s) s = written (S m) lba data f s.
Proof.
  unfold written. destruct (Z.eqb_spec s lba) as [->|Hne].
  - destruct (Z.leb_spec (lba + 1) lba); [lia|]. destruct (Z.leb_spec lba lba); [|lia]. destruct (Z.ltb_spec lba (lba + Z.of_nat (S m))); [|lia].
    cbn [andb]. by rewrite Z.sub_diag.
  - destruct (Z.leb_spec (lba + 1) s), (Z.leb_spec lba s); try lia; [|done]. cbn [andb].
    destruct (Z.ltb_spec s (lba + 1 + Z.of_nat m)), (Z.ltb_spec s (lba + Z.of_nat (S m))); try lia; [|done].
    rewrite drop_drop. do 3 f_equal. lia.
Qed.

Context (busy : list Z -> nat).

Lemma write_sectors_spec m lba data d l f n i :
  quiet d f n i -> 0 <= lba -> lba + Z.of_nat m <= n -> n <= 2 ^ 28 -> length data = (512 * m)%nat -> Forall byte data ->
  exists d' l', write_sectors delay busy m lba data d l = Some (0, d', l') /\ quiet d' (written m lba data f) n i.
Proof.
  revert lba data d l f. induction m as [|m IH]; intros lba data d l f Hq H0 Hm Hn Hlen Hb; cbn [write_sectors].
  - do 2 eexists. split; [reflexivity|]. eapply quiet_ext; [|done]. intros s. unfold written.
    destruct (Z.leb_spec lba s), (Z.ltb_spec s (lba + Z.of_nat 0)); try done; lia.
  - rewrite (u32_small lba) by lia.
    destruct (write_sector_spec lba (take 512 data) d f n i) as (d1 & -> & Hq1);
      [done|lia|done|rewrite length_take; lia|by apply Forall_take|]. cbn [mbind option_bind Z.eqb negb].
    edestruct (IH (lba + 1) (drop 512 data) d1) as (d2 & l2 & -> & Hq2); [done|lia|lia|done|rewrite length_drop; lia|by apply Forall_drop|].
    do 2 eexists. split; [reflexivity|]. eapply quiet_ext; [|done]. apply written_step.
Qed.

(** ** No drive *)

Lemma no_drive_out p v d : present d = false -> ata_outb delay p v d = d.
Proof. intros H. unfold ata_outb. by rewrite H. Qed.
Lemma no_drive_ready d : present d = false -> ata_wait_ready d = (0, d).
Proof.
  intros H. unfold ata_wait_ready. destruct (Z.to_nat 100000) eqn:E; [lia|]. cbn [wait_loop]. unfold ata_inb_status, answers. by rewrite H.
Qed.

(** ** The whole installation *)

(** The size a drive states in its identity. *)
Definition states_size (i : list Z) (n : Z) : Prop :=
  length i = 256%nat /\ 0 <= i !!! 60%nat < 65536 /\ 0 <= i !!! 61%nat < 65536 /\ n = i !!! 60%nat + 65536 * i !!! 61%nat.

Lemma lor_high a b : 0 <= a < 65536 -> 0 <= b < 65536 -> u32 (Z.lor a (Z.shiftl b 16)) = a + 65536 * b.
Proof.
  intros Ha Hb. assert (Z.land a (Z.shiftl b 16) = 0) as E.
  { rewrite <- (Z.mod_small a (2 ^ 16)) by lia. rewrite <- Z.land_ones, <- Z.land_assoc by lia.
    rewrite (Z.land_comm (Z.ones 16)), Z.land_ones, Z.shiftl_mul_pow2, Z.mod_mul by lia. by rewrite Z.land_0_r. }
  pose proof (Z.add_lor_land a (Z.shiftl b 16)) as H. rewrite E, Z.add_0_r, Z.shiftl_mul_pow2 in H by lia.
  rewrite Z.shiftl_mul_pow2 by lia. rewrite H, u32_small; lia.
Qed.

Lemma disk_info_spec d f n i : quiet d f n i -> states_size i n ->
  exists d', install_get_disk_info delay 0 d = (0, n, d') /\ quiet d' f n i.
Proof.
  intros Hq (Hl & H60 & H61 & ->). unfold install_get_disk_info. cbn [Z.eqb negb].
  destruct (identify_spec _ _ _ _ Hq Hl) as (d' & -> & Hq'). cbn [Z.eqb negb]. rewrite lor_high by done. eauto.
Qed.

Lemma bytes_replicate m : Forall byte (replicate m 0).
Proof. apply Forall_replicate. unfold byte. lia. Qed.
Lemma le32_bytes v : Forall byte (le32 v).
Proof. unfold le32, byte. repeat constructor; zlia. Qed.
Lemma mbr_sector a b : length (mbr_image a b) = 512%nat /\ Forall byte (mbr_image a b).
Proof.
  unfold mbr_image. split; [rewrite !length_app, !length_replicate; reflexivity|].
  repeat apply Forall_app_2; try apply bytes_replicate; try apply le32_bytes; apply (bool_decide_unpack _); by vm_compute.
Qed.
Lemma boot_sector : length tinx_bootloader = 512%nat /\ Forall byte tinx_bootloader.
Proof.
  split; [by vm_compute|]. apply (bool_decide_unpack _). by vm_compute.
Qed.

(** The disk afterwards. *)
Definition installed (ks : Z) (data : list Z) (f : Z -> list Z) (s : Z) : list Z :=
  written (Z.to_nat ks) 64 data (fun s => if s =? 1 then words_of tinx_bootloader else if s =? 0 then words_of (mbr_image 64 ks) else f s) s.

Lemma install_spec data size d l f n i :
  let ks := (size + 511) / 512 in
  quiet d f n i -> states_size i n -> n <= 2 ^ 28 -> 0 < size < 2 ^ 32 - 511 -> ks + 64 <= n ->
  length data = (512 * Z.to_nat ks)%nat -> Forall byte data ->
  exists d' l', install_to_disk delay busy 0 data size d l = Some (INSTALL_OK, d', l') /\ quiet d' (installed ks data f) n i.
Proof.
  intros ks Hq Hi Hn Hs Hks Hlen Hb. unfold install_to_disk. destruct (disk_info_spec _ _ _ _ Hq Hi) as (d1 & -> & Hq1).
  assert (0 < ks) by (subst ks; zlia). rewrite (u32_small (size + 511)) by lia. fold ks. cbn [Z.eqb negb].
  rewrite (u32_small (ks + 64)) by lia. destruct (Z.ltb_spec n (ks + 64)); [lia|]. unfold install_write_mbr. cbn [Z.eqb negb].
  destruct (mbr_sector 64 ks) as [Hm1 Hm2]. destruct boot_sector as [Hb1 Hb2].
  destruct (write_sector_spec 0 (mbr_image 64 ks) d1 f n i) as (d2 & -> & Hq2); [done|lia|done..|]. cbn [mbind option_bind Z.eqb negb].
  edestruct (write_sector_spec 1 tinx_bootloader d2) as (d3 & -> & Hq3); [done|lia|done..|]. cbn [mbind option_bind Z.eqb negb].
  unfold install_write_sectors. cbn [Z.eqb negb].
  edestruct (write_sectors_spec (Z.to_nat ks) 64 data d3) as (d4 & l4 & -> & Hq4); [done|lia|lia|done..|]. cbn [mbind option_bind Z.eqb negb].
  do 2 eexists. split; [reflexivity|]. done.
Qed.

Lemma verify_spec d l f n i :
  quiet d f n i -> 64 < n -> n <= 2 ^ 28 -> length (f 0) = 256%nat -> length (f 64) = 256%nat ->
  bytes_of (f 0) !!! 510%nat = 0x55 -> bytes_of (f 0) !!! 511%nat = 0xAA ->
  exists d' l', install_verify delay busy d l =
    Some (if existsb (fun b => negb (b =? 0)) (bytes_of (f 64)) then 0 else -1, d', l') /\ quiet d' f n i.
Proof.
  intros Hq Hn H28 H0 H64 E1 E2. unfold install_verify.
  destruct (read_sector_spec 0 d f n i) as (d1 & -> & Hq1); [done|lia|done..|]. cbn [mbind option_bind Z.eqb negb].
  rewrite E1, E2. cbn [Z.eqb Pos.eqb negb orb].
  destruct (read_sector_spec 64 d1 f n i) as (d2 & -> & Hq2); [done|lia|done..|]. cbn [mbind option_bind Z.eqb negb].
  destruct (existsb _ _); do 2 eexists; by split.
Qed.

Lemma installed_bytes ks data f : 0 < ks -> length data = (512 * Z.to_nat ks)%nat -> Forall byte data ->
  bytes_of (installed ks data f 0) = mbr_image 64 ks /\ bytes_of (installed ks data f 1) = tinx_bootloader /\
  (forall k, 0 <= k < ks -> bytes_of (installed ks data f (64 + k)) = take 512 (drop (512 * Z.to_nat k) data) /\
     length (installed ks data f (64 + k)) = 256%nat) /\
  (forall s, s <> 0 -> s <> 1 -> ~ 64 <= s < 64 + ks -> installed ks data f s = f s).
Proof.
  intros Hks Hlen Hb. destruct (mbr_sector 64 ks) as [Hm1 Hm2]. destruct boot_sector as [Hb1 Hb2].
  destruct (bytes_words 256 _ Hm1 Hm2) as [Em _]. destruct (bytes_words 256 _ Hb1 Hb2) as [Eb _]. split_and!.
  - exact Em.
  - exact Eb.
  - intros k Hk. unfold installed, written. destruct (Z.leb_spec 64 (64 + k)); [|lia].
    destruct (Z.ltb_spec (64 + k) (64 + Z.of_nat (Z.to_nat ks))); [|lia]. cbn [andb]. replace (64 + k - 64) with k by lia.
    apply bytes_words; [rewrite length_take, length_drop; lia|by apply Forall_take, Forall_drop].
  - intros s H0 H1 Hs. unfold installed, written. destruct (Z.leb_spec 64 s), (Z.ltb_spec s (64 + Z.of_nat (Z.to_nat ks))); try lia; cbn [andb];
      destruct (Z.eqb_spec s 1); try lia; destruct (Z.eqb_spec s 0); try lia; done.
Qed.

Lemma mbr_fields ks : 0 <= ks < 2 ^ 32 ->
  let m := mbr_image 64 ks in
  m !!! 446%nat = 0x80 /\ m !!! 450%nat = PART_TYPE_TINX /\ m !!! 510%nat = 0x55 /\ m !!! 511%nat = 0xAA /\
  m !!! 454%nat + 256 * (m !!! 455%nat) + 65536 * (m !!! 456%nat) + 16777216 * (m !!! 457%nat) = 64 /\
  m !!! 458%nat + 256 * (m !!! 459%nat) + 65536 * (m !!! 460%nat) + 16777216 * (m !!! 461%nat) = ks.
Proof.
  intros Hk m. split_and!; [reflexivity..|].
  change (ks mod 256 + 256 * (ks / 256 mod 256) + 65536 * (ks / 65536 mod 256) + 16777216 * (ks / 16777216 mod 256) = ks). zlia.
Qed.

(** C16. On a present, idle disk that states its size and never stays busy past the
    timeouts, with room for the kernel, [install_to_disk] succeeds.  Sector 0 then
    holds a boot record with one bootable partition of the system's type that
    starts at sector 64 and counts the kernel's sectors, sector 1 holds the boot
    loader, the sectors from 64 on hold the kernel, byte for byte, and every other
    sector is as it was.  [install_verify] afterwards gives 0 exactly when the
    first sector of the kernel is not all zero, and changes nothing. *)
Theorem install_then_verify data size d l f n i :
  let ks := (size + 511) / 512 in
  quiet d f n i -> states_size i n -> n <= 2 ^ 28 -> 0 < size < 2 ^ 32 - 511 -> ks + 64 <= n ->
  length data = (512 * Z.to_nat ks)%nat -> Forall byte data ->
  exists d1 l1 d2 l2,
    install_to_disk delay busy 0 data size d l = Some (INSTALL_OK, d1, l1) /\
    (let m := bytes_of (disk d1 0) in
     m !!! 446%nat = 0x80 /\ m !!! 450%nat = PART_TYPE_TINX /\ m !!! 510%nat = 0x55 /\ m !!! 511%nat = 0xAA /\
     m !!! 454%nat + 256 * (m !!! 455%nat) + 65536 * (m !!! 456%nat) + 16777216 * (m !!! 457%nat) = 64 /\
     m !!! 458%nat + 256 * (m !!! 459%nat) + 65536 * (m !!! 460%nat) + 16777216 * (m !!! 461%nat) = ks) /\
    bytes_of (disk d1 1) = tinx_bootloader /\
    (forall k, 0 <= k < ks -> bytes_of (disk d1 (64 + k)) = take 512 (drop (512 * Z.to_nat k) data)) /\
    (forall s, s <> 0 -> s <> 1 -> ~ 64 <= s < 64 + ks -> disk d1 s = f s) /\
    install_verify delay busy d1 l1 = Some (if existsb (fun b => negb (b =? 0)) (take 512 data) then 0 else -1, d2, l2) /\
    (forall s, disk d2 s = disk d1 s).
Proof.
  intros ks Hq Hi Hn Hs Hks Hlen Hb. assert (0 < ks) as Hpos by (subst ks; zlia).
  destruct (install_spec data size d l f n i Hq Hi Hn Hs Hks Hlen Hb) as (d1 & l1 & E1 & Hq1). fold ks in Hq1.
  destruct (installed_bytes ks data f Hpos Hlen Hb) as (B0 & B1 & Bk & Bo).
  destruct (mbr_fields ks) as (M1 & M2 & M3 & M4 & M5 & M6); [lia|]. destruct (Bk 0) as [B64 L64]; [lia|].
  destruct (verify_spec d1 l1 _ _ _ Hq1) as (d2 & l2 & E2 & Hq2);
    [lia|done|apply (bytes_words 256); apply mbr_sector|done|by rewrite B0|by rewrite B0|].
  change (64 + 0) with 64 in B64. rewrite B64 in E2. exists d1, l1, d2, l2. rewrite !(q_disk _ _ _ _ Hq1), B0. split_and!; try done.
  - intros k Hk. rewrite (q_disk _ _ _ _ Hq1). by apply Bk.
  - intros s ? ? ?. rewrite (q_disk _ _ _ _ Hq1). by apply Bo.
  - intros s. by rewrite (q_disk _ _ _ _ Hq1), (q_disk _ _ _ _ Hq2).
Qed.

(** C40. [install_to_disk] refuses without a write: with no drive on the channel, or
    for another drive number, it gives INSTALL_ERR_NO_DISK, and on a disk smaller
    than the kernel's sectors and the 64 before them INSTALL_ERR_FULL; the disk is
    the same afterwards. *)
Theorem install_refuses num data size d l f n i :
  (present d = false \/ num <> 0 \/
   (quiet d f n i /\ states_size i n /\ 0 <= size < 2 ^ 32 - 511 /\ n < (size + 511) / 512 + 64)) ->
  exists r d' l', install_to_disk delay busy num data size d l = Some (r, d', l') /\
    r = (if negb (present d) || negb (num =? 0) then INSTALL_ERR_NO_DISK else INSTALL_ERR_FULL) /\ forall s, disk d' s = disk d s.
Proof.
  intros H. destruct (Z.eqb_spec num 0) as [->|Hnum].
  2: { unfold install_to_disk, install_get_disk_info. replace (num =? 0) with false by lia. cbn [negb Z.eqb]. rewrite orb_true_r.
       do 3 eexists. split; [reflexivity|]. done. }
  destruct (present d) eqn:Hp.
  2: { assert (install_get_disk_info delay 0 d = (-1, 0, d)) as E.
       { unfold install_get_disk_info. cbn [Z.eqb negb]. unfold ata_identify, ata_select_drive. rewrite no_drive_out by done.
         rewrite no_drive_ready by done. cbn [Z.ltb Z.compare]. rewrite !(no_drive_out _ _ d) by done. unfold ata_inb_status, answers. by rewrite Hp. }
       unfold install_to_disk. rewrite E. do 3 eexists. split; [reflexivity|]. done. }
  destruct H as [?|[?|(Hq & Hi & Hs & Hn)]]; [done..|]. unfold install_to_disk. destruct (disk_info_spec _ _ _ _ Hq Hi) as (d1 & -> & Hq1).
  cbn [Z.eqb negb orb]. rewrite (u32_small (size + 511)), (u32_small (_ + 64)) by zlia. destruct (Z.ltb_spec n ((size + 511) / 512 + 64)); [|lia].
  do 3 eexists. split; [reflexivity|]. split; [done|]. intros s. by rewrite (q_disk _ _ _ _ Hq), (q_disk _ _ _ _ Hq1).
Qed.
End Drive.

(** ** At a disk of 70 sectors *)

Definition disk_demo : ata :=
  mk_ata true (fun _ => replicate 256 0) 70 (replicate 60 0 ++ [70] ++ replicate 195 0) 0 0 0 0 0 0 idle_drive 0.
Definition slow (n : nat) : nat := n `mod` 5.
Lemma slow_delay n : Z.of_nat (slow n) < 9999.
Proof. unfold slow. pose proof (Nat.mod_upper_bound n 5). lia. Qed.
Lemma disk_demo_quiet : quiet disk_demo (fun _ => replicate 256 0) 70 (identity disk_demo).
Proof. by constructor. Qed.
Lemma disk_demo_size : states_size (identity disk_demo) 70.
Proof. unfold states_size. split_and!; try reflexivity; by vm_compute. Qed.

Definition log0 : serial := mk_serial true [] [] [].
Lemma sevens_bytes n : Forall byte (replicate n 7).
Proof. apply Forall_replicate. unfold byte. lia. Qed.

Lemma install_then_verify_witness : exists d1 l1 d2 l2,
  install_to_disk slow (fun _ => 0%nat) 0 (replicate 1024 7) 600 disk_demo log0 = Some (INSTALL_OK, d1, l1) /\
  bytes_of (disk d1 65) = take 512 (drop 512 (replicate 1024 7)) /\ install_verify slow (fun _ => 0%nat) d1 l1 = Some (0, d2, l2).
Proof.
  assert (0 <= 1 < (600 + 511) / 512) as K by (by vm_compute).
  destruct (install_then_verify slow slow_delay (fun _ => 0%nat) (replicate 1024 7) 600 disk_demo log0 _ _ _ disk_demo_quiet disk_demo_size)
    as (d1 & l1 & d2 & l2 & H1 & _ & _ & H2 & _ & H3 & _).
  1-3: by vm_compute.
  1: by rewrite length_replicate.
  1: apply sevens_bytes.
  exists d1, l1, d2, l2. split; [exact H1|]. split; [|exact H3]. exact (H2 1 K).
Defined.
Lemma install_refuses_witness : exists r d' l',
  install_to_disk slow (fun _ => 0%nat) 0 [] 600000 disk_demo log0 = Some (r, d', l') /\ r = INSTALL_ERR_FULL.
Proof.
  destruct (install_refuses slow slow_delay (fun _ => 0%nat) 0 [] 600000 disk_demo log0 (fun _ => replicate 256 0) 70 (identity disk_demo))
    as (r & d' & l' & H1 & H2 & _).
  - right. right. split_and!; [apply disk_demo_quiet|apply disk_demo_size|by vm_compute..].
  - exists r, d', l'. split; [exact H1|exact H2].
Defined.
