(* ===== verification/Kernel.v ===== *)
(** * kernel.c, the command line of [kernel_main], and the [install] command

    [main_turn] is one turn of the endless loop at the end of [kernel_main]; the
    line being typed is the list of its [cmd_pos] characters.  [hlt] waits for the
    next interrupt and changes nothing.  With [cmd_install] and the browser the
    command table of the shell is complete. *)
From Stdlib Require Import String.
From S2P Require Import Prelude Mem Alloc Tcb Ipc Vfs Io Serial Syscall Hal Editor Ata Install World Shell Browser.
#[local] Open Scope cmd_scope.

Section Kernel.
Context {A : Type} `{!Allocator A}.
Context (_kernel_end : Z) (busy : list Z -> nat) (path_fuel : nat) (call_at : Z -> Z -> machine A -> machine A).
Context (cpuid : Z -> Z * Z * Z * Z) (heap_used : A -> option Z) (local_buf heap_total : Z).
Context (delay : nat -> nat) (page_buf : Z) (rows : list (list Z)).
Notation M := (M A).

(** ** shell.c, [cmd_install] *)

(** A call of install.c; one that waits forever hangs. *)
Definition on_disk {X} (f : ata -> serial -> option (X * ata * serial)) : M X :=
  fun w => match f (wdisk w) (k_serial (wk w)) with
           | Some (x, d, l) => Ok x (with_disk d (with_wk (with_serial l (wk w)) w))
           | None => Hang w
           end.

Definition cmd_install : list (list Z) -> M Z := fun _ =>
  sayln (str "=== Tinx Disk Installer ===");;
  sayln [];;
  r <- on_disk (fun d l => Some (install_init delay busy d l));;
  if negb (r =? INSTALL_OK) then sayln (str "Error: No disk detected");; pure 1 else
  sayln (str "Installing to disk 0...");;
  kernel_data <- peek_bytes 0x10000 0x100000;;
  r <- on_disk (install_to_disk delay busy 0 kernel_data 0x10000);;
  if r =? INSTALL_OK then
    sayln [];; sayln (str "Installation successful!");; sayln (str "You can now boot from this disk.");;
    sayln [];; sayln (str "Verifying installation...");;
    r <- on_disk (install_verify delay busy);;
    (if r =? 0 then sayln (str "Verification passed!") else sayln (str "Warning: Verification failed!"));;
    pure 0
  else sayln [];; sayln (str "Installation failed!");; pure 1.

(** ** The command line *)

Definition exec (command : list Z) : M Z :=
  shell_exec _kernel_end busy path_fuel call_at cpuid heap_used local_buf heap_total (cmd_browser page_buf rows) cmd_install command.

(** A history line replaces the one being typed. *)
Definition recall (step : shell_state -> option (list Z) * shell_state) (line : list Z) : M (list Z) :=
  st <- shell;;
  let '(h, st) := step st in
  on_shell (fun _ => st);;
  match h with
  | Some h => put_all (replicate (length line) 8);; put_all (take 255 h);; pure h
  | None => pure line
  end.

Definition line_key (c : Z) (line : list Z) : M (list Z) :=
  if (c =? 10) || (c =? 13) then
    put 10;;
    (match line with [] => pure tt | _ => exec line;; pure tt end);;
    print_prompt;;
    pure []
  else if c =? 8 then
    match line with [] => pure [] | _ => put c;; pure (take (length line - 1) line) end
  else if c =? KEY_UP then recall (shell_history_prev SHELL_MAX_CMD_LEN) line
  else if c =? KEY_DOWN then recall (shell_history_next SHELL_MAX_CMD_LEN) line
  else if c =? 9 then
    r <- shell_tab_complete SHELL_MAX_CMD_LEN line;;
    let '(completed, line') := r in
    (if completed then put_all (drop (length line) line') else pure tt);;
    pure line'
  else if (c =? KEY_LEFT) || (c =? KEY_RIGHT) then pure line
  else if (32 <=? c) && (c <? 127) then
    if Z.of_nat (length line) <? SHELL_MAX_CMD_LEN - 1 then put c;; pure (line ++ [c]) else pure line
  else pure line.

Definition main_turn (line : list Z) : M (list Z) :=
  c <- getch;; if c =? 0 then pure line else line_key c line.
Fixpoint main_turns (n : nat) (line : list Z) : M (list Z) :=
  match n with O => pure line | S n' => line <- main_turn line;; main_turns n' line end.
End Kernel.
