(* ===== verification/KernelCorrect.v ===== *)
(** * The command line: what is typed is what runs, and every command keeps the state *)
From Stdlib Require Import String.
From S2P Require Import Prelude Mem Alloc Heap Tcb Ipc Vfs Io Serial Syscall SyscallCorrect Hal HalCorrect Editor Ata Install World Shell ShellCorrect Browser BrowserCorrect Kernel.
#[local] Open Scope cmd_scope.

Section Kernel.
Context {A : Type} `{!Allocator A}.
Context (_kernel_end : Z) (busy : list Z -> nat) (path_fuel : nat) (call_at : Z -> Z -> machine A -> machine A).
Context (cpuid : Z -> Z * Z * Z * Z) (heap_used : A -> option Z) (local_buf heap_total : Z).
Context (delay : nat -> nat) (page_buf : Z) (rows : list (list Z)).
Notation exec := (exec _kernel_end busy path_fuel call_at cpuid heap_used local_buf heap_total delay page_buf rows).
Notation line_key := (line_key _kernel_end busy path_fuel call_at cpuid heap_used local_buf heap_total delay page_buf rows).
Notation main_turn := (main_turn _kernel_end busy path_fuel call_at cpuid heap_used local_buf heap_total delay page_buf rows).
Notation main_turns := (main_turns _kernel_end busy path_fuel call_at cpuid heap_used local_buf heap_total delay page_buf rows).

(** ** Typing *)

(** The world after scan codes up to [keys] made the characters [text] appear. *)
Definition echoed (text : list Z) (b : kbd) (keys : list Z) (w : world A) : world A :=
  with_wk (with_con (fold_left (fun con c => io_putchar con (i8 c)) text (k_con (wk w))) (with_keys b keys (wk w))) w.

Lemma getch_key sc keys w : k_keys (wk w) = sc :: keys ->
  getch w = Ok (fst (io_getchar (k_kbd (wk w)) 1 sc)) (echoed [] (snd (io_getchar (k_kbd (wk w)) 1 sc)) keys w).
Proof.
  intros Hk. unfold getch, getchar. rewrite Hk. by destruct (io_getchar _ _ _).
Qed.
Lemma echoed_keys text b keys w : k_kbd (wk (echoed text b keys w)) = b /\ k_keys (wk (echoed text b keys w)) = keys.
Proof. done. Qed.
Lemma echoed_echoed t1 b1 k1 t2 b2 k2 w : echoed t2 b2 k2 (echoed t1 b1 k1 w) = echoed (t1 ++ t2) b2 k2 w.
Proof. unfold echoed. destruct w as [[k h] ? ? ? ?]. destruct k. cbn. by rewrite fold_left_app. Qed.
Lemma put_echoed c t b k w : put c (echoed t b k w) = Ok tt (echoed (t ++ [c]) b k w).
Proof. unfold put, on_con, modify, echoed. destruct w as [[k' h] ? ? ? ?]. destruct k'. cbn. by rewrite fold_left_app. Qed.

Definition printable (c : Z) : bool := (32 <=? c) && (c <? 127).

Lemma line_key_printable c line w : printable c = true -> (length line < 255)%nat -> line_key c line w = (put c;; pure (line ++ [c])) w.
Proof.
  unfold printable. intros Hp Hl. unfold Kernel.line_key, KEY_UP, KEY_DOWN, KEY_LEFT, KEY_RIGHT, SHELL_MAX_CMD_LEN.
  replace ((c =? 10) || (c =? 13)) with false by lia. replace (c =? 8) with false by lia. replace (c =? 1) with false by lia.
  replace (c =? 2) with false by lia. replace (c =? 9) with false by lia. replace ((c =? 3) || (c =? 4)) with false by lia.
  rewrite Hp. by replace (Z.of_nat (length line) <? 256 - 1) with true by lia.
Qed.

Lemma main_turns_app m n line w : main_turns (m + n) line w = (l <- main_turns m line;; main_turns n l) w.
Proof.
  revert line w. induction m as [|m IH]; intros line w; cbn [Nat.add Kernel.main_turns]; [done|]. unfold bind in *.
  destruct (main_turn line w); [apply IH|done..].
Qed.

Lemma bind_pure {X} (m : M A X) w : (x <- m;; pure x) w = m w.
Proof. unfold bind. by destruct (m w). Qed.

(** One turn per scan code. *)
Lemma typing_turns l : forall line text b b' rest w,
  k_kbd (wk w) = b -> k_keys (wk w) = l ++ rest -> feed b l = (text, b') ->
  Forall (fun c => printable c = true) text -> (length line + length text < 256)%nat ->
  main_turns (length l) line w = Ok (line ++ text) (echoed text b' rest w).
Proof.
  induction l as [|sc l IH]; intros line text b b' rest w Hb Hk Hf Ht Hl; cbn [length Kernel.main_turns].
  - cbn in Hf. injection Hf as <- <-. rewrite app_nil_r. unfold pure. f_equal. destruct w as [[k h] ? ? ? ?]. destruct k. cbn in *. by subst.
  - cbn [feed] in Hf. unfold main_turn, bind. rewrite (getch_key sc (l ++ rest)) by done. rewrite Hb.
    destruct (io_getchar b 1 sc) as [ch b1]. cbn [fst snd]. destruct (feed b1 l) as [t2 b2] eqn:E.
    destruct (Z.eqb_spec ch 0) as [->|Hch].
    + injection Hf as <- <-. unfold pure. rewrite (IH line t2 b1 b2 rest) by done. by rewrite echoed_echoed.
    + injection Hf as <- <-. rewrite Forall_cons in Ht. destruct Ht as [Hp Ht]. cbn [length] in Hl.
      rewrite line_key_printable by (done || lia). unfold seqM, bind. rewrite put_echoed. unfold pure.
      rewrite (IH (line ++ [ch]) t2 b1 b2 rest); [|done|done|done|done|rewrite length_app; cbn [length]; lia].
      rewrite echoed_echoed, <- app_assoc. done.
Qed.

Lemma printable_typeable c : printable c = true -> typeable c = true.
Proof. unfold printable, typeable. lia. Qed.

Lemma strokes_feed caps text : Forall (fun c => printable c = true) text ->
  feed (idle caps) (concat (map (stroke caps) text)) = (text, idle caps).
Proof.
  induction 1 as [|c text Hc _ IH]; [done|]. cbn [map concat]. by rewrite feed_app, stroke_ok, IH by (by apply printable_typeable).
Qed.
Lemma enter_stroke caps : stroke caps 10 = [0x1C; 0x9C].
Proof. destruct caps; by vm_compute. Qed.

(** C8. What is typed is what runs: from the empty command line, the scan codes of the
    key strokes of any text of up to 255 printable characters, shifts included,
    and of Enter make the main loop echo the text and a newline and then hand
    exactly that text to [shell_exec], or nothing if it is empty, print the prompt
    and start over with an empty line.  The command finds the release of Enter and
    whatever was typed ahead in the keyboard. *)
Theorem typed_command_runs caps text rest w :
  Forall (fun c => printable c = true) text -> (length text < 256)%nat ->
  k_kbd (wk w) = idle caps ->
  k_keys (wk w) = concat (map (stroke caps) text) ++ stroke caps 10 ++ rest ->
  main_turns (length (concat (map (stroke caps) text)) + 1) [] w =
  ((match text with [] => pure tt | _ => exec text;; pure tt end);; print_prompt;; pure [])
    (echoed (text ++ [10]) (idle caps) (0x9C :: rest) w).
Proof.
  intros Ht Hl Hb Hk. rewrite main_turns_app. unfold bind.
  rewrite (typing_turns _ [] text (idle caps) (idle caps) (stroke caps 10 ++ rest)) by (done || by apply strokes_feed).
  rewrite enter_stroke. cbn [app Kernel.main_turns]. rewrite bind_pure. unfold main_turn. unfold bind at 1. rewrite (getch_key 0x1C (0x9C :: rest)) by done.
  change (k_kbd (wk (echoed text (idle caps) (28 :: 156 :: rest) w))) with (idle caps).
  replace (io_getchar (idle caps) 1 28) with (10, idle caps) by (destruct caps; by vm_compute). cbn [fst snd Z.eqb].
  unfold Kernel.line_key. cbn [Z.eqb Pos.eqb orb]. unfold seqM at 1, bind at 1. by rewrite echoed_echoed, app_nil_r, put_echoed.
Qed.

(** ** Every key keeps the state *)

Lemma keeps_on_disk {X} (f : ata -> serial -> option (X * ata * serial)) : keeps (A := A) (on_disk f).
Proof. intros w Hw. unfold on_disk. destruct (f _ _) as [[[x d] l]|]; done. Qed.
Lemma cmd_install_keeps args : keeps (A := A) (cmd_install busy delay args).
Proof. unfold cmd_install. keep; apply keeps_on_disk. Qed.

Lemma exec_keeps line : (length line < 256)%nat -> keeps (exec line).
Proof. intros Hl. apply keeps_exec; [apply cmd_browser_keeps|apply cmd_install_keeps|done]. Qed.

Lemma prev_typed st : shell_typed st -> shell_typed (snd (shell_history_prev SHELL_MAX_CMD_LEN st)).
Proof.
  intros Ht. pose proof Ht as []. unfold shell_history_prev. destruct (Z.eqb_spec (history_count st) 0); [done|].
  set (i := if 0 <? history_index st then history_index st - 1 else 0).
  assert (shell_typed (set_index i st)) by (apply set_index_typed; [done|subst i; case_match; lia]). by case_if.
Qed.
Lemma next_typed st : shell_typed st -> shell_typed (snd (shell_history_next SHELL_MAX_CMD_LEN st)).
Proof.
  intros Ht. pose proof Ht as []. unfold shell_history_next. destruct (Z.eqb_spec (history_count st) 0); [done|].
  destruct (Z.ltb_spec (history_index st) (history_count st - 1)); apply set_index_typed; try done; lia.
Qed.

Lemma keeps_recall step line : (forall st, shell_typed st -> shell_typed (snd (step st))) -> keeps (A := A) (recall step line).
Proof.
  intros Hs w Hw. unfold recall, shell, bind, get. pose proof (Hs _ (proj1 Hw)) as H. destruct (step (sh w)) as [h st]. cbn [snd] in H.
  assert (keeps (A := A) (on_shell (fun _ => st);; match h with
    Some h => put_all (replicate (length line) 8);; put_all (take 255 h);; pure h | None => pure line end)) as Hk.
  { keep; try apply keeps_put_all. by apply keeps_shell. }
  by apply Hk.
Qed.

Lemma line_key_keeps c line : (length line < 256)%nat -> keeps (line_key c line).
Proof.
  intros Hl. unfold Kernel.line_key. keep; first [by apply exec_keeps|apply keeps_prompt|apply keeps_recall; intros; by apply prev_typed|
    apply keeps_recall; intros; by apply next_typed|apply keeps_tab|apply keeps_put_all]; assumption.
Qed.

Lemma recall_fits step line : (forall st h, fst (step st) = Some h -> (length h < 256)%nat) -> (length line < 256)%nat ->
  returns (A := A) (recall step line) (fun l => length l < 256)%nat.
Proof.
  intros Hs Hl. unfold recall. apply returns_bind. intros st. specialize (Hs st). destruct (step st) as [h st']. apply returns_seq.
  destruct h as [h|]; [|by apply returns_pure]. do 2 apply returns_seq. apply returns_pure. by apply Hs.
Qed.
Lemma copy_fits (s : list Z) : (length (copy_n SHELL_MAX_CMD_LEN s) < 256)%nat.
Proof. unfold copy_n, SHELL_MAX_CMD_LEN. rewrite length_take. lia. Qed.
Lemma prev_fits st h : fst (shell_history_prev SHELL_MAX_CMD_LEN st) = Some h -> (length h < 256)%nat.
Proof. unfold shell_history_prev. repeat case_if; intros [= <-]; apply copy_fits. Qed.
Lemma next_fits st h : fst (shell_history_next SHELL_MAX_CMD_LEN st) = Some h -> (length h < 256)%nat.
Proof. unfold shell_history_next. repeat case_if; intros [= <-]; [apply copy_fits|cbn; lia]. Qed.

Lemma line_key_fits c line : (length line < 256)%nat -> returns (line_key c line) (fun l => length l < 256)%nat.
Proof.
  intros Hl. unfold Kernel.line_key. case_if; [do 3 apply returns_seq; apply returns_pure; cbn; lia|].
  case_if; [destruct line; [by apply returns_pure|]; apply returns_seq, returns_pure; rewrite length_take; lia|].
  case_if; [apply recall_fits; [apply prev_fits|done]|]. case_if; [apply recall_fits; [apply next_fits|done]|].
  case_if. { eapply returns_then; [apply tab_extends|]. intros [b l'] (add & _ & Hfit & _). cbn [snd] in Hfit. apply returns_seq, returns_pure.
    unfold SHELL_MAX_CMD_LEN in Hfit. lia. }
  case_if; [by apply returns_pure|]. case_if; [|by apply returns_pure].
  destruct (Z.ltb_spec (Z.of_nat (length line)) (SHELL_MAX_CMD_LEN - 1)) as [Hroom|]; [|by apply returns_pure]. apply returns_seq, returns_pure. unfold SHELL_MAX_CMD_LEN in Hroom. rewrite length_app. cbn. lia.
Qed.

(** A command line fits its buffer with the terminator. *)
Definition line_fits (line : list Z) : Prop := (length line < 256)%nat.

(** The types of the interactive system: from a typed state with a line that
    fits, any number of turns of the main loop, whatever is typed, with any of
    the commands running, the editor, the file manager, the browser and the
    installer included, leave the line within its 256 bytes with its NUL, the
    history within its sixteen rows with the index inside and no row equal to the one before, the
    path and the prompt within their buffers, the log within its 2048 bytes and
    the file manager's selection within its entries; so does a command that never
    returns.  Nothing is said of a command that crashes. *)
Theorem main_loop_typed n line w :
  typed w -> line_fits line ->
  match main_turns n line w with
  | Ok line' w' => typed w' /\ line_fits line'
  | Hang w' => typed w'
  | Crash => True
  end.
Proof.
  unfold line_fits.
  revert line w. induction n as [|n IH]; intros line w Hw Hl; cbn [Kernel.main_turns]; [done|].
  assert (match main_turn line w with Ok line' w' => typed w' /\ (length line' < 256)%nat | Hang w' => typed w' | Crash => True end) as Ht.
  { unfold Kernel.main_turn, bind. pose proof (keeps_getch w Hw) as Hg. destruct (getch w) as [c w1| |]; try done.
    destruct (c =? 0); [done|]. pose proof (line_key_keeps c line Hl w1 Hg) as Hk. pose proof (line_key_fits c line Hl w1) as Hf.
    by destruct (line_key c line w1). }
  unfold bind. destruct (main_turn line w) as [l' w'| |]; [|done..]. destruct Ht as [Hw' Hl']. exact (IH l' w' Hw' Hl').
Qed.
End Kernel.

(** ** At the prompt *)
#[local] Existing Instance demo_allocator.

(** The world of [w_demo] with scan codes waiting. *)
Definition w_typing (caps : bool) (text rest : list Z) : world heap :=
  with_wk (with_keys (idle caps) (concat (map (stroke caps) text) ++ stroke caps 10 ++ rest) (wk w_demo)) w_demo.
Notation demo_turns := (main_turns 0x200000 (fun _ => 0%nat) 64 (fun _ _ m => m) (fun _ => (0, 0, 0, 0)) (fun _ => None) 0x300000 0 (fun _ => 0%nat) 0x310000 []).
Notation demo_exec := (exec 0x200000 (fun _ => 0%nat) 64 (fun _ _ m => m) (fun _ => (0, 0, 0, 0)) (fun _ => None) 0x300000 0 (fun _ => 0%nat) 0x310000 []).

(** "echo Hi!" with caps lock on, and a tab typed ahead. *)
Lemma typed_command_runs_witness :
  demo_turns (length (concat (map (stroke true) (str "echo Hi!"))) + 1) [] (w_typing true (str "echo Hi!") (stroke true 9)) =
  ((demo_exec (str "echo Hi!");; pure tt);; print_prompt;; pure [])
    (echoed (str "echo Hi!" ++ [10]) (idle true) (0x9C :: stroke true 9) (w_typing true (str "echo Hi!") (stroke true 9))).
Proof.
  apply (typed_command_runs 0x200000 (fun _ => 0%nat) 64 (fun _ _ m => m) (fun _ => (0, 0, 0, 0)) (fun _ => None) 0x300000 0 (fun _ => 0%nat) 0x310000 []
    true (str "echo Hi!") (stroke true 9) (w_typing true (str "echo Hi!") (stroke true 9))).
  - apply (bool_decide_unpack _). by vm_compute.
  - cbn. lia.
  - reflexivity.
  - reflexivity.
Defined.

Lemma w_demo_typed : typed w_demo.
Proof. split; [exact shell0_typed|]. split; [cbn; lia|]. constructor; cbn; try lia; done. Qed.
Lemma main_loop_typed_witness :
  match demo_turns 3 (str "l") w_demo with Ok line w => typed w /\ (length line < 256)%nat | Hang w => typed w | Crash => True end.
Proof.
  apply (main_loop_typed 0x200000 (fun _ => 0%nat) 64 (fun _ _ m => m) (fun _ => (0, 0, 0, 0)) (fun _ => None) 0x300000 0 (fun _ => 0%nat) 0x310000 []
    3 (str "l") w_demo w_demo_typed). unfold line_fits. cbn. lia.
Defined.
