(* ===== verification/Mouse.v ===== *)
(** * mouse.c and vbox_mouse.c, the PS/2 mouse

    The driver talks to the keyboard controller through two ports.  What answers
    there is a device of the class [Ps2Device], so that the driver is modelled
    over any controller; [kbc] is one, an 8042 with a mouse behind it, whose
    answers wait in a queue until they are read (what QEMU and VirtualBox
    provide).  Functions are written in a state monad over the static variables
    of mouse.c.  The argument [state] of the code is a pointer that may be NULL,
    which stands for [g_mouse_global]; here it is a [target].  An event handler is
    an address; [handled] records its calls. *)
From Stdlib Require Import String.
From S2P Require Import Prelude Mem Serial.

Class Ps2Device (D : Type) := { dev_inb : Z -> D -> Z * D; dev_outb : Z -> Z -> D -> D }.

Definition PS2_DATA_PORT : Z := 0x60.
Definition PS2_STATUS_PORT : Z := 0x64.
Definition PS2_COMMAND_PORT : Z := 0x64.
Definition PS2_CMD_READ_CONFIG : Z := 0x20.
Definition PS2_CMD_WRITE_CONFIG : Z := 0x60.
Definition PS2_CMD_ENABLE_MOUSE : Z := 0xA8.
Definition PS2_CMD_DISABLE_MOUSE : Z := 0xA7.
Definition PS2_CMD_DISABLE_KBD : Z := 0xAD.
Definition PS2_CMD_ENABLE_KBD : Z := 0xAE.
Definition PS2_CMD_GET_DEVICE_ID : Z := 0xF2.
Definition PS2_CMD_SET_SAMPLE_RATE : Z := 0xF3.
Definition PS2_CMD_ENABLE_DATA : Z := 0xF4.
Definition PS2_CMD_DISABLE_DATA : Z := 0xF5.
Definition PS2_CMD_SET_DEFAULTS : Z := 0xF6.
Definition PS2_CMD_RESET : Z := 0xFF.
Definition PS2_STATUS_OUT_FULL : Z := 0x01.
Definition PS2_STATUS_IN_FULL : Z := 0x02.
Definition MOUSE_OK : Z := 0.
Definition MOUSE_ERR_NO_DEV : Z := -1.
Definition MOUSE_ERR_IO : Z := -3.
Definition MOUSE_TYPE_NONE : Z := 0.
Definition MOUSE_TYPE_PS2 : Z := 1.
Definition MOUSE_TYPE_IMPS2 : Z := 2.

Record mouse_event := mk_event { dx : Z; dy : Z; dz : Z; ev_buttons : Z; valid : bool }.
Record mouse_state := mk_mouse {
  mx : Z; my : Z; buttons : Z; m_present : bool; mtype : Z; hidden : bool;
  min_x : Z; max_x : Z; min_y : Z; max_y : Z; event_handler : option Z
}.
Inductive target := own (m : mouse_state) | global.

Definition at_pos (x y : Z) (m : mouse_state) : mouse_state :=
  mk_mouse x y (buttons m) (m_present m) (mtype m) (hidden m) (min_x m) (max_x m) (min_y m) (max_y m) (event_handler m).
Definition set_hidden (b : bool) (m : mouse_state) : mouse_state :=
  mk_mouse (mx m) (my m) (buttons m) (m_present m) (mtype m) b (min_x m) (max_x m) (min_y m) (max_y m) (event_handler m).
Definition set_handler (h : option Z) (m : mouse_state) : mouse_state :=
  mk_mouse (mx m) (my m) (buttons m) (m_present m) (mtype m) (hidden m) (min_x m) (max_x m) (min_y m) (max_y m) h.
Definition set_type (t : Z) (m : mouse_state) : mouse_state :=
  mk_mouse (mx m) (my m) (buttons m) (m_present m) t (hidden m) (min_x m) (max_x m) (min_y m) (max_y m) (event_handler m).
Definition set_present (m : mouse_state) : mouse_state :=
  mk_mouse (mx m) (my m) (buttons m) true (mtype m) (hidden m) (min_x m) (max_x m) (min_y m) (max_y m) (event_handler m).

(** The two tests of each coordinate, one after the other. *)
Definition clamp1 (lo hi v : Z) : Z := let v := if v <? lo then lo else v in if hi <=? v then i32 (hi - 1) else v.
Definition clamp (m : mouse_state) : mouse_state := at_pos (clamp1 (min_x m) (max_x m) (mx m)) (clamp1 (min_y m) (max_y m) (my m)) m.

(** ** Packets *)

Definition axis (byte : Z) (flag : bool) : Z :=
  let v := i8 byte in if flag then (if 0 <? v then 127 else -128) else v.
(** Event and state when the packet is accepted. *)
Definition mouse_parse_packet (packet : list Z) (m : mouse_state) : option (mouse_event * mouse_state) :=
  let p0 := packet !!! 0%nat in
  if Z.land p0 0x08 =? 0 then None else
  let x := axis (packet !!! 1%nat) (negb (Z.land p0 0x10 =? 0)) in
  let y := axis (packet !!! 2%nat) (negb (Z.land p0 0x20 =? 0)) in
  let z := if mtype m =? MOUSE_TYPE_IMPS2 then - i8 (packet !!! 3%nat) else 0 in
  let m := at_pos (i32 (mx m + x)) (i32 (my m + - y)) m in
  let m := if hidden m then m else clamp m in
  Some (mk_event x (- y) z (Z.land p0 0x07) true, m).

(** ** The driver *)

Section Driver.
Context {D : Type} `{!Ps2Device D}.
Context (busy : list Z -> nat).

Record driver := mk_driver {
  dev : D; dlog : serial; g_ps2_shared_initialized : bool; g_mouse_global : mouse_state;
  packet : list Z; byte_idx : Z; handled : list (Z * mouse_event)
}.
Definition with_dev (x : D) (d : driver) : driver :=
  mk_driver x (dlog d) (g_ps2_shared_initialized d) (g_mouse_global d) (packet d) (byte_idx d) (handled d).
Definition with_dlog (l : serial) (d : driver) : driver :=
  mk_driver (dev d) l (g_ps2_shared_initialized d) (g_mouse_global d) (packet d) (byte_idx d) (handled d).
Definition with_shared (d : driver) : driver :=
  mk_driver (dev d) (dlog d) true (g_mouse_global d) (packet d) (byte_idx d) (handled d).
Definition with_global (m : mouse_state) (d : driver) : driver :=
  mk_driver (dev d) (dlog d) (g_ps2_shared_initialized d) m (packet d) (byte_idx d) (handled d).
Definition with_packet (p : list Z) (i : Z) (d : driver) : driver :=
  mk_driver (dev d) (dlog d) (g_ps2_shared_initialized d) (g_mouse_global d) p i (handled d).
Definition with_handled (h : list (Z * mouse_event)) (d : driver) : driver :=
  mk_driver (dev d) (dlog d) (g_ps2_shared_initialized d) (g_mouse_global d) (packet d) (byte_idx d) h.

Definition D_ (X : Type) : Type := driver -> X * driver.
Definition ret {X} (x : X) : D_ X := fun d => (x, d).
Definition andthen {X Y} (f : D_ X) (g : X -> D_ Y) : D_ Y := fun d => let '(x, d) := f d in g x d.
Definition change (f : driver -> driver) : D_ unit := fun d => (tt, f d).
End Driver.
Arguments driver D : clear implicits.
Arguments D_ D X : clear implicits.

Declare Scope mouse_scope.
Delimit Scope mouse_scope with mouse.
Notation "x <- f ;; g" := (andthen f (fun x => g)) (at level 100, f at next level, right associativity) : mouse_scope.
Notation "f ;; g" := (andthen f (fun _ => g)) (at level 100, right associativity) : mouse_scope.
#[local] Open Scope mouse_scope.

Section Calls.
Context {D : Type} `{!Ps2Device D}.
Context (busy : list Z -> nat).
Notation D_ := (D_ D).

Definition in_port (port : Z) : D_ Z := fun d => let '(v, x) := dev_inb port (dev d) in (v, with_dev x d).
Definition out_port (port v : Z) : D_ unit := change (fun d => with_dev (dev_outb port v (dev d)) d).
Definition note (s : string) : D_ unit := change (fun d => with_dlog (serial_writeln busy (str s) (dlog d)) d).
Definition note_hex8 (s : string) (v : Z) : D_ unit :=
  change (fun d => with_dlog (serial_writeln busy [] (serial_write_hex8 busy v (serial_write_str busy (str s) (dlog d)))) d).

(** [while (timeout-- > 0)]: poll the status until it is as wanted. *)
Fixpoint poll (timeout : nat) (wanted : Z -> bool) : D_ Z :=
  match timeout with
  | O => ret (-1)
  | S t => status <- in_port PS2_STATUS_PORT;; if wanted status then ret 0 else poll t wanted
  end.
Definition ps2_wait_read : D_ Z := poll (Z.to_nat 100000) (fun s => negb (Z.land s PS2_STATUS_OUT_FULL =? 0)).
Definition ps2_wait_write : D_ Z := poll (Z.to_nat 100000) (fun s => Z.land s PS2_STATUS_IN_FULL =? 0).
Definition ps2_read_data : D_ Z := r <- ps2_wait_read;; if negb (r =? 0) then ret 0 else in_port PS2_DATA_PORT.
Definition ps2_write_data (v : Z) : D_ unit := ps2_wait_write;; out_port PS2_DATA_PORT v.
Definition ps2_write_mouse (v : Z) : D_ unit :=
  ps2_wait_write;; out_port PS2_COMMAND_PORT 0xD4;; ps2_wait_write;; out_port PS2_DATA_PORT v.
Definition ps2_write_command (cmd : Z) : D_ unit := ps2_wait_write;; out_port PS2_COMMAND_PORT cmd.
(** The byte, and 0 when it is an acknowledgement. *)
Definition ps2_read_response : D_ (Z * Z) := b <- ps2_read_data;; ret (b, if b =? 0xFA then 0 else -1).

Fixpoint flush (n : nat) : D_ unit :=
  match n with
  | O => ret tt
  | S n' => st <- in_port PS2_STATUS_PORT;;
            if Z.land st PS2_STATUS_OUT_FULL =? 0 then ret tt else in_port PS2_DATA_PORT;; flush n'
  end.

Definition ps2_controller_init : D_ Z := fun d =>
  if g_ps2_shared_initialized d then (0, d) else
  (note "[PS2] Shared controller init (keyboard+mouse)...";;
   ps2_write_command PS2_CMD_DISABLE_KBD;;
   ps2_write_command PS2_CMD_DISABLE_MOUSE;;
   flush 5;;
   ps2_write_command PS2_CMD_READ_CONFIG;;
   config <- ps2_read_data;;
   note_hex8 "[PS2] Config before: 0x" config;;
   (let config := Z.lor (Z.lor config 1) 2 in
    let config := u8 (Z.land (Z.land config (Z.lnot 16)) (Z.lnot 32)) in
    ps2_wait_write;; out_port PS2_COMMAND_PORT PS2_CMD_WRITE_CONFIG;;
    ps2_wait_write;; out_port PS2_DATA_PORT config;;
    ps2_write_command PS2_CMD_ENABLE_KBD;;
    ps2_write_command PS2_CMD_ENABLE_MOUSE;;
    flush 5;;
    change with_shared;;
    note "[PS2] Shared controller ready";;
    ret 0)) d.

(** The structure a target stands for, and a change of it. *)
Definition look (t : target) : D_ mouse_state := fun d => (match t with own m => m | global => g_mouse_global d end, d).
Definition store (m : mouse_state) (t : target) : D_ target :=
  match t with own _ => ret (own m) | global => change (with_global m);; ret global end.

Definition mouse_detect_type (t : target) : D_ (Z * target) :=
  note "Mouse: Detecting type...";;
  ps2_write_mouse PS2_CMD_GET_DEVICE_ID;;
  id <- ps2_read_data;;
  note_hex8 "Mouse: Device ID = 0x" id;;
  m <- look t;;
  if id =? 0 then t <- store (set_type MOUSE_TYPE_PS2 m) t;; note "Mouse: Standard PS/2 mouse detected";; ret (MOUSE_TYPE_PS2, t)
  else if id =? 3 then t <- store (set_type MOUSE_TYPE_IMPS2 m) t;; note "Mouse: IntelliMouse PS/2 detected";; ret (MOUSE_TYPE_IMPS2, t)
  else t <- store (set_type MOUSE_TYPE_PS2 m) t;; ret (MOUSE_TYPE_PS2, t).

Definition initial_mouse : mouse_state := mk_mouse 40 12 0 false MOUSE_TYPE_NONE false 0 80 0 25 None.

Definition mouse_init (t : target) : D_ (Z * target) :=
  note "Mouse: Initializing (unified driver)...";;
  ps2_controller_init;;
  t <- store initial_mouse t;;
  status <- in_port PS2_STATUS_PORT;;
  (if (status =? 0xFF) || (status =? 0) then note "Mouse: Warning status unusual, continuing" else ret tt);;
  ps2_write_command PS2_CMD_ENABLE_MOUSE;;
  note "Mouse: Sending reset command...";;
  ps2_write_mouse PS2_CMD_RESET;;
  r <- ps2_read_response;;
  (if negb (snd r =? 0) then note "Mouse: No ACK from reset (continuing)" else ret tt);;
  response <- ps2_read_data;;
  note_hex8 "Mouse: BAT response = 0x" response;;
  ps2_write_mouse PS2_CMD_SET_DEFAULTS;;
  ps2_read_response;;
  ps2_write_mouse PS2_CMD_SET_SAMPLE_RATE;;
  ps2_read_response;;
  ps2_write_mouse 100;;
  ps2_read_response;;
  ps2_write_mouse PS2_CMD_ENABLE_DATA;;
  r <- ps2_read_response;;
  if negb (snd r =? 0) then note "Mouse: Failed to enable data reporting";; ret (MOUSE_ERR_IO, t) else
  r <- mouse_detect_type t;;
  let t := snd r in
  m <- look t;;
  t <- store (set_present m) t;;
  m <- look t;;
  (match t with own _ => change (with_global m) | global => ret tt end);;
  note "Mouse: Unified driver initialized successfully";;
  ret (MOUSE_OK, t).

Definition invalid (ev : mouse_event) : mouse_event := mk_event (dx ev) (dy ev) (dz ev) (ev_buttons ev) false.

(** One byte that was read, of a mouse that is present. *)
Definition mouse_byte (data : Z) (t : target) (ev : mouse_event) : D_ (Z * mouse_event * target) := fun d =>
  let '(m, d) := look t d in
  let packet_size := if mtype m =? MOUSE_TYPE_IMPS2 then 4 else 3 in
  if (byte_idx d =? 0) && negb (Z.land data 0x08 =? 0) then
    ret (MOUSE_OK, invalid ev, t) (with_packet (<[0%nat := data]> (packet d)) 1 d)
  else if (0 <? byte_idx d) && (byte_idx d <? packet_size) then
    let d := with_packet (<[Z.to_nat (byte_idx d) := data]> (packet d)) (byte_idx d + 1) d in
    if packet_size <=? byte_idx d then
      match mouse_parse_packet (packet d) m with
      | Some (ev, m) =>
          (t <- store m t;;
           change (fun d => with_packet (packet d) 0 d);;
           (match t with own m => change (fun d => with_global (at_pos (mx m) (my m) (g_mouse_global d)) d) | global => ret tt end);;
           (match event_handler m with Some h => change (fun d => with_handled (handled d ++ [(h, ev)]) d) | None => ret tt end);;
           ret (MOUSE_OK, ev, t)) d
      | None => ret (MOUSE_OK, invalid ev, t) (with_packet (packet d) 0 d)
      end
    else ret (MOUSE_OK, invalid ev, t) d
  else
    let d := if negb (Z.land data 0x08 =? 0) then with_packet (<[0%nat := data]> (packet d)) 1 d else with_packet (packet d) 0 d in
    ret (MOUSE_OK, invalid ev, t) d.

Definition mouse_read (t : target) (ev : mouse_event) : D_ (Z * mouse_event * target) :=
  m <- look t;;
  if negb (m_present m) then ret (MOUSE_ERR_NO_DEV, ev, t) else
  status <- in_port PS2_STATUS_PORT;;
  if Z.land status PS2_STATUS_OUT_FULL =? 0 then ret (MOUSE_OK, invalid ev, t) else
  data <- in_port PS2_DATA_PORT;;
  mouse_byte data t ev.

Definition on_mouse (f : mouse_state -> mouse_state) (t : target) : D_ target := m <- look t;; store (f m) t.
Definition mouse_set_position (x y : Z) (t : target) : D_ target := on_mouse (fun m => clamp (at_pos x y m)) t.
Definition mouse_get_position (t : target) : D_ (Z * Z) := m <- look t;; ret (mx m, my m).
Definition mouse_get_pos_global : D_ (Z * Z) := mouse_get_position global.
Definition mouse_is_present (t : target) : D_ bool := m <- look t;; ret (m_present m).
Definition mouse_enable (t : target) : D_ unit :=
  m <- look t;; if m_present m then ps2_write_mouse PS2_CMD_ENABLE_DATA;; ps2_read_response;; ret tt else ret tt.
Definition mouse_disable (t : target) : D_ unit :=
  m <- look t;; if m_present m then ps2_write_mouse PS2_CMD_DISABLE_DATA;; ps2_read_response;; ret tt else ret tt.
Definition mouse_set_handler (h : option Z) (t : target) : D_ target := on_mouse (set_handler h) t.
Definition mouse_poll (t : target) : D_ target := r <- mouse_read t (mk_event 0 0 0 0 false);; ret (snd r).
Definition mouse_hide (t : target) : D_ target := on_mouse (set_hidden true) t.
Definition mouse_show (t : target) : D_ target := on_mouse (set_hidden false) t.
Definition mouse_set_bounds (x0 x1 y0 y1 : Z) (t : target) : D_ target :=
  on_mouse (fun m => clamp (mk_mouse (mx m) (my m) (buttons m) (m_present m) (mtype m) (hidden m) x0 x1 y0 y1 (event_handler m))) t.
End Calls.

(** ** vbox_mouse.c *)

Definition MOUSE_X_SIGN : Z := 0x10.
Definition MOUSE_Y_SIGN : Z := 0x20.
Definition MOUSE_X_OVERFLOW : Z := 0x40.
Definition MOUSE_Y_OVERFLOW : Z := 0x80.
Definition KERN_NOT_READY : Z := 8.
Definition KERN_FAILURE : Z := 9.
Definition i16 (z : Z) : Z := (z + 2 ^ 15) mod 2 ^ 16 - 2 ^ 15.

(** A call of one of the two callbacks. *)
Inductive vcall := moved (cb dx dy : Z) | clicked (cb buttons : Z).
Record ps2_mouse_t := mk_vm {
  v_init : bool; v_enabled : bool; vx : Z; vy : Z; left_button : bool; right_button : bool; middle_button : bool;
  packet_index : Z; vpacket : list Z; on_move : option Z; on_button : option Z; vcalls : list vcall
}.
Definition v_enable (b : bool) (v : ps2_mouse_t) : ps2_mouse_t :=
  mk_vm (v_init v) b (vx v) (vy v) (left_button v) (right_button v) (middle_button v) (packet_index v) (vpacket v) (on_move v) (on_button v) (vcalls v).
Definition v_packet (i : Z) (p : list Z) (v : ps2_mouse_t) : ps2_mouse_t :=
  mk_vm (v_init v) (v_enabled v) (vx v) (vy v) (left_button v) (right_button v) (middle_button v) i p (on_move v) (on_button v) (vcalls v).

Definition clamp0 (hi v : Z) : Z := let v := if v <? 0 then 0 else v in if hi <=? v then hi - 1 else v.
(** [int16_t d = (int8_t)byte; if (sign) { if (d >= 0) d |= 0xFF00; }] *)
Definition delta (byte : Z) (sign : bool) : Z := let d := i8 byte in if sign && (0 <=? d) then i16 (Z.lor d 0xFF00) else d.

Section Wrapper.
Context {D : Type} `{!Ps2Device D}.
Context (busy : list Z -> nat).
Notation D_ := (D_ D).

Definition ps2_mouse_init (v : ps2_mouse_t) : D_ (Z * ps2_mouse_t) :=
  note busy "[MOUSE] vbox_mouse wrapper -> unified mouse_init";;
  r <- mouse_init busy (own initial_mouse);;
  let '(code, t) := r in
  if code =? MOUSE_OK then
    m <- look t;;
    mouse_set_bounds 0 80 0 25 global;;
    mouse_set_position (mx m) (my m) global;;
    ret (0, mk_vm true true (i16 (mx m)) (i16 (my m)) false false false 0 (vpacket v) None None (vcalls v))
  else ret (KERN_FAILURE, v).

Definition ps2_mouse_enable (v : ps2_mouse_t) : D_ (Z * ps2_mouse_t) :=
  if negb (v_init v) then ret (KERN_NOT_READY, v) else
  mouse_enable global;; note busy "[MOUSE] wrapper enable";; ret (0, v_enable true v).
Definition ps2_mouse_disable (v : ps2_mouse_t) : D_ (Z * ps2_mouse_t) :=
  if negb (v_init v) then ret (KERN_NOT_READY, v) else
  mouse_disable global;; note busy "[MOUSE] wrapper disable";; ret (0, v_enable false v).

(** The third byte of a packet without overflow. *)
Definition vmove (v : ps2_mouse_t) : ps2_mouse_t :=
  let p0 := vpacket v !!! 0%nat in
  let b := Z.land p0 0x07 in
  let dx := delta (vpacket v !!! 1%nat) (negb (Z.land p0 MOUSE_X_SIGN =? 0)) in
  let dy := delta (vpacket v !!! 2%nat) (negb (Z.land p0 MOUSE_Y_SIGN =? 0)) in
  let x := clamp0 80 (i16 (vx v + dx)) in
  let y := clamp0 25 (i16 (vy v - dy)) in
  let calls1 := match on_move v with Some cb => if negb (dx =? 0) || negb (dy =? 0) then [moved cb dx dy] else [] | None => [] end in
  let calls2 := match on_button v with Some cb => [clicked cb b] | None => [] end in
  mk_vm (v_init v) (v_enabled v) x y (negb (Z.land b 1 =? 0)) (negb (Z.land b 2 =? 0)) (negb (Z.land b 4 =? 0))
    (packet_index v) (vpacket v) (on_move v) (on_button v) (vcalls v ++ calls1 ++ calls2).
Definition ps2_mouse_handler (data : Z) (v : ps2_mouse_t) : D_ ps2_mouse_t :=
  if negb (v_init v) || negb (v_enabled v) then ret v else
  if packet_index v =? 0 then
    ret (if negb (Z.land data 0x08 =? 0) then v_packet 1 (<[0%nat := data]> (vpacket v)) v else v)
  else if packet_index v =? 1 then ret (v_packet 2 (<[1%nat := data]> (vpacket v)) v)
  else if packet_index v =? 2 then
    let v := v_packet 0 (<[2%nat := data]> (vpacket v)) v in
    if negb (Z.land (vpacket v !!! 0%nat) (Z.lor MOUSE_X_OVERFLOW MOUSE_Y_OVERFLOW) =? 0)
    then note busy "[MOUSE] wrapper overflow dropped";; ret v
    else let v := vmove v in mouse_set_position (vx v) (vy v) global;; ret v
  else ret v.

Definition ps2_mouse_get_state (v : ps2_mouse_t) : D_ (Z * Z * Z) :=
  p <- mouse_get_position global;;
  ret (i16 (fst p), i16 (snd p),
       Z.lor (Z.lor (if left_button v then 1 else 0) (if right_button v then 2 else 0)) (if middle_button v then 4 else 0)).
Definition ps2_mouse_set_callback (move button : option Z) (v : ps2_mouse_t) : ps2_mouse_t :=
  mk_vm (v_init v) (v_enabled v) (vx v) (vy v) (left_button v) (right_button v) (middle_button v) (packet_index v) (vpacket v) move button (vcalls v).
Definition ps2_mouse_hide : D_ target := mouse_hide global.
Definition ps2_mouse_show : D_ target := mouse_show global.
Definition ps2_mouse_get_position : D_ (Z * Z) := mouse_get_position global.
Definition ps2_mouse_set_bounds (x0 x1 y0 y1 : Z) : D_ target := mouse_set_bounds x0 x1 y0 y1 global.
Definition ps2_mouse_is_present : D_ bool := mouse_is_present global.
End Wrapper.

(** ** An 8042 controller with a mouse *)

(** What the next byte of the data port is for. *)
Inductive expects := for_keyboard | for_config | for_mouse.
(** [out]: the bytes that wait, marked when they come from the mouse. *)
Record kbc := mk_kbc {
  out : list (bool * Z); config : Z; next_data : expects; kbd_on : bool; aux_on : bool; reporting : bool; rate_next : bool; mouse_id : Z
}.
Definition kbc_status (k : kbc) : Z :=
  match out k with [] => 0x04 | (false, _) :: _ => 0x05 | (true, _) :: _ => 0x25 end.
Definition push (bs : list (bool * Z)) (k : kbc) : kbc :=
  mk_kbc (out k ++ bs) (config k) (next_data k) (kbd_on k) (aux_on k) (reporting k) (rate_next k) (mouse_id k).
Definition expecting (e : expects) (k : kbc) : kbc :=
  mk_kbc (out k) (config k) e (kbd_on k) (aux_on k) (reporting k) (rate_next k) (mouse_id k).
Definition ports (kbd aux : bool) (k : kbc) : kbc := mk_kbc (out k) (config k) (next_data k) kbd aux (reporting k) (rate_next k) (mouse_id k).
Definition set_mode (rep rate : bool) (k : kbc) : kbc := mk_kbc (out k) (config k) (next_data k) (kbd_on k) (aux_on k) rep rate (mouse_id k).
Definition kbc_command (v : Z) (k : kbc) : kbc :=
  if v =? 0x20 then push [(false, config k)] k
  else if v =? 0x60 then expecting for_config k
  else if v =? 0xA7 then ports (kbd_on k) false k
  else if v =? 0xA8 then ports (kbd_on k) true k
  else if v =? 0xAD then ports false (aux_on k) k
  else if v =? 0xAE then ports true (aux_on k) k
  else if v =? 0xD4 then expecting for_mouse k
  else k.
Definition mouse_command (v : Z) (k : kbc) : kbc :=
  let ack := (true, 0xFA) in
  if rate_next k then push [ack] (set_mode (reporting k) false k)
  else if v =? 0xFF then push [ack; (true, 0xAA); (true, 0)] (set_mode false false k)
  else if v =? 0xF6 then push [ack] (set_mode false false k)
  else if v =? 0xF3 then push [ack] (set_mode (reporting k) true k)
  else if v =? 0xF4 then push [ack] (set_mode true false k)
  else if v =? 0xF5 then push [ack] (set_mode false false k)
  else if v =? 0xF2 then push [ack; (true, mouse_id k)] k
  else push [(true, 0xFE)] k.
Definition kbc_data (v : Z) (k : kbc) : kbc :=
  match next_data k with
  | for_config => expecting for_keyboard (mk_kbc (out k) v (next_data k) (kbd_on k) (aux_on k) (reporting k) (rate_next k) (mouse_id k))
  | for_mouse => expecting for_keyboard (mouse_command v k)
  | for_keyboard => push [(false, 0xFA)] k
  end.
#[global] Instance kbc_device : Ps2Device kbc := {
  dev_inb port k :=
    if port =? PS2_STATUS_PORT then (kbc_status k, k) else
    match out k with
    | (_, b) :: rest => (b, mk_kbc rest (config k) (next_data k) (kbd_on k) (aux_on k) (reporting k) (rate_next k) (mouse_id k))
    | [] => (0, k)
    end;
  dev_outb port v k := if port =? PS2_COMMAND_PORT then kbc_command v k else kbc_data v k
}.
