(* ===== verification/MouseCorrect.v ===== *)
(** * The mouse: start-up, framing, decoding and bounds *)
From Stdlib Require Import String.
From S2P Require Import Prelude Mem Serial Io Mouse.
#[local] Open Scope mouse_scope.

(** ** Start-up on an 8042 *)

Section Init.
Context (busy : list Z -> nat).
Notation drv := (driver kbc).

(** The variables of mouse.c that port accesses and messages do not touch. *)
Record core := mk_core { c_shared : bool; c_global : mouse_state; c_packet : list Z; c_idx : Z; c_handled : list (Z * mouse_event) }.
Definition core_of (d : drv) : core := mk_core (g_ps2_shared_initialized d) (g_mouse_global d) (packet d) (byte_idx d) (handled d).
(** From device [k] and variables [c], [f] gives [x] and leaves [k'] and [c']. *)
Definition runs {X} (f : D_ kbc X) (k : kbc) (c : core) (k' : kbc) (c' : core) (x : X) : Prop :=
  forall d, dev d = k -> core_of d = c -> exists d', f d = (x, d') /\ dev d' = k' /\ core_of d' = c'.

Lemma runs_then {X Y} (f : D_ kbc X) (g : X -> D_ kbc Y) k c k1 c1 k2 c2 x y :
  runs f k c k1 c1 x -> runs (g x) k1 c1 k2 c2 y -> runs (andthen f g) k c k2 c2 y.
Proof.
  intros Hf Hg d Hd Hc. destruct (Hf d Hd Hc) as (d1 & E1 & D1 & C1). destruct (Hg d1 D1 C1) as (d2 & E2 & D2 & C2).
  exists d2. unfold andthen. by rewrite E1, E2.
Qed.
Lemma runs_ret {X} (x : X) k c : runs (ret x) k c k c x.
Proof. intros d Hd Hc. by exists d. Qed.
Lemma runs_note s k c : runs (note busy s) k c k c tt.
Proof. intros d Hd Hc. eexists. split; [reflexivity|]. done. Qed.
Lemma runs_note_hex8 s v k c : runs (note_hex8 busy s v) k c k c tt.
Proof. intros d Hd Hc. eexists. split; [reflexivity|]. done. Qed.
Lemma runs_in p k c : runs (in_port p) k c (snd (dev_inb p k)) c (fst (dev_inb p k)).
Proof. intros d Hd Hc. unfold in_port. rewrite Hd. destruct (dev_inb p k). eexists. split; [reflexivity|]. done. Qed.
Lemma runs_out p v k c : runs (out_port p v) k c (dev_outb p v k) c tt.
Proof. intros d Hd Hc. unfold out_port, change. rewrite Hd. eexists. split; [reflexivity|]. done. Qed.
Lemma runs_look m k c : runs (look (own m)) k c k c m.
Proof. intros d Hd Hc. by exists d. Qed.
Lemma runs_shared k c : runs (change with_shared) k c k (mk_core true (c_global c) (c_packet c) (c_idx c) (c_handled c)) tt.
Proof. intros d Hd <-. eexists. split; [reflexivity|]. done. Qed.
Lemma runs_global m k c : runs (change (with_global m)) k c k (mk_core (c_shared c) m (c_packet c) (c_idx c) (c_handled c)) tt.
Proof. intros d Hd <-. eexists. split; [reflexivity|]. done. Qed.

Lemma poll_first wanted k c n : wanted (kbc_status k) = true -> runs (poll (S n) wanted) k c k c 0.
Proof. intros Hw. cbn [poll]. eapply runs_then; [apply runs_in|]. change (fst _) with (kbc_status k). rewrite Hw. apply runs_ret. Qed.
Lemma runs_wait_write k c : runs ps2_wait_write k c k c 0.
Proof. unfold ps2_wait_write. destruct (Z.to_nat 100000) eqn:E; [lia|]. apply poll_first. unfold kbc_status. by repeat case_match. Qed.
Lemma runs_command v k c : runs (ps2_write_command v) k c (kbc_command v k) c tt.
Proof. eapply runs_then; [apply runs_wait_write|]. apply (runs_out PS2_COMMAND_PORT). Qed.
Lemma runs_data v k c : runs (out_port PS2_DATA_PORT v) k c (kbc_data v k) c tt.
Proof. apply (runs_out PS2_DATA_PORT). Qed.
Lemma runs_mouse v k c : runs (ps2_write_mouse v) k c (expecting for_keyboard (mouse_command v (expecting for_mouse k))) c tt.
Proof.
  eapply runs_then; [apply runs_wait_write|]. eapply runs_then; [apply (runs_out PS2_COMMAND_PORT)|]. eapply runs_then; [apply runs_wait_write|].
  apply (runs_out PS2_DATA_PORT).
Qed.

(** The oldest waiting byte. *)
Definition pop (k : kbc) : kbc := snd (dev_inb PS2_DATA_PORT k).
Lemma runs_read s b rest k c : out k = (s, b) :: rest -> runs ps2_read_data k c (pop k) c b.
Proof.
  intros Ho. eapply (runs_then _ _ _ _ k _ _ _ 0).
  - unfold ps2_wait_read. destruct (Z.to_nat 100000) eqn:E; [lia|]. apply poll_first. unfold kbc_status. rewrite Ho. by destruct s.
  - cbn [Z.eqb negb]. pose proof (runs_in PS2_DATA_PORT k c) as H. cbn [dev_inb kbc_device] in H. unfold pop. cbn [dev_inb kbc_device].
    change (PS2_DATA_PORT =? PS2_STATUS_PORT) with false in *. cbn iota in *. by rewrite Ho in *.
Qed.
Lemma runs_response s b rest k c : out k = (s, b) :: rest -> runs ps2_read_response k c (pop k) c (b, if b =? 0xFA then 0 else -1).
Proof. intros Ho. eapply runs_then; [by eapply runs_read|]. apply runs_ret. Qed.

Lemma runs_flush n c : forall k, (length (out k) <= n)%nat ->
  runs (flush n) k c (mk_kbc [] (config k) (next_data k) (kbd_on k) (aux_on k) (reporting k) (rate_next k) (mouse_id k)) c tt.
Proof.
  induction n as [|n IH]; intros k Hn; cbn [flush].
  - destruct k as [[|? ?]]; cbn in *; [apply runs_ret|lia].
  - eapply runs_then; [apply runs_in|]. change (fst _) with (kbc_status k). change (snd _) with k. unfold kbc_status.
    destruct (out k) as [|[s b] rest] eqn:Ho.
    + cbn. destruct k. cbn in *. subst. apply runs_ret.
    + replace (Z.land (if s then 37 else 5) PS2_STATUS_OUT_FULL =? 0) with false by (by destruct s). eapply runs_then; [apply runs_in|].
      eapply (eq_rect _ (fun k' => runs _ _ _ k' _ _)); [apply IH|]; cbn; rewrite Ho; cbn; [cbn in Hn; lia|done].
Qed.

(** The configuration the driver writes: both interrupts on, both clocks on. *)
Definition new_config (v : Z) : Z := u8 (Z.land (Z.land (Z.lor (Z.lor v 1) 2) (Z.lnot 16)) (Z.lnot 32)).

Lemma runs_eq {X} (f : D_ kbc X) k c k1 k2 c' x : runs f k c k1 c' x -> k1 = k2 -> runs f k c k2 c' x.
Proof. by intros H <-. Qed.
(** A step of a handshake, with the device it leaves computed. *)
Ltac hop := eapply runs_then; [first [apply runs_note|apply runs_note_hex8|apply runs_wait_write|apply runs_shared|
  apply runs_look|apply runs_ret|
  eapply runs_eq; [first [apply runs_command|apply runs_mouse|apply (runs_out PS2_COMMAND_PORT)|apply runs_data|apply runs_flush; cbn; lia|
    eapply runs_read; reflexivity|eapply runs_response; reflexivity]|cbv; reflexivity]]|].

Lemma controller_init_runs o cfg kbd aux rep rate id c :
  (length o <= 5)%nat -> c_shared c = false ->
  runs (ps2_controller_init busy) (mk_kbc o cfg for_keyboard kbd aux rep rate id) c
    (mk_kbc [] (new_config cfg) for_keyboard true true rep rate id) (mk_core true (c_global c) (c_packet c) (c_idx c) (c_handled c)) 0.
Proof.
  intros Ho Hs d Hd Hc. unfold ps2_controller_init. replace (g_ps2_shared_initialized d) with false by (by rewrite <- Hs, <- Hc).
  revert d Hd Hc. match goal with |- forall d, _ -> _ -> exists d', ?f d = (?x, d') /\ dev d' = ?k' /\ _ => change (runs f (mk_kbc o cfg for_keyboard kbd aux rep rate id) c k' (mk_core true (c_global c) (c_packet c) (c_idx c) (c_handled c)) x) end.
  do 3 hop. eapply runs_then; [apply runs_flush; exact Ho|]. repeat hop. apply runs_ret.
Qed.

Lemma new_config_bits v i : 0 <= v < 256 -> 0 <= i < 8 ->
  Z.testbit (new_config v) i = if (i <? 2) then true else if (i =? 4) || (i =? 5) then false else Z.testbit v i.
Proof.
  intros Hv Hi. unfold new_config, u8. rewrite Z.mod_pow2_bits_low, !Z.land_spec, !Z.lor_spec, !Z.lnot_spec by lia.
  assert (i = 0 \/ i = 1 \/ i = 2 \/ i = 3 \/ i = 4 \/ i = 5 \/ i = 6 \/ i = 7) as H by lia.
  destruct H as [->|[->|[->|[->|[->|[->|[->| ->]]]]]]]; cbn; rewrite ?orb_true_r, ?orb_false_r, ?andb_true_r, ?andb_false_r; reflexivity.
Qed.

(** The mouse as the driver describes it. *)
Definition started : mouse_state := mk_mouse 40 12 0 true MOUSE_TYPE_PS2 false 0 80 0 25 None.

Lemma mouse_init_runs m o cfg kbd aux rep id c :
  (length o <= 5)%nat -> c_shared c = false ->
  runs (mouse_init busy (own m)) (mk_kbc o cfg for_keyboard kbd aux rep false id) c
    (mk_kbc [(true, 0xFA); (true, id)] (new_config cfg) for_keyboard true true true false id)
    (mk_core true started (c_packet c) (c_idx c) (c_handled c)) (MOUSE_OK, own started).
Proof.
  intros Ho Hs. unfold mouse_init. hop. eapply runs_then; [by apply controller_init_runs|]. cbn [store].
  generalize (new_config cfg). intros v. hop. eapply (runs_then _ _ _ _ (mk_kbc [] v for_keyboard true true rep false id) _ _ _ 4);
    [apply (runs_in PS2_STATUS_PORT)|]. cbn [Z.eqb Pos.eqb orb].
  do 5 hop. cbn [snd Z.eqb Pos.eqb negb]. do 11 hop. cbn [snd Z.eqb Pos.eqb negb]. unfold mouse_detect_type. eapply runs_then.
  { do 5 hop. cbn [store Z.eqb Pos.eqb]. hop. apply runs_ret. }
  cbn [snd]. hop. cbn [store]. do 2 hop. eapply runs_then; [apply runs_global|]. hop. apply runs_ret.
Qed.

(** C30. [mouse_init] on an 8042 with a mouse, with up to five old bytes in its buffer:
    it succeeds, the pointer is at the middle of the 80 by 25 screen, also in the
    global structure, both ports and the mouse's reporting are on, and the
    configuration has both interrupts and both clocks on and is otherwise
    unchanged.  The handshake counts one byte too few for the reset and for the
    identification: the type is the standard one whatever the mouse identifies
    as, and the identification's two bytes stay in the buffer. *)
Theorem mouse_init_starts m o cfg kbd aux rep id d :
  dev d = mk_kbc o cfg for_keyboard kbd aux rep false id -> (length o <= 5)%nat -> g_ps2_shared_initialized d = false -> 0 <= cfg < 256 ->
  exists d', mouse_init busy (own m) d = ((MOUSE_OK, own started), d') /\ g_mouse_global d' = started /\
    kbd_on (dev d') = true /\ aux_on (dev d') = true /\ reporting (dev d') = true /\
    (forall i, 0 <= i < 8 -> Z.testbit (config (dev d')) i = if (i <? 2) then true else if (i =? 4) || (i =? 5) then false else Z.testbit cfg i) /\
    out (dev d') = [(true, 0xFA); (true, id)].
Proof.
  intros Hd Ho Hs Hc. destruct (mouse_init_runs m o cfg kbd aux rep id (core_of d) Ho Hs d Hd eq_refl) as (d' & E & D' & C').
  exists d'. rewrite D'. split; [done|]. split; [by injection C'|]. split_and!; try done. intros i Hi. by apply new_config_bits.
Qed.
End Init.

(** ** Packets *)

(** The three bytes a mouse sends for a motion and its buttons. *)
Definition encode (b tx ty : Z) : list Z :=
  [8 + b + (if tx <? 0 then 16 else 0) + (if ty <? 0 then 32 else 0); tx mod 256; ty mod 256].
(** What the driver makes of a motion along an axis. *)
Definition seen (v : Z) : Z :=
  if v <? 0 then (if (v <? -128) && negb (v =? -256) then 127 else -128) else if v <? 128 then v else v - 256.

Lemma flag_bits b s t : 0 <= b < 8 ->
  let p := 8 + b + (if s : bool then 16 else 0) + (if t : bool then 32 else 0) in
  Z.land p 0x08 = 8 /\ Z.land p 0x07 = b /\ (Z.land p 0x10 =? 0) = negb s /\ (Z.land p 0x20 =? 0) = negb t /\ (Z.land p 0xC0 =? 0) = true.
Proof.
  intros Hb. assert (b = 0 \/ b = 1 \/ b = 2 \/ b = 3 \/ b = 4 \/ b = 5 \/ b = 6 \/ b = 7) as H by lia.
  destruct H as [->|[->|[->|[->|[->|[->|[->| ->]]]]]]]; destruct s, t; by vm_compute.
Qed.
Lemma axis_seen v : -256 <= v < 256 -> axis (v mod 256) (v <? 0) = seen v.
Proof.
  intros Hv. unfold axis, seen, i8. destruct (Z.ltb_spec v 0).
  - destruct (Z.ltb_spec v (-128)), (Z.eqb_spec v (-256)); cbn [andb negb]; destruct (Z.ltb_spec 0 ((v mod 256 + 2 ^ 7) mod 2 ^ 8 - 2 ^ 7)); zlia.
  - destruct (Z.ltb_spec v 128); zlia.
Qed.

Definition in_bounds (m : mouse_state) : Prop := min_x m <= mx m < max_x m /\ min_y m <= my m < max_y m.
Definition sane (m : mouse_state) : Prop :=
  - 2 ^ 30 <= min_x m < max_x m /\ max_x m < 2 ^ 30 /\ - 2 ^ 30 <= min_y m < max_y m /\ max_y m < 2 ^ 30.
Lemma i32_id v : - 2 ^ 31 <= v < 2 ^ 31 -> i32 v = v.
Proof. intros. unfold i32. zlia. Qed.
Lemma clamp1_spec lo hi v : - 2 ^ 30 <= lo < hi -> hi < 2 ^ 30 -> clamp1 lo hi v = Z.max lo (Z.min v (hi - 1)).
Proof. intros H1 H2. unfold clamp1. destruct (Z.ltb_spec v lo); case_match; rewrite ?i32_id; lia. Qed.
Lemma clamp_in_bounds m : sane m -> in_bounds (clamp m).
Proof. intros (H1 & H2 & H3 & H4). unfold in_bounds, clamp. cbn. rewrite !clamp1_spec by done. lia. Qed.

(** C31. One packet: for every motion of nine bits along both axes and every
    combination of buttons the event has those buttons, the motion is taken as it
    is from 0 to 127, and a visible pointer moves by it and stays in its
    bounds, wherever it was.  A motion to the left or down is not taken as it is:
    any of up to 128 steps becomes 128, and longer ones the opposite. *)
Theorem packet_moves_pointer b tx ty m :
  0 <= b < 8 -> -256 <= tx < 256 -> -256 <= ty < 256 -> mtype m = MOUSE_TYPE_PS2 -> hidden m = false -> sane m -> in_bounds m ->
  exists ev m', mouse_parse_packet (encode b tx ty) m = Some (ev, m') /\
    ev_buttons ev = b /\ dx ev = seen tx /\ dy ev = - seen ty /\ valid ev = true /\ in_bounds m' /\
    mx m' = Z.max (min_x m) (Z.min (mx m + seen tx) (max_x m - 1)) /\ my m' = Z.max (min_y m) (Z.min (my m - seen ty) (max_y m - 1)) /\
    (forall v, 0 <= v < 128 -> seen v = v) /\ (forall v, -128 <= v < 0 -> seen v = -128) /\ (forall v, -256 < v < -128 -> seen v = 127).
Proof.
  intros Hb Hx Hy Ht Hh Hs Hi. unfold mouse_parse_packet, encode. cbn [lookup_total list_lookup_total].
  destruct (flag_bits b (tx <? 0) (ty <? 0) Hb) as (F1 & F2 & F3 & F4 & _). rewrite F1, F2, F3, F4. cbn [Z.eqb]. rewrite !negb_involutive, !axis_seen by done.
  change (hidden (at_pos _ _ m)) with (hidden m). rewrite Hh. do 2 eexists. split; [reflexivity|]. cbn [ev_buttons dx dy valid].
  assert (forall v, -256 <= v < 256 -> -128 <= seen v <= 127) as Hseen by (intros v Hv; unfold seen; repeat case_match; lia).
  pose proof (Hseen tx Hx). pose proof (Hseen ty Hy). destruct Hs as (S1 & S2 & S3 & S4). destruct Hi as [I1 I2].
  split_and!; try done; try (apply clamp_in_bounds; done).
  - cbn [mx clamp at_pos]. change (clamp1 (min_x m) (max_x m) (i32 (mx m + seen tx)) = Z.max (min_x m) (Z.min (mx m + seen tx) (max_x m - 1))).
    by rewrite clamp1_spec, i32_id by lia.
  - change (clamp1 (min_y m) (max_y m) (i32 (my m + - seen ty)) = Z.max (min_y m) (Z.min (my m - seen ty) (max_y m - 1))).
    by rewrite clamp1_spec, i32_id by lia.
  - intros v Hv. unfold seen. repeat case_match; lia.
  - intros v Hv. unfold seen. repeat case_match; lia.
  - intros v Hv. unfold seen. repeat case_match; lia.
Qed.

(** ** Framing *)

Section Framing.
Context {D : Type} `{!Ps2Device D}.

(** The bytes of the mouse one after the other, each as it comes out of the data port,
    and the events they gave. *)
Fixpoint mouse_bytes (bs : list Z) (t : target) : D_ D (list mouse_event * target) :=
  match bs with
  | [] => ret ([], t)
  | b :: bs =>
      r <- mouse_byte b t (mk_event 0 0 0 0 false);;
      let '(_, ev, t) := r in
      rest <- mouse_bytes bs t;;
      ret ((if valid ev then [ev] else []) ++ fst rest, snd rest)
  end.
(** What they should give: one event per packet. *)
Fixpoint packets_events (ps : list (list Z)) (m : mouse_state) : list mouse_event * mouse_state :=
  match ps with
  | [] => ([], m)
  | p :: ps => match mouse_parse_packet p m with
               | Some (ev, m) => let '(evs, m) := packets_events ps m in (ev :: evs, m)
               | None => packets_events ps m
               end
  end.
Definition packet_size (m : mouse_state) : nat := if mtype m =? MOUSE_TYPE_IMPS2 then 4 else 3.
Definition framed (m : mouse_state) (p : list Z) : Prop := length p = packet_size m /\ Z.land (p !!! 0%nat) 0x08 <> 0.
Definition tstate (t : target) (d : driver D) : mouse_state := fst (look t d).
Definition calls (m : mouse_state) (evs : list mouse_event) : list (Z * mouse_event) :=
  match event_handler m with Some h => map (fun ev => (h, ev)) evs | None => [] end.

Lemma bytes_app a b t d :
  mouse_bytes (a ++ b) t d =
  let '((e1, t1), d1) := mouse_bytes a t d in let '((e2, t2), d2) := mouse_bytes b t1 d1 in ((e1 ++ e2, t2), d2).
Proof.
  revert t d. induction a as [|x a IH]; intros t d; cbn [mouse_bytes app].
  - unfold ret. cbn. by destruct (mouse_bytes b t d) as [[? ?] ?].
  - unfold andthen. destruct (mouse_byte x t (mk_event 0 0 0 0 false) d) as [[[? ev] t1] d1]. rewrite IH.
    destruct (mouse_bytes a t1 d1) as [[e2 t2] d2]. destruct (mouse_bytes b t2 d2) as [[e3 t3] d3] eqn:Eb. unfold ret. cbn [fst snd].
    by rewrite Eb, app_assoc.
Qed.

(** Bytes that cannot start a packet are skipped. *)
Lemma noise_skipped bs t d : byte_idx d = 0 -> Forall (fun b => Z.land b 0x08 = 0) bs -> mouse_bytes bs t d = (([], t), d).
Proof.
  intros Hi Hb. induction Hb as [|b bs Hb _ IH]; [done|]. cbn [mouse_bytes]. unfold andthen, mouse_byte. destruct (look t d) as [m d'] eqn:El.
  assert (d' = d) as -> by (unfold look in El; by simplify_eq). rewrite Hi, Hb. cbn [Z.eqb Z.ltb Z.compare negb andb].
  assert (with_packet (packet d) 0 d = d) as -> by (destruct d; cbn in *; by subst). unfold ret. cbn [valid invalid]. by rewrite IH.
Qed.

(** The event of the first bytes in the array. *)
Lemma parse_prefix p a m : length p = packet_size m -> take (packet_size m) a = p -> (packet_size m <= length a)%nat ->
  mouse_parse_packet a m = mouse_parse_packet p m.
Proof.
  unfold packet_size, mouse_parse_packet. intros Hl Ht Ha. destruct (mtype m =? MOUSE_TYPE_IMPS2).
  - destruct a as [|? [|? [|? [|? a]]]]; cbn [length] in Ha; try lia. cbn in Ht. by subst.
  - destruct a as [|? [|? [|? a]]]; cbn [length] in Ha; try lia. cbn in Ht. by subst.
Qed.

Lemma look_tstate t (d : driver D) : look t d = (tstate t d, d).
Proof. done. Qed.
Lemma tstate_packet t p i (d : driver D) : tstate t (with_packet p i d) = tstate t d.
Proof. by destruct t. Qed.

Lemma byte_first a t ev (d : driver D) : byte_idx d = 0 -> Z.land a 0x08 <> 0 ->
  mouse_byte a t ev d = ((MOUSE_OK, invalid ev, t), with_packet (<[0%nat := a]> (packet d)) 1 d).
Proof. intros Hi Ha. unfold mouse_byte. rewrite look_tstate, Hi. replace (Z.land a 8 =? 0) with false by lia. done. Qed.
Lemma byte_next b t ev (d : driver D) : 0 < byte_idx d -> byte_idx d + 1 < Z.of_nat (packet_size (tstate t d)) ->
  mouse_byte b t ev d = ((MOUSE_OK, invalid ev, t), with_packet (<[Z.to_nat (byte_idx d) := b]> (packet d)) (byte_idx d + 1) d).
Proof.
  intros Hi Hn. unfold mouse_byte. rewrite look_tstate. unfold packet_size in Hn.
  replace (byte_idx d =? 0) with false by lia. replace (0 <? byte_idx d) with true by lia. cbn [andb].
  destruct (mtype (tstate t d) =? MOUSE_TYPE_IMPS2).
  - replace (byte_idx d <? 4) with true by lia. cbn [byte_idx with_packet]. by replace (4 <=? byte_idx d + 1) with false by lia.
  - replace (byte_idx d <? 3) with true by lia. cbn [byte_idx with_packet]. by replace (3 <=? byte_idx d + 1) with false by lia.
Qed.
Lemma byte_last b t ev (d : driver D) ev' m' : 0 < byte_idx d -> byte_idx d + 1 = Z.of_nat (packet_size (tstate t d)) ->
  mouse_parse_packet (<[Z.to_nat (byte_idx d) := b]> (packet d)) (tstate t d) = Some (ev', m') ->
  exists t' d', mouse_byte b t ev d = ((MOUSE_OK, ev', t'), d') /\ tstate t' d' = m' /\ byte_idx d' = 0 /\
    packet d' = <[Z.to_nat (byte_idx d) := b]> (packet d) /\ handled d' = handled d ++ calls m' [ev'].
Proof.
  intros Hi Hn Hp. unfold mouse_byte. rewrite look_tstate. unfold packet_size in Hn.
  replace (byte_idx d =? 0) with false by lia. replace (0 <? byte_idx d) with true by lia. cbn [andb].
  assert ((byte_idx d <? (if mtype (tstate t d) =? MOUSE_TYPE_IMPS2 then 4 else 3)) = true) as ->
    by (destruct (mtype (tstate t d) =? MOUSE_TYPE_IMPS2); lia).
  cbn [byte_idx with_packet packet]. assert (((if mtype (tstate t d) =? MOUSE_TYPE_IMPS2 then 4 else 3) <=? byte_idx d + 1) = true) as ->
    by (destruct (mtype (tstate t d) =? MOUSE_TYPE_IMPS2); lia).
  rewrite Hp. unfold andthen, store, calls, change, ret. destruct t as [m|], (event_handler m') as [h|] eqn:Eh; cbn -[app]; rewrite ?Eh;
    do 2 eexists; (split; [reflexivity|]); cbn -[app]; rewrite ?app_nil_r; done.
Qed.

Lemma parse_framed p m : framed m p -> exists ev m', mouse_parse_packet p m = Some (ev, m') /\ valid ev = true /\
  mtype m' = mtype m /\ event_handler m' = event_handler m.
Proof.
  intros [_ Hp]. unfold mouse_parse_packet. destruct (Z.eqb_spec (Z.land (p !!! 0%nat) 8) 0); [done|].
  do 2 eexists. split; [reflexivity|]. split; [done|]. by destruct (hidden _).
Qed.

Lemma one_packet p t (d : driver D) :
  framed (tstate t d) p -> byte_idx d = 0 -> length (packet d) = 4%nat ->
  exists ev t' d', mouse_bytes p t d = (([ev], t'), d') /\ mouse_parse_packet p (tstate t d) = Some (ev, tstate t' d') /\
    byte_idx d' = 0 /\ length (packet d') = 4%nat /\ handled d' = handled d ++ calls (tstate t d) [ev].
Proof.
  intros Hf Hi Hl. destruct (parse_framed p _ Hf) as (ev & m' & Hp & Hv & Hty & Hh). destruct Hf as [Hlen Hbit].
  destruct p as [|a [|b [|c p]]]; try (unfold packet_size in Hlen; case_match; cbn in Hlen; lia). cbn [lookup_total list_lookup_total] in Hbit.
  cbn [mouse_bytes]. unfold andthen at 1. rewrite byte_first by done. cbn [valid invalid app].
  assert (3 <= packet_size (tstate t d) <= 4)%nat as Hsz by (unfold packet_size; case_match; lia).
  unfold andthen at 1 2. rewrite byte_next by (rewrite ?tstate_packet; cbn [byte_idx with_packet]; lia). cbn [valid invalid app fst snd byte_idx packet with_packet].
  set (d2 := with_packet _ _ (with_packet _ _ d)).
  destruct p as [|e [|? ?]]; cbn [length] in Hlen; [| |unfold packet_size in Hlen; case_match; lia].
  - destruct (byte_last c t (mk_event 0 0 0 0 false) d2 ev m') as (t' & d' & E & H1 & H2 & H3 & H4).
    + cbn. lia.
    + subst d2. rewrite !tstate_packet. cbn [byte_idx with_packet]. lia.
    + subst d2. rewrite !tstate_packet. cbn [byte_idx packet with_packet]. rewrite <- Hp. apply parse_prefix; [done| |].
      * rewrite <- Hlen. destruct (packet d) as [|? [|? [|? [|? [|? ?]]]]]; cbn in Hl; try lia. done.
      * rewrite !length_insert. lia.
    + exists ev, t', d'. cbn [mouse_bytes]. unfold andthen. rewrite E, Hv. unfold ret. cbn [fst snd app].
      split; [done|]. rewrite H1. split; [done|]. split; [done|]. split; [rewrite H3; subst d2; cbn [packet with_packet]; by rewrite !length_insert|].
      rewrite H4. subst d2. unfold calls. by rewrite Hh.
  - unfold andthen at 1 2. rewrite byte_next by (subst d2; rewrite ?tstate_packet; cbn [byte_idx with_packet]; lia). cbn [valid invalid app fst snd].
    set (d3 := with_packet _ _ d2).
    destruct (byte_last e t (mk_event 0 0 0 0 false) d3 ev m') as (t' & d' & E & H1 & H2 & H3 & H4).
    + cbn. lia.
    + subst d3 d2. rewrite !tstate_packet. cbn [byte_idx with_packet]. lia.
    + subst d3 d2. rewrite !tstate_packet. cbn [byte_idx packet with_packet]. rewrite <- Hp. apply parse_prefix; [done| |].
      * rewrite <- Hlen. destruct (packet d) as [|? [|? [|? [|? [|? ?]]]]]; cbn in Hl; try lia. done.
      * rewrite !length_insert. lia.
    + exists ev, t', d'. cbn [mouse_bytes]. unfold andthen. rewrite E, Hv. unfold ret. cbn [fst snd app].
      split; [done|]. rewrite H1. split; [done|]. split; [done|]. split; [rewrite H3; subst d3 d2; cbn [packet with_packet]; by rewrite !length_insert|].
      rewrite H4. subst d3 d2. unfold calls. by rewrite Hh.
Qed.

Lemma framed_type m m' p : mtype m' = mtype m -> framed m p -> framed m' p.
Proof. unfold framed, packet_size. by intros ->. Qed.
Lemma calls_app m a b : calls m (a ++ b) = calls m a ++ calls m b.
Proof. unfold calls. case_match; [|done]. apply map_app. Qed.

Lemma bytes_framed noise ps t (d : driver D) :
  Forall (fun b => Z.land b 0x08 = 0) noise -> Forall (framed (tstate t d)) ps -> byte_idx d = 0 -> length (packet d) = 4%nat ->
  exists t' d', mouse_bytes (noise ++ concat ps) t d = ((fst (packets_events ps (tstate t d)), t'), d') /\
    tstate t' d' = snd (packets_events ps (tstate t d)) /\ byte_idx d' = 0 /\ length (packet d') = 4%nat /\
    handled d' = handled d ++ calls (tstate t d) (fst (packets_events ps (tstate t d))).
Proof.
  intros Hn Hps Hi Hl. rewrite bytes_app, noise_skipped by done. clear noise Hn. cbn [app].
  cut (exists t' d', mouse_bytes (concat ps) t d = ((fst (packets_events ps (tstate t d)), t'), d') /\
    tstate t' d' = snd (packets_events ps (tstate t d)) /\ byte_idx d' = 0 /\ length (packet d') = 4%nat /\
    handled d' = handled d ++ calls (tstate t d) (fst (packets_events ps (tstate t d)))).
  { intros (t' & d' & -> & H). by exists t', d'. }
  revert t d Hps Hi Hl. induction ps as [|p ps IH]; intros t d Hps Hi Hl; cbn [concat packets_events].
  - exists t, d. unfold calls. split; [done|]. split_and!; try done. cbn. case_match; by rewrite app_nil_r.
  - rewrite Forall_cons in Hps. destruct Hps as [Hp Hps]. pose proof (parse_framed _ _ Hp) as (ev0 & m0 & E0 & _ & Hty & Hh).
    destruct (one_packet p t d Hp Hi Hl) as (ev & t1 & d1 & E1 & P1 & I1 & L1 & H1). rewrite P1 in E0. injection E0 as <- <-.
    destruct (IH t1 d1) as (t2 & d2 & E2 & S2 & I2 & L2 & H2); [|done|done|].
    { eapply Forall_impl; [exact Hps|]. intros q. by apply framed_type. }
    rewrite bytes_app, E1, E2, P1. destruct (packets_events ps (tstate t1 d1)) as [evs m2]. cbn [fst snd] in *.
    exists t2, d2. split; [done|]. split_and!; try done. rewrite H2, H1, <- app_assoc. f_equal. unfold calls. rewrite Hh. case_match; done.
Qed.

(** A byte neither depends on the device nor changes it, and keeps the mouse present. *)
Lemma tstate_dev k t (d : driver D) : tstate t (with_dev k d) = tstate t d.
Proof. by destruct t. Qed.
Lemma byte_facts b t ev k (d : driver D) : let '((c, ev', t'), d') := mouse_byte b t ev d in
  c = MOUSE_OK /\ mouse_byte b t ev (with_dev k d) = ((c, ev', t'), with_dev k d') /\ dev d' = dev d /\ m_present (tstate t' d') = m_present (tstate t d).
Proof.
  unfold mouse_byte. rewrite !look_tstate, tstate_dev. cbn [byte_idx packet with_dev].
  set (sz := if mtype _ =? MOUSE_TYPE_IMPS2 then 4 else 3).
  destruct ((byte_idx d =? 0) && negb (Z.land b 8 =? 0)); [unfold ret; by rewrite tstate_packet|].
  destruct ((0 <? byte_idx d) && (byte_idx d <? sz)); [|unfold ret; destruct (negb (Z.land b 8 =? 0)); by rewrite tstate_packet].
  destruct (sz <=? byte_idx (with_packet (<[Z.to_nat (byte_idx d):=b]> (packet d)) (byte_idx d + 1) d)) eqn:E;
    cbn [byte_idx with_packet] in E; cbn [byte_idx packet with_packet with_dev]; rewrite E; [|unfold ret; by rewrite tstate_packet].
  destruct (mouse_parse_packet _ (tstate t d)) as [[e m]|] eqn:Ep; [|unfold ret; by rewrite !tstate_packet].
  assert (m_present m = m_present (tstate t d)) as Hm.
  { unfold mouse_parse_packet in Ep. destruct (_ =? 0); [done|]. injection Ep as _ <-. by destruct (hidden _). }
  unfold andthen, store, change, ret. destruct t as [m0|], (event_handler m); cbn; by rewrite Hm.
Qed.
Lemma bytes_dev bs t k (d : driver D) : forall evs t' d', mouse_bytes bs t d = ((evs, t'), d') -> mouse_bytes bs t (with_dev k d) = ((evs, t'), with_dev k d').
Proof.
  revert t d; induction bs as [|b bs IH]; intros t d evs t' d'; cbn [mouse_bytes].
  - unfold ret. by intros [= <- <- <-].
  - unfold andthen. pose proof (byte_facts b t (mk_event 0 0 0 0 false) k d) as H.
    destruct (mouse_byte b t (mk_event 0 0 0 0 false) d) as [[[c ev] t1] d1]. destruct H as (_ & -> & _).
    destruct (mouse_bytes bs t1 d1) as [[e2 t2] d2] eqn:E2. rewrite (IH _ _ _ _ _ E2). unfold ret. cbn [fst snd]. by intros [= <- <- <-].
Qed.
End Framing.

(** *** Through the ports *)

(** [n] calls of [mouse_read]: their codes and the valid events. *)
Fixpoint mouse_reads (n : nat) (t : target) : D_ kbc (list Z * list mouse_event * target) :=
  match n with
  | O => ret ([], [], t)
  | S n =>
      r <- mouse_read t (mk_event 0 0 0 0 false);;
      let '(code, ev, t) := r in
      rest <- mouse_reads n t;;
      let '(codes, evs, t) := rest in
      ret (code :: codes, (if valid ev then [ev] else []) ++ evs, t)
  end.
Definition waiting (o : list (bool * Z)) (k : kbc) : kbc :=
  mk_kbc o (config k) (next_data k) (kbd_on k) (aux_on k) (reporting k) (rate_next k) (mouse_id k).

Lemma read_absent t ev (d : driver kbc) : m_present (tstate t d) = false -> mouse_read t ev d = ((MOUSE_ERR_NO_DEV, ev, t), d).
Proof. intros H. unfold mouse_read, andthen. rewrite look_tstate, H. done. Qed.
Lemma read_nothing t ev (d : driver kbc) : m_present (tstate t d) = true -> out (dev d) = [] -> mouse_read t ev d = ((MOUSE_OK, invalid ev, t), d).
Proof.
  intros H Ho. unfold mouse_read, andthen. rewrite look_tstate, H. unfold in_port. cbn [negb dev_inb kbc_device Z.eqb Pos.eqb PS2_STATUS_PORT].
  unfold kbc_status. rewrite Ho. cbn. by destruct d.
Qed.
Lemma read_byte x rest t ev (d : driver kbc) : m_present (tstate t d) = true -> out (dev d) = x :: rest ->
  mouse_read t ev d = mouse_byte (snd x) t ev (with_dev (waiting rest (dev d)) d).
Proof.
  intros H Ho. unfold mouse_read, andthen. rewrite look_tstate, H. unfold in_port. cbn [negb dev_inb kbc_device Z.eqb Pos.eqb PS2_STATUS_PORT].
  unfold kbc_status. rewrite Ho. destruct x as [[|] b]; cbn -[mouse_byte].
  - change (Z.land 37 PS2_STATUS_OUT_FULL =? 0) with false. cbn [dev with_dev]. by rewrite Ho.
  - change (Z.land 5 PS2_STATUS_OUT_FULL =? 0) with false. cbn [dev with_dev]. by rewrite Ho.
Qed.

Lemma reads_bytes bs rest : forall t (d : driver kbc) evs t' d',
  m_present (tstate t d) = true -> out (dev d) = bs ++ rest -> mouse_bytes (map snd bs) t d = ((evs, t'), d') ->
  mouse_reads (length bs) t d = ((replicate (length bs) MOUSE_OK, evs, t'), with_dev (waiting rest (dev d)) d') /\
  m_present (tstate t' d') = true.
Proof.
  induction bs as [|x bs IH]; intros t d evs t' d' Hp Ho; cbn [map mouse_bytes mouse_reads length replicate].
  - unfold ret. intros [= <- <- <-]. cbn [app] in Ho. rewrite <- Ho. split; [|done]. by destruct d as [[] ? ? ? ? ? ?].
  - unfold andthen. cbn [app] in Ho. rewrite (read_byte x (bs ++ rest) t _ d Hp Ho).
    pose proof (byte_facts (snd x) t (mk_event 0 0 0 0 false) (waiting (bs ++ rest) (dev d)) d) as H.
    destruct (mouse_byte (snd x) t (mk_event 0 0 0 0 false) d) as [[[c ev] t1] d1]. destruct H as (-> & -> & _ & Hp1). rewrite Hp in Hp1.
    destruct (mouse_bytes (map snd bs) t1 d1) as [[e2 t2] d2] eqn:E2. unfold ret. cbn [fst snd]. intros [= <- <- <-].
    destruct (IH t1 (with_dev (waiting (bs ++ rest) (dev d)) d1) e2 t2 (with_dev (waiting (bs ++ rest) (dev d)) d2)) as [-> Hp2].
    + by rewrite tstate_dev.
    + done.
    + by apply bytes_dev.
    + split; [done|]. by rewrite tstate_dev in Hp2.
Qed.

(** C29. The packets of the mouse are found in the bytes that wait in the controller.
    Without a mouse [mouse_read] reports that and reads no port.  With one, each call
    takes one byte (whichever device sent it): after any bytes that
    cannot start a packet, a stream of packets of the mouse's size, three bytes or
    four with a wheel, gives exactly one event for each, in their order, the pointer
    moves by all of them, a handler is called once for each, exactly these bytes have
    been taken, and the driver waits for the next packet; with no byte left a call
    gives no event and changes nothing. *)
Theorem stream_is_framed noise ps bs rest t (d : driver kbc) :
  out (dev d) = bs ++ rest -> map snd bs = noise ++ concat ps ->
  Forall (fun b => Z.land b 0x08 = 0) noise -> Forall (framed (tstate t d)) ps -> byte_idx d = 0 -> length (packet d) = 4%nat ->
  (m_present (tstate t d) = false -> forall ev, mouse_read t ev d = ((MOUSE_ERR_NO_DEV, ev, t), d)) /\
  (m_present (tstate t d) = true ->
   exists t' d', mouse_reads (length bs) t d = ((replicate (length bs) MOUSE_OK, fst (packets_events ps (tstate t d)), t'), d') /\
     tstate t' d' = snd (packets_events ps (tstate t d)) /\ out (dev d') = rest /\ byte_idx d' = 0 /\ length (packet d') = 4%nat /\
     handled d' = handled d ++ calls (tstate t d) (fst (packets_events ps (tstate t d))) /\
     (rest = [] -> forall ev, mouse_read t' ev d' = ((MOUSE_OK, invalid ev, t'), d'))).
Proof.
  intros Ho Hb Hn Hps Hi Hl. split; [intros H ev; by apply read_absent|]. intros Hp.
  destruct (bytes_framed noise ps t d Hn Hps Hi Hl) as (t' & d' & E & H1 & H2 & H3 & H4). rewrite <- Hb in E.
  destruct (reads_bytes bs rest t d _ t' d' Hp Ho E) as [R Hp']. do 2 eexists. split; [exact R|].
  rewrite tstate_dev. split_and!; try done. intros Hr ev. apply read_nothing; [by rewrite tstate_dev|exact Hr].
Qed.

(** ** The wrapper of vbox_mouse.c *)

Lemma delta_exact v : -256 <= v < 128 -> delta (v mod 256) (v <? 0) = v.
Proof.
  intros Hv. unfold delta, i8. destruct (Z.ltb_spec v 0) as [Hneg|Hpos]; cbn [andb].
  - destruct (Z.leb_spec 0 ((v mod 256 + 2 ^ 7) mod 2 ^ 8 - 2 ^ 7)) as [H|H]; [|zlia].
    assert (-256 <= v < -128) as Hr by zlia.
    replace ((v mod 256 + 2 ^ 7) mod 2 ^ 8 - 2 ^ 7) with (v + 256) by zlia.
    assert (Z.lor (v + 256) 0xFF00 = v + 256 + 0xFF00) as ->.
    { pose proof (Z.add_lor_land (v + 256) 0xFF00) as E. assert (Z.land (v + 256) 0xFF00 = 0) as E0; [|lia].
      rewrite <- (Z.mod_small (v + 256) (2 ^ 8)), <- Z.land_ones, <- Z.land_assoc by lia. change (Z.land (Z.ones 8) 0xFF00) with 0. apply Z.land_0_r. }
    unfold i16. zlia.
  - zlia.
Qed.
Lemma clamp0_spec hi v : 0 < hi -> clamp0 hi v = Z.max 0 (Z.min v (hi - 1)).
Proof. intros. unfold clamp0. destruct (Z.ltb_spec v 0); case_match; lia. Qed.

Section Wrapper.
Context {D : Type} `{!Ps2Device D}.
Context (busy : list Z -> nat).

(** The wrapper decodes a motion of -256 to 127 along both axes exactly: its three
    bytes move the pointer by it within the 80 by 25 screen, set the buttons, put
    the unified driver's pointer to the same place, and call the callbacks with
    the motion and the buttons. *)
Theorem wrapper_tracks b tx ty v (d : driver D) :
  0 <= b < 8 -> -256 <= tx < 128 -> -256 <= ty < 128 ->
  v_init v = true -> v_enabled v = true -> packet_index v = 0 -> length (vpacket v) = 3%nat -> 0 <= vx v < 80 -> 0 <= vy v < 25 ->
  min_x (g_mouse_global d) = 0 -> max_x (g_mouse_global d) = 80 -> min_y (g_mouse_global d) = 0 -> max_y (g_mouse_global d) = 25 ->
  let p := encode b tx ty in
  exists v' d', (v <- ps2_mouse_handler busy (p !!! 0%nat) v;; v <- ps2_mouse_handler busy (p !!! 1%nat) v;; ps2_mouse_handler busy (p !!! 2%nat) v) d = (v', d') /\
    vx v' = Z.max 0 (Z.min (vx v + tx) 79) /\ vy v' = Z.max 0 (Z.min (vy v - ty) 24) /\
    left_button v' = Z.testbit b 0 /\ right_button v' = Z.testbit b 1 /\ middle_button v' = Z.testbit b 2 /\ packet_index v' = 0 /\
    mx (g_mouse_global d') = vx v' /\ my (g_mouse_global d') = vy v' /\
    vcalls v' = vcalls v ++ (match on_move v with Some cb => if (tx =? 0) && (ty =? 0) then [] else [moved cb tx ty] | None => [] end)
                         ++ (match on_button v with Some cb => [clicked cb b] | None => [] end).
Proof.
  intros Hb Hx Hy Hi He Hp Hl Hvx Hvy B1 B2 B3 B4 p. destruct (flag_bits b (tx <? 0) (ty <? 0) Hb) as (F1 & F2 & F3 & F4 & F5).
  destruct v as [ini en x y lb rb mb idx [|q0 [|q1 [|q2 [|? ?]]]] om ob cs]; cbn in Hi, He, Hp, Hl, Hvx, Hvy; try lia. subst.
  unfold andthen, p, encode. cbn [lookup_total list_lookup_total]. set (p0 := 8 + b + _ + _) in *.
  unfold ps2_mouse_handler at 1. cbn [v_init v_enabled negb orb packet_index Z.eqb]. rewrite F1. cbn [Z.eqb negb]. unfold ret at 1.
  unfold ps2_mouse_handler at 1. cbn [v_init v_enabled v_packet negb orb packet_index Z.eqb Pos.eqb vpacket]. unfold ret at 1.
  unfold ps2_mouse_handler. cbn [v_init v_enabled v_packet negb orb packet_index Z.eqb Pos.eqb vpacket].
  cbn [insert list_insert lookup_total list_lookup_total]. change (Z.lor MOUSE_X_OVERFLOW MOUSE_Y_OVERFLOW) with 0xC0. rewrite F5. cbn [negb].
  unfold andthen, mouse_set_position, on_mouse, andthen, look, store, change, ret. cbn [fst snd].
  do 2 eexists. split; [reflexivity|].
  unfold vmove. cbn [vpacket lookup_total list_lookup_total vx vy left_button right_button middle_button packet_index on_move on_button vcalls v_packet].
  change MOUSE_X_SIGN with 0x10. change MOUSE_Y_SIGN with 0x20. rewrite F2, F3, F4, !negb_involutive, !delta_exact by lia.
  assert (forall z, - 32768 <= z < 32768 -> i16 z = z) as Hi16 by (intros z Hz; unfold i16; zlia).
  rewrite !Hi16, !clamp0_spec by lia.
  split; [lia|]. split; [lia|].
  assert (b = 0 \/ b = 1 \/ b = 2 \/ b = 3 \/ b = 4 \/ b = 5 \/ b = 6 \/ b = 7) as Hb8 by lia.
  split; [by destruct Hb8 as [->|[->|[->|[->|[->|[->|[->| ->]]]]]]]|]. split; [by destruct Hb8 as [->|[->|[->|[->|[->|[->|[->| ->]]]]]]]|].
  split; [by destruct Hb8 as [->|[->|[->|[->|[->|[->|[->| ->]]]]]]]|]. split; [done|].
  cbn [g_mouse_global with_global clamp at_pos mx my min_x max_x min_y max_y]. rewrite B1, B2, B3, B4, !clamp1_spec by lia.
  split; [lia|]. split; [lia|]. rewrite <- negb_andb. by destruct ((tx =? 0) && (ty =? 0)).
Qed.
End Wrapper.

(** ** Mouse bytes as key strokes *)

(** [io_getchar] does not look at the bit that marks bytes of the mouse.  Once
    [mouse_init] has turned the reporting on, a motion is read as scan codes: the
    three bytes of thirty steps to the right are the keys 7 and a. *)
Lemma mouse_motion_types : feed (idle false) (encode 0 30 0) = (str "7a", idle false).
Proof. by vm_compute. Qed.

(** ** Concrete mice *)

Definition driver0 (o : list (bool * Z)) (id : Z) : driver kbc :=
  mk_driver (mk_kbc o 0x61 for_keyboard true false false false id) (mk_serial true [] [] []) false initial_mouse (replicate 4 0) 0 [].

(** A mouse with a wheel and two old bytes. *)
Lemma mouse_init_starts_witness : exists d',
  mouse_init (fun _ => 0%nat) (own initial_mouse) (driver0 [(false, 0x1C); (false, 0x9C)] 3) = ((MOUSE_OK, own started), d') /\
  out (dev d') = [(true, 0xFA); (true, 3)].
Proof.
  destruct (mouse_init_starts (fun _ => 0%nat) initial_mouse [(false, 0x1C); (false, 0x9C)] 0x61 true false false 3 (driver0 [(false, 0x1C); (false, 0x9C)] 3))
    as (d' & H1 & _ & _ & _ & _ & _ & H2).
  - reflexivity.
  - cbn. lia.
  - reflexivity.
  - lia.
  - exists d'. split; [exact H1|exact H2].
Defined.

(** One step to the left from the middle of the screen. *)
Lemma packet_moves_pointer_witness : exists ev m', mouse_parse_packet (encode 1 (-1) 0) started = Some (ev, m') /\ dx ev = -128 /\ mx m' = 0.
Proof.
  destruct (packet_moves_pointer 1 (-1) 0 started) as (ev & m' & H1 & _ & H2 & _ & _ & _ & H3 & _).
  - lia.
  - lia.
  - lia.
  - reflexivity.
  - reflexivity.
  - vm_compute. intuition discriminate.
  - vm_compute. intuition discriminate.
  - exists ev, m'. split; [exact H1|]. split; [exact H2|exact H3].
Defined.

(** A stray byte and two packets, in the controller's queue. *)
Definition stream0 : list (bool * Z) := map (fun b => (true, b)) ([0x01] ++ concat [encode 0 5 0; encode 1 3 2]).
Lemma stream_is_framed_witness : exists t' d',
  mouse_reads 7 (own started) (driver0 stream0 0) =
    ((replicate 7 MOUSE_OK, [mk_event 5 0 0 0 true; mk_event 3 (-2) 0 1 true], t'), d') /\ out (dev d') = [] /\ byte_idx d' = 0.
Proof.
  destruct (stream_is_framed [0x01] [encode 0 5 0; encode 1 3 2] stream0 [] (own started) (driver0 stream0 0)) as [_ H].
  - reflexivity.
  - reflexivity.
  - repeat constructor.
  - repeat constructor; vm_compute; discriminate.
  - reflexivity.
  - reflexivity.
  - destruct (H eq_refl) as (t' & d' & H1 & _ & H2 & H3 & _). exists t', d'. split; [exact H1|]. split; [exact H2|exact H3].
Defined.

Lemma wrapper_tracks_witness : exists v' d',
  (v <- ps2_mouse_handler (fun _ => 0%nat) 0x19 (mk_vm true true 40 12 false false false 0 [0; 0; 0] (Some 0x1000) None []);;
   v <- ps2_mouse_handler (fun _ => 0%nat) 0xFE v;; ps2_mouse_handler (fun _ => 0%nat) 3 v) (driver0 [] 0) = (v', d') /\
  vx v' = 38 /\ vy v' = 9 /\ left_button v' = true /\ vcalls v' = [moved 0x1000 (-2) 3].
Proof.
  destruct (wrapper_tracks (fun _ => 0%nat) 1 (-2) 3 (mk_vm true true 40 12 false false false 0 [0; 0; 0] (Some 0x1000) None []) (driver0 [] 0))
    as (v' & d' & H1 & H2 & H3 & H4 & _ & _ & _ & _ & _ & H5); try reflexivity; try (cbn; lia).
  exists v', d'. split; [exact H1|]. split; [exact H2|]. split; [exact H3|]. split; [exact H4|exact H5].
Defined.
