(* ===== verification/Vga.v ===== *)
(** * vbox_vga.c, the graphics driver

    [vga] holds the static variables of the driver, the video memory and the heap
    with the back buffer.  The text screen at 0xB8000 is the console of [Io.v], whose
    cells are read and written here byte by byte; the rest of the video memory is
    a flat memory.  Drawing goes to a [surface]: the back buffer when double
    buffering is on, the frame buffer otherwise.  Coordinates are 16 bits wide. *)
From Stdlib Require Import String.
From S2P Require Import Prelude Mem Alloc Io Serial.

Definition VGA_TEXT_WIDTH : Z := 80.
Definition VGA_TEXT_HEIGHT : Z := 25.
Definition VGA_FRAMEBUFFER : Z := 0xB8000.
Definition VGA_MODE_13 : Z := 0x13.
Definition VGA_FB_MODE13 : Z := 0xA0000.
Definition VGA_BLACK : Z := 0.
Definition VGA_LIGHT_GRAY : Z := 7.
Definition VBE_MODE_640x480x24 : Z := 0x118.
Definition VBE_MODE_800x600x24 : Z := 0x11B.
Definition VBE_MODE_1024x768x24 : Z := 0x11E.
Definition VGA_SUCCESS : Z := 0.
Definition VGA_NOT_FOUND : Z := 5.
Definition VGA_RESOURCE_SHORTAGE : Z := 7.
Definition VGA_NOT_READY : Z := 8.

Record vga_driver_t := mk_gvga {
  initialized : bool; graphics_mode : bool; current_mode : Z; framebuffer_addr : Z; framebuffer_size : Z;
  width : Z; height : Z; bpp : Z; pitch : Z; gx : Z; gy : Z; gcolor : Z
}.
Definition at_cursor (x y : Z) (g : vga_driver_t) : vga_driver_t :=
  mk_gvga (initialized g) (graphics_mode g) (current_mode g) (framebuffer_addr g) (framebuffer_size g) (width g) (height g) (bpp g) (pitch g) x y (gcolor g).
Definition with_gcolor (c : Z) (g : vga_driver_t) : vga_driver_t :=
  mk_gvga (initialized g) (graphics_mode g) (current_mode g) (framebuffer_addr g) (framebuffer_size g) (width g) (height g) (bpp g) (pitch g) (gx g) (gy g) c.
Definition text_mode (color : Z) : vga_driver_t :=
  mk_gvga true false 0x03 VGA_FRAMEBUFFER (VGA_TEXT_WIDTH * VGA_TEXT_HEIGHT * 2) VGA_TEXT_WIDTH VGA_TEXT_HEIGHT 16 (VGA_TEXT_WIDTH * 2) 0 0 color.
Definition mode13 (color : Z) : vga_driver_t := mk_gvga true true 0x13 VGA_FB_MODE13 (320 * 200) 320 200 8 320 0 0 color.

(** width, height, bpp, pitch, memory model; mask and positions of the colours;
    frame buffer. *)
Record mode_info := mk_info { i_width : Z; i_height : Z; i_bpp : Z; i_pitch : Z; i_model : Z; i_colors : option (Z * Z * Z * Z); i_fb : option Z }.
Definition vga_get_mode_info (mode : Z) : Z * option mode_info :=
  let rgb := Some (0xFF, 16, 8, 0) in
  if mode =? 0x03 then (VGA_SUCCESS, Some (mk_info 80 25 16 160 0 None None))
  else if mode =? VGA_MODE_13 then (VGA_SUCCESS, Some (mk_info 320 200 8 320 4 None (Some VGA_FB_MODE13)))
  else if mode =? VBE_MODE_640x480x24 then (VGA_SUCCESS, Some (mk_info 640 480 24 (640 * 3) 6 rgb None))
  else if mode =? VBE_MODE_800x600x24 then (VGA_SUCCESS, Some (mk_info 800 600 24 (800 * 3) 6 rgb None))
  else if mode =? VBE_MODE_1024x768x24 then (VGA_SUCCESS, Some (mk_info 1024 768 24 (1024 * 3) 6 rgb None))
  else (VGA_NOT_FOUND, None).

Definition vga_calc_offset (x y pitch bpp : Z) : Z := u32 (y * pitch + x * (bpp / 8)).
Definition vga_calc_offset_mode13 (x y : Z) : Z := u32 (y * 320 + x).

Inductive surface := front | back.
#[global] Instance surface_eq_dec : EqDecision surface.
Proof. solve_decision. Defined.

Section Vga.
Context {A : Type} `{!Allocator A}.
Context (busy : list Z -> nat).

Record vga := mk_vga {
  g_vga : vga_driver_t; g_backbuffer : Z; g_double_buffered : bool; g_backbuffer_size : Z;
  vcon : console; vram : mem; vheap : A; vlog : serial
}.
Definition with_g (g : vga_driver_t) (v : vga) : vga :=
  mk_vga g (g_backbuffer v) (g_double_buffered v) (g_backbuffer_size v) (vcon v) (vram v) (vheap v) (vlog v).
Definition with_back (p : Z) (b : bool) (n : Z) (v : vga) : vga := mk_vga (g_vga v) p b n (vcon v) (vram v) (vheap v) (vlog v).
Definition with_vcon (c : console) (v : vga) : vga :=
  mk_vga (g_vga v) (g_backbuffer v) (g_double_buffered v) (g_backbuffer_size v) c (vram v) (vheap v) (vlog v).
Definition with_vram (m : mem) (v : vga) : vga :=
  mk_vga (g_vga v) (g_backbuffer v) (g_double_buffered v) (g_backbuffer_size v) (vcon v) m (vheap v) (vlog v).
Definition with_vheap (h : A) (v : vga) : vga :=
  mk_vga (g_vga v) (g_backbuffer v) (g_double_buffered v) (g_backbuffer_size v) (vcon v) (vram v) h (vlog v).
Definition vnote (s : string) (v : vga) : vga :=
  mk_vga (g_vga v) (g_backbuffer v) (g_double_buffered v) (g_backbuffer_size v) (vcon v) (vram v) (vheap v) (serial_writeln busy (str s) (vlog v)).

(** ** Memory *)

Definition on_screen (a : Z) : bool := (VGA_FRAMEBUFFER <=? a) && (a <? VGA_FRAMEBUFFER + 4000).
Definition vpeek (a : Z) (v : vga) : Z :=
  if on_screen a then
    let cell := vga_buffer (vcon v) !!! Z.to_nat ((a - VGA_FRAMEBUFFER) / 2) in
    if Z.even a then u8 cell else u8 (cell / 256)
  else (vram v).[a].
Definition vpoke (a b : Z) (v : vga) : vga :=
  if on_screen a then
    let i := Z.to_nat ((a - VGA_FRAMEBUFFER) / 2) in
    let cell := vga_buffer (vcon v) !!! i in
    let cell := if Z.even a then cell / 256 * 256 + u8 b else u8 b * 256 + u8 cell in
    with_vcon (set_cells (<[i := cell]> (vga_buffer (vcon v))) (vcon v)) v
  else with_vram (store8 (vram v) a b) v.

(** [fb[off]] of a surface. *)
Definition get_byte (s : surface) (off : Z) (v : vga) : Z :=
  match s with front => vpeek (framebuffer_addr (g_vga v) + off) v | back => (a_mem (vheap v)).[g_backbuffer v + off] end.
Definition put_byte (s : surface) (off b : Z) (v : vga) : vga :=
  match s with
  | front => vpoke (framebuffer_addr (g_vga v) + off) b v
  | back => with_vheap (a_write (vheap v) (store8 (a_mem (vheap v)) (g_backbuffer v + off) b)) v
  end.
(** The surface the drawing functions use. *)
Definition target_of (v : vga) : surface := if g_double_buffered v && negb (g_backbuffer v =? 0) then back else front.

(** [n] bytes of a surface from [off] on. *)
Fixpoint fill_bytes (s : surface) (n : nat) (off b : Z) (v : vga) : vga :=
  match n with O => v | S n' => fill_bytes s n' (off + 1) b (put_byte s off b v) end.
(** [rep movsl] and [rep stosl]. *)
Fixpoint fast_memmove_dwords (n : nat) (d : surface) (doff : Z) (s : surface) (soff : Z) (v : vga) : vga :=
  match n with
  | O => v
  | S n' =>
      let b0 := get_byte s soff v in let b1 := get_byte s (soff + 1) v in
      let b2 := get_byte s (soff + 2) v in let b3 := get_byte s (soff + 3) v in
      let v := put_byte d (doff + 3) b3 (put_byte d (doff + 2) b2 (put_byte d (doff + 1) b1 (put_byte d doff b0 v))) in
      fast_memmove_dwords n' d (doff + 4) s (soff + 4) v
  end.
Fixpoint fast_memset_dwords (n : nat) (d : surface) (off val : Z) (v : vga) : vga :=
  match n with
  | O => v
  | S n' => fast_memset_dwords n' d (off + 4) val
              (put_byte d (off + 3) (val / 16777216) (put_byte d (off + 2) (val / 65536) (put_byte d (off + 1) (val / 256) (put_byte d off val v))))
  end.
Fixpoint copy_bytes (n : nat) (off : Z) (v : vga) : vga :=
  match n with O => v | S n' => copy_bytes n' (off + 1) (put_byte front off (get_byte back off v) v) end.

(** ** Modes and buffers; [None]: the heap's structure is broken *)

Definition vga_disable_double_buffer (v : vga) : option vga :=
  if negb (g_double_buffered v) then Some v else
  h ← (if g_backbuffer v =? 0 then Some (vheap v) else a_free (vheap v) (g_backbuffer v));
  Some (vnote "[VGA] Double buffering disabled" (with_back 0 false 0 (with_vheap h v))).
Definition vga_enable_double_buffer (v : vga) : option (Z * vga) :=
  if g_double_buffered v then Some (VGA_SUCCESS, v) else
  let sz := if framebuffer_size (g_vga v) =? 0 then VGA_TEXT_WIDTH * VGA_TEXT_HEIGHT * 2 else framebuffer_size (g_vga v) in
  '(p, h) ← a_alloc (vheap v) sz;
  let v := with_back p (g_double_buffered v) (g_backbuffer_size v) (with_vheap h v) in
  if p =? 0 then Some (VGA_RESOURCE_SHORTAGE, v) else
  let v := fill_bytes back (Z.to_nat sz) 0 0 v in
  Some (VGA_SUCCESS, vnote "[VGA] Double buffering enabled" (with_back p true sz v)).

Definition vga_init (v : vga) : Z * vga :=
  if initialized (g_vga v) then (VGA_SUCCESS, v) else
  let v := vnote "[VGA] Initializing VirtualBox VGA driver..." v in
  let v := with_g (text_mode (Z.lor (Z.shiftl VGA_LIGHT_GRAY 4) VGA_BLACK)) v in
  let v := with_back 0 false 0 v in
  let v := with_vcon (vga_clear (vcon v)) v in
  (VGA_SUCCESS, vnote "[VGA] Text mode initialized successfully" v).

Definition vga_set_mode (mode : Z) (v : vga) : option (Z * vga) :=
  if negb (initialized (g_vga v)) then Some (VGA_NOT_READY, v) else
  if mode =? 0x03 then
    v ← vga_disable_double_buffer v;
    let v := with_g (text_mode (gcolor (g_vga v))) v in
    let v := with_vcon (vga_clear (vcon v)) v in
    Some (VGA_SUCCESS, vnote "[VGA] Switched to text mode 0x03" v)
  else if mode =? VGA_MODE_13 then
    v ← vga_disable_double_buffer v;
    let v := with_g (mode13 (gcolor (g_vga v))) v in
    let v := fill_bytes front (Z.to_nat (320 * 200)) 0 0 v in
    let v := vnote "[VGA] Switched to mode 0x13 (320x200x8) - simulated" v in
    Some (VGA_SUCCESS, vnote "[VGA] Note: real mode switch via int 0x10 requires VM86 thunk (not yet in protected mode)" v)
  else
    let l := serial_write_hex8 busy (Z.land mode 0xFF)
               (serial_write_hex8 busy (Z.land (Z.shiftr mode 8) 0xFF) (serial_write_str busy (str "[VGA] Graphics mode 0x") (vlog v))) in
    let v := mk_vga (g_vga v) (g_backbuffer v) (g_double_buffered v) (g_backbuffer_size v) (vcon v) (vram v) (vheap v) l in
    Some (VGA_NOT_READY, vnote " not yet implemented (only 0x03 and 0x13 supported)" v).

Definition vga_clear_gfx (v : vga) : vga :=
  if negb (initialized (g_vga v)) then with_vcon (vga_clear (vcon v)) v
  else if graphics_mode (g_vga v) then
    let v := fill_bytes front (Z.to_nat (framebuffer_size (g_vga v))) 0 0 v in
    if g_double_buffered v && negb (g_backbuffer v =? 0) then fill_bytes back (Z.to_nat (g_backbuffer_size v)) 0 0 v else v
  else with_vcon (vga_clear (vcon v)) v.

Definition vga_flip (v : vga) : vga :=
  if negb (g_double_buffered v) || (g_backbuffer v =? 0) then v else
  let n := g_backbuffer_size v in
  let v := fast_memmove_dwords (Z.to_nat (n / 4)) front 0 back 0 v in
  copy_bytes (Z.to_nat (n mod 4)) (n - n mod 4) v.

Definition vga_get_backbuffer (v : vga) : Z := g_backbuffer v.
Definition vga_is_double_buffered (v : vga) : bool := g_double_buffered v.
Definition vga_get_framebuffer (v : vga) : Z :=
  if g_double_buffered v && negb (g_backbuffer v =? 0) then g_backbuffer v else framebuffer_addr (g_vga v).
Definition vga_get_size (v : vga) : Z * Z := (width (g_vga v), height (g_vga v)).

(** ** Text *)

Definition put_cell (i e : Z) (v : vga) : vga := put_byte front (2 * i + 1) (e / 256) (put_byte front (2 * i) e v).
Definition vga_scroll_fast (v : vga) : vga :=
  if negb (initialized (g_vga v)) || graphics_mode (g_vga v) then v else
  let v := fast_memmove_dwords (Z.to_nat (VGA_TEXT_WIDTH * (VGA_TEXT_HEIGHT - 1) / 2)) front 0 front (VGA_TEXT_WIDTH * 2) v in
  let clear_char := u16 (Z.lor (Z.shiftl (gcolor (g_vga v)) 8) 32) in
  let clear32 := u32 (Z.lor clear_char (Z.shiftl clear_char 16)) in
  let v := fast_memset_dwords (Z.to_nat (VGA_TEXT_WIDTH / 2)) front ((VGA_TEXT_HEIGHT - 1) * VGA_TEXT_WIDTH * 2) clear32 v in
  with_g (at_cursor (gx (g_vga v)) (VGA_TEXT_HEIGHT - 1) (g_vga v)) v.
Definition vga_scroll (v : vga) : vga := vga_scroll_fast v.

Definition next_line (g : vga_driver_t) : vga_driver_t := at_cursor 0 (u16 (gy g + 1)) g.
Definition wrap (g : vga_driver_t) : vga_driver_t := if VGA_TEXT_WIDTH <=? gx g then next_line g else g.
Definition vga_putchar (c : Z) (v : vga) : vga :=
  if negb (initialized (g_vga v)) || graphics_mode (g_vga v) then v else
  let g := g_vga v in
  let pos x := gy g * VGA_TEXT_WIDTH + x in
  let entry ch := u16 (Z.lor (Z.shiftl (gcolor g) 8) ch) in
  let v :=
    if c =? 10 then with_g (next_line g) v
    else if c =? 13 then with_g (at_cursor 0 (gy g) g) v
    else if c =? 9 then with_g (wrap (at_cursor (u16 (Z.land (gx g + 8) (Z.lnot 7))) (gy g) g)) v
    else if c =? 8 then
      if 0 <? gx g then put_cell (pos (gx g - 1)) (entry 32) (with_g (at_cursor (gx g - 1) (gy g) g) v) else v
    else if (32 <=? c) && (c <? 127) then with_g (wrap (at_cursor (u16 (gx g + 1)) (gy g) g)) (put_cell (pos (gx g)) (entry c) v)
    else v in
  if VGA_TEXT_HEIGHT <=? gy (g_vga v) then vga_scroll_fast v else v.
Definition vga_puts (s : list Z) (v : vga) : vga := fold_left (fun v c => vga_putchar c v) s v.

Definition vga_set_color (fg bg : Z) (v : vga) : vga := with_g (with_gcolor (Z.lor (Z.shiftl (Z.land bg 0xF) 4) (Z.land fg 0xF)) (g_vga v)) v.
Definition vga_set_cursor (x y : Z) (v : vga) : vga :=
  if (x <? VGA_TEXT_WIDTH) && (y <? VGA_TEXT_HEIGHT) then with_g (at_cursor x y (g_vga v)) v else v.

(** ** Pixels *)

Definition drawing (v : vga) : bool := initialized (g_vga v) && graphics_mode (g_vga v).
Definition outside (x y : Z) (v : vga) : bool := (width (g_vga v) <=? x) || (height (g_vga v) <=? y).

Definition vga_draw_pixel (x y color : Z) (v : vga) : vga :=
  if negb (drawing v) then v else if outside x y v then v else
  let s := target_of v in
  if current_mode (g_vga v) =? 0x13 then put_byte s (vga_calc_offset_mode13 x y) (u8 (Z.land color 0xFF)) v else
  let o := vga_calc_offset x y (pitch (g_vga v)) (bpp (g_vga v)) in
  if bpp (g_vga v) =? 24 then
    put_byte s (o + 2) (Z.land color 0xFF) (put_byte s (o + 1) (Z.land (Z.shiftr color 8) 0xFF) (put_byte s o (Z.land (Z.shiftr color 16) 0xFF) v))
  else if bpp (g_vga v) =? 32 then
    put_byte s (o + 3) (color / 16777216) (put_byte s (o + 2) (color / 65536) (put_byte s (o + 1) (color / 256) (put_byte s o color v)))
  else if bpp (g_vga v) =? 8 then put_byte s o (u8 color) v
  else v.
Definition vga_draw_pixel_fast (x y color : Z) (v : vga) : vga := vga_draw_pixel x y color v.

Definition vga_read_pixel (x y : Z) (v : vga) : Z :=
  if negb (drawing v) then 0 else if outside x y v then 0 else
  let s := target_of v in
  if current_mode (g_vga v) =? 0x13 then get_byte s (vga_calc_offset_mode13 x y) v else
  let o := vga_calc_offset x y (pitch (g_vga v)) (bpp (g_vga v)) in
  let g i := get_byte s (o + i) v in
  if bpp (g_vga v) =? 24 then Z.lor (Z.lor (Z.shiftl (g 0) 16) (Z.shiftl (g 1) 8)) (g 2)
  else if bpp (g_vga v) =? 32 then g 0 + 256 * g 1 + 65536 * g 2 + 16777216 * g 3
  else if bpp (g_vga v) =? 8 then g 0 else 0.

(** [for (i = 0; i < n; i++) f(i)] *)
Fixpoint upto (n : nat) (i : Z) (f : Z -> vga -> vga) (v : vga) : vga :=
  match n with O => v | S n' => upto n' (i + 1) f (f i v) end.

Definition vga_draw_hline (x y w color : Z) (v : vga) : vga :=
  if negb (drawing v) then v else if height (g_vga v) <=? y then v else if width (g_vga v) <=? x then v else
  let w := if width (g_vga v) <? x + w then u16 (width (g_vga v) - x) else w in
  if current_mode (g_vga v) =? 0x13 then fill_bytes (target_of v) (Z.to_nat w) (vga_calc_offset_mode13 x y) (u8 color) v
  else upto (Z.to_nat w) 0 (fun i => vga_draw_pixel (u16 (x + i)) y color) v.
Definition vga_draw_vline (x y h color : Z) (v : vga) : vga :=
  if negb (drawing v) then v else if width (g_vga v) <=? x then v else if height (g_vga v) <=? y then v else
  let h := if height (g_vga v) <? y + h then u16 (height (g_vga v) - y) else h in
  upto (Z.to_nat h) 0 (fun i => vga_draw_pixel x (u16 (y + i)) color) v.

(** The loop of [vga_draw_line]; [None] when [fuel] turns do not reach the end. *)
Fixpoint line_loop (fuel : nat) (x0 y0 x1 y1 dx dy sx sy err color : Z) (v : vga) : option vga :=
  let v := vga_draw_pixel x0 y0 color v in
  if (x0 =? x1) && (y0 =? y1) then Some v else
  match fuel with
  | O => None
  | S f =>
      let e2 := 2 * err in
      let '(err, x0) := if - dy <? e2 then (err - dy, u16 (x0 + sx)) else (err, x0) in
      let '(err, y0) := if e2 <? dx then (err + dx, u16 (y0 + sy)) else (err, y0) in
      line_loop f x0 y0 x1 y1 dx dy sx sy err color v
  end.
Definition vga_draw_line (x0 y0 x1 y1 color : Z) (v : vga) : option vga :=
  if x0 =? x1 then Some (vga_draw_vline x0 (Z.min y0 y1) (u16 (if y0 <? y1 then y1 - y0 + 1 else y0 - y1 + 1)) color v)
  else if y0 =? y1 then Some (vga_draw_hline (Z.min x0 x1) y0 (u16 (if x0 <? x1 then x1 - x0 + 1 else x0 - x1 + 1)) color v)
  else
    let dx := if x0 <? x1 then x1 - x0 else x0 - x1 in
    let dy := if y0 <? y1 then y1 - y0 else y0 - y1 in
    line_loop (Z.to_nat (dx + dy)) x0 y0 x1 y1 dx dy (if x0 <? x1 then 1 else -1) (if y0 <? y1 then 1 else -1) (dx - dy) color v.

Definition vga_fill_rect_fast (x y w h color : Z) (v : vga) : vga :=
  if negb (drawing v) then v else if outside x y v then v else
  let w := if width (g_vga v) <? x + w then u16 (width (g_vga v) - x) else w in
  let h := if height (g_vga v) <? y + h then u16 (height (g_vga v) - y) else h in
  if current_mode (g_vga v) =? 0x13 then
    upto (Z.to_nat h) 0 (fun iy v => fill_bytes (target_of v) (Z.to_nat w) (vga_calc_offset_mode13 x (u16 (y + iy))) (u8 color) v) v
  else upto (Z.to_nat h) y (fun iy => vga_draw_hline x iy w color) v.
Definition vga_fill_rect (x y w h color : Z) (v : vga) : vga := vga_fill_rect_fast x y w h color v.

(** [data] are the bytes of the picture, three for each pixel. *)
Definition vga_blit_fast (x y w h : Z) (data : list Z) (v : vga) : vga :=
  if negb (drawing v) then v else
  upto (Z.to_nat h) 0 (fun iy => upto (Z.to_nat w) 0 (fun ix v =>
    if (width (g_vga v) <=? x + ix) || (height (g_vga v) <=? y + iy) then v else
    let at_ k := data !!! Z.to_nat ((iy * w + ix) * 3 + k) in
    let color := u32 (Z.lor (Z.lor (Z.shiftl (at_ 0) 16) (Z.shiftl (at_ 1) 8)) (at_ 2)) in
    vga_draw_pixel (u16 (x + ix)) (u16 (y + iy)) color v)) v.
Definition vga_blit (x y w h : Z) (data : list Z) (v : vga) : vga := vga_blit_fast x y w h data v.
End Vga.
Arguments vga A : clear implicits.
