(* ===== verification/VgaCorrect.v ===== *)
(** * Graphics: pixels, rectangles, lines, buffers and the text cursor *)
From Stdlib Require Import String.
From S2P Require Import Prelude Mem Alloc Heap Io Serial SyscallCorrect Vga.

Section VgaCorrect.
Context {A : Type} `{!Allocator A}.
Context (busy : list Z -> nat).
Notation vga := (vga A).

(** In mode 0x13. *)
Definition in13 (v : vga) : Prop := exists c, g_vga v = mode13 c.

(** ** One byte of a surface *)

Lemma put_byte_same s o b (v : vga) : g_vga (put_byte s o b v) = g_vga v /\ g_backbuffer (put_byte s o b v) = g_backbuffer v /\
  g_double_buffered (put_byte s o b v) = g_double_buffered v /\ g_backbuffer_size (put_byte s o b v) = g_backbuffer_size v.
Proof. destruct s; cbn; [|done]. unfold vpoke. by destruct (on_screen _). Qed.
Lemma put_target s o b (v : vga) : target_of (put_byte s o b v) = target_of v.
Proof. unfold target_of. destruct (put_byte_same s o b v) as (_ & -> & -> & _). done. Qed.
Lemma put_in13 s o b (v : vga) : in13 v -> in13 (put_byte s o b v).
Proof. intros [c Hc]. exists c. by destruct (put_byte_same s o b v) as (-> & _). Qed.

Lemma fb13 (v : vga) : in13 v -> framebuffer_addr (g_vga v) = VGA_FB_MODE13.
Proof. by intros [c ->]. Qed.
Lemma not_text o : 0 <= o < 64000 -> on_screen (VGA_FB_MODE13 + o) = false.
Proof. intros. unfold on_screen, VGA_FB_MODE13, VGA_FRAMEBUFFER. lia. Qed.

Lemma get_put s s' o o' b (v : vga) : in13 v -> 0 <= o < 64000 -> 0 <= o' < 64000 ->
  get_byte s' o' (put_byte s o b v) =
  if bool_decide (s = s') && (o' =? o) then u8 b else get_byte s' o' v.
Proof.
  intros Hv Ho Ho'. destruct s, s'; cbn [get_byte put_byte].
  - rewrite (fb13 v Hv). unfold vpoke. rewrite not_text by done. unfold vpeek. rewrite fb13 by exact Hv. rewrite not_text by done.
    cbn [vram with_vram]. rewrite peek_store8. rewrite bool_decide_true by done. cbn [andb]. repeat case_if; bool_to_prop; try done; lia.
  - rewrite bool_decide_false by done. rewrite (fb13 v Hv). unfold vpoke. by rewrite not_text by done.
  - rewrite bool_decide_false by done. cbn [g_vga with_vheap]. rewrite (fb13 v Hv). unfold vpeek. by rewrite not_text by done.
  - rewrite bool_decide_true by done. cbn [vheap g_backbuffer with_vheap]. rewrite a_mem_write, peek_store8. cbn [andb].
    repeat case_if; bool_to_prop; try done; lia.
Qed.

(** ** Pixels *)

Definition inside (x y : Z) : bool := (0 <=? x) && (x <? 320) && (0 <=? y) && (y <? 200).
Definition offset (x y : Z) : Z := y * 320 + x.
Lemma offset_range x y : inside x y = true -> 0 <= offset x y < 64000.
Proof. unfold inside, offset. lia. Qed.
Lemma pixel_offset_inj x y x' y' : inside x y = true -> inside x' y' = true -> offset x' y' = offset x y -> x' = x /\ y' = y.
Proof. unfold inside, offset. lia. Qed.
Lemma calc_offset x y : inside x y = true -> vga_calc_offset_mode13 x y = offset x y.
Proof. intros H. unfold vga_calc_offset_mode13. apply u32_small. pose proof (offset_range x y H). unfold offset in *. lia. Qed.

Lemma outside_inside x y (v : vga) : in13 v -> 0 <= x -> 0 <= y -> outside x y v = negb (inside x y).
Proof. intros [c Hc] Hx Hy. unfold outside, inside. rewrite Hc. cbn. lia. Qed.
Lemma drawing13 (v : vga) : in13 v -> drawing v = true.
Proof. intros [c Hc]. unfold drawing. by rewrite Hc. Qed.
Lemma mode13_of (v : vga) : in13 v -> current_mode (g_vga v) =? 0x13 = true.
Proof. by intros [c ->]. Qed.

Lemma draw_spec x y c (v : vga) : in13 v -> 0 <= x -> 0 <= y ->
  vga_draw_pixel x y c v = if inside x y then put_byte (target_of v) (offset x y) (u8 c) v else v.
Proof.
  intros Hv Hx Hy. unfold vga_draw_pixel. rewrite drawing13, outside_inside, mode13_of by done. cbn [negb].
  destruct (inside x y) eqn:Hi; [|done]. rewrite calc_offset by done. f_equal. change 0xFF with (Z.ones 8). rewrite Z.land_ones by lia. apply u8_u8.
Qed.
Lemma read_spec x y (v : vga) : in13 v -> 0 <= x -> 0 <= y ->
  vga_read_pixel x y v = if inside x y then get_byte (target_of v) (offset x y) v else 0.
Proof.
  intros Hv Hx Hy. unfold vga_read_pixel. rewrite drawing13, outside_inside, mode13_of by done. cbn [negb].
  destruct (inside x y) eqn:Hi; [|done]. by rewrite calc_offset.
Qed.

Lemma draw_in13 x y c (v : vga) : in13 v -> 0 <= x -> 0 <= y -> in13 (vga_draw_pixel x y c v) /\ target_of (vga_draw_pixel x y c v) = target_of v.
Proof. intros Hv Hx Hy. rewrite draw_spec by done. case_if; [|done]. split; [by apply put_in13|apply put_target]. Qed.

Lemma read_draw x y c x' y' (v : vga) : in13 v -> 0 <= x -> 0 <= y -> 0 <= x' -> 0 <= y' ->
  vga_read_pixel x' y' (vga_draw_pixel x y c v) =
  if inside x y && (x' =? x) && (y' =? y) then c mod 256 else vga_read_pixel x' y' v.
Proof.
  intros Hv Hx Hy Hx' Hy'. destruct (draw_in13 x y c v Hv Hx Hy) as [Hd Ht]. rewrite !read_spec, Ht, draw_spec by done.
  destruct (inside x y) eqn:Hi; cbn [andb]; [|done]. destruct (inside x' y') eqn:Hi'.
  - rewrite get_put by (done || by apply offset_range). rewrite bool_decide_true by done. cbn [andb].
    destruct (Z.eqb_spec (offset x' y') (offset x y)) as [E|E].
    + destruct (pixel_offset_inj _ _ _ _ Hi Hi' E) as [-> ->]. rewrite !Z.eqb_refl. cbn [andb]. rewrite u8_u8. done.
    + destruct (Z.eqb_spec x' x) as [->|], (Z.eqb_spec y' y) as [->|]; done.
  - destruct (Z.eqb_spec x' x) as [->|], (Z.eqb_spec y' y) as [->|]; cbn [andb]; try done. by rewrite Hi in Hi'.
Qed.

(** Pixels in mode 0x13: drawing a pixel and reading it gives back the low byte of
    the colour, every other pixel reads as before, a pixel outside the screen
    changes nothing; with double buffering on nothing of the frame buffer
    changes. *)
Theorem pixel_round_trip x y c x' y' (v : vga) :
  in13 v -> 0 <= x < 2 ^ 16 -> 0 <= y < 2 ^ 16 -> 0 <= x' < 2 ^ 16 -> 0 <= y' < 2 ^ 16 ->
  vga_read_pixel x' y' (vga_draw_pixel x y c v) =
    (if inside x y && (x' =? x) && (y' =? y) then c mod 256 else vga_read_pixel x' y' v) /\
  (inside x y = false -> vga_draw_pixel x y c v = v) /\
  (target_of v = back -> forall o, 0 <= o < 64000 -> get_byte front o (vga_draw_pixel x y c v) = get_byte front o v).
Proof.
  intros Hv Hx Hy Hx' Hy'. split; [apply read_draw; lia || done|]. rewrite draw_spec by (done || lia). split; [by intros ->|].
  intros Hb o Ho. destruct (inside x y) eqn:Hi; [|done]. rewrite Hb, get_put by (done || by apply offset_range). by rewrite bool_decide_false by done.
Qed.

(** ** Runs of bytes and rectangles *)

Lemma fill_spec s n : forall o b (v : vga), in13 v -> 0 <= o -> o + Z.of_nat n <= 64000 ->
  in13 (fill_bytes s n o b v) /\ target_of (fill_bytes s n o b v) = target_of v /\
  forall s' o', 0 <= o' < 64000 -> get_byte s' o' (fill_bytes s n o b v) =
    if bool_decide (s = s') && (o <=? o') && (o' <? o + Z.of_nat n) then u8 b else get_byte s' o' v.
Proof.
  induction n as [|n IH]; intros o b v Hv Ho Hn; cbn [fill_bytes].
  - split; [done|]. split; [done|]. intros s' o' Ho'. destruct (bool_decide _); cbn [andb]; [|done].
    destruct (Z.leb_spec o o'), (Z.ltb_spec o' (o + Z.of_nat 0)); try done; lia.
  - destruct (IH (o + 1) b (put_byte s o b v)) as (H1 & H2 & H3); [by apply put_in13|lia|lia|].
    split; [done|]. split; [by rewrite H2, put_target|]. intros s' o' Ho'. rewrite H3, get_put by (done || lia).
    destruct (bool_decide (s = s')); cbn [andb]; [|done].
    destruct (Z.leb_spec (o + 1) o'), (Z.leb_spec o o'), (Z.ltb_spec o' (o + 1 + Z.of_nat n)), (Z.ltb_spec o' (o + Z.of_nat (S n))), (Z.eqb_spec o' o);
      cbn [andb]; try done; lia.
Qed.

Lemma read_fill x y w c x' y' (v : vga) : in13 v -> 0 <= x -> x + Z.of_nat w <= 320 -> 0 <= y < 200 -> 0 <= x' -> 0 <= y' ->
  let v' := fill_bytes (target_of v) w (offset x y) (u8 c) v in
  in13 v' /\ target_of v' = target_of v /\
  vga_read_pixel x' y' v' = if (x <=? x') && (x' <? x + Z.of_nat w) && (y' =? y) then c mod 256 else vga_read_pixel x' y' v.
Proof.
  intros Hv Hx Hw Hy Hx' Hy' v'. destruct (fill_spec (target_of v) w (offset x y) (u8 c) v) as (H1 & H2 & H3); [done|unfold offset; lia|unfold offset; lia|].
  fold v' in H1, H2, H3. split; [done|]. split; [done|]. rewrite !read_spec, H2 by done. destruct (inside x' y') eqn:Hi.
  - rewrite H3 by (by apply offset_range). rewrite bool_decide_true by done. cbn [andb]. rewrite u8_u8.
    unfold inside in Hi. unfold offset.
    destruct (Z.leb_spec x x'), (Z.ltb_spec x' (x + Z.of_nat w)), (Z.eqb_spec y' y); cbn [andb]; subst;
      destruct (Z.leb_spec (y * 320 + x) (y' * 320 + x')), (Z.ltb_spec (y' * 320 + x') (y * 320 + x + Z.of_nat w)) || 
      destruct (Z.leb_spec (y * 320 + x) (y * 320 + x')), (Z.ltb_spec (y * 320 + x') (y * 320 + x + Z.of_nat w)); cbn [andb]; try done; lia.
  - unfold inside in Hi. destruct (Z.leb_spec x x'), (Z.ltb_spec x' (x + Z.of_nat w)), (Z.eqb_spec y' y); cbn [andb]; try done. lia.
Qed.

Lemma u16_small z : 0 <= z < 2 ^ 16 -> u16 z = z.
Proof. intros. unfold u16. by apply Z.mod_small. Qed.

Lemma rect_loop x y w c x' y' n : 0 <= x < 320 -> x + Z.of_nat w <= 320 -> 0 <= y -> 0 <= x' -> 0 <= y' ->
  forall i (v : vga), in13 v -> 0 <= i -> y + i + Z.of_nat n <= 200 ->
  let v' := upto n i (fun iy v => fill_bytes (target_of v) w (vga_calc_offset_mode13 x (u16 (y + iy))) (u8 c) v) v in
  in13 v' /\ vga_read_pixel x' y' v' =
    if (x <=? x') && (x' <? x + Z.of_nat w) && (y + i <=? y') && (y' <? y + i + Z.of_nat n) then c mod 256 else vga_read_pixel x' y' v.
Proof.
  intros Hx Hw Hy Hx' Hy'. induction n as [|n IH]; intros i v Hv Hi Hn; cbn [upto].
  - split; [done|]. destruct (Z.leb_spec (y + i) y'), (Z.ltb_spec y' (y + i + Z.of_nat 0)); rewrite ?andb_false_r, ?andb_true_r; try done; lia.
  - rewrite u16_small by lia. rewrite calc_offset by (unfold inside; lia).
    destruct (read_fill x (y + i) w c x' y' v) as (F1 & F2 & F3); [done|lia..|].
    destruct (IH (i + 1) (fill_bytes (target_of v) w (offset x (y + i)) (u8 c) v)) as [H1 H2]; [done|lia|lia|].
    split; [exact H1|]. rewrite H2, F3. destruct ((x <=? x') && (x' <? x + Z.of_nat w)); cbn [andb]; [|done].
    destruct (Z.leb_spec (y + (i + 1)) y'), (Z.ltb_spec y' (y + (i + 1) + Z.of_nat n)), (Z.leb_spec (y + i) y'), (Z.ltb_spec y' (y + i + Z.of_nat (S n))), (Z.eqb_spec y' (y + i));
      cbn [andb]; try done; lia.
Qed.

(** C34. Filled rectangles: for every position and size of 16 bits exactly the pixels of
    the rectangle that are on the screen get the colour, although rows are filled
    as runs of bytes; the rest of the rectangle is cut off and every other pixel
    reads as before. *)
Theorem fill_rect_paints x y w h c x' y' (v : vga) :
  in13 v -> 0 <= x < 2 ^ 16 -> 0 <= y < 2 ^ 16 -> 0 <= w < 2 ^ 16 -> 0 <= h < 2 ^ 16 -> 0 <= x' < 2 ^ 16 -> 0 <= y' < 2 ^ 16 ->
  vga_read_pixel x' y' (vga_fill_rect x y w h c v) =
  if (x <=? x') && (x' <? x + w) && (y <=? y') && (y' <? y + h) && inside x' y' then c mod 256 else vga_read_pixel x' y' v.
Proof.
  intros Hv Hx Hy Hw Hh Hx' Hy'. unfold vga_fill_rect, vga_fill_rect_fast. rewrite drawing13, outside_inside by (done || lia). cbn [negb].
  destruct (inside x y) eqn:Hi; cbn [negb].
  2: { unfold inside in *. destruct (Z.leb_spec x x'), (Z.leb_spec y y'); cbn [andb]; rewrite ?andb_false_r; try done.
       destruct ((x' <? x + w) && true && (y' <? y + h)) eqn:E; repeat (case_if; try done); lia. }
  rewrite mode13_of by done. destruct Hv as [col Hg]. replace (width (g_vga v)) with 320 by (by rewrite Hg). replace (height (g_vga v)) with 200 by (by rewrite Hg).
  assert (in13 v) as Hv by (by exists col). unfold inside in Hi.
  set (w' := if 320 <? x + w then u16 (320 - x) else w). set (h' := if 200 <? y + h then u16 (200 - y) else h).
  assert (w' = Z.min w (320 - x)) as Ew by (subst w'; destruct (Z.ltb_spec 320 (x + w)); rewrite ?u16_small; lia).
  assert (h' = Z.min h (200 - y)) as Eh by (subst h'; destruct (Z.ltb_spec 200 (y + h)); rewrite ?u16_small; lia).
  destruct (rect_loop x y (Z.to_nat w') c x' y' (Z.to_nat h')) with (i := 0) (v := v) as [_ ->]; try done; try lia.
  rewrite Z.add_0_r, !Z2Nat.id by lia. unfold inside.
  destruct (Z.leb_spec x x'), (Z.leb_spec y y'); cbn [andb]; rewrite ?andb_false_r; try done.
  destruct (Z.ltb_spec x' (x + w')), (Z.ltb_spec y' (y + h')), (Z.ltb_spec x' (x + w)), (Z.ltb_spec y' (y + h)), (Z.ltb_spec x' 320), (Z.ltb_spec y' 200); cbn [andb];
    rewrite ?andb_false_r, ?andb_true_r; repeat case_if; try done; bool_to_prop; lia.
Qed.

(** ** Lines *)

Definition draw_path (c : Z) (path : list (Z * Z)) (v : vga) : vga := fold_left (fun v p => vga_draw_pixel (fst p) (snd p) c v) path v.
(** Each point is one of the eight neighbours of the one before. *)
Fixpoint connected (path : list (Z * Z)) : Prop :=
  match path with
  | p :: (q :: _) as rest => p <> q /\ Z.abs (fst q - fst p) <= 1 /\ Z.abs (snd q - snd p) <= 1 /\ connected rest
  | _ => True
  end.

Section Line.
Context (x0 y0 sx sy dx dy c : Z).
Context (Hsx : sx = 1 \/ sx = -1) (Hsy : sy = 1 \/ sy = -1) (Hdx : 0 < dx) (Hdy : 0 < dy).
Context (Hx0 : 0 <= x0 < 2 ^ 16) (Hx1 : 0 <= x0 + sx * dx < 2 ^ 16) (Hy0 : 0 <= y0 < 2 ^ 16) (Hy1 : 0 <= y0 + sy * dy < 2 ^ 16).

(** The point [a] columns and [b] rows from the start, and how far it is from the
    line, scaled. *)
Definition point (ab : Z * Z) : Z * Z := (x0 + sx * fst ab, y0 + sy * snd ab).
Definition near (ab : Z * Z) : Prop :=
  0 <= fst ab <= dx /\ 0 <= snd ab <= dy /\ - Z.max dx dy <= 2 * (fst ab * dy - snd ab * dx) <= Z.max dx dy.

Lemma step_x a b : near (a, b) -> ~ (a = dx /\ b = dy) -> - dy < 2 * (dx - dy - a * dy + b * dx) -> a < dx.
Proof. intros (H1 & H2 & _) Hne Hlt. cbn in *. destruct (decide (a = dx)) as [->|]; [|lia]. exfalso. assert (b <= dy - 1) by lia. nia. Qed.
Lemma step_y a b : near (a, b) -> ~ (a = dx /\ b = dy) -> 2 * (dx - dy - a * dy + b * dx) < dx -> b < dy.
Proof. intros (H1 & H2 & _) Hne Hlt. cbn in *. destruct (decide (b = dy)) as [->|]; [|lia]. exfalso. assert (a <= dx - 1) by lia. nia. Qed.

Lemma u16_x a : 0 <= a <= dx -> u16 (x0 + sx * a) = x0 + sx * a.
Proof. intros Ha. apply u16_small. destruct Hsx as [-> | ->]; lia. Qed.
Lemma u16_y b : 0 <= b <= dy -> u16 (y0 + sy * b) = y0 + sy * b.
Proof. intros Hb. apply u16_small. destruct Hsy as [-> | ->]; lia. Qed.

Lemma line_path fuel : forall a b (v : vga), near (a, b) -> (dx - a) + (dy - b) <= Z.of_nat fuel ->
  exists abs, line_loop fuel (x0 + sx * a) (y0 + sy * b) (x0 + sx * dx) (y0 + sy * dy) dx dy sx sy (dx - dy - a * dy + b * dx) c v =
      Some (draw_path c (map point ((a, b) :: abs)) v) /\
    last ((a, b) :: abs) = Some (dx, dy) /\ connected (map point ((a, b) :: abs)) /\ Forall near ((a, b) :: abs).
Proof.
  induction fuel as [|fuel IH]; intros a b v Hn Hf.
  - assert (a = dx /\ b = dy) as [-> ->] by (destruct Hn as (? & ? & _); cbn in *; lia). exists []. cbn [line_loop]. rewrite !Z.eqb_refl.
    split_and!; try done. by constructor.
  - cbn [line_loop]. destruct ((x0 + sx * a =? x0 + sx * dx) && (y0 + sy * b =? y0 + sy * dy)) eqn:E.
    { assert (a = dx /\ b = dy) as [-> ->] by (apply andb_true_iff in E as [E1 E2]; apply Z.eqb_eq in E1, E2;
        destruct Hsx as [Ex|Ex], Hsy as [Ey|Ey]; rewrite Ex in E1; rewrite Ey in E2; lia). exists []. split_and!; try done. by constructor. }
    assert (~ (a = dx /\ b = dy)) as Hne by (intros [-> ->]; rewrite !Z.eqb_refl in E; done).
    pose proof (step_x a b Hn Hne) as Sx. pose proof (step_y a b Hn Hne) as Sy. set (e := dx - dy - a * dy + b * dx) in *.
    assert (exists da db, 0 <= da <= 1 /\ 0 <= db <= 1 /\ 0 < da + db /\ near (a + da, b + db) /\
      (- dy <? 2 * e) = (da =? 1) /\ (2 * e <? dx) = (db =? 1)) as (da & db & Hda & Hdb & Hd & Hn' & Ex & Ey).
    { destruct Hn as (N1 & N2 & N3). cbn [fst snd] in *. unfold near. cbn [fst snd].
      destruct (Z.ltb_spec (- dy) (2 * e)), (Z.ltb_spec (2 * e) dx).
      - exists 1, 1. split_and!; try lia; try done; subst e; nia.
      - exists 1, 0. split_and!; try lia; try done; subst e; nia.
      - exists 0, 1. split_and!; try lia; try done; subst e; nia.
      - lia. }
    rewrite Ex, Ey. destruct (IH (a + da) (b + db) (vga_draw_pixel (x0 + sx * a) (y0 + sy * b) c v) Hn') as (abs & E' & L' & C' & F'); [lia|].
    exists ((a + da, b + db) :: abs).
    assert ((let '(err, x) := if da =? 1 then (e - dy, u16 (x0 + sx * a + sx)) else (e, x0 + sx * a) in
      let '(err, y) := if db =? 1 then (err + dx, u16 (y0 + sy * b + sy)) else (err, y0 + sy * b) in
      (x, y, err)) = (x0 + sx * (a + da), y0 + sy * (b + db), dx - dy - (a + da) * dy + (b + db) * dx)) as Hstep.
    { destruct Hn' as (M1 & M2 & _). cbn [fst snd] in M1, M2. pose proof (u16_x (a + da) M1) as Ux. pose proof (u16_y (b + db) M2) as Uy.
      replace (x0 + sx * a + sx) with (x0 + sx * (a + 1)) by ring. replace (y0 + sy * b + sy) with (y0 + sy * (b + 1)) by ring.
      assert (da = 0 \/ da = 1) as [Ea|Ea] by lia; assert (db = 0 \/ db = 1) as [Eb|Eb] by lia; rewrite Ea, Eb in *; cbn [Z.eqb Pos.eqb];
        rewrite ?Ux, ?Uy; (apply (f_equal2 pair); [apply (f_equal2 pair)|]); subst e; ring. }
    split.
    + destruct (da =? 1), (db =? 1); injection Hstep as S1 S2 S3; rewrite <- S1, <- S2, <- S3 in E'; rewrite E'; done.
    + split; [exact L'|]. split; [|by constructor]. cbn [map connected]. cbn [map] in C'. split_and!; [| | |exact C'].
      * unfold point. cbn [fst snd]. intros [= Hp Hq]. destruct Hsx as [Zx|Zx], Hsy as [Zy|Zy]; rewrite Zx in Hp; rewrite Zy in Hq; lia.
      * unfold point. cbn [fst snd]. destruct Hsx as [-> | ->]; lia.
      * unfold point. cbn [fst snd]. destruct Hsy as [-> | ->]; lia.
Qed.
End Line.

(** A slanted line. *)
Definition on_line (x0 y0 x1 y1 : Z) (p : Z * Z) : Prop :=
  Z.min x0 x1 <= fst p <= Z.max x0 x1 /\ Z.min y0 y1 <= snd p <= Z.max y0 y1 /\
  2 * Z.abs ((fst p - x0) * (y1 - y0) - (snd p - y0) * (x1 - x0)) <= Z.max (Z.abs (x1 - x0)) (Z.abs (y1 - y0)).
Lemma slanted_line x0 y0 x1 y1 c (v : vga) :
  0 <= x0 < 2 ^ 16 -> 0 <= y0 < 2 ^ 16 -> 0 <= x1 < 2 ^ 16 -> 0 <= y1 < 2 ^ 16 -> x0 <> x1 -> y0 <> y1 ->
  exists path, vga_draw_line x0 y0 x1 y1 c v = Some (draw_path c path v) /\
    head path = Some (x0, y0) /\ last path = Some (x1, y1) /\ connected path /\ Forall (on_line x0 y0 x1 y1) path.
Proof.
  intros Hx0 Hy0 Hx1 Hy1 Hx Hy. unfold vga_draw_line. replace (x0 =? x1) with false by lia. replace (y0 =? y1) with false by lia.
  set (dx := if x0 <? x1 then x1 - x0 else x0 - x1). set (dy := if y0 <? y1 then y1 - y0 else y0 - y1).
  set (sx := if x0 <? x1 then 1 else -1). set (sy := if y0 <? y1 then 1 else -1).
  assert (sx = 1 \/ sx = -1) as Hsx by (subst sx; case_if; tauto). assert (sy = 1 \/ sy = -1) as Hsy by (subst sy; case_if; tauto).
  assert (0 < dx /\ x1 = x0 + sx * dx /\ Z.abs (x1 - x0) = dx) as (Hdx & Ex1 & Ax) by (subst dx sx; destruct (Z.ltb_spec x0 x1); lia).
  assert (0 < dy /\ y1 = y0 + sy * dy /\ Z.abs (y1 - y0) = dy) as (Hdy & Ey1 & Ay) by (subst dy sy; destruct (Z.ltb_spec y0 y1); lia).
  clearbody dx dy sx sy. subst x1 y1.
  destruct (line_path x0 y0 sx sy dx dy c Hsx Hsy Hdx Hdy Hx0 Hx1 Hy0 Hy1 (Z.to_nat (dx + dy)) 0 0 v) as (abs & E & L & C & F).
  { unfold near. cbn. lia. }
  { lia. }
  replace (dx - dy - 0 * dy + 0 * dx) with (dx - dy) in E by ring. rewrite !Z.mul_0_r, !Z.add_0_r in E. rewrite E.
  exists (map (point x0 y0 sx sy) ((0, 0) :: abs)). split; [done|].
  split; [unfold point; cbn; by rewrite !Z.mul_0_r, !Z.add_0_r|].
  split; [change (map ?f ?l) with (f <$> l); by rewrite fmap_last, L|]. split; [done|].
  change (map ?f ?l) with (f <$> l). rewrite Forall_fmap. eapply Forall_impl; [exact F|]. intros [a b] (N1 & N2 & N3). cbn [fst snd] in N1, N2, N3.
  unfold on_line, compose. rewrite Ax, Ay. unfold point. cbn [fst snd].
  split; [destruct Hsx as [-> | ->]; lia|]. split; [destruct Hsy as [-> | ->]; lia|].
  destruct Hsx as [-> | ->], Hsy as [-> | ->]; lia.
Qed.

(** The pixels of a path. *)
Lemma read_path c path x y : 0 <= x -> 0 <= y -> forall (v : vga), in13 v -> Forall (fun p => 0 <= fst p /\ 0 <= snd p) path ->
  vga_read_pixel x y (draw_path c path v) = if bool_decide ((x, y) ∈ path) && inside x y then c mod 256 else vga_read_pixel x y v.
Proof.
  intros Hx Hy. unfold draw_path. induction path as [|[px py] path IH]; intros v Hv Hp; cbn [fold_left].
  - by rewrite bool_decide_false by (by intros ?%not_elem_of_nil).
  - rewrite Forall_cons in Hp. destruct Hp as [[Hpx Hpy] Hp]. cbn [fst snd] in *. destruct (draw_in13 px py c v Hv Hpx Hpy) as [D1 _].
    rewrite IH, read_draw by done. destruct (Z.eqb_spec x px) as [->|Hne1]; [destruct (Z.eqb_spec y py) as [->|Hne2]|].
    + rewrite (bool_decide_true ((px, py) ∈ (px, py) :: path)) by (by left). rewrite !andb_true_r. by destruct (bool_decide _), (inside px py).
    + rewrite andb_false_r. erewrite (bool_decide_ext ((px, y) ∈ (px, py) :: path)); [done|].
      rewrite elem_of_cons. split; [by intros [[= ?]|?]|by right].
    + rewrite andb_false_r. cbn [andb]. erewrite (bool_decide_ext ((x, y) ∈ (px, py) :: path)); [done|].
      rewrite elem_of_cons. split; [by intros [[= ?]|?]|by right].
Qed.

(** *** Lines along an axis *)

Fixpoint straight (n : nat) (x y sx sy : Z) : list (Z * Z) :=
  match n with O => [(x, y)] | S n => (x, y) :: straight n (x + sx) (y + sy) sx sy end.
Lemma straight_head n x y sx sy : head (straight n x y sx sy) = Some (x, y).
Proof. by destruct n. Qed.
Lemma straight_last n : forall x y sx sy, last (straight n x y sx sy) = Some (x + Z.of_nat n * sx, y + Z.of_nat n * sy).
Proof.
  induction n as [|n IH]; intros x y sx sy; cbn [straight]; [cbn; f_equal; f_equal; lia|].
  rewrite last_cons, IH. f_equal. f_equal; lia.
Qed.
Lemma straight_connected n sx sy : Z.abs sx <= 1 -> Z.abs sy <= 1 -> sx <> 0 \/ sy <> 0 -> forall x y, connected (straight n x y sx sy).
Proof.
  intros H1 H2 H3. induction n as [|n IH]; intros x y; [done|]. cbn [straight]. specialize (IH (x + sx) (y + sy)).
  pose proof (straight_head n (x + sx) (y + sy) sx sy) as Hh. destruct (straight n (x + sx) (y + sy) sx sy) as [|q rest]; [done|].
  injection Hh as ->. cbn [connected fst snd]. split_and!; [|lia|lia|done]. intros [= E1 E2]. lia.
Qed.
Lemma straight_elem n x' y' : forall x y sx sy,
  (x', y') ∈ straight n x y sx sy <-> exists k, 0 <= k <= Z.of_nat n /\ x' = x + k * sx /\ y' = y + k * sy.
Proof.
  induction n as [|n IH]; intros x y sx sy; cbn [straight].
  - rewrite list_elem_of_singleton. split; [intros [= -> ->]; exists 0; lia|]. intros (k & Hk & -> & ->). replace k with 0 by lia. f_equal; lia.
  - rewrite elem_of_cons, IH. split.
    + intros [[= -> ->]|(k & Hk & -> & ->)]; [exists 0; lia|exists (k + 1); lia].
    + intros (k & Hk & -> & ->). destruct (decide (k = 0)) as [->|]; [left; f_equal; lia|right; exists (k - 1); lia].
Qed.

Lemma vline_loop x y n c x' y' : 0 <= x -> 0 <= y -> 0 <= x' -> 0 <= y' ->
  forall i (v : vga), in13 v -> 0 <= i -> y + i + Z.of_nat n <= 200 ->
  let v' := upto n i (fun i => vga_draw_pixel x (u16 (y + i)) c) v in
  in13 v' /\ vga_read_pixel x' y' v' =
    if (x' =? x) && (x <? 320) && (y + i <=? y') && (y' <? y + i + Z.of_nat n) then c mod 256 else vga_read_pixel x' y' v.
Proof.
  intros Hx Hy Hx' Hy'. induction n as [|n IH]; intros i v Hv Hi Hn; cbn [upto].
  - split; [done|]. destruct (Z.leb_spec (y + i) y'), (Z.ltb_spec y' (y + i + Z.of_nat 0)); rewrite ?andb_false_r, ?andb_true_r; try done; lia.
  - rewrite u16_small by lia. destruct (draw_in13 x (y + i) c v Hv Hx ltac:(lia)) as [D1 _].
    destruct (IH (i + 1) (vga_draw_pixel x (y + i) c v) D1 ltac:(lia) ltac:(lia)) as [H1 H2]. split; [exact H1|].
    rewrite H2, read_draw by (done || lia). unfold inside.
    destruct (Z.eqb_spec x' x), (Z.ltb_spec x 320), (Z.leb_spec 0 x), (Z.leb_spec 0 (y + i)), (Z.ltb_spec (y + i) 200), (Z.eqb_spec y' (y + i)), (Z.leb_spec (y + (i + 1)) y'), (Z.ltb_spec y' (y + (i + 1) + Z.of_nat n)), (Z.leb_spec (y + i) y'), (Z.ltb_spec y' (y + i + Z.of_nat (S n)));
      cbn [andb]; try done; lia.
Qed.

Lemma read_vline x y h c x' y' (v : vga) : in13 v -> 0 <= x < 2 ^ 16 -> 0 <= y -> 0 <= h -> y + h <= 2 ^ 16 -> 0 <= x' -> 0 <= y' ->
  vga_read_pixel x' y' (vga_draw_vline x y h c v) =
  if (x' =? x) && (y <=? y') && (y' <? y + h) && inside x' y' then c mod 256 else vga_read_pixel x' y' v.
Proof.
  intros Hv Hx Hy Hh Hyh Hx' Hy'. unfold vga_draw_vline. rewrite drawing13 by done. pose proof Hv as [col Hg].
  replace (width (g_vga v)) with 320 by (by rewrite Hg). replace (height (g_vga v)) with 200 by (by rewrite Hg). cbn [negb]. unfold inside.
  destruct (Z.leb_spec 320 x); [destruct (Z.eqb_spec x' x) as [->|], (Z.ltb_spec x 320); rewrite ?andb_false_r; cbn [andb]; rewrite ?andb_false_r; try done; lia|].
  destruct (Z.leb_spec 200 y); [destruct (Z.leb_spec y y'), (Z.ltb_spec y' 200); rewrite ?andb_false_r; cbn [andb]; rewrite ?andb_false_r; try done; lia|].
  set (h' := if 200 <? y + h then u16 (200 - y) else h).
  assert (h' = Z.min h (200 - y)) as Eh by (subst h'; destruct (Z.ltb_spec 200 (y + h)); rewrite ?u16_small; lia).
  destruct (vline_loop x y (Z.to_nat h') c x' y' ltac:(lia) Hy Hx' Hy' 0 v Hv ltac:(lia) ltac:(lia)) as [_ ->].
  rewrite Z.add_0_r, Z2Nat.id by lia. replace (x <? 320) with true by lia. replace (0 <=? x') with true by lia. replace (0 <=? y') with true by lia.
  destruct (Z.eqb_spec x' x) as [->|]; [|done]. replace (x <? 320) with true by lia. cbn [andb]. rewrite ?andb_true_r.
  destruct (Z.leb_spec y y'), (Z.ltb_spec y' (y + h')), (Z.ltb_spec y' (y + h)), (Z.ltb_spec y' 200); cbn [andb]; try done; lia.
Qed.
Lemma read_hline x y w c x' y' (v : vga) : in13 v -> 0 <= x -> 0 <= y < 2 ^ 16 -> 0 <= w -> x + w <= 2 ^ 16 -> 0 <= x' -> 0 <= y' ->
  vga_read_pixel x' y' (vga_draw_hline x y w c v) =
  if (y' =? y) && (x <=? x') && (x' <? x + w) && inside x' y' then c mod 256 else vga_read_pixel x' y' v.
Proof.
  intros Hv Hx Hy Hw Hxw Hx' Hy'. unfold vga_draw_hline. rewrite drawing13, mode13_of by done. pose proof Hv as [col Hg].
  replace (width (g_vga v)) with 320 by (by rewrite Hg). replace (height (g_vga v)) with 200 by (by rewrite Hg). cbn [negb]. unfold inside.
  destruct (Z.leb_spec 200 y); [destruct (Z.eqb_spec y' y) as [->|], (Z.ltb_spec y 200); rewrite ?andb_false_r; cbn [andb]; rewrite ?andb_false_r; try done; lia|].
  destruct (Z.leb_spec 320 x); [destruct (Z.leb_spec x x'), (Z.ltb_spec x' 320); rewrite ?andb_false_r; cbn [andb]; rewrite ?andb_false_r; try done; lia|].
  set (w' := if 320 <? x + w then u16 (320 - x) else w).
  assert (w' = Z.min w (320 - x)) as Ew by (subst w'; destruct (Z.ltb_spec 320 (x + w)); rewrite ?u16_small; lia).
  rewrite calc_offset by (unfold inside; lia).
  destruct (read_fill x y (Z.to_nat w') c x' y' v Hv Hx ltac:(lia) ltac:(lia) Hx' Hy') as (_ & _ & ->). rewrite Z2Nat.id by lia.
  replace (0 <=? x') with true by lia. replace (0 <=? y') with true by lia.
  destruct (Z.eqb_spec y' y) as [->|]; [|by rewrite andb_false_r]. replace (y <? 200) with true by lia. cbn [andb]. rewrite ?andb_true_r.
  destruct (Z.leb_spec x x'), (Z.ltb_spec x' (x + w')), (Z.ltb_spec x' (x + w)), (Z.ltb_spec x' 320); cbn [andb]; try done; lia.
Qed.

(** The lines that the code does not draw: their length, 65536, is 0 as a [uint16_t]. *)
Definition too_long (x0 y0 x1 y1 : Z) : bool :=
  (x0 =? x1) && (Z.abs (y1 - y0) =? 65535) || (y0 =? y1) && (Z.abs (x1 - x0) =? 65535).

(** C32. Lines in mode 0x13, between any two points of 16 bits: [vga_draw_line] always
    ends.  There is a connected path from the first point to the second inside
    their bounding box, none of whose points is further than half a pixel from the
    ideal line, measured along the shorter axis, such that exactly the pixels of the
    path that are on the screen get the colour and every other pixel reads as
    before.  The one exception are horizontal and vertical lines across the whole
    range of 65536 points, whose length wraps to 0: these draw nothing. *)
Theorem line_is_nearest x0 y0 x1 y1 c (v : vga) :
  in13 v -> 0 <= x0 < 2 ^ 16 -> 0 <= y0 < 2 ^ 16 -> 0 <= x1 < 2 ^ 16 -> 0 <= y1 < 2 ^ 16 ->
  exists v', vga_draw_line x0 y0 x1 y1 c v = Some v' /\
    if too_long x0 y0 x1 y1 then v' = v else
    exists path, head path = Some (x0, y0) /\ last path = Some (x1, y1) /\ connected path /\
      Forall (fun p => Z.min x0 x1 <= fst p <= Z.max x0 x1 /\ Z.min y0 y1 <= snd p <= Z.max y0 y1 /\
        2 * Z.abs ((fst p - x0) * (y1 - y0) - (snd p - y0) * (x1 - x0)) <= Z.max (Z.abs (x1 - x0)) (Z.abs (y1 - y0))) path /\
      forall x y, 0 <= x -> 0 <= y ->
        vga_read_pixel x y v' = if bool_decide ((x, y) ∈ path) && inside x y then c mod 256 else vga_read_pixel x y v.
Proof.
  intros Hv Hx0 Hy0 Hx1 Hy1. destruct (decide (x0 = x1)) as [->|Hx]; [|destruct (decide (y0 = y1)) as [->|Hy]].
  - unfold vga_draw_line. rewrite Z.eqb_refl. eexists. split; [reflexivity|].
    set (dy := if y0 <? y1 then y1 - y0 else y0 - y1). replace (if y0 <? y1 then y1 - y0 + 1 else y0 - y1 + 1) with (dy + 1) by (subst dy; case_if; lia).
    assert (Hdy : dy = Z.abs (y1 - y0)) by (subst dy; destruct (Z.ltb_spec y0 y1); lia). clearbody dy.
    unfold too_long. rewrite Z.eqb_refl, <- Hdy. cbn [andb]. destruct (Z.eqb_spec dy 65535) as [->|Hd]; cbn [orb].
    { unfold vga_draw_vline. change (u16 (65535 + 1)) with 0. pose proof Hv as [col Hg]. rewrite drawing13 by done. cbn [negb].
      rewrite Hg. cbn [width height mode13]. repeat (case_if; try done); cbn [upto]; try done. bool_to_prop. lia. }
    replace ((y0 =? y1) && (Z.abs (x1 - x1) =? 65535)) with false by lia.
    assert (Hsg : Z.sgn (y1 - y0) = 1 /\ y0 < y1 \/ Z.sgn (y1 - y0) = 0 /\ y0 = y1 \/ Z.sgn (y1 - y0) = -1 /\ y1 < y0) by lia.
    rewrite u16_small by lia. exists (straight (Z.to_nat dy) x1 y0 0 (Z.sgn (y1 - y0))).
    split; [apply straight_head|]. split; [rewrite straight_last; f_equal; f_equal; lia|].
    split; [destruct (decide (dy = 0)) as [->|]; [done|apply straight_connected; lia]|]. split.
    + apply Forall_forall. intros [a b] (k & Hk & -> & ->)%straight_elem. cbn [fst snd]. rewrite Z.sub_diag, !Z.mul_0_r. destruct Hsg as [[-> ?]|[[-> ?]|[-> ?]]]; split_and!; lia.
    + intros x y Hxp Hyp. rewrite read_vline by (done || lia).
      match goal with |- (if ?a && _ then _ else _) = (if ?b && _ then _ else _) => assert (a = b) as ->; [|done] end.
      case_bool_decide as Hk; rewrite straight_elem in Hk.
      * destruct Hk as (k & Hk & -> & ->). destruct Hsg as [[-> ?]|[[-> ?]|[-> ?]]]; lia.
      * destruct (Z.eqb_spec x x1) as [->|]; [|done]. cbn [andb]. apply not_true_is_false. intros Hr. apply Hk.
        exists (Z.abs (y - y0)). destruct Hsg as [[-> ?]|[[-> ?]|[-> ?]]]; lia.
  - unfold vga_draw_line. rewrite Z.eqb_refl. replace (x0 =? x1) with false by lia. eexists. split; [reflexivity|].
    set (dx := if x0 <? x1 then x1 - x0 else x0 - x1). replace (if x0 <? x1 then x1 - x0 + 1 else x0 - x1 + 1) with (dx + 1) by (subst dx; case_if; lia).
    assert (Hdx : dx = Z.abs (x1 - x0)) by (subst dx; destruct (Z.ltb_spec x0 x1); lia). clearbody dx.
    unfold too_long. rewrite Z.eqb_refl, <- Hdx. replace (x0 =? x1) with false by lia. cbn [andb orb]. destruct (Z.eqb_spec dx 65535) as [->|Hd].
    { unfold vga_draw_hline. change (u16 (65535 + 1)) with 0. pose proof Hv as [col Hg]. rewrite drawing13, mode13_of by done. cbn [negb].
      rewrite Hg. cbn [width height mode13]. repeat (case_if; try done); cbn [fill_bytes]; try done. bool_to_prop. lia. }
    assert (Hsg : Z.sgn (x1 - x0) = 1 /\ x0 < x1 \/ Z.sgn (x1 - x0) = -1 /\ x1 < x0) by lia.
    rewrite u16_small by lia. exists (straight (Z.to_nat dx) x0 y1 (Z.sgn (x1 - x0)) 0).
    split; [apply straight_head|]. split; [rewrite straight_last; f_equal; f_equal; lia|].
    split; [apply straight_connected; lia|]. split.
    + apply Forall_forall. intros [a b] (k & Hk & -> & ->)%straight_elem. cbn [fst snd]. rewrite Z.sub_diag, !Z.mul_0_r. destruct Hsg as [[-> ?]|[-> ?]]; split_and!; lia.
    + intros x y Hxp Hyp. rewrite read_hline by (done || lia).
      match goal with |- (if ?a && _ then _ else _) = (if ?b && _ then _ else _) => assert (a = b) as ->; [|done] end.
      case_bool_decide as Hk; rewrite straight_elem in Hk.
      * destruct Hk as (k & Hk & -> & ->). destruct Hsg as [[-> ?]|[-> ?]]; lia.
      * destruct (Z.eqb_spec y y1) as [->|]; [|done]. cbn [andb]. apply not_true_is_false. intros Hr. apply Hk.
        exists (Z.abs (x - x0)). destruct Hsg as [[-> ?]|[-> ?]]; lia.
  - destruct (slanted_line x0 y0 x1 y1 c v Hx0 Hy0 Hx1 Hy1 Hx Hy) as (path & E & H1 & H2 & H3 & H4). eexists. split; [exact E|].
    replace (too_long x0 y0 x1 y1) with false by (unfold too_long; lia). exists path. split_and!; try done.
    intros x y Hxp Hyp. apply read_path; try done. eapply Forall_impl; [exact H4|]. intros p (? & ? & _). lia.
Qed.

(** ** Double buffering *)

Lemma flip_dwords n : forall o (v : vga), in13 v -> 0 <= o -> o + 4 * Z.of_nat n <= 64000 ->
  let v' := fast_memmove_dwords n front o back o v in
  in13 v' /\ forall o', 0 <= o' < 64000 -> get_byte back o' v' = get_byte back o' v /\
    get_byte front o' v' = if (o <=? o') && (o' <? o + 4 * Z.of_nat n) then get_byte back o' v else get_byte front o' v.
Proof.
  induction n as [|n IH]; intros o v Hv Ho Hn; cbn [fast_memmove_dwords].
  - split; [done|]. intros o' Ho'. split; [done|]. destruct (Z.leb_spec o o'), (Z.ltb_spec o' (o + 4 * Z.of_nat 0)); try done; lia.
  - set (v1 := put_byte front (o + 3) _ _). assert (in13 v1) as Hv1 by (repeat apply put_in13; done).
    assert (forall o', 0 <= o' < 64000 -> get_byte back o' v1 = get_byte back o' v /\
      get_byte front o' v1 = if (o <=? o') && (o' <? o + 4) then get_byte back o' v else get_byte front o' v) as Hb.
    { intros o' Ho'. subst v1. rewrite !get_put by (repeat apply put_in13; done || lia).
      rewrite !(bool_decide_false (front = back)), !(bool_decide_true (front = front)) by done. cbn [andb]. split; [done|].
      assert (forall k, u8 (get_byte back k v) = get_byte back k v) as U by (intros k; apply u8_peek). rewrite !U.
      destruct (Z.eqb_spec o' (o + 3)) as [E3|]; [|destruct (Z.eqb_spec o' (o + 2)) as [E2|]; [|destruct (Z.eqb_spec o' (o + 1)) as [E1|]; [|destruct (Z.eqb_spec o' o) as [E0|]]]];
        destruct (Z.leb_spec o o'), (Z.ltb_spec o' (o + 4)); try lia; cbn [andb]; congruence. }
    destruct (IH (o + 4) v1) as [H1 H2]; [done|lia|lia|]. split; [exact H1|]. intros o' Ho'. destruct (H2 o' Ho') as [-> ->]. destruct (Hb o' Ho') as [-> ->].
    split; [done|]. destruct (Z.leb_spec (o + 4) o'), (Z.ltb_spec o' (o + 4 + 4 * Z.of_nat n)), (Z.leb_spec o o'), (Z.ltb_spec o' (o + 4)), (Z.ltb_spec o' (o + 4 * Z.of_nat (S n)));
      cbn [andb]; try done; lia.
Qed.

Lemma flip_spec (v : vga) : in13 v -> target_of v = back -> g_backbuffer_size v = 64000 ->
  in13 (vga_flip v) /\ forall o, 0 <= o < 64000 -> get_byte front o (vga_flip v) = get_byte back o v.
Proof.
  intros Hv Ht Hs. unfold vga_flip. unfold target_of in Ht. destruct (g_double_buffered v), (g_backbuffer v =? 0); cbn [andb negb orb] in *; try done.
  rewrite Hs. change (64000 mod 4) with 0. change (Z.to_nat 0) with 0%nat. cbn [copy_bytes].
  destruct (flip_dwords (Z.to_nat (64000 / 4)) 0 v) as [H1 H2]; [done|lia|zlia|]. split; [done|]. intros o Ho. destruct (H2 o Ho) as [_ ->].
  destruct (Z.leb_spec 0 o); [|lia]. destruct (Z.ltb_spec o (0 + 4 * Z.of_nat (Z.to_nat (64000 / 4)))); [done|]. rewrite Z2Nat.id in * by zlia. zlia.
Qed.

(** The flip writes to the screen only. *)
Lemma front_heap o b (v : vga) : vheap (put_byte front o b v) = vheap v.
Proof. cbn. unfold vpoke. by destruct (on_screen _). Qed.
Lemma flip_heap (v : vga) : vheap (vga_flip v) = vheap v.
Proof.
  assert (forall n o (v : vga), vheap (fast_memmove_dwords n front o back o v) = vheap v) as H1.
  { induction n as [|n IH]; intros o w; cbn [fast_memmove_dwords]; [done|]. rewrite IH. by rewrite !front_heap. }
  assert (forall n o (v : vga), vheap (copy_bytes n o v) = vheap v) as H2.
  { induction n as [|n IH]; intros o w; cbn [copy_bytes]; [done|]. rewrite IH. by rewrite !front_heap. }
  unfold vga_flip. case_if; [done|]. by rewrite H2, H1.
Qed.

(** Pixels drawn one after the other, each in its colour; what a point shows is the
    last colour drawn there, and [old] when there was none. *)
Definition draw_all (ps : list (Z * Z * Z)) (v : vga) : vga := fold_left (fun v p => vga_draw_pixel p.1.1 p.1.2 p.2 v) ps v.
Definition drawn (ps : list (Z * Z * Z)) (x y old : Z) : Z :=
  fold_left (fun old p => if (p.1.1 =? x) && (p.1.2 =? y) then p.2 mod 256 else old) ps old.

Lemma drawn_back ps : forall (v : vga), in13 v -> target_of v = back -> Forall (fun p => 0 <= p.1.1 /\ 0 <= p.1.2) ps ->
  let v' := draw_all ps v in
  in13 v' /\ target_of v' = back /\ g_backbuffer_size v' = g_backbuffer_size v /\ g_backbuffer v' = g_backbuffer v /\
  (forall o, 0 <= o < 64000 -> get_byte front o v' = get_byte front o v) /\
  (forall x y, inside x y = true -> vga_read_pixel x y v' = drawn ps x y (vga_read_pixel x y v)).
Proof.
  unfold draw_all, drawn. induction ps as [|[[px py] c] ps IH]; intros v Hv Ht Hp; cbn [fold_left]; [done|]. rewrite Forall_cons in Hp. destruct Hp as [[Hx Hy] Hp].
  cbn [fst snd] in *. destruct (draw_in13 px py c v Hv Hx Hy) as [D1 D2]. destruct (IH (vga_draw_pixel px py c v)) as (H1 & H2 & H3 & H4 & H5 & H6); [done|by rewrite D2|done|].
  split; [done|]. split; [done|]. rewrite H3, H4. pose proof (draw_spec px py c v Hv Hx Hy) as Hd. split; [|split; [|split]].
  - rewrite Hd. case_if; [apply put_byte_same|done].
  - rewrite Hd. case_if; [apply put_byte_same|done].
  - intros o Ho. rewrite H5, Hd by done. destruct (inside px py) eqn:Hi; [|done]. rewrite Ht, get_put by (done || by apply offset_range).
    by rewrite bool_decide_false by done.
  - intros x y Hi. rewrite H6 by done. f_equal. assert (0 <= x /\ 0 <= y) as [? ?] by (unfold inside in Hi; lia). rewrite read_draw by done.
    destruct (Z.eqb_spec x px) as [->|], (Z.eqb_spec y py) as [->|]; rewrite ?Z.eqb_refl, ?Hi, ?andb_false_r; cbn [andb]; try done;
      [by replace (py =? y) with false by lia|by replace (px =? x) with false by lia|by replace (px =? x) with false by lia].
Qed.

(** Drawing in the back buffer writes only in its block. *)
Lemma drawn_heap ps q r : 64000 <= r -> forall (v : vga), in13 v -> target_of v = back -> Forall (fun p => 0 <= p.1.1 /\ 0 <= p.1.2) ps ->
  a_ok (vheap v) -> a_owned (vheap v) q r -> g_backbuffer v = q ->
  let v' := draw_all ps v in
  a_ok (vheap v') /\ (forall q' r', a_owned (vheap v') q' r' <-> a_owned (vheap v) q' r') /\
  (forall a, ~ in_block q r a -> (a_mem (vheap v')).[a] = (a_mem (vheap v)).[a]).
Proof.
  intros Hr. unfold draw_all. induction ps as [|[[px py] c] ps IH]; intros v Hv Ht Hp Hok Hown Hq; cbn [fold_left]; [done|]. rewrite Forall_cons in Hp. destruct Hp as [[Hx Hy] Hp].
  cbn [fst snd] in *. destruct (draw_in13 px py c v Hv Hx Hy) as [D1 D2]. pose proof (draw_spec px py c v Hv Hx Hy) as Hd.
  destruct (inside px py) eqn:Hi; [|rewrite Hd; by apply IH]. rewrite Ht in Hd. cbn [put_byte] in Hd. pose proof (offset_range px py Hi).
  set (m := store8 (a_mem (vheap v)) (g_backbuffer v + offset px py) (u8 c)) in Hd.
  assert (forall a, ~ in_block q r a -> m.[a] = (a_mem (vheap v)).[a]) as Hm.
  { intros a Ha. subst m. rewrite peek_store8, Hq. destruct (Z.eqb_spec a (q + offset px py)) as [->|]; [|done]. exfalso. apply Ha. unfold in_block. lia. }
  destruct (write_owned (vheap v) q r m Hok Hown Hm) as [W1 W2].
  destruct (IH (vga_draw_pixel px py c v)) as (H1 & H2 & H3); [done|by rewrite D2|done|by rewrite Hd|rewrite Hd; by apply W2|by rewrite Hd|].
  split; [done|]. rewrite Hd in H2, H3 |- *. cbn [vheap with_vheap] in H2, H3. split; [intros q' r'; rewrite H2; apply W2|]. intros a Ha. rewrite H3 by done.
  rewrite a_mem_write. by apply Hm.
Qed.

Lemma fill_backbuffer s n b : forall o (v : vga), g_backbuffer (fill_bytes s n o b v) = g_backbuffer v.
Proof.
  induction n as [|n IH]; intros o v; cbn [fill_bytes]; [done|]. rewrite IH. by destruct (put_byte_same s o b v) as (_ & -> & _).
Qed.

(** Clearing the new buffer writes only in it. *)
Lemma clear_back n : forall o q r (v : vga), in13 v -> a_ok (vheap v) -> a_owned (vheap v) q r -> g_backbuffer v = q -> 0 <= o -> o + Z.of_nat n <= r ->
  let v' := fill_bytes back n o 0 v in
  a_ok (vheap v') /\ (forall q' r', a_owned (vheap v') q' r' <-> a_owned (vheap v) q' r') /\
  (forall a, ~ in_block q r a -> (a_mem (vheap v')).[a] = (a_mem (vheap v)).[a]).
Proof.
  induction n as [|n IH]; intros o q r v Hv Hok Hown Hq Ho Hn; cbn [fill_bytes]; [done|].
  set (m := store8 (a_mem (vheap v)) (g_backbuffer v + o) 0).
  assert (forall a, ~ in_block q r a -> m.[a] = (a_mem (vheap v)).[a]) as Hm.
  { intros a Ha. subst m. rewrite peek_store8, Hq. destruct (Z.eqb_spec a (q + o)) as [->|]; [|done]. exfalso. apply Ha. unfold in_block. lia. }
  destruct (write_owned (vheap v) q r m Hok Hown Hm) as [W1 W2].
  destruct (IH (o + 1) q r (put_byte back o 0 v)) as (H1 & H2 & H3); [by apply put_in13|done|by apply W2|done|lia|lia|].
  split; [done|]. split; [intros q' r'; rewrite H2; apply W2|]. intros a Ha. rewrite H3 by done. cbn [put_byte vheap with_vheap].
  rewrite a_mem_write. by apply Hm.
Qed.

(** C35. Double buffering: in mode 0x13 [vga_enable_double_buffer] either finds the heap
    exhausted, says so, and drawing goes on in the frame buffer, or it succeeds, all
    pixels read as black and the screen is as it was.  Then, whatever pixels are
    drawn in whatever colours, the screen does not change until [vga_flip], which makes it
    show at every point the last colour drawn there, and black where nothing was drawn.
    Through all of this, enabling, drawing and flipping, the heap stays well formed and
    its other blocks stay allocated and keep their contents. *)
Theorem double_buffering (v : vga) :
  in13 v -> g_double_buffered v = false -> a_ok (vheap v) ->
  exists code v1, vga_enable_double_buffer busy v = Some (code, v1) /\
    ((code = VGA_RESOURCE_SHORTAGE /\ target_of v1 = front /\ a_alloc (vheap v) 64000 = Some (0, vheap v)) \/
     (code = VGA_SUCCESS /\
      (forall x y, inside x y = true -> vga_read_pixel x y v1 = 0 /\ get_byte front (offset x y) v1 = get_byte front (offset x y) v) /\
      forall ps, Forall (fun p => 0 <= p.1.1 /\ 0 <= p.1.2) ps ->
        let v2 := draw_all ps v1 in
        (forall o, 0 <= o < 64000 -> get_byte front o v2 = get_byte front o v) /\
        (forall x y, inside x y = true -> get_byte front (offset x y) (vga_flip v2) = drawn ps x y 0) /\
        a_ok (vheap v2) /\ vheap (vga_flip v2) = vheap v2 /\
        (forall q r, a_owned (vheap v) q r -> a_owned (vheap v2) q r /\
           forall a, in_block q r a -> (a_mem (vheap v2)).[a] = (a_mem (vheap v)).[a]))).
Proof.
  intros Hv Hd Hok. unfold vga_enable_double_buffer. rewrite Hd. assert (framebuffer_size (g_vga v) = 64000) as -> by (by destruct Hv as [c ->]).
  cbn [Z.eqb]. destruct (a_alloc_spec (vheap v) 64000 Hok) as [E|(q & r & h & E & Hok' & Hq & Hr & Hown & Hdis & Hmem)]; [lia| |]; rewrite E; cbn [mbind option_bind];
    assert (Z.of_nat (Z.to_nat 64000) = 64000) as Hn by (apply Z2Nat.id; zlia); generalize dependent (Z.to_nat 64000); intros n Hn.
  { cbn [Z.eqb]. do 2 eexists. split; [reflexivity|]. left. split; [done|]. split; reflexivity. }
  replace (q =? 0) with false by lia. do 2 eexists. split; [reflexivity|]. right. split; [done|].
  set (v0 := with_back q false (g_backbuffer_size v) (with_vheap h v)). change (with_back q false (g_backbuffer_size v) (with_vheap h v)) with v0.
  assert (in13 v0) as Hv0 by (destruct Hv as [c Hc]; by exists c).
  destruct (fill_spec back n 0 0 v0) as (F1 & F2 & F3); [done|lia|lia|].
  destruct (clear_back n 0 q r v0) as (C1 & C2 & C3); [done|done|apply Hown; by right|done|lia|lia|].
  set (vf := fill_bytes back n 0 0 v0) in *. set (v1 := vnote busy _ _).
  assert (in13 v1) as Hv1 by (destruct F1 as [c Hc]; by exists c).
  assert (target_of v1 = back) as Ht1 by (unfold target_of; cbn; by replace (q =? 0) with false by lia).
  assert (g_backbuffer vf = q) as Hbb by apply fill_backbuffer.
  assert (forall o, get_byte front o v1 = get_byte front o vf) as G1 by done.
  assert (forall o, get_byte back o v1 = get_byte back o vf) as G2 by (intros o; cbn [get_byte v1 vheap g_backbuffer vnote with_back]; by rewrite Hbb).
  assert (forall x y, inside x y = true -> vga_read_pixel x y v1 = 0 /\ get_byte front (offset x y) v1 = get_byte front (offset x y) v) as Hblack.
  { intros x y Hi. pose proof (offset_range x y Hi). unfold inside in Hi. rewrite read_spec by (done || lia). replace (inside x y) with true by (unfold inside; lia).
    rewrite Ht1, G1, G2, !F3 by done. rewrite (bool_decide_true (back = back)), (bool_decide_false (back = front)) by done. cbn [andb].
    destruct (Z.leb_spec 0 (offset x y)); [|lia]. destruct (Z.ltb_spec (offset x y) (0 + Z.of_nat n)); [|lia]. done. }
  split; [exact Hblack|]. intros ps Hp. destruct (drawn_back ps v1 Hv1 Ht1 Hp) as (P1 & P2 & P3 & _ & P4 & P5).
  assert (a_owned (vheap v1) q r) as Hown1 by (apply C2, Hown; by right).
  destruct (drawn_heap ps q r Hr v1 Hv1 Ht1 Hp C1 Hown1 eq_refl) as (O1 & O2 & O3). set (v2 := draw_all ps v1) in *. cbv zeta. split_and!.
  - intros o Ho. rewrite P4, G1, F3 by done. by rewrite bool_decide_false by done.
  - intros x y Hi. pose proof (offset_range x y Hi). destruct (flip_spec v2) as [_ Hf]; [done|done|by rewrite P3|]. rewrite Hf by done.
    pose proof (P5 x y Hi) as Hr5. rewrite (proj1 (Hblack x y Hi)) in Hr5. rewrite <- Hr5. unfold inside in Hi.
    rewrite read_spec by (done || lia). replace (inside x y) with true by (unfold inside; lia). by rewrite P2.
  - exact O1.
  - apply flip_heap.
  - intros q' r' Ho. split; [apply O2, C2, Hown; by left|]. intros a Ha.
    assert (~ in_block q r a) as Hnb by (destruct (Hdis q' r' Ho); unfold in_block in *; lia).
    rewrite O3 by done. change (a_mem (vheap v1)) with (a_mem (vheap vf)). rewrite C3 by done. by apply (Hmem q' r').
Qed.
End VgaCorrect.

(** ** A screen in mode 0x13 *)
#[local] Existing Instance demo_allocator.

Definition v_demo : vga heap := mk_vga (mode13 7) 0 false 0 screen0 (fun _ => 0) h_ready (mk_serial true [] [] []).
Lemma v_demo_13 : in13 v_demo.
Proof. by exists 7. Qed.

Lemma pixel_round_trip_witness : vga_read_pixel 319 199 (vga_draw_pixel 319 199 0x1234 v_demo) = 0x34.
Proof.
  destruct (pixel_round_trip 319 199 0x1234 319 199 v_demo v_demo_13) as [E _]; [lia|lia|lia|lia|].
  rewrite E. reflexivity.
Defined.

(** A rectangle clipped at the right edge. *)
Lemma fill_rect_paints_witness : vga_read_pixel 319 12 (vga_fill_rect 300 10 1000 5 9 v_demo) = 9.
Proof.
  rewrite (fill_rect_paints 300 10 1000 5 9 319 12 v_demo v_demo_13); [|lia|lia|lia|lia|lia|lia]. reflexivity.
Defined.

(** A slanted line reaches its second point; a vertical line over all 65536 rows is not drawn. *)
Lemma line_is_nearest_witness :
  (exists v', vga_draw_line 3 7 1 3 5 v_demo = Some v' /\ vga_read_pixel 1 3 v' = 5) /\ vga_draw_line 9 0 9 65535 5 v_demo = Some v_demo.
Proof.
  split.
  - destruct (line_is_nearest 3 7 1 3 5 v_demo v_demo_13) as (v' & E & path & _ & L & _ & _ & P); [lia|lia|lia|lia|].
    exists v'. split; [exact E|]. rewrite P by lia. rewrite bool_decide_true; [reflexivity|]. by apply last_Some_elem_of.
  - destruct (line_is_nearest 9 0 9 65535 5 v_demo v_demo_13) as (v' & E & P); [lia|lia|lia|lia|].
    rewrite E. change (too_long 9 0 9 65535) with true in P. by rewrite P.
Defined.

(** Two colours at one point: the second one is shown. *)
Lemma double_buffering_witness : exists v1, vga_enable_double_buffer (fun _ => 0%nat) v_demo = Some (VGA_SUCCESS, v1) /\
  get_byte front (offset 5 5) (vga_flip (draw_all [(5, 5, 3); (6, 5, 1); (5, 5, 4)] v1)) = 4.
Proof.
  destruct (double_buffering (fun _ => 0%nat) v_demo v_demo_13 eq_refl) as (code & v1 & E & H).
  { exact (ex_intro _ bs_ready ready_inv). }
  destruct H as [(_ & _ & Ha)|(-> & _ & H)].
  - exfalso. destruct (kmalloc_first_fit_lem 0x200000 eq_refl eq_refl h_ready bs_ready 64000 ready_inv) as (h' & Hk & _); [done|].
    change (kmalloc 0x200000 h_ready 64000 = Some (0, h_ready)) in Ha. rewrite Hk in Ha. discriminate Ha.
  - exists v1. split; [exact E|]. destruct (H [(5, 5, 3); (6, 5, 1); (5, 5, 4)]) as (_ & Hs & _); [repeat (constructor; [cbn; lia|]); constructor|].
    rewrite Hs by reflexivity. reflexivity.
Defined.
