(* ===== verification/Boot.v ===== *)
(** * kernel.c, the start of [kernel_main]

    [kernel_start] is [kernel_main] up to its endless loop, with every call it makes
    in order; it joins the models of all parts the kernel starts.  [system] adds
    to the [world] of the shell what only the start-up reaches: the descriptor
    tables, the graphics driver, the zones, the physical pages and the mouse.
    [None]: a call does not return.

    The console, the heap and the serial port exist once: a call of the graphics or
    the mouse driver gets them from the kernel and gives them back.  The timer
    interrupts that arrive after IRQ 0 is unmasked are not interleaved here. *)
From Stdlib Require Import String.
From S2P Require Import Prelude Mem Alloc Heap Tcb Ipc Pmap Zone Vfs Io Serial Syscall Editor Descriptors Hal Ata World Shell Kernel Mouse Vga.

Definition MULTIBOOT_BOOTLOADER_MAGIC : Z := 0x2BADB002.

(** [io_print_dec] of kernel.c: the digits from the last one on in [buf], then
    printed in reverse. *)
Definition io_print_dec (value : Z) (c : console) : console :=
  if value =? 0 then io_putchar c 48 else fold_left io_putchar (rev (default [] (dec_digits 11 value []))) c.

(** The mask of one line; both are unused in kernel.c. *)
Definition pic_mask_irq (irq : Z) (h : hal) : hal := hal_outb (irq_port irq) (u8 (Z.lor (hal_inb (irq_port irq) h) (irq_bit irq))) h.
Definition pic_unmask_irq (irq : Z) (h : hal) : hal :=
  hal_outb (irq_port irq) (u8 (Z.land (hal_inb (irq_port irq) h) (u8 (Z.lnot (irq_bit irq))))) h.

(** The initialisation words [idt_init] sends to both controllers. *)
Definition pic_setup (h : hal) : hal :=
  fold_left (fun h pv => hal_outb (fst pv) (snd pv) h)
    [(PIC1_CMD, 0x11); (PIC2_CMD, 0x11); (PIC1_DATA, 0x20); (PIC2_DATA, 0x28);
     (PIC1_DATA, 0x04); (PIC2_DATA, 0x02); (PIC1_DATA, 0x01); (PIC2_DATA, 0x01)] h.

(** The graphics driver's own variables. *)
Record gfx := mk_gfx { gfx_vga : vga_driver_t; gfx_backbuffer : Z; gfx_double : bool; gfx_size : Z; gfx_vram : mem }.
Record system := mk_system {
  sw : world heap; s_gdt : list gdt_entry; s_idt : list idt_entry; s_gdtp : table_ptr; s_idtp : table_ptr;
  s_gfx : gfx; s_zones : zones; s_pmap : pmap; s_mouse : driver kbc
}.
Definition with_sw (w : world heap) (s : system) : system :=
  mk_system w (s_gdt s) (s_idt s) (s_gdtp s) (s_idtp s) (s_gfx s) (s_zones s) (s_pmap s) (s_mouse s).
Definition with_tables (g : table_ptr * list gdt_entry) (i : table_ptr * list idt_entry) (s : system) : system :=
  mk_system (sw s) (snd g) (snd i) (fst g) (fst i) (s_gfx s) (s_zones s) (s_pmap s) (s_mouse s).
Definition with_gfx (g : gfx) (s : system) : system :=
  mk_system (sw s) (s_gdt s) (s_idt s) (s_gdtp s) (s_idtp s) g (s_zones s) (s_pmap s) (s_mouse s).
Definition with_zones (z : zones) (s : system) : system :=
  mk_system (sw s) (s_gdt s) (s_idt s) (s_gdtp s) (s_idtp s) (s_gfx s) z (s_pmap s) (s_mouse s).
Definition with_pmap (p : pmap) (s : system) : system :=
  mk_system (sw s) (s_gdt s) (s_idt s) (s_gdtp s) (s_idtp s) (s_gfx s) (s_zones s) p (s_mouse s).
Definition with_mouse (d : driver kbc) (s : system) : system :=
  mk_system (sw s) (s_gdt s) (s_idt s) (s_gdtp s) (s_idtp s) (s_gfx s) (s_zones s) (s_pmap s) d.

Definition sk (s : system) : kernel heap := wk (sw s).
Definition with_sk (k : kernel heap) (s : system) : system := with_sw (with_wk k (sw s)) s.
Definition s_tasks (s : system) : sched heap := tasks (k_ipc (sk s)).
Definition with_tasks (t : sched heap) (s : system) : system := with_sk (with_ipc (set_tasks t (k_ipc (sk s))) (sk s)) s.

(** ** Steps *)

Definition step := system -> option system.
Definition andalso (f g : step) : step := fun s => s ← f s; g s.
Definition total (f : system -> system) : step := fun s => Some (f s).
Declare Scope boot_scope.
Delimit Scope boot_scope with boot.
Notation "f ;; g" := (andalso f g) (at level 100, right associativity) : boot_scope.
#[local] Open Scope boot_scope.

Section Boot.
Context (kernel_heap : Z) (heap_pos : 0 < kernel_heap) (heap_fits : kernel_heap + KERNEL_HEAP_SIZE < 2 ^ 32).
#[local] Instance boot_allocator : Allocator heap := heap_allocator kernel_heap heap_pos heap_fits.
Context (busy : list Z -> nat) (has_cpuid : bool) (cpuid : Z -> Z * Z * Z * Z).
(** Addresses the linker fixes: the trampoline, the idle task, the interrupt stubs,
    the two tables. *)
Context (tcb_trampoline idle_task_entry : Z) (isr_addr : nat -> Z) (gdt_addr idt_addr : Z).

Definition on_serial (f : serial -> serial) : step := total (fun s => with_sk (with_serial (f (k_serial (sk s))) (sk s)) s).
Definition log (t : string) : step := on_serial (serial_writeln busy (str t)).
Definition log_str (t : string) : step := on_serial (serial_write_str busy (str t)).
Definition log_hex (v : Z) : step := on_serial (serial_write_hex32 busy v).
Definition log_dec (v : Z) : step := fun s =>
  l ← serial_write_dec32 busy v (k_serial (sk s)); Some (with_sk (with_serial l (sk s)) s).
(** Bytes for the debug port 0xE9 alone. *)
Definition debug (t : string) : step :=
  on_serial (fun l => mk_serial (serial_initialized l) (debugcon l ++ str t ++ [13; 10]) (com1 l) (uart_writes l)).
Definition on_screen_of (f : console -> console) : step := total (fun s => with_sk (with_con (f (k_con (sk s))) (sk s)) s).
Definition print (t : string) : step := on_screen_of (io_print (map i8 (str t))).
Definition println (t : string) : step := on_screen_of (io_println (map i8 (str t))).
(** [vga[i] = ch | (attr << 8)] *)
Definition cell (i : nat) (ch attr : Z) : step :=
  on_screen_of (fun c => set_cells (<[i := u16 (Z.lor ch (Z.shiftl attr 8))]> (vga_buffer c)) c).
Definition on_machine (f : machine heap -> machine heap) : step := total (fun s => with_sw (with_wm (f (wm (sw s))) (sw s)) s).

(** ** The parts *)

Definition idt_init : step :=
  total (fun s => with_tables (gdt_init gdt_addr (s_gdt s)) (idt_table isr_addr idt_addr (s_idt s)) s);;
  on_machine (on_hw (fun h => pic_set_mask 0xFF 0xFF (pic_setup h)));;
  on_machine (on_sched hal_sti).

Definition start_scheduler : step := fun s =>
  t ← scheduler_init tcb_trampoline idle_task_entry (s_tasks s); Some (with_tasks t s).
Definition start_vfs : step := total (fun s => with_sk (with_vfs (snd (vfs_init (k_vfs (sk s)))) (sk s)) s).
Definition start_vga : step := total (fun s =>
  let g := s_gfx s in
  let v := snd (vga_init busy (mk_vga (gfx_vga g) (gfx_backbuffer g) (gfx_double g) (gfx_size g) (k_con (sk s)) (gfx_vram g) (kheap (s_tasks s)) (k_serial (sk s)))) in
  let s := with_gfx (mk_gfx (g_vga v) (g_backbuffer v) (g_double_buffered v) (g_backbuffer_size v) (vram v)) s in
  let s := with_sk (with_serial (vlog v) (with_con (vcon v) (sk s))) s in
  with_tasks (set_kheap (vheap v) (s_tasks s)) s).
Definition start_zones : step := fun s => '(_, z) ← zone_init (s_zones s); Some (with_zones z s).
Definition start_pmap (mem_size : Z) : step := fun s =>
  '(_, p, h) ← pmap_init kernel_heap (s_pmap s) (kheap (s_tasks s)) mem_size;
  Some (with_tasks (set_kheap h (s_tasks s)) (with_pmap p s)).

(** The driver's messages go to the kernel's log; [ms] is the uninitialised local
    structure. *)
Definition start_mouse (ms : mouse_state) : step := fun s =>
  let '((r, t), d) := mouse_init busy (own ms) (with_dlog (k_serial (sk s)) (s_mouse s)) in
  let d := if r =? MOUSE_OK then snd (mouse_set_bounds 0 80 0 25 t d) else d in
  let s := with_mouse d (with_sk (with_serial (dlog d) (sk s)) s) in
  if r =? MOUSE_OK then println "Mouse initialized (unified PS/2)." s else println "Mouse not detected (PS/2)." s.
(** What the controller holds is what the keyboard reads first. *)
Definition pending_first : step := total (fun s =>
  with_sk (with_keys (k_kbd (sk s)) (map snd (out (dev (s_mouse s))) ++ k_keys (sk s)) (sk s)) s).

Definition in_world {X} (m : M heap X) : step := fun s => match m (sw s) with Ok _ w => Some (with_sw w s) | _ => None end.
Definition start_shell : step := total (fun s =>
  with_sw (with_dmesg (dmesg_append (str "[shell] initialized" ++ [10]) []) (with_sh (shell_init (history (sh (sw s)))) (sw s))) s).
Definition log_prompt : step := fun s =>
  on_serial (fun l => serial_writeln busy (fst (shell_build_prompt 128 (sh (sw s)))) (serial_write_str busy (str "[SHELL] prompt: ") l)) s.

(** ** [kernel_main] *)

(** The address of the multiboot information, 0 for none, and its words. *)
Context (magic mboot_info : Z) (info : nat -> Z).
Definition memory_known : bool := negb (mboot_info =? 0) && negb (Z.land (info 0%nat) 64 =? 0).

Definition greet : step :=
  on_serial (serial_init busy);;
  log "Tinx Kernel starting...";;
  cell 0 75 0x0F;; cell 1 69 0x0A;;
  debug "[BOOT] kernel_main entered";;
  log_str "[BOOT] magic=0x";; log_hex magic;; log_str " mboot_info=0x";; log_hex mboot_info;; log "";;
  debug "[BOOT] magic printed";;
  (if magic =? MULTIBOOT_BOOTLOADER_MAGIC
   then log "[BOOT] Multiboot magic OK";; cell 2 79 0x0A;; cell 3 75 0x0A
   else log_str "[WARN] Bad multiboot magic 0x";; log_hex magic;; log " expected 0x2BADB002 - continuing anyway";;
        cell 2 33 0x0C;; cell 3 77 0x0C);;
  (if mboot_info =? 0 then total id else
   log_str "[BOOT] mboot flags=0x";; log_hex (info 0%nat);; log "";;
   (if negb (Z.land (info 0%nat) 64 =? 0)
    then log_str "[BOOT] mem_lower=";; log_dec (info 1%nat);; log_str " mem_upper=";; log_dec (info 2%nat);; log ""
    else total id)).

Definition quoted_title : list Z := str "       TINX v1.0 " ++ [34] ++ str "Handsome Dorito" ++ [34].
Definition banner : step :=
  on_screen_of io_init;;
  println "========================================";;
  on_screen_of (io_println (map i8 quoted_title));;
  println "========================================";; println "";; println "Booting...".

Definition start_interrupts : step :=
  idt_init;;
  println "Interrupt Descriptor Table initialized.";; log "IDT initialized successfully";;
  log "[BOOT] hal_init...";;
  on_machine (hal_init busy has_cpuid cpuid);;
  println "HAL initialized (PIC, PIT 100Hz, CPU features).";; log "HAL initialized successfully";;
  log "[BOOT] scheduler_init...";;
  start_scheduler;;
  println "Scheduler initialized (runqueue, time slicing, preemption).";; log "Scheduler initialized successfully";;
  log "[BOOT] register PIT handler...";;
  on_machine (hal_register_isr 0x20 (Some pit_isr));;
  on_machine (on_hw (hal_enable_irq 0));;
  println "IRQ vectors 32-47 ready (PIC remapped 0x20-0x2F).";; log "IRQ vectors 32-47 ready";;
  log "[BOOT] Skipping IPC/Syscall for now".

Definition start_drivers (ms : mouse_state) : step :=
  start_vfs;;
  println "Virtual File System initialized.";; log "VFS initialized successfully";;
  start_vga;;
  println "VGA driver initialized (fast scroll, mode 0x13 ready).";; log "VGA initialized";;
  start_zones;;
  start_pmap (if memory_known then u32 (u32 (info 1%nat + info 2%nat) * 1024) else 32 * 1024 * 1024);;
  println "Memory zones initialized.";; log "Zones ready";;
  start_mouse ms;; pending_first;;
  log "[DEBUG] Skipping AHCI and IPC demo for minimal boot".

Definition report : step :=
  (if memory_known then
     print "Lower memory: ";; on_screen_of (io_print_dec (info 1%nat));; println " KB";;
     print "Upper memory: ";; on_screen_of (io_print_dec (info 2%nat));; println " KB"
   else total id);;
  println "";; println "System ready.";; println "Tinx kernel booted successfully!";;
  log "[BOOT] System ready - entering shell";; log "[BOOT] Tinx kernel booted successfully!".

Definition enter_shell : step :=
  log "[BOOT] shell_init...";; start_shell;; log "[BOOT] shell_init done";;
  log "[BOOT] shell_run...";; in_world shell_run;; log "[BOOT] shell_run done";;
  in_world print_prompt;; log_prompt;;
  log "[SHELL] ready - type commands, try 'help'".

Definition kernel_start (ms : mouse_state) : step :=
  greet;; banner;; start_interrupts;; start_drivers ms;; report;; enter_shell.
End Boot.
