(* ===== verification/BootCorrect.v ===== *)
(** * The start-up brings every part of the kernel into its invariant

    Steps of [kernel_start] are described by what they need and what they leave
    ([goes]).  The log changes nothing else, and printing changes only the console, so
    a stage of the start-up is a property of the console and one of the other
    [parts]. *)
From Stdlib Require Import String.
From S2P Require Import Prelude Mem LibString Alloc Heap Tcb Ipc VmMap Pmap Zone Vfs Io Serial Syscall SyscallCorrect Editor Descriptors Hal HalCorrect Ata World Shell ShellCorrect Kernel Mouse MouseCorrect Vga Boot.
#[local] Open Scope boot_scope.

(** [f] ends from every state in [P], in a state in [Q]. *)
Definition goes (P : system -> Prop) (f : step) (Q : system -> Prop) : Prop := forall s, P s -> exists s', f s = Some s' /\ Q s'.
Lemma goes_seq P Q R f g : goes P f Q -> goes Q g R -> goes P (f;; g) R.
Proof.
  intros Hf Hg s Hs. destruct (Hf s Hs) as (s1 & E1 & H1). destruct (Hg s1 H1) as (s2 & E2 & H2).
  exists s2. unfold andalso. by rewrite E1.
Qed.
Lemma goes_post P Q Q' f : goes P f Q -> (forall s, Q s -> Q' s) -> goes P f Q'.
Proof. intros Hf HQ s Hs. destruct (Hf s Hs) as (s' & E & H). eauto. Qed.

(** Everything but the console and the log. *)
Record parts := mk_parts {
  p_tasks : sched heap; p_hw : hal; p_vfs : vfs; p_kbd : kbd; p_keys : list Z; p_sh : shell_state; p_dmesg : list Z; p_fm : fm_state;
  p_gdt : list gdt_entry; p_idt : list idt_entry; p_gfx : gfx; p_zones : zones; p_pmap : pmap; p_mouse : driver kbc
}.
Definition parts_of (s : system) : parts :=
  mk_parts (s_tasks s) (hw (wm (sw s))) (k_vfs (sk s)) (k_kbd (sk s)) (k_keys (sk s)) (sh (sw s)) (dmesg_buf (sw s)) (fm (sw s))
    (s_gdt s) (s_idt s) (s_gfx s) (s_zones s) (s_pmap s) (s_mouse s).
Definition at_stage (C : console -> Prop) (R : parts -> Prop) (s : system) : Prop := C (k_con (sk s)) /\ R (parts_of s).

(** A console with all its cells. *)
Definition lit (c : console) : Prop := length (vga_buffer c) = 2000%nat.

Lemma print_on str c : Io.on_screen c -> Io.on_screen (io_print str c).
Proof. intros Hc. destruct (print_fold str c Hc) as [Hs _]. unfold io_print. by apply update_hw_cursor_screen. Qed.
Lemma println_on str c : Io.on_screen c -> Io.on_screen (io_println str c).
Proof. intros Hc. unfold io_println. by apply putchar_ok, print_on. Qed.
Lemma putchars_on l c : Io.on_screen c -> Io.on_screen (fold_left io_putchar l c).
Proof. revert c. induction l as [|ch l IH]; intros c Hc; cbn [fold_left]; [done|]. by apply IH, putchar_ok. Qed.
Lemma print_dec_on v c : Io.on_screen c -> Io.on_screen (io_print_dec v c).
Proof. intros Hc. unfold io_print_dec. case_if; [by apply putchar_ok|by apply putchars_on]. Qed.
Lemma io_init_on c : lit c -> Io.on_screen (io_init c).
Proof.
  intros Hc. destruct c as [cells x y col i st en hi lo]. unfold Io.on_screen, io_init, clear_screen, set_color, set_cells, set_cursor.
  cbn -[fill_cells Z.lor Z.shiftl Z.land u8]. rewrite length_fill_cells. split; [exact Hc|]. split; [lia|]. split; [lia|]. by vm_compute.
Qed.
Lemma vga_clear_on c : Io.on_screen c -> Io.on_screen (vga_clear c).
Proof.
  intros (H1 & H2 & H3 & H4). unfold vga_clear. apply update_hw_cursor_screen. unfold clear_screen. split; [|split; [|split]]; cbn -[fill_cells]; try lia.
  by rewrite length_fill_cells.
Qed.

Section Steps.
Context (busy : list Z -> nat).
Implicit Types R : parts -> Prop.

Lemma serial_goes C R f : goes (at_stage C R) (on_serial f) (at_stage C R).
Proof. intros s Hs. eexists. by split. Qed.
Lemma log_dec_goes C R v : 0 <= v < 2 ^ 32 -> goes (at_stage C R) (log_dec busy v) (at_stage C R).
Proof.
  intros Hv s Hs. destruct (write_dec32_roundtrip busy v (k_serial (sk s)) Hv) as (l & _ & E & _). unfold log_dec. rewrite E.
  eexists. by split.
Qed.
Lemma screen_goes C C' R f : (forall c, C c -> C' (f c)) -> goes (at_stage C R) (on_screen_of f) (at_stage C' R).
Proof. intros Hf s [Hc Hs]. eexists. split; [reflexivity|]. split; [by apply Hf|exact Hs]. Qed.
Lemma print_goes R t : goes (at_stage Io.on_screen R) (print t) (at_stage Io.on_screen R).
Proof. apply screen_goes, print_on. Qed.
Lemma println_goes R t : goes (at_stage Io.on_screen R) (println t) (at_stage Io.on_screen R).
Proof. apply screen_goes, println_on. Qed.
Lemma cell_goes R i ch attr : goes (at_stage lit R) (cell i ch attr) (at_stage lit R).
Proof. apply screen_goes. intros c Hc. unfold lit. cbn. by rewrite length_insert. Qed.
Lemma id_goes P : goes P (total id) P.
Proof. intros s Hs. by exists s. Qed.
(** A step that changes the other parts only. *)
Lemma total_goes C R R' (f : system -> system) :
  (forall s, k_con (sk (f s)) = k_con (sk s)) -> (forall s, R (parts_of s) -> R' (parts_of (f s))) -> goes (at_stage C R) (total f) (at_stage C R').
Proof. intros Hc Hf s [H1 H2]. exists (f s). split; [done|]. split; [by rewrite Hc|by apply Hf]. Qed.
End Steps.

(** Steps that print or log. *)
Ltac talk := lazymatch goal with
  | |- goes _ (println _) _ => apply println_goes
  | |- goes _ (print _) _ => apply print_goes
  | |- goes _ (cell _ _ _) _ => apply cell_goes
  | |- goes _ (total id) _ => apply id_goes
  | |- goes _ (log_dec _ _) _ => apply log_dec_goes; done
  | |- goes _ (on_screen_of (io_print_dec _)) _ => apply screen_goes, print_dec_on
  | |- goes _ (on_screen_of (io_println _)) _ => apply screen_goes, println_on
  | |- goes _ (on_serial _) _ => apply serial_goes
  | |- goes _ (log _ _) _ => apply serial_goes
  | |- goes _ (log_str _ _) _ => apply serial_goes
  | |- goes _ (log_hex _ _) _ => apply serial_goes
  | |- goes _ (debug _) _ => apply serial_goes
  | |- goes _ (log_prompt _) _ => let s := fresh in let H := fresh in intros s H; eexists; split; [reflexivity|exact H]
  end.
Ltac chat := repeat (eapply goes_seq; [talk|]).

Section BootCorrect.
Context (kernel_heap : Z) (heap_pos : 0 < kernel_heap) (heap_fits : kernel_heap + KERNEL_HEAP_SIZE < 2 ^ 32).
#[local] Hint Extern 0 (Allocator heap) => exact (boot_allocator kernel_heap heap_pos heap_fits) : typeclass_instances.
Context (busy : list Z -> nat) (has_cpuid : bool) (cpuid : Z -> Z * Z * Z * Z).
Context (tcb_trampoline idle_task_entry : Z) (isr_addr : nat -> Z) (gdt_addr idt_addr : Z).
Context (magic mboot_info : Z) (info : nat -> Z).
Context (info_words : forall i, 0 <= info i < 2 ^ 32).

Lemma greet_goes R : goes (at_stage lit R) (greet busy magic mboot_info info) (at_stage lit R).
Proof.
  unfold greet. chat. eapply goes_seq; [case_if; chat; talk|]. case_if; [talk|]. chat. case_if; [|talk]. chat. talk.
Qed.

Lemma banner_goes R : goes (at_stage lit R) banner (at_stage Io.on_screen R).
Proof.
  unfold banner. eapply goes_seq; [apply screen_goes; exact io_init_on|]. chat. talk.
Qed.

(** ** The scheduler before it is initialised *)

Definition cold (h : heap) (t : sched heap) : Prop := exists b, t = set_iflag b (Tcb.boot h).

Lemma kmalloc_inits h n : 0 < n -> kmalloc kernel_heap h n = kmalloc kernel_heap (heap_init kernel_heap h) n.
Proof.
  intros Hn. unfold kmalloc. replace (n =? 0) with false by lia. unfold heap_init. destruct (heap_initialized h) eqn:E; [by rewrite E|].
  cbn [heap_initialized]. done.
Qed.

(** The heap is only used through its first allocation, which initialises it. *)
Lemma setup_inits i entry arg (t : sched heap) h :
  t_kernel_stack (task_pool t i) = 0 -> entry <> 0 ->
  tcb_setup_context tcb_trampoline (Some i) entry arg (set_kheap h t) =
  tcb_setup_context tcb_trampoline (Some i) entry arg (set_kheap (heap_init kernel_heap h) t).
Proof.
  intros Hs He. unfold tcb_setup_context. replace (entry =? 0) with false by lia. cbn [set_kheap task_pool kheap]. rewrite Hs. cbn [Z.eqb].
  change (a_alloc h TCB_STACK_SIZE) with (kmalloc kernel_heap h TCB_STACK_SIZE).
  change (a_alloc (heap_init kernel_heap h) TCB_STACK_SIZE) with (kmalloc kernel_heap (heap_init kernel_heap h) TCB_STACK_SIZE).
  rewrite kmalloc_inits by done. destruct (kmalloc kernel_heap (heap_init kernel_heap h) TCB_STACK_SIZE) as [[q h']|]; [|done].
  cbn [mbind option_bind]. by case_if.
Qed.

Lemma create_inits entry arg name prio (t : sched heap) h :
  entry <> 0 ->
  (exists i, find_from (fun i => is_state t i TASK_STATE_FREE) 0 TCB_MAX_TASKS = Some i) ->
  tcb_create tcb_trampoline entry arg name prio (set_kheap h t) = tcb_create tcb_trampoline entry arg name prio (set_kheap (heap_init kernel_heap h) t).
Proof.
  intros He [i Hi]. unfold tcb_create, tcb_allocate. change (is_state (set_kheap ?x t)) with (is_state t). rewrite Hi.
  match goal with |- ?x ≫= _ = ?y ≫= _ => assert (x = y) as -> end; [|done].
  apply (setup_inits i entry arg (upd i (fun t => set_base_priority prio (set_priority prio
                  (set_name (match name with Some n => str_copy (t_name t) n | None => <[0%nat := 0]> (t_name t) end) t)))
     (upd i (fresh_tcb (next_tid t) (scheduler_ticks t)) (set_next_tid (i32 (next_tid t + 1)) t))) h); [|done].
  cbn. by rewrite Nat.eqb_refl.
Qed.

Lemma init_loop_kheap n : forall i (t : sched heap) h, tcb_init_loop n i (set_kheap h t) = set_kheap h (tcb_init_loop n i t).
Proof. induction n as [|n IH]; intros i t h; cbn [tcb_init_loop]; [done|]. by rewrite <- IH. Qed.
Lemma init_loop_iflag n : forall i (t : sched heap) b, tcb_init_loop n i (set_iflag b t) = set_iflag b (tcb_init_loop n i t).
Proof. induction n as [|n IH]; intros i t b; cbn [tcb_init_loop]; [done|]. by rewrite <- IH. Qed.

Context (idle_there : idle_task_entry <> 0).

(** *** The stack of the idle task *)

Lemma add_task_heap (t t' : sched heap) i : scheduler_add_task (Some i) t = Some t' -> kheap t' = kheap t.
Proof.
  unfold scheduler_add_task. case_if; [by intros [= <-]|]. destruct (in_queue t i) as [[]|]; cbn [mbind option_bind]; [by intros [= <-]| |done].
  set (s2 := if _ =? 0 then _ else _). assert (kheap s2 = kheap t) as E2 by (unfold s2; by case_if).
  destruct (link_tail i s2) as [s3|] eqn:El; cbn [mbind option_bind]; [|done].
  assert (kheap s3 = kheap s2) as E3 by (unfold link_tail in El; repeat case_match; by simplify_eq).
  intros [= <-]. rewrite <- E2, <- E3. by destruct (current_task s3).
Qed.

Lemma create_heap (t t' : sched heap) i arg name prio q h :
  tcb_create tcb_trampoline idle_task_entry arg name prio t = Some (Some i, t') -> kmalloc kernel_heap (kheap t) TCB_STACK_SIZE = Some (q, h) -> q <> 0 ->
  kheap t' = with_hmem h (LibString.fill_bytes (Z.to_nat TCB_STACK_SIZE) (hmem h) q 0) /\
  t_kernel_stack (task_pool t' i) = q /\ t_arch_data (task_pool t' i) = idle_task_entry.
Proof.
  intros Hc Hk Hq. unfold tcb_create, tcb_allocate in Hc. destruct (find_from _ 0 TCB_MAX_TASKS) as [j|]; [|done]. revert Hc.
  unfold tcb_setup_context. replace (idle_task_entry =? 0) with false by lia. generalize (Z.to_nat TCB_STACK_SIZE). intros n. cbv beta iota zeta.
  match goal with |- context [t_kernel_stack (task_pool ?x j) =? 0] => set (s1 := x) end.
  assert (t_kernel_stack (task_pool s1 j) = 0) as Hs1 by (unfold s1; cbn; by rewrite Nat.eqb_refl).
  assert (kheap s1 = kheap t) as Hh1 by done. rewrite Hs1. cbn [Z.eqb].
  change (a_alloc (kheap s1) TCB_STACK_SIZE) with (kmalloc kernel_heap (kheap s1) TCB_STACK_SIZE). rewrite Hh1, Hk. cbn [mbind option_bind].
  replace (q =? 0) with false by lia. cbn [mbind option_bind negb]. match goal with |- context [if scheduler_initialized ?x then _ else _] => set (s2 := x) end.
  assert (kheap s2 = with_hmem h (LibString.fill_bytes n (hmem h) q 0) /\ t_kernel_stack (task_pool s2 j) = q /\ t_arch_data (task_pool s2 j) = idle_task_entry) as (A1 & A2 & A3)
    by (unfold s2; cbn; by rewrite !Nat.eqb_refl).
  clearbody s2. destruct (scheduler_initialized s2); cbn [mbind option_bind].
  - destruct (scheduler_add_task (Some j) s2) as [s3|] eqn:E; cbn [mbind option_bind]; [|done]. intros [= <- <-].
    rewrite (add_task_heap _ _ _ E). destruct (add_task_fields t_kernel_stack s2 j s3 j) as (-> & _); try done.
    by destruct (add_task_fields t_arch_data s2 j s3 j) as (-> & _).
  - intros [= <- <-]. done.
Qed.

(** The heap once the idle task has its stack, and its room behind it. *)
Definition heap_room : Z := KERNEL_HEAP_SIZE - 16 - (TCB_STACK_SIZE + 16).
Definition stack_blocks : blocks := [(TCB_STACK_SIZE, false); (heap_room, true)].

Lemma fill_first n h bs v sz : heap_inv kernel_heap h ((sz, false) :: bs) -> Z.of_nat n <= sz ->
  heap_inv kernel_heap (with_hmem h (LibString.fill_bytes n (hmem h) (kernel_heap + 16) v)) ((sz, false) :: bs).
Proof.
  intros Hi Hn. apply heap_inv_payload; [done|]. intros a Ha. cbn [live] in Ha. rewrite (fill_bytes_filled n (hmem h) (kernel_heap + 16) v a).
  case_if; [|done]. exfalso. apply Ha. left. split; [done|lia].
Qed.

Lemma first_stack h : heap_inv kernel_heap h [(KERNEL_HEAP_SIZE - 16, true)] ->
  exists h', kmalloc kernel_heap h TCB_STACK_SIZE = Some (kernel_heap + 16, h') /\ heap_inv kernel_heap h' stack_blocks.
Proof.
  intros Hi. pose proof (kmalloc_first_fit_lem kernel_heap heap_pos heap_fits h _ TCB_STACK_SIZE Hi ltac:(unfold TCB_STACK_SIZE; lia)) as H.
  change (first_fit (align_up TCB_STACK_SIZE 8) kernel_heap [(KERNEL_HEAP_SIZE - 16, true)]) with (Some (kernel_heap + 16, stack_blocks)) in H.
  destruct H as (h' & H1 & H2 & _). by exists h'.
Qed.

(** Only the idle task, running, on its own stack, in a heap with the blocks [bs]. *)
Definition only_idle (bs : blocks) (t : sched heap) : Prop :=
  exists i, current_task t = Some i /\ idle_task t = Some i /\ state_of t i = TASK_STATE_RUNNING /\ t_arch_data (task_pool t i) = idle_task_entry /\
    (forall j, j <> i -> state_of t j = TASK_STATE_FREE) /\ t_kernel_stack (task_pool t i) = kernel_heap + 16 /\ heap_inv kernel_heap (kheap t) bs.

Lemma cold_init h t :
  cold h t -> heap_initialized h = false -> heap_lock h = 0 ->
  exists t' l, scheduler_init tcb_trampoline idle_task_entry t = Some t' /\ sched_inv t' l /\ only_idle stack_blocks t'.
Proof.
  intros [b ->] Hi Hl. unfold scheduler_init. cbn [set_iflag Tcb.boot scheduler_initialized].
  set (h' := heap_init kernel_heap h). assert (heap_inv kernel_heap h' [(KERNEL_HEAP_SIZE - 16, true)]) as Hinv0 by (by apply heap_init_inv).
  assert (a_ok h') as Hok by (by eexists).
  set (t1 := tcb_init (set_iflag b (Tcb.boot h'))).
  assert (tcb_init (set_iflag b (Tcb.boot h)) = set_kheap h t1) as ->.
  { unfold t1, tcb_init. generalize TCB_MAX_TASKS. intros n. change (set_iflag b (Tcb.boot h)) with (set_kheap h (set_iflag b (Tcb.boot h'))).
    rewrite init_loop_kheap. reflexivity. }
  destruct (tcb_init_facts TCB_MAX_TASKS h') as (E1 & E2 & E3 & E4).
  assert (t1 = set_iflag b (tcb_init (Tcb.boot h'))) as Et by (unfold t1, tcb_init; generalize TCB_MAX_TASKS; intros n; rewrite init_loop_iflag; reflexivity).
  fold (tcb_init (Tcb.boot h')) in E1, E2, E3, E4. clearbody t1. subst t1. generalize dependent (tcb_init (Tcb.boot h')). intros t0 E1 E2 E3 E4.
  destruct (init_rest_inv tcb_trampoline idle_task_entry (set_iflag b t0)) as (t' & l & E & Hinv & i & -> & Hc & Hr & _ & Hid & Hf); [by rewrite <- E1 in Hok|done|done|done|].
  exists t', [i]. split; [|split; [done|]].
  - rewrite <- E. unfold scheduler_init_rest. cbv zeta.
    change (set_initialized true (set_ticks 0 (set_current None (set_tail None (set_head None (set_kheap h (set_iflag b t0)))))))
      with (set_kheap h (set_initialized true (set_ticks 0 (set_current None (set_tail None (set_head None (set_iflag b t0))))))).
    rewrite create_inits; [|done|].
    + fold h'. assert (set_kheap h' (set_initialized true (set_ticks 0 (set_current None (set_tail None (set_head None (set_iflag b t0)))))) =
        set_initialized true (set_ticks 0 (set_current None (set_tail None (set_head None (set_iflag b t0)))))) as ->; [|done].
      unfold set_kheap. rewrite <- E1. done.
    + exists 0%nat. unfold TCB_MAX_TASKS. cbn [find_from]. change (is_state _ 0 TASK_STATE_FREE) with (is_state t0 0 TASK_STATE_FREE). unfold is_state, state_of. by destruct (E4 0%nat) as [-> | ->].
  - unfold scheduler_init_rest in E. cbv zeta in E. destruct (tcb_create _ _ _ _ _ _) as [[r t2]|] eqn:Ec; cbn [mbind option_bind] in E; [|done].
    assert (r = Some i /\ kheap t' = kheap t2 /\ t_kernel_stack (task_pool t' i) = t_kernel_stack (task_pool t2 i) /\ t_arch_data (task_pool t' i) = t_arch_data (task_pool t2 i)) as (-> & K1 & K2 & K3).
    { injection E as <-. cbn [set_idle current_task] in Hid |- *. destruct (current_task t2); [done|]. destruct r as [j|]; [|done]. cbn in Hid |- *. injection Hid as ->. by rewrite Nat.eqb_refl. }
    destruct (first_stack h' Hinv0) as (h1 & Hk & Hh1).
    destruct (create_heap _ _ _ _ _ _ _ _ Ec ltac:(rewrite <- E1 in Hk; exact Hk) ltac:(lia)) as (A1 & A2 & A3).
    exists i. rewrite K1, K2, K3, A1, A2, A3. split_and!; try done. apply fill_first; [exact Hh1|]. rewrite Z2Nat.id; unfold TCB_STACK_SIZE; lia.
Qed.

(** ** Interrupts and the scheduler *)

(** What the interrupt code and the scheduler leave alone. *)
Definition others (p : parts) := (p_vfs p, p_kbd p, p_keys p, p_sh p, p_dmesg p, p_fm p, p_gfx p, p_zones p, p_pmap p, p_mouse p).
Definition ticking (t : sched heap) (h : hal) : Prop := forall m, tasks (k_ipc (mk m)) = t -> hw m = h -> timer_ready m.
(** The timer's line is enabled and no other one. *)
Definition timer_alone (h : hal) : Prop := imr (pic1 h) = 0xFE /\ imr (pic2 h) = 0xFF.

Lemma timer_ready_ext (m m' : machine heap) : tasks (k_ipc (mk m')) = tasks (k_ipc (mk m)) -> hw m' = hw m -> timer_ready m -> timer_ready m'.
Proof. intros Ht Hh [[H1 H2] H3 H4 H5 H6 H7]. unfold iflag_of in H3. constructor; unfold irq_ready, iflag_of; rewrite ?Ht, ?Hh; done. Qed.

Lemma machine_goes C R R' (f : machine heap -> machine heap) :
  (forall m, k_con (mk (f m)) = k_con (mk m) /\ k_vfs (mk (f m)) = k_vfs (mk m) /\ k_kbd (mk (f m)) = k_kbd (mk m) /\ k_keys (mk (f m)) = k_keys (mk m)) ->
  (forall p m, tasks (k_ipc (mk m)) = p_tasks p -> hw m = p_hw p -> R p ->
     R' (mk_parts (tasks (k_ipc (mk (f m)))) (hw (f m)) (p_vfs p) (p_kbd p) (p_keys p) (p_sh p) (p_dmesg p) (p_fm p) (p_gdt p) (p_idt p) (p_gfx p) (p_zones p) (p_pmap p) (p_mouse p))) ->
  goes (at_stage C R) (on_machine f) (at_stage C R').
Proof.
  intros Hk Hf. apply total_goes; intros s; destruct (Hk (wm (sw s))) as (H1 & H2 & H3 & H4); [exact H1|].
  intros HR. specialize (Hf (parts_of s) (wm (sw s)) eq_refl eq_refl HR). unfold parts_of, sk, s_tasks, sk, wk. cbn [sw with_sw wm with_wm sh dmesg_buf fm s_gdt s_idt s_gfx s_zones s_pmap s_mouse].
  rewrite H2, H3, H4. exact Hf.
Qed.

Definition dark (h : heap) (p : parts) : Prop :=
  cold h (p_tasks p) /\ hal_initialized (p_hw p) = false /\ in_service (pic1 (p_hw p)) = 0.
Definition masked (h : hal) : Prop :=
  exists h0, h = with_hal_init h0 /\ hal_isr_table h0 = replicate 256 None /\ hal_isr_table_initialized h0 = true /\ in_service (pic1 h0) = 0 /\
    vector_offset (pic1 h0) = 0x20 /\ imr (pic1 h0) = 0xFF /\ next_icw (pic1 h0) = 0 /\ imr (pic2 h0) = 0xFF.

Lemma idt_init_goes C h c i0 :
  goes (at_stage C (fun p => dark h p /\ p_idt p = i0 /\ others p = c)) (idt_init isr_addr gdt_addr idt_addr)
    (at_stage C (fun p => dark h p /\ p_idt p = snd (idt_table isr_addr idt_addr i0) /\ others p = c)).
Proof.
  unfold idt_init. eapply goes_seq; [|eapply goes_seq].
  - apply (total_goes _ _ (fun p => dark h p /\ p_idt p = snd (idt_table isr_addr idt_addr i0) /\ others p = c)); [done|].
    intros s (H1 & H2 & H3). split; [exact H1|]. split; [|exact H3]. change (p_idt (parts_of s)) with (s_idt s) in H2. rewrite <- H2. reflexivity.
  - apply (machine_goes _ _ (fun p => dark h p /\ p_idt p = snd (idt_table isr_addr idt_addr i0) /\ others p = c)); [done|].
    intros p m Ht Hh ((T & H1 & H2) & H3 & H4). split; [|by split]. split; [cbn [p_tasks]; by rewrite <- Ht in T|]. cbn [p_hw]. unfold on_hw. cbn [hw with_hw].
    rewrite Hh. split; [exact H1|exact H2].
  - apply machine_goes; [done|]. intros p m Ht Hh (([b T] & H1 & H2) & H3 & H4). split; [|by split]. split; [|cbn [p_hw]; by rewrite <- Hh in H1, H2].
    exists true. cbn. by rewrite Ht, T.
Qed.

Lemma hal_init_goes C h c i0 :
  goes (at_stage C (fun p => dark h p /\ p_idt p = i0 /\ others p = c)) (on_machine (hal_init busy has_cpuid cpuid))
    (at_stage C (fun p => cold h (p_tasks p) /\ masked (p_hw p) /\ p_idt p = i0 /\ others p = c)).
Proof.
  apply machine_goes; [intros m; unfold hal_init; by case_if|].
  intros p m Ht Hh (([b T] & H1 & H2) & H3 & H4). rewrite <- Hh in H1, H2. split; [|split; [|done]].
  - exists true. cbn [p_tasks]. unfold hal_init. rewrite H1. cbn. by rewrite Ht, T.
  - cbn [p_hw]. destruct (hal_init_masked busy has_cpuid cpuid m H1 H2) as (h0 & E & H). exists h0. rewrite E. by destruct_and!.
Qed.

Lemma scheduler_goes C h c i0 :
  heap_initialized h = false -> heap_lock h = 0 ->
  goes (at_stage C (fun p => cold h (p_tasks p) /\ masked (p_hw p) /\ p_idt p = i0 /\ others p = c))
    (start_scheduler kernel_heap heap_pos heap_fits tcb_trampoline idle_task_entry)
    (at_stage C (fun p => (exists l, sched_inv (p_tasks p) l) /\ only_idle stack_blocks (p_tasks p) /\ masked (p_hw p) /\ p_idt p = i0 /\ others p = c)).
Proof.
  intros Hi Hl s [Hc (T & H1 & H2 & H3)]. destruct (cold_init h (s_tasks s) T Hi Hl) as (t & l & E & Hinv & Hidle).
  unfold start_scheduler. rewrite E. eexists. split; [reflexivity|]. split; [exact Hc|]. split; [by exists l|]. split; [exact Hidle|]. done.
Qed.

Lemma timer_goes C c i0 :
  goes (at_stage C (fun p => (exists l, sched_inv (p_tasks p) l) /\ only_idle stack_blocks (p_tasks p) /\ masked (p_hw p) /\ p_idt p = i0 /\ others p = c))
    (on_machine (hal_register_isr 0x20 (Some pit_isr));; on_machine (on_hw (hal_enable_irq 0)))
    (at_stage C (fun p => (ticking (p_tasks p) (p_hw p) /\ timer_alone (p_hw p)) /\ only_idle stack_blocks (p_tasks p) /\ p_idt p = i0 /\ others p = c)).
Proof.
  intros s [Hc ([l Hl] & Hi & (h0 & Hh & T1 & T2 & T3 & T4 & T5 & T6 & T7) & H2 & H3)].
  change (p_hw (parts_of s)) with (hw (wm (sw s))) in Hh.
  eexists. split; [reflexivity|]. split; [exact Hc|]. split; [|split; [|split; [exact H2|exact H3]]]; [split|].
  - destruct (registered_ready cpuid (wm (sw s)) h0 l Hl Hh T1 T2 T3 T4 T5 T6) as [Hr _]. intros m Em Eh. exact (timer_ready_ext _ m Em Eh Hr).
  - change (timer_alone (hal_enable_irq 0 (hw (hal_register_isr 0x20 (Some pit_isr) (wm (sw s)))))).
    destruct (register_hw cpuid 0x20 (Some pit_isr) (wm (sw s)) vector_32) as [-> _]; [by rewrite Hh|]. rewrite Hh.
    rewrite enable_timer by done. split; [reflexivity|exact T7].
  - destruct Hi as (i & Hi). exists i. exact Hi.
Qed.

Lemma goes_assoc P Q f g h : goes P ((f;; g);; h) Q -> goes P (f;; g;; h) Q.
Proof. intros H s Hs. destruct (H s Hs) as (s' & E & HQ). exists s'. split; [|done]. rewrite <- E. unfold andalso. by destruct (f s). Qed.

Definition running (bs : blocks) (i0 : list idt_entry) c (p : parts) : Prop :=
  (ticking (p_tasks p) (p_hw p) /\ timer_alone (p_hw p)) /\ only_idle bs (p_tasks p) /\ p_idt p = i0 /\ others p = c.

Lemma interrupts_goes h c i0 :
  heap_initialized h = false -> heap_lock h = 0 ->
  goes (at_stage Io.on_screen (fun p => dark h p /\ p_idt p = i0 /\ others p = c))
    (start_interrupts kernel_heap heap_pos heap_fits busy has_cpuid cpuid tcb_trampoline idle_task_entry isr_addr gdt_addr idt_addr)
    (at_stage Io.on_screen (running stack_blocks (snd (idt_table isr_addr idt_addr i0)) c)).
Proof.
  intros Hi Hl. unfold start_interrupts. eapply goes_seq; [apply idt_init_goes|]. chat. eapply goes_seq; [apply hal_init_goes|]. chat.
  eapply goes_seq; [by apply scheduler_goes|]. chat. apply goes_assoc. eapply goes_seq; [apply timer_goes|]. chat. talk.
Qed.

(** ** The drivers *)

Lemma set_kheap_id (t : sched heap) : set_kheap (kheap t) t = t.
Proof. by destruct t. Qed.

Lemma vfs_goes bs C i0 v a b d e f g z p m :
  goes (at_stage C (running bs i0 (v, a, b, d, e, f, g, z, p, m))) start_vfs (at_stage C (running bs i0 (snd (vfs_init v), a, b, d, e, f, g, z, p, m))).
Proof.
  apply total_goes; [done|]. intros s (H1 & H2 & H3 & H4). split; [exact H1|]. split; [exact H2|]. split; [exact H3|].
  unfold others in H4 |- *. by injection H4 as <- <- <- <- <- <- <- <- <- <-.
Qed.

Lemma vga_goes bs i0 v a b d e f g z p m :
  initialized (gfx_vga g) = false ->
  goes (at_stage Io.on_screen (running bs i0 (v, a, b, d, e, f, g, z, p, m))) (start_vga busy)
    (at_stage Io.on_screen (running bs i0 (v, a, b, d, e, f, mk_gfx (text_mode 0x70) 0 false 0 (gfx_vram g), z, p, m))).
Proof.
  intros Hg s [Hc (H1 & H2 & H3 & H4)]. unfold others in H4. injection H4 as E1 E2 E3 E4 E5 E6 E7 E8 E9 E10.
  change (p_gfx (parts_of s)) with (s_gfx s) in E7. eexists. split; [reflexivity|]. unfold start_vga, total.
  unfold vga_init. cbn [g_vga]. rewrite E7, Hg. cbn [snd]. split; [by apply vga_clear_on|].
  split; [|split; [|split; [exact H3|]]].
  - split; [|exact (proj2 H1)]. intros m' Em Eh. apply H1; [|exact Eh]. rewrite Em. apply set_kheap_id.
  - destruct H2 as (i & H2). exists i. exact H2.
  - unfold others. rewrite <- E1, <- E2, <- E3, <- E4, <- E5, <- E6, <- E8, <- E9, <- E10. reflexivity.
Qed.

Lemma zones_goes bs C i0 v a b d e f g z p m :
  zones_initialized z = false -> zone_lock z = 0 ->
  goes (at_stage C (running bs i0 (v, a, b, d, e, f, g, z, p, m))) start_zones (at_stage C (running bs i0 (v, a, b, d, e, f, g, mk_zones [] true 0, p, m))).
Proof.
  intros Hz1 Hz2 s [Hc (H1 & H2 & H3 & H4)]. unfold others in H4. injection H4 as E1 E2 E3 E4 E5 E6 E7 E8 E9 E10.
  change (p_zones (parts_of s)) with (s_zones s) in E8. unfold start_zones, zone_init. rewrite E8, Hz1, Hz2. eexists. split; [reflexivity|].
  split; [exact Hc|]. split; [exact H1|]. split; [exact H2|]. split; [exact H3|]. unfold others.
  rewrite <- E1, <- E2, <- E3, <- E4, <- E5, <- E6, <- E7, <- E9, <- E10. reflexivity.
Qed.

Lemma heap_swap_inv (t : sched heap) l h' :
  sched_inv t l -> a_ok h' -> (forall q n, a_owned (kheap t) q n -> 0 < n -> a_owned h' q n) -> sched_inv (set_kheap h' t) l.
Proof.
  intros [[H1 H2 H3 H4 H5 H6 H7 H8 H9 H10] Hr] Hok Ho. split; [|by destruct Hr]. split; try done.
  - destruct H1. by split.
  - intros i Hi. destruct (H9 i Hi) as (r & Hr1 & Hr2). exists r. split; [|done]. apply Ho; [exact Hr1|]. unfold TCB_STACK_SIZE in Hr2. lia.
Qed.

(** *** Physical memory *)

(** The pages the kernel manages, and the heap with the blocks of their descriptors
    and of the stack of free ones: with less than a page of memory there are none. *)
Definition managed (size : Z) : Z := Z.min (size / PAGE_SIZE) PMAP_MAX_PAGES.
Definition page_bytes (size : Z) : Z := align_up (sizeof_page * managed size) 8.
Definition free_bytes (size : Z) : Z := align_up (4 * managed size) 8.
Definition boot_blocks (size : Z) : blocks :=
  if size <? PAGE_SIZE then stack_blocks else
  [(TCB_STACK_SIZE, false); (page_bytes size, false); (free_bytes size, false); (heap_room - page_bytes size - 16 - free_bytes size - 16, true)].
Definition pages_ok (size : Z) (p : pmap) : Prop :=
  if size <? PAGE_SIZE then pmap_initialized p = false else
  total_pages p = managed size /\ pages_ptr p = kernel_heap + 16 + TCB_STACK_SIZE + 16 /\
  stack_ptr p = kernel_heap + 16 + TCB_STACK_SIZE + 16 + page_bytes size + 16 /\ pmap_rel p (all_frames (managed size)).

Lemma align8_bounds v : 0 <= v < 2 ^ 31 -> v <= align_up v 8 < v + 8.
Proof.
  intros Hv. change (align_up v 8) with (align_up v (2 ^ 3)). rewrite align_up_pow2, u32_small by lia. change (2 ^ 3) with 8. zlia.
Qed.

(** Two blocks at the start of the free room. *)
Lemma two_more h n1 n2 : heap_inv kernel_heap h stack_blocks -> 0 < n1 <= 400000 -> 0 < n2 <= 100000 ->
  exists h1 h2, kmalloc kernel_heap h n1 = Some (kernel_heap + 16 + TCB_STACK_SIZE + 16, h1) /\
    kmalloc kernel_heap (with_hmem h1 (snd (lib_memset (hmem h1) (kernel_heap + 16 + TCB_STACK_SIZE + 16) 0 n1))) n2 =
      Some (kernel_heap + 16 + TCB_STACK_SIZE + 16 + align_up n1 8 + 16, h2) /\
    heap_inv kernel_heap h2 [(TCB_STACK_SIZE, false); (align_up n1 8, false); (align_up n2 8, false); (heap_room - align_up n1 8 - 16 - align_up n2 8 - 16, true)].
Proof.
  intros Hi H1 H2. destruct (align8_bounds n1) as [A1 A2]; [lia|]. destruct (align8_bounds n2) as [A3 A4]; [lia|].
  set (m1 := align_up n1 8) in *. set (m2 := align_up n2 8) in *.
  pose proof (kmalloc_first_fit_lem kernel_heap heap_pos heap_fits h _ n1 Hi ltac:(lia)) as K1. fold m1 in K1. unfold stack_blocks in K1. cbn [first_fit andb] in K1.
  replace (m1 <=? heap_room) with true in K1 by (unfold heap_room, KERNEL_HEAP_SIZE, TCB_STACK_SIZE; lia).
  replace (32 <=? heap_room - m1) with true in K1 by (unfold heap_room, KERNEL_HEAP_SIZE, TCB_STACK_SIZE; lia).
  destruct K1 as (h1 & K1 & I1 & _).
  set (q := kernel_heap + 16 + TCB_STACK_SIZE + 16) in *. set (h1' := with_hmem h1 (snd (lib_memset (hmem h1) q 0 n1))).
  assert (heap_inv kernel_heap h1' [(TCB_STACK_SIZE, false); (m1, false); (heap_room - m1 - 16, true)]) as I1'.
  { apply heap_inv_payload; [exact I1|]. intros a Ha. rewrite (memset_filled_lem (hmem h1) q 0 n1) by (unfold q, TCB_STACK_SIZE; lia).
    case_if; [|done]. exfalso. apply Ha. cbn [live]. right. left. unfold q in *. split; [done|lia]. }
  pose proof (kmalloc_first_fit_lem kernel_heap heap_pos heap_fits h1' _ n2 I1' ltac:(lia)) as K2. fold m2 in K2. cbn [first_fit andb] in K2.
  replace (m2 <=? heap_room - m1 - 16) with true in K2 by (unfold heap_room, KERNEL_HEAP_SIZE, TCB_STACK_SIZE; lia).
  replace (32 <=? heap_room - m1 - 16 - m2) with true in K2 by (unfold heap_room, KERNEL_HEAP_SIZE, TCB_STACK_SIZE; lia).
  destruct K2 as (h2 & K2 & I2 & _). exists h1, h2. split; [exact K1|]. split; [exact K2|exact I2].
Qed.

Lemma pmap_init_boot h size : heap_inv kernel_heap h stack_blocks -> 0 <= size < 2 ^ 32 ->
  exists r p h', pmap_init kernel_heap pmap_boot h size = Some (r, p, h') /\ pages_ok size p /\ heap_inv kernel_heap h' (boot_blocks size).
Proof.
  intros Hi Hsz. assert (a_ok h) as Hok by (by eexists). pose proof Hi as (Hini & _). unfold pages_ok, boot_blocks.
  destruct (Z.ltb_spec size PAGE_SIZE) as [Hlt|Hge]; unfold PAGE_SIZE in *.
  { unfold pmap_init. cbn [pmap_initialized pmap_boot]. rewrite Hini. destruct (size =? 0); [by eexists _, _, h|].
    unfold PAGE_SIZE. replace (size / 4096 =? 0) with true by zlia. by eexists _, _, h. }
  destruct (pmap_init_starts kernel_heap heap_pos heap_fits h size Hok Hsz) as (r & p & h' & E & _ & _ & Hp). exists r, p, h'. split; [exact E|].
  unfold page_bytes, free_bytes. set (total := managed size). unfold managed, PAGE_SIZE, PMAP_MAX_PAGES in total.
  assert (1 <= total <= 16384) as Ht by (subst total; zlia).
  destruct (two_more h (sizeof_page * total) (4 * total) Hi) as (h1 & h2 & K1 & K2 & I2); [unfold sizeof_page; lia|lia|].
  assert (r = KERN_SUCCESS /\ pages_ptr p = kernel_heap + 16 + TCB_STACK_SIZE + 16 /\
    stack_ptr p = kernel_heap + 16 + TCB_STACK_SIZE + 16 + align_up (sizeof_page * total) 8 + 16 /\ h' = h2) as (-> & P1 & P2 & ->).
  { revert E. unfold pmap_init. cbn [pmap_initialized pmap_boot]. rewrite Hini. replace (size =? 0) with false by lia. unfold PAGE_SIZE, PMAP_MAX_PAGES.
    replace (size / 4096 =? 0) with false by zlia. replace (if 16384 <? size / 4096 then 16384 else size / 4096) with total
      by (subst total; destruct (Z.ltb_spec 16384 (size / 4096)); lia).
    rewrite !(u32_small (_ * total)) by (unfold sizeof_page; lia). rewrite K1. cbn [mbind option_bind].
    destruct (align8_bounds (sizeof_page * total)) as [? _]; [unfold sizeof_page; lia|]. unfold sizeof_page in *.
    replace (kernel_heap + 16 + TCB_STACK_SIZE + 16 =? 0) with false by (unfold TCB_STACK_SIZE; lia). rewrite K2. cbn [mbind option_bind].
    replace (kernel_heap + 16 + TCB_STACK_SIZE + 16 + align_up (20 * total) 8 + 16 =? 0) with false by (unfold TCB_STACK_SIZE; lia).
    destruct (push_frames _ _ _ _ _) as [[st top] fp]. destruct (link_frames _ _ _ _) as [ps fl]. intros [= <- <- <-]. done. }
  split; [|exact I2]. destruct Hp as [[[[Hr _]|Hr] _]|(_ & T1 & T2)]; [discriminate Hr|discriminate Hr|].
  assert (total_pages p = total) as Ett by exact T1. rewrite Ett in T2. by split_and!.
Qed.

Lemma pmap_goes C i0 v a b d e f g z m size :
  0 <= size < 2 ^ 32 ->
  goes (at_stage C (running stack_blocks i0 (v, a, b, d, e, f, g, z, pmap_boot, m))) (start_pmap kernel_heap size)
    (at_stage C (fun q => exists p, pages_ok size p /\ running (boot_blocks size) i0 (v, a, b, d, e, f, g, z, p, m) q)).
Proof.
  intros Hsz s [Hc ([H1 H1b] & H2 & H3 & H4)]. unfold others in H4. injection H4 as E1 E2 E3 E4 E5 E6 E7 E8 E9 E10.
  change (p_pmap (parts_of s)) with (s_pmap s) in E9. pose proof (H1 (wm (sw s)) eq_refl eq_refl) as Ht.
  destruct Ht as [[[l Hl] Htab] Hf Hm Hs Hv Hh]. destruct H2 as (i & I1 & I2 & I3 & I4 & I5 & I6 & I7).
  destruct (pmap_init_starts kernel_heap heap_pos heap_fits (kheap (s_tasks s)) size) as (r & p & h' & E & Hok & Ho & _); [apply Hl|done|].
  destruct (pmap_init_boot (kheap (s_tasks s)) size I7 Hsz) as (r2 & p2 & h2 & Eb & Hp & Hb). rewrite E in Eb. injection Eb as <- <- <-.
  unfold start_pmap. rewrite E9, E. cbn [mbind option_bind]. eexists. split; [reflexivity|]. split; [exact Hc|]. exists p.
  split; [exact Hp|]. split; [split; [|exact H1b]|split; [|split; [exact H3|]]].
  - intros m' Em Eh. eapply timer_ready_ext; [exact Em|exact Eh|].
    constructor; [|exact Hf|exact Hm|exact Hs|exact Hv|exact Hh]. split; [|exact Htab]. exists l. by apply heap_swap_inv.
  - exists i. split; [exact I1|]. split; [exact I2|]. split; [exact I3|]. split; [exact I4|]. split; [exact I5|]. split; [exact I6|exact Hb].
  - unfold others. rewrite <- E1, <- E2, <- E3, <- E4, <- E5, <- E6, <- E7, <- E8, <- E10. reflexivity.
Qed.

(** A mouse that reports, whose last answer is still in the controller. *)
Definition pointing (cfg id : Z) (d : driver kbc) : Prop :=
  g_mouse_global d = started /\ dev d = mk_kbc [(true, 0xFA); (true, id)] (new_config cfg) for_keyboard true true true false id.

Lemma mouse_goes bs i0 v a b d e f g z p m ms o cfg kbd aux rep id :
  dev m = mk_kbc o cfg for_keyboard kbd aux rep false id -> (length o <= 5)%nat -> g_ps2_shared_initialized m = false ->
  goes (at_stage Io.on_screen (running bs i0 (v, a, b, d, e, f, g, z, p, m))) (start_mouse busy ms;; pending_first)
    (at_stage Io.on_screen (fun q => exists m', pointing cfg id m' /\ running bs i0 (v, a, 0xFA :: id :: b, d, e, f, g, z, p, m') q)).
Proof.
  intros Hd Ho Hsh s [Hc (H1 & H2 & H3 & H4)]. unfold others in H4. injection H4 as E1 E2 E3 E4 E5 E6 E7 E8 E9 E10.
  change (p_mouse (parts_of s)) with (s_mouse s) in E10. rewrite <- E10 in Hd, Hsh.
  destruct (mouse_init_runs busy ms o cfg kbd aux rep id (core_of (s_mouse s)) Ho Hsh (with_dlog (k_serial (sk s)) (s_mouse s)) Hd eq_refl) as (d' & E & D' & C').
  unfold andalso, start_mouse. rewrite E. cbn [Z.eqb MOUSE_OK]. eexists. split; [reflexivity|]. split; [by apply println_on|].
  exists d'. split; [split; [by injection C'|exact D']|]. split; [exact H1|]. split; [exact H2|]. split; [exact H3|]. unfold others.
  rewrite <- E1, <- E2, <- E3, <- E4, <- E5, <- E6, <- E7, <- E8, <- E9. 
  assert (map snd (out (dev d')) = [0xFA; id]) as Hk by (by rewrite D'). cbn in Hk |- *. by rewrite Hk.
Qed.

(** The memory size the loader reports, or 32 MiB. *)
Definition memory_size : Z := if memory_known mboot_info info then u32 (u32 (info 1%nat + info 2%nat) * 1024) else 32 * 1024 * 1024.

Lemma drivers_goes i0 v a b d e f g z m ms o cfg kbd aux rep id :
  initialized (gfx_vga g) = false -> zones_initialized z = false -> zone_lock z = 0 ->
  dev m = mk_kbc o cfg for_keyboard kbd aux rep false id -> (length o <= 5)%nat -> g_ps2_shared_initialized m = false ->
  goes (at_stage Io.on_screen (running stack_blocks i0 (v, a, b, d, e, f, g, z, pmap_boot, m))) (start_drivers kernel_heap busy mboot_info info ms)
    (at_stage Io.on_screen (fun q => exists p m', pages_ok memory_size p /\ pointing cfg id m' /\
       running (boot_blocks memory_size) i0 (snd (vfs_init v), a, 0xFA :: id :: b, d, e, f, mk_gfx (text_mode 0x70) 0 false 0 (gfx_vram g), mk_zones [] true 0, p, m') q)).
Proof.
  intros Hg Hz1 Hz2 Hd Ho Hs. unfold start_drivers. eapply goes_seq; [apply vfs_goes|]. chat. eapply goes_seq; [by apply vga_goes|]. chat.
  eapply goes_seq; [by apply zones_goes|]. eapply goes_seq; [apply pmap_goes; case_if; [apply u32_range|lia]|]. fold memory_size. chat.
  apply goes_assoc. eapply goes_seq; [|talk].
  intros s [Hc (p & Hp & Hr)]. destruct (mouse_goes _ i0 _ _ _ _ _ _ _ _ p m ms o cfg kbd aux rep id Hd Ho Hs s (conj Hc Hr)) as (s' & E & Hc' & m' & Hm & Hr').
  exists s'. split; [exact E|]. split; [exact Hc'|]. by exists p, m'.
Qed.

(** ** The shell *)

Lemma report_goes R : goes (at_stage Io.on_screen R) (report busy mboot_info info) (at_stage Io.on_screen R).
Proof.
  unfold report. eapply goes_seq; [|chat; talk]. case_if; [chat; talk|talk].
Qed.

(** What is printed by a command of the shell stays on the screen. *)
Lemma prompt_goes bs i0 v a b d e f g z p m :
  shell_typed d ->
  goes (at_stage Io.on_screen (running bs i0 (v, a, b, d, e, f, g, z, p, m))) (in_world print_prompt)
    (at_stage Io.on_screen (fun q => exists d', shell_typed d' /\ running bs i0 (v, a, b, d', e, f, g, z, p, m) q)).
Proof.
  intros Hd s [Hc (H1 & H2 & H3 & H4)]. unfold others in H4. injection H4 as E1 E2 E3 E4 E5 E6 E7 E8 E9 E10.
  change (p_sh (parts_of s)) with (sh (sw s)) in E4. rewrite <- E4 in Hd. pose proof (build_prompt_typed (A := heap) busy (fun _ _ m => m) cpuid 128 _ Hd) as Hp.
  unfold in_world, print_prompt, shell, bind, get, seqM. destruct (shell_build_prompt 128 (sh (sw s))) as [out st]. cbn [snd] in Hp.
  eexists. split; [reflexivity|]. split; [by apply print_on|]. exists st. split; [exact Hp|].
  split; [exact H1|]. split; [exact H2|]. split; [exact H3|]. unfold others.
  rewrite <- E1, <- E2, <- E3, <- E5, <- E6, <- E7, <- E8, <- E9, <- E10. reflexivity.
Qed.

Lemma shell_run_seq s : in_world shell_run s =
  (println "Tinx Shell v1.0 - Enhanced";; println "Type 'help' for available commands";; println "";; in_world print_prompt) s.
Proof. unfold in_world, shell_run, print_prompt, shell, bind, get, seqM. by destruct s as [[[k h] st dm f ts dk] ? ? ? ? ? ? ? ?]. Qed.

Lemma shell_goes bs i0 v a b d e f g z p m :
  length (history d) = 16%nat -> fm_typed f ->
  goes (at_stage Io.on_screen (running bs i0 (v, a, b, d, e, f, g, z, p, m))) (enter_shell busy)
    (at_stage Io.on_screen (fun q => exists d' e', shell_typed d' /\ (length e' < 2048)%nat /\ running bs i0 (v, a, b, d', e', f, g, z, p, m) q)).
Proof.
  intros Hd Hf. unfold enter_shell. chat.
  eapply (goes_seq _ (at_stage Io.on_screen (running bs i0 (v, a, b, shell_init (history d), str "[shell] initialized" ++ [10], f, g, z, p, m)))).
  { apply total_goes; [done|]. intros s (H1 & H2 & H3 & H4). unfold others in H4. injection H4 as E1 E2 E3 E4 E5 E6 E7 E8 E9 E10.
    split; [exact H1|]. split; [exact H2|]. split; [exact H3|]. unfold others. change (p_sh (parts_of s)) with (sh (sw s)) in E4.
    rewrite <- E1, <- E2, <- E3, <- E4, <- E6, <- E7, <- E8, <- E9, <- E10. reflexivity. }
  assert (shell_typed (shell_init (history d))) as Hs by (constructor; cbn; try lia; try done).
  chat. eapply goes_seq.
  { intros s Hst. rewrite shell_run_seq. revert s Hst. chat. by apply prompt_goes. }
  chat. eapply goes_seq; [|eapply goes_seq; [talk|talk]].
  intros s [Hc (d1 & Hd1 & Hr)]. destruct (prompt_goes bs i0 _ _ _ d1 _ _ _ _ _ _ Hd1 s (conj Hc Hr)) as (s' & E & Hc' & d2 & Hd2 & Hr2).
  exists s'. split; [exact E|]. split; [exact Hc'|]. eexists d2, _. split; [exact Hd2|]. split; [|exact Hr2]. cbn. lia.
Qed.

(** ** The whole start-up *)

(** The machine as the loader leaves it: cleared variables, all screen cells, nothing
    in service, up to five old bytes in the keyboard controller. *)
Record power_on (s : system) (cfg id : Z) : Prop := {
  on_cold : exists h, s_tasks s = Tcb.boot h /\ heap_initialized h = false /\ heap_lock h = 0;
  on_lit : lit (k_con (sk s));
  on_hal : hal_initialized (hw (wm (sw s))) = false /\ in_service (pic1 (hw (wm (sw s)))) = 0;
  on_gfx : initialized (gfx_vga (s_gfx s)) = false;
  on_zones : zones_initialized (s_zones s) = false /\ zone_lock (s_zones s) = 0;
  on_pmap : s_pmap s = pmap_boot;
  on_kbc : exists o kbd aux rep, dev (s_mouse s) = mk_kbc o cfg for_keyboard kbd aux rep false id /\ (length o <= 5)%nat;
  on_mouse_off : g_ps2_shared_initialized (s_mouse s) = false;
  on_history : length (history (sh (sw s))) = 16%nat;
  on_fm : fm_typed (fm (sw s))
}.

(** C2. The kernel boots: from the state the loader leaves, whatever the magic number
    and the memory information, [kernel_main] reaches its command loop.  There
    the timer interrupt is set up and its line is the only one enabled; the idle
    task is the only task, running; the heap holds exactly the stack of that task
    and, when the reported memory has at least a page, the page descriptors and the
    stack of free pages, and all pages are then free.  The shell, its log and
    the file manager are typed and the cursor is on the screen; the file system is
    the one [vfs_init] creates, the interrupt table the one [idt_init] fills; the
    graphics driver is in text mode and no zone exists; the mouse is present with its
    pointer in the middle, and the two bytes of its last answer come before
    anything typed. *)
Theorem kernel_boots s cfg id ms :
  power_on s cfg id ->
  exists s', kernel_start kernel_heap heap_pos heap_fits busy has_cpuid cpuid tcb_trampoline idle_task_entry isr_addr gdt_addr idt_addr
      magic mboot_info info ms s = Some s' /\
    timer_ready (wm (sw s')) /\ timer_alone (hw (wm (sw s'))) /\ only_idle (boot_blocks memory_size) (s_tasks s') /\ pages_ok memory_size (s_pmap s') /\
    typed (sw s') /\ Io.on_screen (k_con (sk s')) /\
    k_vfs (sk s') = snd (vfs_init (k_vfs (sk s))) /\ s_idt s' = snd (idt_table isr_addr idt_addr (s_idt s)) /\
    gfx_vga (s_gfx s') = text_mode 0x70 /\ s_zones s' = mk_zones [] true 0 /\
    g_mouse_global (s_mouse s') = started /\ reporting (dev (s_mouse s')) = true /\ k_keys (sk s') = 0xFA :: id :: k_keys (sk s).
Proof.
  intros [(h & Ht & Hi & Hl) Hlit [Hh1 Hh2] Hg [Hz1 Hz2] Hp (o & kb & aux & rep & Hd & Ho) Hsh Hhist Hfm].
  set (c := others (parts_of s)).
  assert (goes (at_stage lit (fun p => dark h p /\ p_idt p = s_idt s /\ others p = c))
    (kernel_start kernel_heap heap_pos heap_fits busy has_cpuid cpuid tcb_trampoline idle_task_entry isr_addr gdt_addr idt_addr magic mboot_info info ms)
    (at_stage Io.on_screen (fun q => exists p m' d' e', pages_ok memory_size p /\ pointing cfg id m' /\ shell_typed d' /\ (length e' < 2048)%nat /\
       running (boot_blocks memory_size) (snd (idt_table isr_addr idt_addr (s_idt s)))
         (snd (vfs_init (k_vfs (sk s))), k_kbd (sk s), 0xFA :: id :: k_keys (sk s), d', e', fm (sw s),
          mk_gfx (text_mode 0x70) 0 false 0 (gfx_vram (s_gfx s)), mk_zones [] true 0, p, m') q))) as Hgo.
  { unfold kernel_start. eapply goes_seq; [apply greet_goes|]. eapply goes_seq; [apply banner_goes|].
    eapply goes_seq; [by apply interrupts_goes|].
    subst c. unfold others, parts_of. cbn [p_vfs p_kbd p_keys p_sh p_dmesg p_fm p_gfx p_zones p_pmap p_mouse]. rewrite Hp.
    eapply goes_seq; [by apply (drivers_goes _ _ _ _ _ _ _ _ _ _ ms o cfg kb aux rep id)|]. eapply goes_seq; [apply report_goes|].
    intros s1 [Hc (p & m' & Hpg & Hpt & Hr)]. destruct (shell_goes _ _ _ _ _ _ _ _ _ _ _ _ Hhist Hfm s1 (conj Hc Hr)) as (s2 & E & Hc2 & d' & e' & Hd' & He' & Hr2).
    exists s2. split; [exact E|]. split; [exact Hc2|]. by exists p, m', d', e'. }
  destruct (Hgo s) as (s' & E & Hc & p & m' & d' & e' & Hpg & [Hm1 Hm2] & Hd' & He' & ([R1 R1b] & R2 & R3 & R4)).
  { split; [exact Hlit|]. split; [|done]. split; [exists false; exact Ht|done]. }
  unfold others in R4. injection R4 as E1 E2 E3 E4 E5 E6 E7 E8 E9 E10.
  exists s'. split; [exact E|]. split; [by apply R1|]. split; [exact R1b|]. split; [exact R2|].
  change (p_sh (parts_of s')) with (sh (sw s')) in E4. change (p_dmesg (parts_of s')) with (dmesg_buf (sw s')) in E5. change (p_fm (parts_of s')) with (fm (sw s')) in E6.
  change (p_gfx (parts_of s')) with (s_gfx s') in E7. change (p_pmap (parts_of s')) with (s_pmap s') in E9. change (p_mouse (parts_of s')) with (s_mouse s') in E10.
  rewrite E9. split; [exact Hpg|].
  split; [unfold typed; rewrite E4, E5, E6; done|]. split; [exact Hc|]. split; [exact E1|]. split; [exact R3|].
  rewrite E7, E10, Hm1, Hm2. by split_and!.
Qed.
End BootCorrect.

(** ** A machine that is switched on *)
#[local] Existing Instance demo_allocator.

Definition k_off : kernel heap :=
  mk_kernel (set_tasks (Tcb.boot h_boot) (k_ipc k_demo)) (vfs_blank (fun _ => 0)) (mk_console (replicate 2000 0) 0 0 0 0 0 0 0 0) (idle false) []
    (mk_serial false [] [] []) 0 0 false.
Definition kbc_off : kbc := mk_kbc [(false, 0xAA)] 0x45 for_keyboard true false false false 0.
Definition s_off : system :=
  mk_system (mk_world (mk_machine k_off hal_reset) shell0 [] (mk_fm (str "/") 0 0 (replicate 32 []) 0) []
      (mk_ata false (fun _ => replicate 256 0) 0 [] 0 0 0 0 0 0 idle_drive 0)) [] (replicate 256 idt_clear) (mk_ptr 0 0) (mk_ptr 0 0)
    (mk_gfx (mk_gvga false false 0 0 0 0 0 0 0 0 0 0) 0 false 0 (fun _ => 0)) (mk_zones [] false 0) pmap_boot
    (mk_driver kbc_off (mk_serial false [] [] []) false initial_mouse [0; 0; 0; 0] 0 []).
Lemma s_off_on : power_on s_off 0x45 0.
Proof.
  constructor; try done.
  - by exists h_boot.
  - exists [(false, 0xAA)], true, false, false. split; [done|]. cbn. lia.
Qed.

Lemma kernel_boots_witness :
  exists s', kernel_start 0x200000 eq_refl eq_refl (fun _ => 0%nat) false (fun _ => (0, 0, 0, 0)) 0x101000 0x102000 (fun i => 0x103000 + 16 * Z.of_nat i)
      0x110000 0x111000 MULTIBOOT_BOOTLOADER_MAGIC 0 (fun _ => 0) initial_mouse s_off = Some s' /\
    timer_ready (wm (sw s')) /\ total_pages (s_pmap s') = 8192 /\ k_keys (sk s') = [0xFA; 0].
Proof.
  destruct (kernel_boots 0x200000 eq_refl eq_refl (fun _ => 0%nat) false (fun _ => (0, 0, 0, 0)) 0x101000 0x102000 (fun i => 0x103000 + 16 * Z.of_nat i)
    0x110000 0x111000 MULTIBOOT_BOOTLOADER_MAGIC 0 (fun _ => 0) ltac:(intros; lia) ltac:(lia) s_off 0x45 0 initial_mouse s_off_on)
    as (s' & E & H & _ & _ & P & _ & _ & _ & _ & _ & _ & _ & _ & K).
  exists s'. split; [exact E|]. split; [exact H|]. split; [exact (proj1 P)|exact K].
Defined.
