(* ===== verification/Tui.v ===== *)
(** * installer_tui.c, the installer's text interface

    [tui] holds the context, the static array of elements with its counter, and the
    screen while it is drawn on.  Elements are linked by indices into the array, texts are
    lists of characters.  The screens run in the monad of [World.v]: they read the
    keyboard, ask the drive and write to the log.  Delays are left out; [None] and
    [Crash] stand for a NULL pointer. *)
From Stdlib Require Import String.
From S2P Require Import Prelude Mem Alloc Tcb Io Serial Syscall Hal Ata Install World Kernel.
#[local] Open Scope cmd_scope.

Definition TUI_OK : Z := 0.
Definition TUI_ERR_CANCEL : Z := -1.
Definition TUI_ERR_INVALID : Z := -2.
Definition TUI_ERR_NO_DISK : Z := -3.
Definition TUI_WIDTH : Z := 80.
Definition TUI_HEIGHT : Z := 25.
Definition TUI_COLOR_NORMAL : Z := 0x07.
Definition TUI_COLOR_TITLE : Z := 0x0F.
Definition TUI_COLOR_SELECTED : Z := 0x70.
Definition TUI_COLOR_BORDER : Z := 0x07.
Definition TUI_COLOR_ERROR : Z := 0x4F.
Definition TUI_COLOR_INFO : Z := 0x0B.
Definition TUI_ELEM_BUTTON : Z := 1.
Definition TUI_ELEM_LABEL : Z := 2.
Definition TUI_ELEM_CHECKBOX : Z := 5.
Definition TUI_ELEM_PROGRESS : Z := 6.

(** Callback and data are always NULL. *)
Record tui_element := mk_elem {
  e_type : Z; e_x : Z; e_y : Z; e_width : Z; e_height : Z; e_text : list Z; e_selected : bool; e_value : Z; e_max : Z; e_next : option nat
}.
#[global] Instance elem_inhabited : Inhabited tui_element := populate (mk_elem 0 0 0 0 0 [] false 0 0 None).
Definition set_selected (b : bool) (e : tui_element) : tui_element :=
  mk_elem (e_type e) (e_x e) (e_y e) (e_width e) (e_height e) (e_text e) b (e_value e) (e_max e) (e_next e).
Definition set_value (v : Z) (e : tui_element) : tui_element :=
  mk_elem (e_type e) (e_x e) (e_y e) (e_width e) (e_height e) (e_text e) (e_selected e) v (e_max e) (e_next e).
Definition set_text (s : list Z) (e : tui_element) : tui_element :=
  mk_elem (e_type e) (e_x e) (e_y e) (e_width e) (e_height e) s (e_selected e) (e_value e) (e_max e) (e_next e).
Definition set_link (n : option nat) (e : tui_element) : tui_element :=
  mk_elem (e_type e) (e_x e) (e_y e) (e_width e) (e_height e) (e_text e) (e_selected e) (e_value e) (e_max e) n.

Record tui_context := mk_ctx {
  t_cursor_x : Z; t_cursor_y : Z; t_color : Z; elements : option nat; focused : option nat; num_elements : Z; t_title : list Z;
  exit_flag : bool; result : Z; disk_list : list Z; selected_disk : Z; t_disk_sectors : Z; install_phase : Z; install_progress : Z;
  status_message : list Z
}.
Record tui := mk_tui { ctx : tui_context; tui_elements : list tui_element; tui_element_count : nat; screen : console }.

Definition on_ctx (f : tui_context -> tui_context) (t : tui) : tui := mk_tui (f (ctx t)) (tui_elements t) (tui_element_count t) (screen t).
Definition with_screen (c : console) (t : tui) : tui := mk_tui (ctx t) (tui_elements t) (tui_element_count t) c.
Definition on_elem (i : nat) (f : tui_element -> tui_element) (t : tui) : tui :=
  mk_tui (ctx t) (alter f i (tui_elements t)) (tui_element_count t) (screen t).
Definition elem (t : tui) (i : nat) : tui_element := tui_elements t !!! i.

Definition set_focus (i : option nat) (x : tui_context) : tui_context :=
  mk_ctx (t_cursor_x x) (t_cursor_y x) (t_color x) (elements x) i (num_elements x) (t_title x) (exit_flag x) (result x) (disk_list x) (selected_disk x) (t_disk_sectors x) (install_phase x) (install_progress x) (status_message x).
Definition leave_with (r : Z) (x : tui_context) : tui_context :=
  mk_ctx (t_cursor_x x) (t_cursor_y x) (t_color x) (elements x) (focused x) (num_elements x) (t_title x) true r (disk_list x) (selected_disk x) (t_disk_sectors x) (install_phase x) (install_progress x) (status_message x).
Definition set_disks (l : list Z) (d : Z) (x : tui_context) : tui_context :=
  mk_ctx (t_cursor_x x) (t_cursor_y x) (t_color x) (elements x) (focused x) (num_elements x) (t_title x) (exit_flag x) (result x) l d (t_disk_sectors x) (install_phase x) (install_progress x) (status_message x).
Definition set_progress (ph pct : Z) (x : tui_context) : tui_context :=
  mk_ctx (t_cursor_x x) (t_cursor_y x) (t_color x) (elements x) (focused x) (num_elements x) (t_title x) (exit_flag x) (result x) (disk_list x) (selected_disk x) (t_disk_sectors x) ph pct (status_message x).
Definition added (first : option nat) (x : tui_context) : tui_context :=
  mk_ctx (t_cursor_x x) (t_cursor_y x) (t_color x) first (focused x) (num_elements x + 1) (t_title x) (exit_flag x) (result x) (disk_list x) (selected_disk x) (t_disk_sectors x) (install_phase x) (install_progress x) (status_message x).

(** ** Drawing *)

(** [-n] wraps for the smallest number. *)
Definition int_to_string (n : Z) : list Z :=
  if n =? 0 then [48] else
  let m := if n <? 0 then i32 (- n) else n in
  (if n <? 0 then [45] else []) ++ rev (default [] (dec_digits 16 m [])).

Definition put_char_at_color (x y c color : Z) (t : tui) : tui :=
  if (x <? 0) || (TUI_WIDTH <=? x) || (y <? 0) || (TUI_HEIGHT <=? y) then t else
  with_screen (set_cells (<[Z.to_nat (y * TUI_WIDTH + x) := u16 (Z.lor c (Z.shiftl color 8))]> (vga_buffer (screen t))) (screen t)) t.

Definition tui_clear_screen (t : tui) : tui :=
  let blank := u16 (Z.lor 32 (Z.shiftl TUI_COLOR_NORMAL 8)) in
  with_screen (set_cells (fill_cells (Z.to_nat (TUI_WIDTH * TUI_HEIGHT)) 0 blank (vga_buffer (screen t))) (screen t)) t.
Definition tui_set_color (c : Z) : tui -> tui := on_ctx (fun x =>
  mk_ctx (t_cursor_x x) (t_cursor_y x) c (elements x) (focused x) (num_elements x) (t_title x) (exit_flag x) (result x) (disk_list x) (selected_disk x) (t_disk_sectors x) (install_phase x) (install_progress x) (status_message x)).
Definition tui_set_cursor (x y : Z) (t : tui) : tui :=
  let t := on_ctx (fun c => mk_ctx x y (t_color c) (elements c) (focused c) (num_elements c) (t_title c) (exit_flag c) (result c) (disk_list c) (selected_disk c) (t_disk_sectors c) (install_phase c) (install_progress c) (status_message c)) t in
  let pos := u16 (y * TUI_WIDTH + x) in
  with_screen (Io.outb 0x3D5 (u8 (Z.land (Z.shiftr pos 8) 0xFF)) (Io.outb 0x3D4 0x0E (Io.outb 0x3D5 (u8 (Z.land pos 0xFF)) (Io.outb 0x3D4 0x0F (screen t))))) t.
Definition tui_hide_cursor (t : tui) : tui := with_screen (Io.outb 0x3D5 0x20 (Io.outb 0x3D4 0x0A (screen t))) t.
Definition tui_show_cursor (t : tui) : tui := with_screen (Io.outb 0x3D5 0x0E (Io.outb 0x3D4 0x0A (screen t))) t.

Fixpoint tui_draw_string (x y : Z) (s : list Z) (t : tui) : tui :=
  match s with
  | [] => t
  | c :: s' => if x <? TUI_WIDTH then tui_draw_string (x + 1) y s' (put_char_at_color x y c (t_color (ctx t)) t) else t
  end.
Definition not_negative (x : Z) : Z := if x <? 0 then 0 else x.
Definition tui_draw_string_centered (y : Z) (s : list Z) (t : tui) : tui :=
  tui_draw_string (not_negative (Z.quot (TUI_WIDTH - Z.of_nat (length s)) 2)) y s t.
(** [for (i = 0; i < n; i++) t = f(i, t)] *)
Fixpoint times (n : nat) (i : Z) (f : Z -> tui -> tui) (t : tui) : tui :=
  match n with O => t | S n' => times n' (i + 1) f (f i t) end.
Definition for_ (n : Z) (f : Z -> tui -> tui) (t : tui) : tui := times (Z.to_nat n) 0 f t.

Definition tui_draw_title (title : list Z) (t : tui) : tui :=
  let t := tui_set_color TUI_COLOR_TITLE t in
  let t := for_ TUI_WIDTH (fun i t => put_char_at_color i 0 61 (t_color (ctx t)) t) t in
  let len := Z.of_nat (length title) in
  let x := not_negative (Z.quot (TUI_WIDTH - len - 4) 2) in
  let t := put_char_at_color x 0 91 (t_color (ctx t)) t in
  let t := tui_draw_string (x + 1) 0 title t in
  put_char_at_color (x + 2 + len) 0 93 (t_color (ctx t)) t.
Definition tui_draw_box (x y w h : Z) (t : tui) : tui :=
  let put x y c t := put_char_at_color x y c (t_color (ctx t)) t in
  let t := tui_set_color TUI_COLOR_BORDER t in
  let t := for_ w (fun i t => put (x + i) (y + h - 1) 45 (put (x + i) y 45 t)) t in
  let t := for_ h (fun i t => put (x + w - 1) (y + i) 124 (put x (y + i) 124 t)) t in
  put (x + w - 1) (y + h - 1) 43 (put x (y + h - 1) 43 (put (x + w - 1) y 43 (put x y 43 t))).

(** ** Elements *)

(** The last element of the chain that starts at [i]. *)
Fixpoint last_of (fuel : nat) (t : tui) (i : nat) : option nat :=
  match fuel with
  | O => None
  | S f => match e_next (elem t i) with None => Some i | Some j => last_of f t j end
  end.
(** The next free element becomes [e], linked behind the last one. *)
Definition link_element (e : tui_element) (t : tui) : option (nat * tui) :=
  let i := tui_element_count t in
  if (32 <=? i)%nat then None else
  let t := mk_tui (ctx t) (<[i := e]> (tui_elements t)) (S i) (screen t) in
  match elements (ctx t) with
  | None => Some (i, on_ctx (added (Some i)) t)
  | Some first => last ← last_of 33 t first; Some (i, on_ctx (added (Some first)) (on_elem last (set_link (Some i)) t))
  end.
(** The old value of [max_value] stays. *)
Definition tui_add_button (x y w : Z) (text : list Z) (t : tui) : option (nat * tui) :=
  '(i, t) ← link_element (mk_elem TUI_ELEM_BUTTON x y w 1 text false 0 (e_max (elem t (tui_element_count t))) None) t;
  Some (i, match focused (ctx t) with None => on_elem i (set_selected true) (on_ctx (set_focus (Some i)) t) | Some _ => t end).
Definition tui_add_label (x y : Z) (text : list Z) (t : tui) : option (nat * tui) :=
  link_element (mk_elem TUI_ELEM_LABEL x y 0 1 text false 0 (e_max (elem t (tui_element_count t))) None) t.
Definition tui_add_progress (x y w : Z) (label : list Z) (t : tui) : option (nat * tui) :=
  link_element (mk_elem TUI_ELEM_PROGRESS x y w 2 label false 0 100 None) t.

Definition button_color (e : tui_element) : Z := if e_selected e then TUI_COLOR_SELECTED else TUI_COLOR_NORMAL.
Definition tui_draw_element (e : tui_element) (t : tui) : tui :=
  if e_type e =? TUI_ELEM_BUTTON then
    let color := button_color e in
    let t := tui_set_color color t in
    let t := put_char_at_color (e_x e) (e_y e) 91 color t in
    let t := tui_draw_string (e_x e + 1) (e_y e) (e_text e) t in
    put_char_at_color (e_x e + e_width e - 1) (e_y e) 93 color t
  else if e_type e =? TUI_ELEM_LABEL then
    tui_draw_string (e_x e) (e_y e) (e_text e) (tui_set_color TUI_COLOR_NORMAL t)
  else if e_type e =? TUI_ELEM_CHECKBOX then
    let t := tui_set_color (button_color e) t in
    let t := tui_draw_string (e_x e) (e_y e) (if negb (e_value e =? 0) then str "[X]" else str "[ ]") t in
    tui_draw_string (e_x e + 4) (e_y e) (e_text e) t
  else if e_type e =? TUI_ELEM_PROGRESS then
    let t := tui_set_color TUI_COLOR_INFO t in
    let t := tui_draw_string (e_x e) (e_y e) (e_text e) t in
    let bx := e_x e in let by_ := e_y e + 1 in let bw := e_width e in
    let t := put_char_at_color bx by_ 91 TUI_COLOR_BORDER t in
    let t := put_char_at_color (bx + bw - 1) by_ 93 TUI_COLOR_BORDER t in
    let fill := Z.quot (e_value e * (bw - 2)) 100 in
    let t := for_ (bw - 2) (fun i t => put_char_at_color (bx + 1 + i) by_ (if i <? fill then 35 else 32) TUI_COLOR_BORDER t) t in
    tui_draw_string (bx + bw + 1) by_ ([32] ++ take 14 (int_to_string (e_value e)) ++ [37]) t
  else t.

(** The elements along [next]; at most 32 exist. *)
Fixpoint draw_chain (fuel : nat) (i : option nat) (t : tui) : tui :=
  match fuel, i with S f, Some i => let e := elem t i in draw_chain f (e_next e) (tui_draw_element e t) | _, _ => t end.
Definition tui_draw_screen (t : tui) : tui :=
  let t := draw_chain 33 (elements (ctx t)) t in
  match focused (ctx t) with Some i => tui_set_cursor (e_x (elem t i) + 1) (e_y (elem t i)) t | None => t end.

(** ** Focus *)

Definition selectable (e : tui_element) : bool := (e_type e =? TUI_ELEM_BUTTON) || (e_type e =? TUI_ELEM_CHECKBOX).
(** The first selectable element from [i] on, before [stop]. *)
Fixpoint seek (fuel : nat) (t : tui) (i stop : option nat) : option nat :=
  match fuel, i with
  | S f, Some i => if bool_decide (stop = Some i) then None else if selectable (elem t i) then Some i else seek f t (e_next (elem t i)) stop
  | _, _ => None
  end.
(** The last selectable element before [stop]. *)
Fixpoint seek_last (fuel : nat) (t : tui) (i : option nat) (stop : nat) (prev : option nat) : option nat :=
  match fuel, i with
  | S f, Some i => if (i =? stop)%nat then prev else seek_last f t (e_next (elem t i)) stop (if selectable (elem t i) then Some i else prev)
  | _, _ => prev
  end.
Definition focus_on (i : nat) (t : tui) : tui := on_elem i (set_selected true) (on_ctx (set_focus (Some i)) t).
Definition tui_focus_next (t : tui) : tui :=
  match focused (ctx t) with
  | None => on_ctx (set_focus (elements (ctx t))) t
  | Some cur =>
      let t := on_elem cur (set_selected false) t in
      match seek 33 t (e_next (elem t cur)) None with
      | Some i => focus_on i t
      | None => match seek 33 t (elements (ctx t)) (Some cur) with Some i => focus_on i t | None => t end
      end
  end.
Definition tui_focus_prev (t : tui) : tui :=
  match focused (ctx t) with
  | None => on_ctx (set_focus (elements (ctx t))) t
  | Some cur =>
      let t := on_elem cur (set_selected false) t in
      match seek_last 33 t (elements (ctx t)) cur None with Some i => focus_on i t | None => t end
  end.

Definition tui_handle_enter (t : tui) : tui :=
  match focused (ctx t) with
  | None => t
  | Some i =>
      if e_type (elem t i) =? TUI_ELEM_BUTTON then on_ctx (leave_with (e_value (elem t i))) t
      else if e_type (elem t i) =? TUI_ELEM_CHECKBOX
      then tui_draw_screen (on_elem i (set_value (if e_value (elem t i) =? 0 then 1 else 0)) t)
      else t
  end.
Definition tui_handle_escape : tui -> tui := on_ctx (leave_with TUI_ERR_CANCEL).
Definition tui_handle_arrow_up (t : tui) : tui := tui_draw_screen (tui_focus_prev t).
Definition tui_handle_arrow_down (t : tui) : tui := tui_draw_screen (tui_focus_next t).
Definition tui_handle_key (key : Z) (t : tui) : tui := t.
Definition tui_handle_arrow_left (t : tui) : tui := t.
Definition tui_handle_arrow_right (t : tui) : tui := t.

(** ** The screens *)

Section Screens.
Context {A : Type} `{!Allocator A}.
Context (busy : list Z -> nat) (delay : nat -> nat).
Notation M := (M A).

(** Drawing on the kernel's screen. *)
Definition draw_on (f : tui -> tui) (t : tui) : M tui := fun w =>
  let t := f (with_screen (k_con (wk w)) t) in Ok t (with_wk (with_con (screen t) (wk w)) w).
Definition log (s : string) : M unit := modify (fun w => with_wk (with_serial (serial_writeln busy (str s) (k_serial (wk w))) (wk w)) w).
(** A new element whose [value] is set through the pointer. *)
Definition new_button (x y w : Z) (text : string) (v : Z) (t : tui) : M (nat * tui) :=
  match tui_add_button x y w (str text) t with Some (i, t) => pure (i, on_elem i (set_value v) t) | None => fun _ => Crash end.

(** [while (!ctx->exit_flag) { key = io_getchar(); ... }]; each turn takes a scan
    code as long as there are any, so their number is enough fuel. *)
Fixpoint wait_keys (fuel : nat) (other : Z -> tui -> tui) (t : tui) : M tui :=
  if exit_flag (ctx t) then pure t else
  match fuel with
  | O => fun w => Hang w
  | S f =>
      key <- getch;;
      t <- draw_on (fun t => if (key =? 10) || (key =? 13) then tui_handle_enter t
                          else if key =? 0x1B then tui_handle_escape t else other key t) t;;
      wait_keys f other t
  end.
Definition input (other : Z -> tui -> tui) (t : tui) : M tui := fun w => wait_keys (length (k_keys (wk w))) other t w.
Definition ignore (key : Z) (t : tui) : tui := t.
Definition answer (t : tui) : M (Z * tui) := pure (result (ctx t), t).

Definition tui_init (t : tui) : M tui :=
  log "TUI: Initializing...";;
  let t := mk_tui (mk_ctx 0 0 TUI_COLOR_NORMAL None None 0 (str "Tinx Installer") false TUI_OK [] 0 0 0 0 []) (tui_elements t) 0 (screen t) in
  t <- draw_on tui_clear_screen t;;
  log "TUI: Initialized";;
  pure t.

(** Lines from row 3 on. *)
Definition centered_lines (ls : list string) (t : tui) : tui :=
  snd (fold_left (fun '(y, t) l => (y + 1, tui_draw_string_centered y (str l) t)) ls (3, t)).
Definition text_page (title : string) (color : Z) (ls : list string) (t : tui) : tui :=
  centered_lines ls (tui_set_color color (tui_draw_title (str title) (tui_clear_screen t))).

Definition tui_show_welcome (t : tui) : M (Z * tui) :=
  t <- draw_on (text_page "Tinx Installer" TUI_COLOR_NORMAL
    [""; "Welcome to the Tinx Operating System Installer"; ""; "This installer will help you install Tinx to your hard drive."; "";
     "Please ensure you have backed up any important data before proceeding."; ""; "The installer will:"; "  - Detect available hard drives";
     "  - Create a partition table"; "  - Install the bootloader"; "  - Copy the kernel to disk"; ""; "Press Enter to continue or Escape to exit."]%string) t;;
  b <- new_button 35 22 10 "OK" TUI_OK t;;
  t <- draw_on tui_draw_screen (snd b);;
  t <- input ignore t;;
  answer t.

(** The line of disk [i]. *)
Definition disk_line (i selected sectors : Z) : list Z :=
  let mb := u32 (sectors * 512) / (1024 * 1024) in
  str " [" ++ [if i =? selected then 88 else 32] ++ str "] " ++ int_to_string i ++ str ": " ++ int_to_string mb ++ str " MB".
Definition on_drive {X} (f : ata -> X * ata) : M X := fun w => let '(x, d) := f (wdisk w) in Ok x (with_disk d w).
Fixpoint list_disks (n : nat) (i y : Z) (t : tui) : M tui :=
  match n with
  | O => pure t
  | S n' =>
      r <- on_drive (fun d => let '(r, sectors, d) := install_get_disk_info delay i d in ((r, sectors), d));;
      if fst r =? 0 then
        t <- draw_on (tui_draw_string 4 y (disk_line i (selected_disk (ctx t)) (snd r))) t;; list_disks n' (i + 1) (y + 1) t
      else list_disks n' (i + 1) y t
  end.
Definition pick_disk (disk_count key : Z) (t : tui) : tui :=
  let x := ctx t in
  if key =? 50 then
    let d := selected_disk x + 1 in tui_draw_screen (on_ctx (set_disks (disk_list x) (if disk_count <=? d then disk_count - 1 else d)) t)
  else if key =? 56 then
    let d := selected_disk x - 1 in tui_draw_screen (on_ctx (set_disks (disk_list x) (if d <? 0 then 0 else d)) t)
  else t.
Definition tui_show_disk_select (t : tui) : M (Z * tui) :=
  t <- draw_on (fun t => tui_draw_string 2 3 (str "Available disks:") (tui_set_color TUI_COLOR_NORMAL (tui_draw_title (str "Select Installation Disk") (tui_clear_screen t)))) t;;
  r <- on_drive (fun d => let '(n, l, d) := install_detect_disks delay d in ((n, l), d));;
  let disk_count := fst r in
  let t := on_ctx (set_disks (snd r) (selected_disk (ctx t))) t in
  if disk_count =? 0 then
    t <- draw_on (fun t => tui_draw_string_centered 10 (str "Please connect a hard drive and try again.")
                          (tui_draw_string_centered 8 (str "No disks detected!") (tui_set_color TUI_COLOR_ERROR t))) t;;
    b <- new_button 35 22 10 "OK" TUI_ERR_NO_DISK t;;
    t <- draw_on tui_draw_screen (snd b);;
    t <- input ignore t;;
    answer t
  else
    t <- list_disks (Z.to_nat (Z.min disk_count 10)) 0 5 t;;
    t <- draw_on (fun t => tui_draw_string 2 15 (str "Use Up/Down arrows to select, Enter to confirm") (tui_set_color TUI_COLOR_INFO t)) t;;
    b <- new_button 25 20 12 "Install" TUI_OK t;;
    b <- new_button 45 20 10 "Cancel" TUI_ERR_CANCEL (snd b);;
    t <- draw_on tui_draw_screen (snd b);;
    t <- input (pick_disk disk_count) t;;
    answer t.

(** Left and right exchange the buttons [yes] and [no]. *)
Definition choose (yes no : nat) (t : tui) : tui := on_elem no (set_selected false) (focus_on yes t).
Definition swap_buttons (yes no : nat) (key : Z) (t : tui) : tui :=
  if (key =? 52) || (key =? 54) then
    tui_draw_screen (if bool_decide (focused (ctx t) = Some yes) then choose no yes t else choose yes no t)
  else t.
Definition tui_show_partition_confirm (t : tui) : M (Z * tui) :=
  t <- draw_on (text_page "Confirm Installation" TUI_COLOR_NORMAL
    [""; "You are about to install Tinx to your hard drive."; ""; "WARNING: This will overwrite the Master Boot Record (MBR)";
     "and create a new partition on the selected disk."; ""; "Any existing data may be lost!"; ""; "Are you sure you want to proceed?"]%string) t;;
  b <- new_button 25 18 8 "Yes" TUI_OK t;;
  let yes := fst b in
  b <- new_button 45 18 8 "No" TUI_ERR_CANCEL (snd b);;
  let no := fst b in
  t <- draw_on tui_draw_screen (snd b);;
  t <- draw_on (fun t => tui_draw_screen (choose no yes t)) t;;
  t <- input (swap_buttons yes no) t;;
  answer t.

Definition phases : list string :=
  ["Detecting disk..."; "Writing MBR..."; "Writing bootloader..."; "Writing kernel..."; "Verifying installation..."; "Complete!"]%string.
Definition show_percent (progress : nat) (ph pct : Z) (t : tui) : tui :=
  tui_draw_screen (on_ctx (set_progress ph pct) (on_elem progress (set_value pct) t)).
Definition show_phase (progress status : nat) (ph : Z) (name : string) (t : tui) : tui :=
  let t := on_ctx (fun x => set_progress ph (install_progress x) x) t in
  let t := on_elem status (set_text (str name)) (on_elem progress (set_text (str name)) t) in
  fold_left (fun t pct => show_percent progress ph pct t) [0; 10; 20; 30; 40; 50; 60; 70; 80; 90; 100] t.
Definition tui_show_install_progress (t : tui) : M (Z * tui) :=
  t <- draw_on (fun t => tui_set_color TUI_COLOR_NORMAL (tui_draw_title (str "Installing Tinx") (tui_clear_screen t))) t;;
  match ('(progress, t) ← tui_add_progress 20 10 40 (str "Progress:") t; '(status, t) ← tui_add_label 20 13 (str "Initializing...") t; Some (progress, status, t)) with
  | None => fun _ => Crash
  | Some (progress, status, t) =>
      t <- draw_on tui_draw_screen t;;
      t <- draw_on (fun t => snd (fold_left (fun '(ph, t) name => (ph + 1, show_phase progress status ph name t)) phases (0, t))) t;;
      pure (TUI_OK, t)
  end.

Definition tui_show_complete (t : tui) : M (Z * tui) :=
  t <- draw_on (text_page "Installation Complete" TUI_COLOR_INFO
    [""; "Tinx has been successfully installed!"; ""; "You can now reboot your system and boot into Tinx."; "";
     "Make sure to remove any installation media before rebooting."; ""; "Thank you for installing Tinx!"]%string) t;;
  b <- new_button 30 20 20 "Reboot Now" TUI_OK t;;
  t <- draw_on tui_draw_screen (snd b);;
  t <- input ignore t;;
  answer t.
Definition tui_show_error (message : list Z) (t : tui) : M (Z * tui) :=
  t <- draw_on (fun t => tui_draw_string_centered 10 message (tui_set_color TUI_COLOR_NORMAL
    (tui_draw_string_centered 8 (str "An error occurred:") (tui_set_color TUI_COLOR_ERROR (tui_draw_title (str "Error") (tui_clear_screen t)))))) t;;
  b <- new_button 35 20 10 "OK" TUI_ERR_INVALID t;;
  t <- draw_on tui_draw_screen (snd b);;
  t <- input ignore t;;
  answer t.

Definition tui_run (t : tui) : M (Z * tui) :=
  log "TUI: Running installer...";;
  r <- tui_show_welcome t;;
  if negb (fst r =? TUI_OK) then pure (TUI_ERR_CANCEL, snd r) else
  r <- tui_show_disk_select (snd r);;
  if negb (fst r =? TUI_OK) then pure (TUI_ERR_CANCEL, snd r) else
  r <- tui_show_partition_confirm (snd r);;
  if negb (fst r =? TUI_OK) then pure (TUI_ERR_CANCEL, snd r) else
  r <- tui_show_install_progress (snd r);;
  if negb (fst r =? TUI_OK) then pure (TUI_ERR_INVALID, snd r) else
  tui_show_complete (snd r).
End Screens.
