(* ===== verification/TuiCorrect.v ===== *)
(** * The installer's text interface: clipping, and what a run of it does *)
From Stdlib Require Import String.
From S2P Require Import Prelude Mem Alloc Heap Tcb Io Serial Syscall SyscallCorrect Hal HalCorrect Ata Install World Shell ShellCorrect Browser BrowserCorrect Kernel Tui.
#[local] Open Scope cmd_scope.

(** ** Drawing *)

(** Drawing changes the screen, the colour and the cursor alone. *)
Definition view (t : tui) :=
  (tui_elements t, tui_element_count t, (elements (ctx t), focused (ctx t), num_elements (ctx t), exit_flag (ctx t), result (ctx t)),
   (t_title (ctx t), disk_list (ctx t), selected_disk (ctx t), install_phase (ctx t), install_progress (ctx t))).
Definition draws (f : tui -> tui) : Prop := forall t, view (f t) = view t.

Lemma draws_comp f g : draws f -> draws g -> draws (fun t => f (g t)).
Proof. intros Hf Hg t. by rewrite Hf, Hg. Qed.
Lemma draws_put x y c col : draws (put_char_at_color x y c col).
Proof. intros t. unfold put_char_at_color. by case_if. Qed.
Lemma draws_color c : draws (tui_set_color c).
Proof. done. Qed.
Lemma draws_clear : draws tui_clear_screen.
Proof. done. Qed.
Lemma draws_cursor x y : draws (tui_set_cursor x y).
Proof. done. Qed.
Lemma draws_string s : forall x y, draws (tui_draw_string x y s).
Proof. induction s as [|c s IH]; intros x y t; cbn [tui_draw_string]; [done|]. case_if; [|done]. by rewrite IH, draws_put. Qed.
Lemma draws_centered y s : draws (tui_draw_string_centered y s).
Proof. apply draws_string. Qed.
Lemma draws_times n : forall i f, (forall j, draws (f j)) -> draws (times n i f).
Proof. induction n as [|n IH]; intros i f Hf t; cbn [times]; [done|]. by rewrite IH, Hf. Qed.
Lemma draws_title s : draws (tui_draw_title s).
Proof.
  intros t. unfold tui_draw_title. rewrite draws_put, draws_string, draws_put. unfold for_.
  rewrite (draws_times _ _ (fun i t => put_char_at_color i 0 61 (t_color (ctx t)) t)); [done|]. intros j t'. apply draws_put.
Qed.
Lemma draws_element e : draws (tui_draw_element e).
Proof.
  intros t. unfold tui_draw_element. case_if; [by rewrite draws_put, draws_string, draws_put|]. case_if; [by rewrite draws_string|].
  case_if; [by rewrite !draws_string|]. case_if; [|done]. rewrite draws_string. unfold for_.
  rewrite (draws_times _ _ (fun i t => put_char_at_color _ _ (if i <? _ then 35 else 32) _ t)) by (intros j t'; apply draws_put).
  by rewrite !draws_put, draws_string.
Qed.
Lemma draws_chain n : forall i, draws (draw_chain n i).
Proof. induction n as [|n IH]; intros [i|] t; cbn [draw_chain]; try done. by rewrite IH, draws_element. Qed.
Lemma draws_screen : draws tui_draw_screen.
Proof. intros t. unfold tui_draw_screen. case_match; [rewrite draws_cursor|]; apply draws_chain. Qed.
Lemma draws_lines ls t : view (centered_lines ls t) = view t.
Proof.
  unfold centered_lines. generalize 3. revert t. induction ls as [|l ls IH]; intros t y; cbn [fold_left]; [done|]. by rewrite IH, draws_centered.
Qed.
Lemma draws_page ti c ls : draws (text_page ti c ls).
Proof. intros t. unfold text_page. by rewrite draws_lines, draws_color, draws_title. Qed.

(** ** Clipping *)

Definition cell_at (t : tui) (x y : Z) : option Z := vga_buffer (screen t) !! Z.to_nat (y * 80 + x).
Definition visible (x y : Z) : Prop := 0 <= x < 80 /\ 0 <= y < 25.

Lemma put_cell_at x y c col t x' y' :
  length (vga_buffer (screen t)) = 2000%nat -> visible x' y' ->
  cell_at (put_char_at_color x y c col t) x' y' = (if (x =? x') && (y =? y') then Some (u16 (Z.lor c (Z.shiftl col 8))) else cell_at t x' y') /\
  length (vga_buffer (screen (put_char_at_color x y c col t))) = 2000%nat.
Proof.
  intros Hl [Hx Hy]. unfold put_char_at_color, TUI_WIDTH, TUI_HEIGHT, cell_at. case_if.
  { destruct (Z.eqb_spec x x'), (Z.eqb_spec y y'); try done. exfalso. lia. }
  cbn [screen with_screen vga_buffer set_cells]. rewrite length_insert. split; [|done].
  destruct (Z.eqb_spec x x') as [->|]; [destruct (Z.eqb_spec y y') as [->|]|]; cbn [andb].
  - apply list_lookup_insert_eq. rewrite Hl. lia.
  - apply list_lookup_insert_ne. lia.
  - apply list_lookup_insert_ne. lia.
Qed.

(** [tui_draw_string] clips: wherever the text starts, also left of the screen or in
    a row that is not on it, exactly the visible cells under the text change, to
    its characters in the current colour. *)
Theorem draw_string_clips s x y t x' y' :
  length (vga_buffer (screen t)) = 2000%nat -> visible x' y' ->
  cell_at (tui_draw_string x y s t) x' y' =
    match (if (y' =? y) && (x <=? x') then s !! Z.to_nat (x' - x) else None) with
    | Some c => Some (u16 (Z.lor c (Z.shiftl (t_color (ctx t)) 8)))
    | None => cell_at t x' y'
    end /\ length (vga_buffer (screen (tui_draw_string x y s t))) = 2000%nat.
Proof.
  revert x t. induction s as [|c s IH]; intros x t Hl Hv; cbn [tui_draw_string].
  { split; [|done]. case_if; [|done]. by rewrite lookup_nil. }
  pose proof Hv as [Hx Hy]. unfold TUI_WIDTH. destruct (Z.ltb_spec x 80).
  2:{ split; [|done]. destruct (Z.leb_spec x x'); [lia|]. by rewrite andb_false_r. }
  destruct (put_cell_at x y c (t_color (ctx t)) t x' y' Hl Hv) as [Hp Hl2].
  assert (t_color (ctx (put_char_at_color x y c (t_color (ctx t)) t)) = t_color (ctx t)) as Hc by (unfold put_char_at_color; by case_if).
  destruct (IH (x + 1) _ Hl2 Hv) as [-> HL]. split; [|exact HL]. rewrite Hc, Hp.
  destruct (Z.eqb_spec y' y) as [E|]; cbn [andb].
  2:{ destruct (Z.eqb_spec y y'); [lia|]. by rewrite andb_false_r. }
  destruct (Z.eqb_spec y y'); [|lia]. rewrite andb_true_r. destruct (Z.leb_spec (x + 1) x'), (Z.leb_spec x x'); try lia.
  - destruct (Z.eqb_spec x x'); [lia|]. replace (Z.to_nat (x' - x)) with (S (Z.to_nat (x' - (x + 1)))) by lia. done.
  - replace (x' - x) with 0 by lia. destruct (Z.eqb_spec x x'); [done|lia].
  - destruct (Z.eqb_spec x x'); [lia|done].
Qed.

(** ** Elements *)

(** [k] elements in the order of their creation. *)
Record chained (k : nat) (t : tui) : Prop := {
  ch_pool : length (tui_elements t) = 32%nat;
  ch_max : (k <= 32)%nat;
  ch_count : tui_element_count t = k;
  ch_first : elements (ctx t) = match k with O => None | _ => Some 0%nat end;
  ch_next : forall i, (i < k)%nat -> e_next (elem t i) = if (S i <? k)%nat then Some (S i) else None
}.
Lemma view_chained k t t' : view t' = view t -> chained k t -> chained k t'.
Proof. unfold view. intros E [H1 H0 H2 H3 H4]. injection E as E1 E2 E3 _ _ _ _ _ _ _ _ _. constructor; unfold elem; rewrite ?E1, ?E2, ?E3; done. Qed.

Lemma last_chain k t : chained k t -> forall n i, (i < k)%nat -> (k - i <= n)%nat -> last_of n t i = Some (k - 1)%nat.
Proof.
  intros Hc. induction n as [|n IH]; intros i Hi Hn; [lia|]. cbn [last_of]. rewrite (ch_next _ _ Hc i Hi). destruct (Nat.ltb_spec (S i) k).
  - apply IH; lia.
  - f_equal. lia.
Qed.

Lemma elem_on_elem i j f t : (i < length (tui_elements t))%nat -> elem (on_elem i f t) j = if (j =? i)%nat then f (elem t j) else elem t j.
Proof.
  intros Hi. unfold elem, on_elem. cbn [tui_elements]. destruct (Nat.eqb_spec j i) as [->|Hne].
  - apply list_lookup_total_correct. rewrite list_lookup_alter_eq. destruct (lookup_lt_is_Some_2 _ _ Hi) as [e He]. by rewrite He, (list_lookup_total_correct _ _ _ He).
  - rewrite !list_lookup_total_alt. by rewrite list_lookup_alter_ne.
Qed.

Lemma on_elem_chained k i f t : (forall e, e_next (f e) = e_next e) -> (i < k)%nat -> chained k t -> chained k (on_elem i f t).
Proof.
  intros Hf Hi Hc. pose proof Hc as [H1 H0 H2 H3 H4]. constructor; try done; [unfold on_elem; cbn; by rewrite length_alter|].
  intros j Hj. rewrite elem_on_elem by (rewrite H1; lia). rewrite <- H4 by done. case_if; [apply Hf|done].
Qed.

Lemma append_chained k e t : chained k t -> (k < 32)%nat -> e_next e = None ->
  exists t', link_element e t = Some (k, t') /\ chained (S k) t' /\ e_type (elem t' k) = e_type e /\ e_value (elem t' k) = e_value e /\
    focused (ctx t') = focused (ctx t) /\ exit_flag (ctx t') = exit_flag (ctx t) /\ result (ctx t') = result (ctx t).
Proof.
  intros Hc Hk He. pose proof Hc as [H1 H0 H2 H3 H4]. unfold link_element. rewrite H2. destruct (Nat.leb_spec 32 k); [lia|].
  set (t1 := mk_tui (ctx t) (<[k := e]> (tui_elements t)) (S k) (screen t)). change (ctx t1) with (ctx t). rewrite H3.
  assert (forall j, elem t1 j = if (j =? k)%nat then e else elem t j) as Hel.
  { intros j. unfold elem, t1. cbn [tui_elements]. destruct (Nat.eqb_spec j k) as [->|Hne].
    - apply list_lookup_total_correct, list_lookup_insert_eq. lia.
    - rewrite !list_lookup_total_alt. by rewrite list_lookup_insert_ne. }
  assert (length (tui_elements t1) = 32%nat) as Hl1 by (unfold t1; cbn; by rewrite length_insert).
  destruct k as [|k].
  { eexists. split; [reflexivity|]. split; [|change (elem (on_ctx (added (Some 0%nat)) t1) 0) with (elem t1 0); rewrite Hel; done]. constructor; try done; try lia. intros i Hi. change (elem (on_ctx (added (Some 0%nat)) t1) i) with (elem t1 i).
    rewrite Hel. destruct i; [done|lia]. }
  assert (chained (S k) (mk_tui (ctx t) (<[S k := e]> (tui_elements t)) (S k) (screen t))) as Hc1.
  { constructor; try done. intros i Hi. change (elem _ i) with (elem t1 i). rewrite Hel. destruct (Nat.eqb_spec i (S k)); [lia|]. by apply H4. }
  assert (last_of 33 t1 0 = Some k) as ->.
  { transitivity (last_of 33 (mk_tui (ctx t) (<[S k := e]> (tui_elements t)) (S k) (screen t)) 0); [done|].
    rewrite (last_chain (S k) _ Hc1) by lia. f_equal. lia. }
  cbn [mbind option_bind]. eexists. split; [reflexivity|].
  set (t2 := on_ctx (added (Some 0%nat)) (on_elem k (set_link (Some (S k))) t1)).
  assert (forall j, elem t2 j = if (j =? k)%nat then set_link (Some (S k)) (elem t1 j) else elem t1 j) as Hel2.
  { intros j. change (elem t2 j) with (elem (on_elem k (set_link (Some (S k))) t1) j). apply elem_on_elem. lia. }
  assert (elem t2 (S k) = e) as Hnew by (rewrite Hel2, Hel; destruct (Nat.eqb_spec (S k) k); [lia|]; by rewrite Nat.eqb_refl).
  split; [|rewrite Hnew; done].
  constructor; try done; [unfold t2; cbn; by rewrite length_alter|].
  intros i Hi. rewrite Hel2, Hel. destruct (Nat.eqb_spec i k) as [->|].
  - destruct (Nat.eqb_spec k (S k)); [lia|]. cbn [set_link e_next]. destruct (Nat.ltb_spec (S k) (S (S k))); [done|lia].
  - destruct (Nat.eqb_spec i (S k)) as [->|].
    + rewrite He. destruct (Nat.ltb_spec (S (S k)) (S (S k))); [lia|done].
    + rewrite H4 by lia. destruct (Nat.ltb_spec (S i) (S k)), (Nat.ltb_spec (S i) (S (S k))); try done; lia.
Qed.

(** ** Asking the drive writes nothing *)

Section Drive.
Context (delay : nat -> nat).

Lemma disk_outb p v d : disk (ata_outb delay p v d) = disk d.
Proof. unfold ata_outb, command, start. by repeat case_if. Qed.
Lemma disk_status d : disk (snd (ata_inb_status d)) = disk d.
Proof. unfold ata_inb_status. case_if; [done|]. by case_match. Qed.
Lemma disk_wait n : forall d, disk (snd (wait_loop n d)) = disk d.
Proof.
  induction n as [|n IH]; intros d; cbn [wait_loop]; [done|]. pose proof (disk_status d) as H. destruct (ata_inb_status d) as [s d']. cbn [snd] in H.
  case_if; [exact H|]. by rewrite IH.
Qed.
Lemma disk_words n : forall d, disk (snd (read_words n d)) = disk d.
Proof.
  induction n as [|n IH]; intros d; cbn [read_words]; [done|]. assert (disk (snd (ata_inw d)) = disk d) as H by (unfold ata_inw; by repeat case_match).
  destruct (ata_inw d) as [w d']. specialize (IH d'). destruct (read_words n d') as [ws d'']. cbn [snd] in *. by rewrite IH.
Qed.
Lemma disk_identify_wait n : forall d, disk (snd (identify_wait n d)) = disk d.
Proof.
  induction n as [|n IH]; intros d; cbn [identify_wait]; [done|]. pose proof (disk_status d) as H. destruct (ata_inb_status d) as [s d']. cbn [snd] in H.
  case_if; [exact H|]. case_if; [exact H|]. by rewrite IH.
Qed.
Lemma disk_identify d : disk (snd (ata_identify delay d)) = disk d.
Proof.
  unfold ata_identify, ata_select_drive, ata_wait_ready.
  pose proof (disk_wait (Z.to_nat 100000) (ata_outb delay ATA_PRIMARY_DRIVE (u8 (Z.lor 160 (Z.shiftl (Z.land 0 1) 4))) d)) as H1.
  destruct (wait_loop (Z.to_nat 100000) (ata_outb delay ATA_PRIMARY_DRIVE (u8 (Z.lor 160 (Z.shiftl (Z.land 0 1) 4))) d)) as [r d1]. cbn [snd] in H1. rewrite disk_outb in H1.
  case_if; [exact H1|].
  match goal with |- context [ata_inb_status ?x] => assert (disk x = disk d) as H2 by (by rewrite !disk_outb); generalize dependent x end.
  intros d2 H2. pose proof (disk_status d2) as H3. destruct (ata_inb_status d2) as [st d3]. cbn [snd] in H3. case_if; [by rewrite <- H2|].
  pose proof (disk_identify_wait (Z.to_nat 10000) d3) as H4. destruct (identify_wait (Z.to_nat 10000) d3) as [[to|] d4]; cbn [snd] in H4; [|by rewrite <- H2, <- H3].
  case_if; [cbn [snd]; congruence|]. pose proof (disk_words 256 d4) as H5. destruct (read_words 256 d4) as [ws d5]. cbn [snd] in *. congruence.
Qed.
End Drive.

(** ** Runs *)

Section Run.
Context {A : Type} `{!Allocator A}.
Context (busy : list Z -> nat) (delay : nat -> nat).
Notation M := (M A).
Implicit Types w : world A.

(** The keyboard and the contents of the disk are as before. *)
Definition undisturbed w w' : Prop := k_kbd (wk w') = k_kbd (wk w) /\ k_keys (wk w') = k_keys (wk w) /\ disk (wdisk w') = disk (wdisk w).
(** [m] returns a result in [Q], whatever the state, without a key. *)
Definition gives {X} (m : M X) (Q : X -> Prop) : Prop := forall w, exists x w', m w = Ok x w' /\ Q x /\ undisturbed w w'.

Lemma undisturbed_trans w1 w2 w3 : undisturbed w1 w2 -> undisturbed w2 w3 -> undisturbed w1 w3.
Proof. unfold undisturbed. intros (-> & -> & ->). done. Qed.
Lemma gives_bind {X Y} (m : M X) (f : X -> M Y) Q R : gives m Q -> (forall x, Q x -> gives (f x) R) -> gives (bind m f) R.
Proof.
  intros Hm Hf w. destruct (Hm w) as (x & w1 & E1 & Hq & U1). destruct (Hf x Hq w1) as (y & w2 & E2 & Hr & U2).
  exists y, w2. unfold bind. rewrite E1. split; [exact E2|]. split; [exact Hr|]. by eapply undisturbed_trans.
Qed.
Lemma gives_seq {X Y} (m : M X) (f : M Y) Q R : gives m Q -> gives f R -> gives (seqM m f) R.
Proof. intros Hm Hf. by apply (gives_bind m (fun _ => f) Q). Qed.
Lemma gives_pure {X} (x : X) (Q : X -> Prop) : Q x -> gives (pure x) Q.
Proof. intros Hq w. by exists x, w. Qed.
Lemma gives_log s : gives (log busy s) (fun _ => True).
Proof. intros w. eexists _, _. split; [reflexivity|]. done. Qed.
Lemma gives_draw f t (Q : tui -> Prop) : (forall c, Q (f (with_screen c t))) -> gives (draw_on f t) Q.
Proof. intros Hq w. eexists _, _. split; [reflexivity|]. split; [apply Hq|done]. Qed.
Lemma gives_drawn f t (Q : tui -> Prop) : (forall t t', view t' = view t -> Q t -> Q t') -> draws f -> Q t -> gives (draw_on f t) Q.
Proof. intros Hv Hf Ht. apply gives_draw. intros c. apply (Hv t); [exact (Hf (with_screen c t))|exact Ht]. Qed.
Lemma gives_drive {X} (f : ata -> X * ata) (Q : X -> Prop) : (forall d, Q (fst (f d)) /\ disk (snd (f d)) = disk d) -> gives (on_drive f) Q.
Proof.
  intros Hf w. unfold on_drive. destruct (Hf (wdisk w)) as [H1 H2]. destruct (f (wdisk w)) as [x d]. eexists _, _. split; [reflexivity|]. done.
Qed.

(** After the first Enter the flag is set and stays set. *)
Definition over (k : nat) (t : tui) : Prop := chained k t /\ exit_flag (ctx t) = true /\ result (ctx t) = TUI_OK.
Lemma view_over k t t' : view t' = view t -> over k t -> over k t'.
Proof. intros E (H1 & H2 & H3). split; [by apply (view_chained k t)|]. unfold view in E. injection E as _ _ _ _ _ -> -> _ _ _ _ _. done. Qed.
Lemma over_draw k f t : draws f -> over k t -> gives (draw_on f t) (over k).
Proof. apply gives_drawn, view_over. Qed.
Lemma wait_over n other t w : exit_flag (ctx t) = true -> wait_keys n other t w = Ok t w.
Proof. intros He. destruct n; cbn [wait_keys]; by rewrite He. Qed.
Lemma over_input k other t : over k t -> gives (input other t) (over k).
Proof.
  intros Ht w. exists t, w. split; [|done]. apply wait_over, Ht.
Qed.
Lemma over_answer k t : over k t -> gives (answer t) (fun r => fst r = TUI_OK /\ over k (snd r)).
Proof. intros Ht. apply gives_pure. split; [by apply Ht|done]. Qed.
Lemma over_on_elem k i f t : (forall e, e_next (f e) = e_next e) -> (i < k)%nat -> over k t -> over k (on_elem i f t).
Proof. intros Hf Hi (H1 & H2 & H3). split; [by apply on_elem_chained|done]. Qed.
Lemma over_button k x y b s v t : (k < 32)%nat -> over k t -> gives (new_button x y b s v t) (fun r => fst r = k /\ over (S k) (snd r)).
Proof.
  intros Hk (H1 & H2 & H3). unfold new_button, tui_add_button.
  destruct (append_chained k (mk_elem TUI_ELEM_BUTTON x y b 1 (str s) false 0 (e_max (elem t (tui_element_count t))) None) t H1 Hk eq_refl)
    as (t' & -> & H4 & _ & _ & H5 & H6 & H7). cbn [mbind option_bind].
  assert (over (S k) t') as Ho by (split; [done|]; by rewrite H6, H7).
  apply gives_pure. split; [done|]. apply over_on_elem; [done|lia|]. case_match; [done|]. apply over_on_elem; [done|lia|].
  destruct Ho as ([C0 C1 C2 C3 C4] & Ho2 & Ho3). by split.
Qed.

Lemma list_disks_over k n : forall i y t, over k t -> gives (list_disks delay n i y t) (over k).
Proof.
  induction n as [|n IH]; intros i y t Ht; cbn [list_disks]; [by apply gives_pure|].
  eapply (gives_bind _ _ (fun _ => True)).
  { apply gives_drive. intros d. split; [done|]. unfold install_get_disk_info. case_if; [done|]. pose proof (disk_identify delay d) as H.
    destruct (ata_identify delay d) as [[r b] d']. cbn [snd] in H. by case_if. }
  intros [r sectors] _. cbn [fst snd]. case_if; [|by apply IH].
  eapply gives_bind; [apply (over_draw k); [apply draws_string|done]|]. intros t' Ht'. by apply IH.
Qed.

(** At most [n] elements. *)
Definition over_upto (n : nat) (t : tui) : Prop := exists k, (k <= n)%nat /\ over k t.
Definition passed (n : nat) (r : Z * tui) : Prop := fst r = TUI_OK /\ over_upto n (snd r).

Lemma answer_passed k n t : over k t -> (k <= n)%nat -> gives (answer t) (passed n).
Proof. intros Ht Hk. apply gives_pure. split; [by apply Ht|by exists k]. Qed.

Lemma disk_select_passes n t : (n <= 30)%nat -> over_upto n t -> gives (tui_show_disk_select delay t) (passed (n + 2)).
Proof.
  intros Hn (k & Hk & Ht). unfold tui_show_disk_select. eapply gives_bind.
  { apply (over_draw k); [|exact Ht]. intros t'. rewrite draws_string, draws_color, draws_title. done. }
  clear t Ht. intros t Ht. eapply (gives_bind _ _ (fun _ => True)).
  { apply gives_drive. intros d. split; [done|]. unfold install_detect_disks. pose proof (disk_identify delay d) as H.
    destruct (ata_identify delay d) as [[r b] d']. cbn [snd] in H. by case_if. }
  intros [cnt l] _. cbn [fst snd]. set (t1 := on_ctx _ t). assert (over k t1) as Ht1.
  { destruct Ht as ([C0 C1 C2 C3 C4] & H2 & H3). by split. }
  clearbody t1. clear t Ht. case_if.
  - eapply gives_bind; [apply (over_draw k); [|exact Ht1]; intros t'; by rewrite !draws_centered|]. clear t1 Ht1. intros t Ht.
    eapply gives_bind; [apply (over_button k); [lia|exact Ht]|]. intros [i t1] [_ Ht1]. cbn [snd] in *.
    eapply gives_bind; [apply over_draw; [apply draws_screen|exact Ht1]|]. intros t2 Ht2.
    eapply gives_bind; [by apply over_input|]. intros t3 Ht3. apply (answer_passed (S k)); [done|lia].
  - eapply gives_bind; [by apply (list_disks_over k)|]. clear t1 Ht1. intros t Ht.
    eapply gives_bind; [apply (over_draw k); [|exact Ht]; intros t'; by rewrite draws_string|]. clear t Ht. intros t Ht.
    eapply gives_bind; [apply (over_button k); [lia|exact Ht]|]. intros [i t1] [_ Ht1]. cbn [snd] in *.
    eapply gives_bind; [apply (over_button (S k)); [lia|exact Ht1]|]. intros [j t2] [_ Ht2]. cbn [snd] in *.
    eapply gives_bind; [apply over_draw; [apply draws_screen|exact Ht2]|]. intros t3 Ht3.
    eapply gives_bind; [by apply over_input|]. intros t4 Ht4. apply (answer_passed (S (S k))); [done|lia].
Qed.

Lemma over_focus k i t : over k t -> over k (on_ctx (set_focus i) t).
Proof. intros ([C0 C1 C2 C3 C4] & H2 & H3). by split. Qed.

Lemma confirm_passes n t : (n <= 30)%nat -> over_upto n t -> gives (tui_show_partition_confirm t) (passed (n + 2)).
Proof.
  intros Hn (k & Hk & Ht). unfold tui_show_partition_confirm. eapply gives_bind; [apply (over_draw k); [apply draws_page|exact Ht]|].
  clear t Ht. intros t Ht. eapply gives_bind; [apply (over_button k); [lia|exact Ht]|]. intros [i t1] [Hi Ht1]. cbn [fst snd] in *. subst i.
  eapply gives_bind; [apply (over_button (S k)); [lia|exact Ht1]|]. intros [j t2] [Hj Ht2]. cbn [fst snd] in *. subst j.
  eapply gives_bind; [apply over_draw; [apply draws_screen|exact Ht2]|]. intros t3 Ht3.
  eapply gives_bind.
  { apply gives_draw. intros c. apply (view_over (S (S k)) (choose (S k) k (with_screen c t3))); [apply draws_screen|].
    unfold choose, focus_on. apply over_on_elem; [done|lia|]. apply over_on_elem; [done|lia|]. by apply over_focus, (view_over _ t3). }
  intros t4 Ht4. eapply gives_bind; [by apply over_input|]. intros t5 Ht5. apply (answer_passed (S (S k))); [done|lia].
Qed.

Lemma over_progress k ph pct t : over k t -> over k (on_ctx (set_progress ph pct) t).
Proof. intros ([C0 C1 C2 C3 C4] & H2 & H3). by split. Qed.
Lemma percent_over k i ph pct t : (i < k)%nat -> over k t -> over k (show_percent i ph pct t).
Proof.
  intros Hi Ht. unfold show_percent. apply (view_over k (on_ctx (set_progress ph pct) (on_elem i (set_value pct) t))).
  - exact (draws_screen _).
  - apply over_progress, over_on_elem; [intros e; reflexivity|exact Hi|exact Ht].
Qed.
Lemma fold_keeps {X Y} (P : X -> Prop) (f : X -> Y -> X) l : (forall x y, P x -> P (f x y)) -> forall x, P x -> P (fold_left f l x).
Proof. intros Hf. induction l as [|y l IH]; intros x Hx; [exact Hx|]. exact (IH (f x y) (Hf x y Hx)). Qed.
Lemma phase_over k i j ph s t : (i < k)%nat -> (j < k)%nat -> over k t -> over k (show_phase i j ph s t).
Proof.
  intros Hi Hj Ht. unfold show_phase. apply (fold_keeps (over k)); [intros t1 pct H1; exact (percent_over k i ph pct t1 Hi H1)|]. apply over_on_elem; [done|exact Hj|].
  apply over_on_elem; [done|exact Hi|]. destruct Ht as ([C0 C1 C2 C3 C4] & H2 & H3). by split.
Qed.
Lemma phases_over k i j l ph t : (i < k)%nat -> (j < k)%nat -> over k t ->
  over k (snd (fold_left (fun '(ph, t) name => (ph + 1, show_phase i j ph name t)) l (ph, t))).
Proof.
  intros Hi Hj Ht. apply (fold_keeps (fun r => over k (snd r))); [|exact Ht].
  intros [n t1] s H1. exact (phase_over k i j n s t1 Hi Hj H1).
Qed.

Lemma progress_passes n t : (n <= 30)%nat -> over_upto n t -> gives (tui_show_install_progress t) (passed (n + 2)).
Proof.
  intros Hn (k & Hk & Ht). unfold tui_show_install_progress. eapply gives_bind.
  { apply (over_draw k); [|exact Ht]. intros t'. by rewrite draws_color, draws_title. }
  clear t Ht. intros t (H1 & H2 & H3). unfold tui_add_progress, tui_add_label.
  destruct (append_chained k (mk_elem TUI_ELEM_PROGRESS 20 10 40 2 (str "Progress:") false 0 100 None) t H1 ltac:(lia) eq_refl)
    as (t1 & -> & C1 & _ & _ & _ & E1 & R1). cbn [mbind option_bind].
  destruct (append_chained (S k) (mk_elem TUI_ELEM_LABEL 20 13 0 1 (str "Initializing...") false 0 (e_max (elem t1 (tui_element_count t1))) None) t1 C1 ltac:(lia) eq_refl)
    as (t2 & -> & C2 & _ & _ & _ & E2 & R2). cbn [mbind option_bind].
  assert (over (S (S k)) t2) as Ht2 by (split; [done|]; by rewrite E2, R2, E1, R1).
  eapply gives_bind; [apply over_draw; [apply draws_screen|exact Ht2]|]. intros t3 Ht3.
  eapply gives_bind.
  { apply gives_draw. intros c. apply (phases_over (S (S k))); [lia|lia|]. by apply (view_over _ t3). }
  intros t4 Ht4. apply gives_pure. split; [done|]. exists (S (S k)). split; [cbn; lia|done].
Qed.

Lemma complete_passes n t : (n <= 30)%nat -> over_upto n t -> gives (tui_show_complete t) (passed (n + 1)).
Proof.
  intros Hn (k & Hk & Ht). unfold tui_show_complete. eapply gives_bind; [apply (over_draw k); [apply draws_page|exact Ht]|].
  clear t Ht. intros t Ht. eapply gives_bind; [apply (over_button k); [lia|exact Ht]|]. intros [i t1] [_ Ht1]. cbn [snd] in *.
  eapply gives_bind; [apply over_draw; [apply draws_screen|exact Ht1]|]. intros t2 Ht2.
  eapply gives_bind; [by apply over_input|]. intros t3 Ht3. apply (answer_passed (S k)); [done|lia].
Qed.

(** Once the welcome screen is left with success all others pass by themselves. *)
Lemma rest_passes t : over 1 t ->
  gives (r <- tui_show_disk_select delay t;;
    if negb (fst r =? TUI_OK) then pure (TUI_ERR_CANCEL, snd r) else
    r <- tui_show_partition_confirm (snd r);;
    if negb (fst r =? TUI_OK) then pure (TUI_ERR_CANCEL, snd r) else
    r <- tui_show_install_progress (snd r);;
    if negb (fst r =? TUI_OK) then pure (TUI_ERR_INVALID, snd r) else
    tui_show_complete (snd r)) (passed 8).
Proof.
  intros Ht. eapply gives_bind; [apply (disk_select_passes 1); [lia|by exists 1%nat]|]. intros [r1 t1] [E1 H1]. cbn [fst snd] in *. subst r1. cbn [Z.eqb TUI_OK negb].
  eapply gives_bind; [apply (confirm_passes 3); [lia|exact H1]|]. intros [r2 t2] [E2 H2]. cbn [fst snd] in *. subst r2. cbn [Z.eqb TUI_OK negb].
  eapply gives_bind; [apply (progress_passes 5); [lia|exact H2]|]. intros [r3 t3] [E3 H3]. cbn [fst snd] in *. subst r3. cbn [Z.eqb TUI_OK negb].
  apply (complete_passes 7); [lia|exact H3].
Qed.

(** ** The welcome screen *)

(** The keyboard and the codes left after the first one that is decoded as Enter. *)
Fixpoint first_enter (b : kbd) (keys : list Z) : option (kbd * list Z) :=
  match keys with
  | [] => None
  | sc :: rest => let '(c, b') := io_getchar b 1 sc in if c =? 10 then Some (b', rest) else first_enter b' rest
  end.

(** The keyboard driver gives neither a carriage return nor Escape. *)
Lemma no_escape b sc : let c := fst (io_getchar b 1 sc) in (c =? 13) = false /\ (c =? 0x1B) = false.
Proof. cbv zeta. destruct (getchar_typeable b 1 sc) as [->|H]; [done|]. unfold typeable in H. lia. Qed.

(** The OK button has the focus. *)
Definition waiting (t : tui) : Prop :=
  chained 1 t /\ exit_flag (ctx t) = false /\ focused (ctx t) = Some 0%nat /\ e_type (elem t 0) = TUI_ELEM_BUTTON /\ e_value (elem t 0) = TUI_OK.
Lemma view_waiting t t' : view t' = view t -> waiting t -> waiting t'.
Proof.
  intros E (H1 & H2 & H3 & H4 & H5). split; [by apply (view_chained 1 t)|]. unfold view in E. injection E as E1 _ _ E4 _ E6 _ _ _ _ _ _.
  unfold elem. rewrite E1, E4, E6. done.
Qed.
Lemma waiting_enter t : waiting t -> over 1 (tui_handle_enter t).
Proof.
  intros ([C0 C1 C2 C3 C4] & _ & H3 & H4 & H5). unfold tui_handle_enter. rewrite H3, H4, H5. by split.
Qed.

(** One turn of the loop. *)
Lemma wait_turn n sc keys t w : k_keys (wk w) = sc :: keys -> exit_flag (ctx t) = false ->
  wait_keys (S n) ignore t w =
    let '(c, b) := io_getchar (k_kbd (wk w)) 1 sc in
    let t1 := if c =? 10 then tui_handle_enter (with_screen (k_con (wk w)) t) else with_screen (k_con (wk w)) t in
    wait_keys n ignore t1 (with_wk (with_con (screen t1) (with_keys b keys (wk w))) w).
Proof.
  intros Hk He. cbn [wait_keys]. rewrite He. unfold bind, draw_on, getch, getchar. rewrite Hk. pose proof (no_escape (k_kbd (wk w)) sc) as [H1 H2].
  destruct (io_getchar (k_kbd (wk w)) 1 sc) as [c b]. cbn [fst] in H1, H2. rewrite H1, H2, orb_false_r. destruct (c =? 10); reflexivity.
Qed.

(** Keys other than Enter are taken and ignored; Enter ends the screen. *)
Lemma welcome_waits keys : forall t w, k_keys (wk w) = keys -> waiting t ->
  match first_enter (k_kbd (wk w)) keys with
  | None => exists w', wait_keys (length keys) ignore t w = Hang w' /\ k_keys (wk w') = [] /\ disk (wdisk w') = disk (wdisk w)
  | Some (b, rest) => exists t' w', wait_keys (length keys) ignore t w = Ok t' w' /\ over 1 t' /\
      k_kbd (wk w') = b /\ k_keys (wk w') = rest /\ disk (wdisk w') = disk (wdisk w)
  end.
Proof.
  induction keys as [|sc keys IH]; intros t w Hk Ht; pose proof Ht as (_ & He & _); cbn [length first_enter].
  { cbn [wait_keys]. rewrite He. by exists w. }
  rewrite (wait_turn _ sc keys t w Hk He). destruct (io_getchar (k_kbd (wk w)) 1 sc) as [c b]. cbv zeta. destruct (c =? 10).
  - set (t1 := tui_handle_enter _). assert (over 1 t1) as Ho by (by apply waiting_enter, (view_waiting t)). clearbody t1.
    rewrite wait_over by apply Ho. eexists _, _. split; [reflexivity|]. done.
  - set (t1 := with_screen _ t). assert (waiting t1) as Hw1 by (by apply (view_waiting t)). clearbody t1.
    match goal with |- context [wait_keys _ _ t1 ?x] => exact (IH t1 x eq_refl Hw1) end.
Qed.

(** Nothing has been added. *)
Definition fresh (t : tui) : Prop := chained 0 t /\ exit_flag (ctx t) = false /\ focused (ctx t) = None.
Lemma view_fresh t t' : view t' = view t -> fresh t -> fresh t'.
Proof.
  intros E (H1 & H2 & H3). split; [by apply (view_chained 0 t)|]. unfold view in E. injection E as _ _ _ E4 _ E6 _ _ _ _ _ _. by rewrite E4, E6.
Qed.

Lemma init_fresh t : length (tui_elements t) = 32%nat -> gives (tui_init busy t) fresh.
Proof.
  intros Hl. unfold tui_init. eapply gives_seq; [apply gives_log|]. eapply gives_bind.
  { apply (gives_draw _ _ fresh). intros c. apply (view_fresh (with_screen c (mk_tui (mk_ctx 0 0 TUI_COLOR_NORMAL None None 0 (str "Tinx Installer") false TUI_OK [] 0 0 0 0 []) (tui_elements t) 0 (screen t))));
      [apply draws_clear|]. split; [|done]. constructor; try done; lia. }
  intros t1 H1. eapply gives_seq; [apply gives_log|]. by apply gives_pure.
Qed.

(** A first button takes the focus. *)
Lemma fresh_button x y b s t : fresh t -> gives (new_button x y b s TUI_OK t) (fun r => waiting (snd r)).
Proof.
  intros (H1 & H2 & H3). unfold new_button, tui_add_button.
  destruct (append_chained 0 (mk_elem TUI_ELEM_BUTTON x y b 1 (str s) false 0 (e_max (elem t (tui_element_count t))) None) t H1 ltac:(lia) eq_refl)
    as (t' & -> & H4 & H5 & _ & H6 & H7 & _). cbn [mbind option_bind]. rewrite H6, H3. apply gives_pure. cbn [snd].
  set (t1 := on_ctx (set_focus (Some 0%nat)) t'). assert (chained 1 t1) as Hc by (destruct H4; by constructor).
  assert (forall g, elem (on_elem 0 g t1) 0 = g (elem t1 0)) as He1 by (intros g; apply elem_on_elem; rewrite (ch_pool _ _ Hc); lia).
  assert (chained 1 (on_elem 0 (set_selected true) t1)) as Hc2 by (by apply on_elem_chained; [|lia|]).
  assert (elem (on_elem 0 (set_value TUI_OK) (on_elem 0 (set_selected true) t1)) 0 = set_value TUI_OK (set_selected true (elem t1 0))) as He2.
  { rewrite elem_on_elem by (rewrite (ch_pool _ _ Hc2); lia). cbn [Nat.eqb]. by rewrite He1. }
  split; [by apply on_elem_chained; [|lia|]|]. split; [exact (eq_trans H7 H2)|]. split; [done|]. rewrite He2. split; [exact H5|done].
Qed.

(** The state in which the welcome screen reads the keyboard. *)
Lemma run_starts t w : length (tui_elements t) = 32%nat ->
  exists t1 w1, waiting t1 /\ undisturbed w w1 /\
    (t <- tui_init busy t;; tui_run busy delay t) w =
    (r <- (t <- input ignore t1;; answer t);;
     if negb (fst r =? TUI_OK) then pure (TUI_ERR_CANCEL, snd r) else
     r <- tui_show_disk_select delay (snd r);;
     if negb (fst r =? TUI_OK) then pure (TUI_ERR_CANCEL, snd r) else
     r <- tui_show_partition_confirm (snd r);;
     if negb (fst r =? TUI_OK) then pure (TUI_ERR_CANCEL, snd r) else
     r <- tui_show_install_progress (snd r);;
     if negb (fst r =? TUI_OK) then pure (TUI_ERR_INVALID, snd r) else
     tui_show_complete (snd r)) w1.
Proof.
  intros Hl. destruct (init_fresh t Hl w) as (t1 & w1 & E1 & H1 & U1). unfold bind at 1. rewrite E1. clear E1.
  destruct (gives_log "TUI: Running installer..." w1) as (u & w2 & E2 & _ & U2). unfold tui_run, seqM at 1. unfold bind at 1. rewrite E2. clear E2.
  unfold tui_show_welcome.
  match goal with |- context [draw_on (text_page ?a ?b ?c) t1] =>
    destruct (gives_drawn (text_page a b c) t1 fresh view_fresh (draws_page a b c) H1 w2) as (t3 & w3 & E3 & H3 & U3) end.
  destruct (fresh_button 35 22 10 "OK" t3 H3 w3) as (b & w4 & E4 & H4 & U4).
  destruct (gives_drawn tui_draw_screen (snd b) waiting view_waiting draws_screen H4 w4) as (t5 & w5 & E5 & H5 & U5).
  exists t5, w5. split; [exact H5|]. split; [exact (undisturbed_trans _ _ _ U1 (undisturbed_trans _ _ _ U2 (undisturbed_trans _ _ _ U3 (undisturbed_trans _ _ _ U4 U5))))|].
  unfold bind at 1 2. rewrite E3. unfold bind at 1. rewrite E4. unfold bind at 1. rewrite E5. reflexivity.
Qed.

(** C17. One Enter carries the installer's interface through all of its screens, the
    confirmation included, and nothing is installed: started on any machine, with or
    without a drive, [tui_init] and [tui_run] take the scan codes up to the first one
    decoded as Enter, whatever the others are, then report success without another key
    and with the disk as it was; without an Enter they wait on the welcome
    screen for ever. *)
Theorem tui_run_one_key t w : length (tui_elements t) = 32%nat ->
  match first_enter (k_kbd (wk w)) (k_keys (wk w)) with
  | None => exists w', (t <- tui_init busy t;; tui_run busy delay t) w = Hang w' /\ k_keys (wk w') = [] /\ disk (wdisk w') = disk (wdisk w)
  | Some (b, rest) => exists t' w', (t <- tui_init busy t;; tui_run busy delay t) w = Ok (TUI_OK, t') w' /\
      k_kbd (wk w') = b /\ k_keys (wk w') = rest /\ disk (wdisk w') = disk (wdisk w)
  end.
Proof.
  intros Hl. destruct (run_starts t w Hl) as (t1 & w1 & H1 & (U1 & U2 & U3) & ->). rewrite <- U1, <- U2, <- U3.
  pose proof (welcome_waits _ t1 w1 eq_refl H1) as Hw. destruct (first_enter (k_kbd (wk w1)) (k_keys (wk w1))) as [[b rest]|].
  - destruct Hw as (t2 & w2 & E2 & H2 & K1 & K2 & K3). unfold bind at 1. unfold bind at 1. unfold input. rewrite E2. unfold answer, pure at 1. cbn [fst snd].
    replace (result (ctx t2)) with TUI_OK by (symmetry; apply H2). cbn [Z.eqb TUI_OK negb].
    destruct (rest_passes t2 H2 w2) as ([r t3] & w3 & E3 & (R3 & _) & (V1 & V2 & V3)). cbn [fst] in R3. subst r.
    exists t3, w3. split; [exact E3|]. by rewrite V1, V2, V3.
  - destruct Hw as (w2 & E2 & K). exists w2. split; [|exact K]. unfold bind at 1. unfold bind at 1. unfold input. by rewrite E2.
Qed.
End Run.

(** ** A machine *)

#[local] Existing Instance demo_allocator.
(** The interface's static data before [tui_init]. *)
Definition tui0 : tui :=
  mk_tui (mk_ctx 0 0 0 None None 0 [] false 0 [] 0 0 0 0 []) (replicate 32 inhabitant) 0 (k_con (wk w_demo)).

Lemma tui0_pool : length (tui_elements tui0) = 32%nat.
Proof. reflexivity. Qed.
Lemma tui0_screen : length (vga_buffer (screen tui0)) = 2000%nat.
Proof. vm_compute. reflexivity. Qed.

(** "AB" drawn left of the screen shows its second letter in the first column. *)
Lemma draw_string_clips_witness :
  length (vga_buffer (screen tui0)) = 2000%nat /\ visible 0 3 /\ cell_at (tui_draw_string (-1) 3 (str "AB") tui0) 0 3 = Some 66.
Proof.
  assert (visible 0 3) as Hv by (unfold visible; lia). split; [exact tui0_screen|]. split; [exact Hv|].
  rewrite (proj1 (draw_string_clips (str "AB") (-1) 3 tui0 0 3 tui0_screen Hv)). reflexivity.
Defined.

(** Escape, Enter and another Enter at the keyboard: the last one is left. *)
Definition w_keys : world heap := with_wk (with_keys (idle false) [0x01; 0x1C; 0x1C] (wk w_demo)) w_demo.
Lemma tui_run_one_key_witness :
  length (tui_elements tui0) = 32%nat /\
  exists t' w', (t <- tui_init (fun _ => O) tui0;; tui_run (fun _ => O) (fun _ => O) t) w_keys = Ok (TUI_OK, t') w' /\
    k_kbd (wk w') = idle false /\ k_keys (wk w') = [0x1C] /\ disk (wdisk w') = disk (wdisk w_keys).
Proof. split; [exact tui0_pool|]. exact (tui_run_one_key (fun _ => O) (fun _ => O) tui0 w_keys tui0_pool). Defined.
