(* ===== verification/Ahci.v ===== *)
(** * ahci.c, the SATA controller

    What the driver reaches through its memory-mapped registers is a device of
    the class [Hba]: it answers reads and writes of registers, by their offset, and may
    transfer data to and from memory while it does.  The driver is modelled over
    any such controller.  Command lists, command tables and the FIS buffers are
    bytes of the flat memory, in the layout of the packed structures of ahci.h; so
    is the identify data of the ports, the part of [ahci_controller] a controller is
    told to write to; the other fields of [ahci_controller] are a record, as nothing
    is told their address.  A pointer is an address, 0 for NULL.  The delays of
    the waiting loops ([io_wait]) are left out. *)
From Stdlib Require Import String.
From S2P Require Import Prelude Mem Serial.

Definition AHCI_OK : Z := 0.
Definition AHCI_ERR_NO_DRIVE : Z := -2.
Definition AHCI_ERR_TIMEOUT : Z := -3.
Definition AHCI_ERR_IO : Z := -4.
Definition AHCI_CAP : Z := 0x00.
Definition AHCI_GHC : Z := 0x04.
Definition AHCI_PI : Z := 0x0C.
Definition AHCI_PxCMD : Z := 0x00.
Definition AHCI_PxFB : Z := 0x08.
Definition AHCI_PxCMD_REG : Z := 0x18.
Definition AHCI_PxSSTS : Z := 0x28.
Definition AHCI_PxCI : Z := 0x38.
Definition AHCI_PORT_NONE : Z := 0.
Definition AHCI_PORT_SATA : Z := 1.
Definition AHCI_FIS_TYPE_H2D : Z := 0x27.
Definition AHCI_PxCMD_ST : Z := Z.shiftl 1 0.
Definition AHCI_PxCMD_FRE : Z := Z.shiftl 1 4.
Definition AHCI_PxCMD_CR : Z := Z.shiftl 1 24.
Definition AHCI_PxCMD_FR : Z := Z.shiftl 1 25.
Definition AHCI_SSTS_DET_MASK : Z := 0x0000000F.
Definition AHCI_SSTS_DET_ESTAB : Z := 0x03.
Definition ATA_CMD_READ_DMA : Z := 0xC8.
Definition ATA_CMD_WRITE_DMA : Z := 0xCA.
Definition AHCI_CMD_IDENTIFY : Z := 0xEC.

Class Hba (D : Type) := { hba_read : Z -> D -> mem -> Z * D * mem; hba_write : Z -> Z -> D -> mem -> D * mem }.

Record ahci_port_info := mk_port { p_type : Z; p_present : bool; p_ssts : Z; sector_count : Z }.
#[global] Instance port_inhabited : Inhabited ahci_port_info := populate (mk_port 0 false 0 0).
Record ahci_controller := mk_ctrl {
  mmio : Z; a_cap : Z; a_pi : Z; num_ports : Z; a_ports : list ahci_port_info;
  cmd_lists : list Z; cmd_tables : list Z; fis_buffers : list Z
}.

(** ** The packed structures *)

(** A header is a bit-field of 35 bits in five bytes, behind which the other members
    follow without a gap. *)
Definition bits40 (m : mem) (a : Z) : Z := load32 m a + 2 ^ 32 * m.[a + 4].
Definition put_bits (a lo width v : Z) (m : mem) : mem :=
  let x := Z.lor (Z.ldiff (bits40 m a) (Z.shiftl (Z.ones width) lo)) (Z.shiftl (Z.land v (Z.ones width)) lo) in
  store8 (store32 m a (x mod 2 ^ 32)) (a + 4) (x / 2 ^ 32).
Definition hdr_cfl (v a : Z) : mem -> mem := put_bits a 0 8 v.
Definition hdr_write (v a : Z) : mem -> mem := put_bits a 9 1 v.
Definition hdr_prdtl (v a : Z) : mem -> mem := put_bits a 19 16 v.
Definition hdr_ctba (v a : Z) (m : mem) : mem := store32 m (a + 9) v.
Definition hdr_ctbau (v a : Z) (m : mem) : mem := store32 m (a + 13) v.

Definition sizeof_cmd_fis : Z := 19.
(** The first entry of the descriptor table, behind the FIS, [acmd] and [reserved]. *)
Definition prdt_offset : Z := sizeof_cmd_fis + 16 + 48.
Definition write_prdt (dba dwc tbl : Z) (m : mem) : mem :=
  let a := tbl + prdt_offset in
  store32 (store32 (store32 (store32 m a dba) (a + 4) 0) (a + 8) 0) (a + 12) dwc.
Definition write_cfis (command lba device count tbl : Z) (m : mem) : mem :=
  let m := store8 m tbl AHCI_FIS_TYPE_H2D in
  let m := store8 m (tbl + 1) (Z.land m.[tbl + 1] 0xF0) in
  let m := store8 m (tbl + 1) (Z.lor m.[tbl + 1] 0x80) in
  let m := store8 m (tbl + 2) command in
  let m := store8 m (tbl + 3) 0 in
  let m := store32 m (tbl + 4) lba in
  let m := store8 m (tbl + 8) device in
  let m := store8 (store8 m (tbl + 9) count) (tbl + 10) (count / 256) in
  store8 m (tbl + 11) 0.
(** The header, the descriptor and the FIS of a command. *)
Definition build_command (wr dba dwc command lba device count hdr tbl : Z) (m : mem) : mem :=
  let m := hdr_cfl (sizeof_cmd_fis / 4) hdr m in
  let m := hdr_write wr hdr m in
  let m := hdr_prdtl 1 hdr m in
  let m := hdr_ctba tbl hdr m in
  let m := hdr_ctbau 0 hdr m in
  write_cfis command lba device count tbl (write_prdt dba dwc tbl m).

(** ** The driver *)

Section Driver.
Context {D : Type} `{!Hba D}.
Context (busy : list Z -> nat).
(** Addresses of the static pages and of the controller structure. *)
Context (pages ctrl_addr : Z).

Record ahci := mk_ahci { ctrl : ahci_controller; page_idx : Z; hba : D; amem : mem; alog : serial }.
Definition with_ctrl (c : ahci_controller) (s : ahci) : ahci := mk_ahci c (page_idx s) (hba s) (amem s) (alog s).
Definition with_amem (m : mem) (s : ahci) : ahci := mk_ahci (ctrl s) (page_idx s) (hba s) m (alog s).
Definition with_alog (l : serial) (s : ahci) : ahci := mk_ahci (ctrl s) (page_idx s) (hba s) (amem s) l.

Definition A_ (X : Type) : Type := ahci -> X * ahci.
Definition give {X} (x : X) : A_ X := fun s => (x, s).
Definition after {X Y} (f : A_ X) (g : X -> A_ Y) : A_ Y := fun s => let '(x, s) := f s in g x s.
Definition alter_ (f : ahci -> ahci) : A_ unit := fun s => (tt, f s).
End Driver.
Arguments ahci D : clear implicits.
Arguments A_ D X : clear implicits.

Declare Scope ahci_scope.
Delimit Scope ahci_scope with ahci.
Notation "x <- f ;; g" := (after f (fun x => g)) (at level 100, f at next level, right associativity) : ahci_scope.
Notation "f ;; g" := (after f (fun _ => g)) (at level 100, right associativity) : ahci_scope.
#[local] Open Scope ahci_scope.

Section Operations.
Context {D : Type} `{!Hba D}.
Context (busy : list Z -> nat).
Context (pages ctrl_addr : Z).
Notation A_ := (A_ D).

Definition asay (t : list Z) : A_ unit := alter_ (fun s => with_alog (serial_write_str busy t (alog s)) s).
Definition asayln (t : list Z) : A_ unit := alter_ (fun s => with_alog (serial_writeln busy t (alog s)) s).
Definition asay_hex (v : Z) : A_ unit := alter_ (fun s => with_alog (serial_write_hex32 busy v (alog s)) s).
(** The digits in [tmp], reversed into [buf]. *)
Definition asay_dec (n : Z) : A_ unit := asay (if n =? 0 then [48] else rev (default [] (dec_digits 12 n []))).

(** [page_idx] counts the pages given out. *)
Fixpoint zero_words (n : nat) (a : Z) (m : mem) : mem :=
  match n with O => m | S n' => zero_words n' (a + 4) (store32 m a 0) end.
Definition ahci_alloc_page : A_ Z := fun s =>
  if 64 <=? page_idx s then (0, s) else
  let ptr := pages + page_idx s * 4096 in
  (ptr, mk_ahci (ctrl s) (page_idx s + 1) (hba s) (zero_words 1024 ptr (amem s)) (alog s)).

Definition ahci_read (r : Z) : A_ Z := fun s =>
  let '(v, d, m) := hba_read r (hba s) (amem s) in (v, mk_ahci (ctrl s) (page_idx s) d m (alog s)).
Definition ahci_write (r v : Z) : A_ unit := fun s =>
  let '(d, m) := hba_write r v (hba s) (amem s) in (tt, mk_ahci (ctrl s) (page_idx s) d m (alog s)).
Definition port_reg (port r : Z) : Z := 0x100 + port * 0x80 + r.

(** [while (timeout-- > 0) { v = *reg; if (stop v) break; }]: the last value read, and
    whether it ended the loop. *)
Fixpoint poll_reg (n : nat) (r : Z) (stop : Z -> bool) (last : Z) : A_ (bool * Z) :=
  match n with
  | O => give (false, last)
  | S n' => v <- ahci_read r;; if stop v then give (true, v) else poll_reg n' r stop v
  end.
Definition ahci_wait_cmd_complete (port slot : Z) : A_ Z :=
  r <- poll_reg (Z.to_nat 1000000) (port_reg port AHCI_PxCI) (fun v => Z.land v (Z.shiftl 1 slot) =? 0) 0;;
  give (if fst r : bool then 0 else -1).
Definition ahci_stop_port (port : Z) : A_ Z :=
  cmd <- ahci_read (port_reg port AHCI_PxCMD_REG);;
  ahci_write (port_reg port AHCI_PxCMD_REG) (Z.ldiff cmd AHCI_PxCMD_ST);;
  r <- poll_reg 1000 (port_reg port AHCI_PxCMD_REG) (fun cmd => (Z.land cmd AHCI_PxCMD_FR =? 0) && (Z.land cmd AHCI_PxCMD_CR =? 0)) cmd;;
  give (if fst r : bool then 0 else -1).
Definition ahci_start_port (port : Z) : A_ Z :=
  cmd <- ahci_read (port_reg port AHCI_PxCMD_REG);;
  let cmd := Z.lor cmd AHCI_PxCMD_FRE in
  ahci_write (port_reg port AHCI_PxCMD_REG) cmd;;
  r <- poll_reg 1000 (port_reg port AHCI_PxCMD_REG) (fun cmd => negb (Z.land cmd AHCI_PxCMD_FR =? 0)) cmd;;
  ahci_write (port_reg port AHCI_PxCMD_REG) (Z.lor (snd r) AHCI_PxCMD_ST);;
  give 0.

(** Fields of the controller structure. *)
Definition on_ctrl (f : ahci_controller -> ahci_controller) : A_ unit := alter_ (fun s => with_ctrl (f (ctrl s)) s).
Definition at_port (port : Z) (f : ahci_port_info -> ahci_port_info) (c : ahci_controller) : ahci_controller :=
  mk_ctrl (mmio c) (a_cap c) (a_pi c) (num_ports c) (alter f (Z.to_nat port) (a_ports c)) (cmd_lists c) (cmd_tables c) (fis_buffers c).
Definition set_command (port lst tbl : Z) (c : ahci_controller) : ahci_controller :=
  mk_ctrl (mmio c) (a_cap c) (a_pi c) (num_ports c) (a_ports c)
    (<[Z.to_nat port := lst]> (cmd_lists c)) (<[Z.to_nat port := tbl]> (cmd_tables c)) (fis_buffers c).
Definition set_sectors (n : Z) (p : ahci_port_info) : ahci_port_info := mk_port (p_type p) (p_present p) (p_ssts p) n.
Definition set_ssts (n : Z) (p : ahci_port_info) : ahci_port_info := mk_port (p_type p) (p_present p) n (sector_count p).
Definition set_drive (p : ahci_port_info) : ahci_port_info := mk_port AHCI_PORT_SATA true (p_ssts p) (sector_count p).
Definition set_empty (p : ahci_port_info) : ahci_port_info := mk_port AHCI_PORT_NONE false (p_ssts p) 0.
(** [&ctrl->ports[port].sident[0]] *)
Definition sident (port : Z) : Z := ctrl_addr + 16 + port * 1040 + 12.
Definition with_state {X} (f : ahci D -> A_ X) : A_ X := fun s => f s s.
Definition list_of (s : ahci D) (port : Z) : Z := cmd_lists (ctrl s) !!! Z.to_nat port.
Definition table_of (s : ahci D) (port : Z) : Z := cmd_tables (ctrl s) !!! Z.to_nat port.

(** The command is issued in slot 0. *)
Definition issue (port : Z) : A_ Z :=
  ahci_write (port_reg port AHCI_PxCI) 1;;
  r <- ahci_wait_cmd_complete port 0;;
  give (if r =? 0 then AHCI_OK else AHCI_ERR_TIMEOUT).

(** [sident[60] | (sident[61] << 16)] *)
Definition identified_sectors (port : Z) (m : mem) : Z :=
  Z.lor (load32 m (sident port + 240)) (u32 (Z.shiftl (load32 m (sident port + 244)) 16)).
Definition ahci_identify_drive (port : Z) : A_ Z :=
  lst <- ahci_alloc_page;;
  tbl <- ahci_alloc_page;;
  on_ctrl (set_command port lst tbl);;
  if (lst =? 0) || (tbl =? 0) then give AHCI_ERR_IO else
  with_state (fun s => 
    ahci_write (port_reg port AHCI_PxCMD) lst;;
    ahci_write (port_reg port AHCI_PxFB) (fis_buffers (ctrl s) !!! Z.to_nat port));;
  alter_ (fun s => with_amem (build_command 0 (sident port) (512 / 4 - 1) AHCI_CMD_IDENTIFY 0 0xA0 1 lst tbl (amem s)) s);;
  r <- issue port;;
  if negb (r =? AHCI_OK) then give AHCI_ERR_TIMEOUT else
  with_state (fun s => on_ctrl (at_port port (set_sectors (identified_sectors port (amem s)))));;
  give AHCI_OK.

Definition add_port (i fis : Z) (c : ahci_controller) : ahci_controller :=
  mk_ctrl (mmio c) (a_cap c) (a_pi c) (num_ports c + 1) (alter set_empty (Z.to_nat i) (a_ports c)) (cmd_lists c) (cmd_tables c) (<[Z.to_nat i := fis]> (fis_buffers c)).
Fixpoint init_hba_ports (n : nat) (i : Z) : A_ unit :=
  match n with
  | O => give tt
  | S n' => with_state (fun s => if Z.testbit (a_pi (ctrl s)) i then fis <- ahci_alloc_page;; on_ctrl (add_port i fis) else give tt);; init_hba_ports n' (i + 1)
  end.
Definition ahci_init (mmio_base : Z) : A_ Z :=
  asayln (str "AHCI: Initializing controller...");;
  cap <- ahci_read AHCI_CAP;;
  pi <- ahci_read AHCI_PI;;
  on_ctrl (fun c => mk_ctrl mmio_base cap pi (num_ports c) (a_ports c) (cmd_lists c) (cmd_tables c) (fis_buffers c));;
  asay (str "AHCI: CAP = ");; asay_hex cap;; asayln [];;
  asay (str "AHCI: PI = ");; asay_hex pi;; asayln [];;
  ghc <- ahci_read AHCI_GHC;;
  ahci_write AHCI_GHC (Z.lor ghc (Z.shiftl 1 31));;
  on_ctrl (fun c => mk_ctrl (mmio c) (a_cap c) (a_pi c) 0 (a_ports c) (cmd_lists c) (cmd_tables c) (fis_buffers c));;
  init_hba_ports 32 0;;
  asay (str "AHCI: Found ");;
  with_state (fun s => asay_dec (num_ports (ctrl s)));;
  asayln (str " ports");;
  give AHCI_OK.

(** A drive behind port [i]: 1 when it was identified. *)
Definition detect_drive (i : Z) : A_ Z :=
  asay (str "AHCI: Port ");; asay_dec i;; asayln (str " - Device detected");;
  r <- ahci_stop_port i;;
  if negb (r =? 0) then give 0 else
  r <- ahci_identify_drive i;;
  if negb (r =? AHCI_OK) then give 0 else
  on_ctrl (at_port i set_drive);;
  asay (str "AHCI:   Sectors: ");;
  with_state (fun s => asay_hex (sector_count (a_ports (ctrl s) !!! Z.to_nat i)));;
  asayln [];;
  give 1.
Fixpoint detect_ports (n : nat) (i found : Z) : A_ Z :=
  match n with
  | O => give found
  | S n' =>
      k <- with_state (fun s =>
        if negb (Z.testbit (a_pi (ctrl s)) i) then give 0 else
        ssts <- ahci_read (port_reg i AHCI_PxSSTS);;
        on_ctrl (at_port i (set_ssts ssts));;
        if Z.land ssts AHCI_SSTS_DET_MASK =? AHCI_SSTS_DET_ESTAB then detect_drive i else give 0);;
      detect_ports n' (i + 1) (found + k)
  end.
Definition ahci_detect_drives : A_ Z :=
  asayln (str "AHCI: Detecting drives...");;
  found <- detect_ports 32 0 0;;
  asay (str "AHCI: Found ");; asay_dec found;; asayln (str " drive(s)");;
  give found.

Definition no_drive (s : ahci D) (port : Z) : bool :=
  (port <? 0) || (32 <=? port) || negb (p_present (a_ports (ctrl s) !!! Z.to_nat port)).
(** [ahci_read_sectors] and [ahci_write_sectors] differ in the write flag and the command. *)
Definition ahci_transfer (wr command port lba buffer count : Z) : A_ Z :=
  with_state (fun s => if no_drive s port then give AHCI_ERR_NO_DRIVE else
  ahci_stop_port port;;
  alter_ (fun s => with_amem (build_command wr buffer (u32 (u32 (count * 512) / 4 - 1)) command lba
    (Z.lor 0x40 (Z.land (Z.shiftr lba 24) 0x0F)) (u16 count) (list_of s port) (table_of s port) (amem s)) s);;
  ahci_start_port port;;
  issue port).
Definition ahci_read_sectors : Z -> Z -> Z -> Z -> A_ Z := ahci_transfer 0 ATA_CMD_READ_DMA.
Definition ahci_write_sectors : Z -> Z -> Z -> Z -> A_ Z := ahci_transfer 1 ATA_CMD_WRITE_DMA.

(** vfs.c: whether the file system could use the drive; nothing is mounted. *)
Definition vfs_mount_ahci (s : option (ahci D)) (port : Z) : Z :=
  match s with None => -1 | Some s => if no_drive s port then -1 else 0 end.

(** Words [i], ... of the identify data as characters from [idx] on. *)
Fixpoint copy_model (n : nat) (i idx size port model : Z) (m : mem) : mem * Z :=
  match n with
  | O => (m, idx)
  | S n' =>
      if idx <? size - 1 then
        let m := store8 m (model + idx) (Z.land (load32 m (sident port + 4 * i)) 0xFF) in
        let m := store8 m (model + (idx + 1)) (Z.land (Z.shiftr (load32 m (sident port + 4 * i)) 8) 0xFF) in
        copy_model n' (i + 1) (idx + 2) size port model m
      else (m, idx)
  end.
(** The result and what is stored through [sectors]. *)
Definition ahci_get_drive_info (port : Z) (sectors : bool) (model model_size : Z) : A_ (Z * option Z) :=
  with_state (fun s => if no_drive s port then give (AHCI_ERR_NO_DRIVE, None) else
  (if negb (model =? 0) && (40 <=? model_size) then
     alter_ (fun s => let '(m, idx) := copy_model 20 27 0 model_size port model (amem s) in with_amem (store8 m (model + idx) 0) s)
   else give tt);;
  give (AHCI_OK, if sectors then Some (sector_count (a_ports (ctrl s) !!! Z.to_nat port)) else None)).

Definition ahci_port_present (s : ahci D) (port : Z) : Z :=
  if (port <? 0) || (32 <=? port) then 0 else if p_present (a_ports (ctrl s) !!! Z.to_nat port) then 1 else 0.
End Operations.
