(* ===== verification/AhciCorrect.v ===== *)
(** * The SATA driver: what it learns of the drives, and the commands it builds *)
From Stdlib Require Import String.
From S2P Require Import Prelude Mem Serial Ahci.
#[local] Open Scope ahci_scope.

(** The bits of the command register that start a port. *)
Definition start_bits : Z := Z.lor AHCI_PxCMD_ST AHCI_PxCMD_FRE.
Definition is_command_reg (r : Z) : Prop := exists i, 0 <= i < 32 /\ r = port_reg i AHCI_PxCMD_REG.

(** What the AHCI specification promises of a controller none of whose ports is
    started (section 10.3.1: a port processes its command list only while ST is
    set and receives a FIS only while FRE is set): registers can be read and
    written, commands issued too, but nothing is transferred from or to
    memory, and the ports stay stopped until one of the two bits is written. *)
Class HbaStops (D : Type) `{!Hba D} := {
  at_rest : D -> Prop;
  rest_read r d m : at_rest d ->
    at_rest (snd (fst (hba_read r d m))) /\ snd (hba_read r d m) = m /\
    (is_command_reg r -> Z.land (fst (fst (hba_read r d m))) start_bits = 0);
  rest_write r v d m : at_rest d -> (is_command_reg r -> Z.land v start_bits = 0) ->
    at_rest (fst (hba_write r v d m)) /\ snd (hba_write r v d m) = m
}.

Section AtRest.
Context {D : Type} `{!Hba D} `{!HbaStops D}.
Context (busy : list Z -> nat) (pages ctrl_addr : Z).
(** The controller structure and the pages are two static objects. *)
Context (pages_pos : 0 < pages) (apart : ctrl_addr + 16 + 32 * 1040 <= pages \/ pages + 64 * 4096 <= ctrl_addr).
Context (m0 : mem).
Notation A_ := (A_ D).
Implicit Types s : ahci D.

(** Only the pages have changed, and the controller is at rest. *)
Definition beyond_pages (m : mem) : Prop := forall a, a < pages \/ pages + 64 * 4096 <= a -> m.[a] = m0.[a].
Definition calm s : Prop := at_rest (hba s) /\ 0 <= page_idx s <= 64 /\ beyond_pages (amem s).
(** [m] keeps that so and does not touch the structure. *)
Definition plain {X} (m : A_ X) (Q : X -> Prop) : Prop := forall s, calm s -> calm (snd (m s)) /\ ctrl (snd (m s)) = ctrl s /\ Q (fst (m s)).

Lemma plain_give {X} (x : X) (Q : X -> Prop) : Q x -> plain (give x) Q.
Proof. intros H s Hs. done. Qed.
Lemma plain_after {X Y} (f : A_ X) (g : X -> A_ Y) Q R : plain f Q -> (forall x, Q x -> plain (g x) R) -> plain (after f g) R.
Proof.
  intros Hf Hg s Hs. destruct (Hf s Hs) as (H1 & H2 & H3). unfold after. destruct (f s) as [x s1]. cbn [fst snd] in *.
  destruct (Hg x H3 s1 H1) as (H4 & H5 & H6). by rewrite H5, H2.
Qed.
Lemma plain_say t : plain (asay busy t) (fun _ => True).
Proof. intros s Hs. done. Qed.
Lemma plain_sayln t : plain (asayln busy t) (fun _ => True).
Proof. intros s Hs. done. Qed.
Lemma plain_hex v : plain (asay_hex busy v) (fun _ => True).
Proof. intros s Hs. done. Qed.

Lemma plain_read r : plain (ahci_read r) (fun v => is_command_reg r -> Z.land v start_bits = 0).
Proof.
  intros s (H1 & H2 & H3). unfold ahci_read. pose proof (rest_read r (hba s) (amem s) H1) as (R1 & R2 & R3).
  destruct (hba_read r (hba s) (amem s)) as [[v d] m]. cbn [fst snd] in *. subst m. done.
Qed.
Lemma plain_write r v : (is_command_reg r -> Z.land v start_bits = 0) -> plain (ahci_write r v) (fun _ => True).
Proof.
  intros Hv s (H1 & H2 & H3). unfold ahci_write. pose proof (rest_write r v (hba s) (amem s) H1 Hv) as (R1 & R2).
  destruct (hba_write r v (hba s) (amem s)) as [d m]. cbn [fst snd] in *. subst m. done.
Qed.
Lemma plain_poll n r stop : forall last, plain (poll_reg n r stop last) (fun _ => True).
Proof.
  induction n as [|n IH]; intros last; cbn [poll_reg]; [by apply plain_give|]. eapply plain_after; [apply plain_read|].
  intros v _. case_if; [by apply plain_give|apply IH].
Qed.

(** Which registers are command registers. *)
Lemma other_reg port r : 0 <= r < 0x80 -> r <> AHCI_PxCMD_REG -> ~ is_command_reg (port_reg port r).
Proof. unfold is_command_reg, port_reg, AHCI_PxCMD_REG. intros Hr Hne (i & Hi & E). lia. Qed.
Lemma host_reg r : 0 <= r < 0x100 -> ~ is_command_reg r.
Proof. unfold is_command_reg, port_reg, AHCI_PxCMD_REG. intros Hr (i & Hi & E). lia. Qed.

Lemma plain_stop port : 0 <= port < 32 -> plain (ahci_stop_port port) (fun _ => True).
Proof.
  intros Hp. assert (is_command_reg (port_reg port AHCI_PxCMD_REG)) as Hc by (by exists port).
  unfold ahci_stop_port. eapply plain_after; [apply plain_read|]. intros cmd Hcmd. eapply plain_after.
  { apply plain_write. intros _. specialize (Hcmd Hc). apply Z.bits_inj'. intros n Hn. apply (f_equal (fun z => Z.testbit z n)) in Hcmd.
    rewrite Z.bits_0, Z.land_spec in Hcmd |- *. rewrite Z.ldiff_spec. destruct (Z.testbit cmd n), (Z.testbit start_bits n), (Z.testbit AHCI_PxCMD_ST n); done. }
  intros _ _. eapply plain_after; [apply plain_poll|]. intros r _. by apply plain_give.
Qed.

Lemma plain_wait port slot : plain (ahci_wait_cmd_complete port slot) (fun _ => True).
Proof.
  unfold ahci_wait_cmd_complete. generalize (Z.to_nat 1000000). intros n. eapply plain_after; [apply plain_poll|]. intros r _. by apply plain_give.
Qed.
Lemma plain_issue port : plain (issue port) (fun r => r = AHCI_OK \/ r = AHCI_ERR_TIMEOUT).
Proof.
  unfold issue. eapply plain_after; [apply plain_write; intros H; by apply other_reg in H|]. intros _ _.
  eapply plain_after; [apply plain_wait|]. intros r _. apply plain_give. case_if; auto.
Qed.

(** ** Pages *)

Definition inside (a n : Z) : Prop := pages <= a /\ a + n <= pages + 64 * 4096.
Lemma outside_store8 m a v : inside a 1 -> beyond_pages m -> beyond_pages (store8 m a v).
Proof. unfold inside. intros Ha Hm b Hb. rewrite peek_store8. destruct (Z.eqb_spec b a); [lia|]. by apply Hm. Qed.
Lemma outside_store32 m a v : inside a 4 -> beyond_pages m -> beyond_pages (store32 m a v).
Proof. unfold inside. intros Ha Hm b Hb. rewrite peek_store32_ne by lia. by apply Hm. Qed.
Lemma outside_zero n : forall a m, inside a (4 * Z.of_nat n) -> beyond_pages m -> beyond_pages (zero_words n a m).
Proof.
  induction n as [|n IH]; intros a m Ha Hm; cbn [zero_words]; [done|]. unfold inside in Ha. apply IH; [unfold inside; lia|].
  apply outside_store32; [unfold inside; lia|done].
Qed.
Lemma plain_alloc : plain (ahci_alloc_page pages) (fun p => p = 0 \/ p <> 0 /\ inside p 4096).
Proof.
  intros s (H1 & H2 & H3). unfold ahci_alloc_page. destruct (Z.leb_spec 64 (page_idx s)); [split; [done|]; split; [done|by left]|].
  cbn [fst snd ctrl]. assert (inside (pages + page_idx s * 4096) 4096) as Hi by (unfold inside; lia).
  split; [|split; [done|right; unfold inside in *; lia]]. unfold calm. cbn [hba page_idx amem]. split; [done|]. split; [lia|].
  apply outside_zero; [|done]. replace (4 * Z.of_nat 1024) with 4096 by lia. done.
Qed.

Lemma outside_bits a lo w v m : inside a 5 -> beyond_pages m -> beyond_pages (put_bits a lo w v m).
Proof. unfold inside. intros Ha Hm. unfold put_bits. apply outside_store8; [unfold inside; lia|]. apply outside_store32; [unfold inside; lia|done]. Qed.
Lemma outside_build wr dba dwc command lba device count hdr tbl m : inside hdr 4096 -> inside tbl 4096 -> beyond_pages m ->
  beyond_pages (build_command wr dba dwc command lba device count hdr tbl m).
Proof.
  intros Hh Ht Hm. unfold inside in *. unfold build_command, write_cfis, write_prdt, prdt_offset, sizeof_cmd_fis, hdr_cfl, hdr_write, hdr_prdtl, hdr_ctba, hdr_ctbau.
  repeat first [apply outside_store8; [unfold inside; lia|] | apply outside_store32; [unfold inside; lia|] | apply outside_bits; [unfold inside; lia|]]. exact Hm.
Qed.

(** ** Detection *)

(** [m] keeps the memory so and changes the structure as [R] says. *)
Definition does {X} (m : A_ X) (R : X -> ahci_controller -> ahci_controller -> Prop) : Prop :=
  forall s, calm s -> calm (snd (m s)) /\ R (fst (m s)) (ctrl s) (ctrl (snd (m s))).

Lemma plain_does {X} (m : A_ X) Q (R : X -> ahci_controller -> ahci_controller -> Prop) : plain m Q -> (forall x c, Q x -> R x c c) -> does m R.
Proof. intros Hm HR s Hs. destruct (Hm s Hs) as (H1 & H2 & H3). rewrite H2. auto. Qed.
Lemma plain_then {X Y} (f : A_ X) (g : X -> A_ Y) Q R : plain f Q -> (forall x, Q x -> does (g x) R) -> does (after f g) R.
Proof.
  intros Hf Hg s Hs. destruct (Hf s Hs) as (H1 & H2 & H3). unfold after. destruct (f s) as [x s1]. cbn [fst snd] in *. rewrite <- H2. by apply Hg.
Qed.
Lemma does_then {X Y} (f : A_ X) (g : X -> A_ Y) R1 R : does f R1 ->
  (forall x, does (g x) (fun y c1 c2 => forall c, R1 x c c1 -> R y c c2)) -> does (after f g) R.
Proof.
  intros Hf Hg s Hs. destruct (Hf s Hs) as (H1 & H2). unfold after. destruct (f s) as [x s1]. cbn [fst snd] in *.
  destruct (Hg x s1 H1) as [H3 H4]. auto.
Qed.
Lemma ctrl_then {X} f (g : A_ X) R : does g (fun x c c' => forall c0, f c0 = c -> R x c0 c') -> does (after (on_ctrl f) (fun _ => g)) R.
Proof. intros Hg s Hs. unfold after, on_ctrl, alter_. destruct (Hg (with_ctrl (f (ctrl s)) s) Hs) as [H1 H2]. split; [exact H1|]. by apply H2. Qed.
Lemma state_does {X} (f : ahci D -> A_ X) R : (forall s, calm s -> calm (snd (f s s)) /\ R (fst (f s s)) (ctrl s) (ctrl (snd (f s s)))) -> does (with_state f) R.
Proof. done. Qed.

Lemma identified_outside port m : 0 <= port < 32 -> beyond_pages m -> identified_sectors ctrl_addr port m = identified_sectors ctrl_addr port m0.
Proof.
  intros Hp Hm. unfold identified_sectors, sident. f_equal; [|do 2 f_equal]; apply load32_ext; intros b Hb; apply Hm; lia.
Qed.

(** What identifying the drive behind [port] leaves in the structure. *)
Definition identified (port : Z) (c c' : ahci_controller) : Prop :=
  a_pi c' = a_pi c /\ a_ports c' = alter (set_sectors (identified_sectors ctrl_addr port m0)) (Z.to_nat port) (a_ports c).
Definition unchanged (c c' : ahci_controller) : Prop := a_pi c' = a_pi c /\ a_ports c' = a_ports c.

Lemma identify_does port : 0 <= port < 32 ->
  does (ahci_identify_drive pages ctrl_addr port) (fun r c c' => if r =? AHCI_OK then identified port c c' else unchanged c c').
Proof.
  intros Hp. unfold ahci_identify_drive. eapply plain_then; [apply plain_alloc|]. intros lst Hl.
  eapply plain_then; [apply plain_alloc|]. intros tbl Ht. apply ctrl_then. destruct ((lst =? 0) || (tbl =? 0)) eqn:E.
  { apply (plain_does _ (fun r => r = AHCI_ERR_IO)); [by apply plain_give|]. intros r c -> c0 <-. done. }
  assert (inside lst 4096 /\ inside tbl 4096) as [Il It] by (destruct Hl as [?|[_ ?]], Ht as [?|[_ ?]]; lia || done).
  eapply plain_then.
  { intros s Hs. refine (plain_after _ _ (fun _ => True) (fun _ => True) _ _ s Hs); [|intros _ _]; apply plain_write; intros H; by apply other_reg in H. }
  intros _ _. eapply (plain_then _ _ (fun _ => True)).
  { intros s (H1 & H2 & H3). split; [|done]. split; [done|]. split; [done|]. by apply outside_build. }
  intros _ _. eapply plain_then; [apply plain_issue|]. intros r [-> | ->]; cbn [Z.eqb AHCI_OK AHCI_ERR_TIMEOUT negb].
  - intros s Hs. split; [exact Hs|]. cbn [fst snd after with_state on_ctrl alter_ give ctrl with_ctrl]. intros c0 <-. split; [done|].
    cbn [at_port a_ports set_command]. by rewrite identified_outside by (done || apply Hs).
  - apply (plain_does _ (fun r => r = AHCI_ERR_TIMEOUT)); [by apply plain_give|]. intros r c -> c0 <-. done.
Qed.

Lemma alter_total (f : ahci_port_info -> ahci_port_info) i l j : (j < length l)%nat ->
  alter f i l !!! j = if (j =? i)%nat then f (l !!! j) else l !!! j.
Proof.
  intros Hj. destruct (lookup_lt_is_Some_2 l j Hj) as [p Hp]. rewrite (list_lookup_total_correct _ _ _ Hp).
  apply list_lookup_total_correct. destruct (Nat.eqb_spec j i) as [->|].
  - by rewrite list_lookup_alter_eq, Hp.
  - by rewrite list_lookup_alter_ne.
Qed.

Definition b2z (b : bool) : Z := if b then 1 else 0.
Fixpoint drives (l : list ahci_port_info) : Z := match l with [] => 0 | p :: l' => b2z (p_present p) + drives l' end.
Lemma drives_alter f l : forall i, (i < length l)%nat -> drives (alter f i l) = drives l - b2z (p_present (l !!! i)) + b2z (p_present (f (l !!! i))).
Proof.
  induction l as [|p l IH]; intros [|i] Hi; cbn [length] in Hi; try lia.
  - change (alter f 0%nat (p :: l)) with (f p :: l). change ((p :: l) !!! 0%nat) with p. cbn [drives]. lia.
  - change (alter f (S i) (p :: l)) with (p :: alter f i l). change ((p :: l) !!! S i) with (l !!! i). cbn [drives]. rewrite IH by lia. lia.
Qed.

Lemma alter_twice (f g : ahci_port_info -> ahci_port_info) (l : list ahci_port_info) : forall i : nat, alter f i (alter g i l) = alter (fun p => f (g p)) i l.
Proof. induction l as [|p l IH]; intros [|i]; [done..|]. exact (f_equal (cons p) (IH i)). Qed.

(** What looking at port [i] leaves, [k] telling whether a drive was found there. *)
Definition looked (i k : Z) (c c' : ahci_controller) : Prop :=
  a_pi c' = a_pi c /\ exists f, a_ports c' = alter f (Z.to_nat i) (a_ports c) /\
    forall p, p_present p = false -> k = b2z (p_present (f p)) /\
      (p_present (f p) = true -> sector_count (f p) = identified_sectors ctrl_addr i m0).
Lemma looked_unchanged i c c' : unchanged c c' -> looked i 0 c c'.
Proof. intros [H1 H2]. split; [done|]. exists id. rewrite H2, list_alter_id by done. split; [done|]. intros p Hp. cbn [id]. by rewrite Hp. Qed.

Lemma detect_drive_does i : 0 <= i < 32 -> does (detect_drive busy pages ctrl_addr i) (looked i).
Proof.
  intros Hi. unfold detect_drive. eapply plain_then; [apply plain_say|]. intros _ _. eapply plain_then; [apply plain_say|]. intros _ _.
  eapply plain_then; [apply plain_sayln|]. intros _ _. eapply plain_then; [by apply plain_stop|]. intros r _. case_if.
  { apply (plain_does _ (fun k => k = 0)); [by apply plain_give|]. intros k c ->. by apply looked_unchanged. }
  eapply does_then; [by apply identify_does|]. intros x. destruct (x =? AHCI_OK) eqn:Ex; cbn [negb].
  - apply ctrl_then. apply (plain_does _ (fun k => k = 1)).
    { repeat (eapply plain_after; [apply plain_say|intros _ _]). eapply plain_after; [|intros _ _; eapply plain_after; [apply plain_sayln|intros _ _; by apply plain_give]].
      intros s Hs. exact (plain_hex _ s Hs). }
    intros k c2 -> c1 <- c H. rewrite Ex in H. destruct H as [H1 H2]. split; [done|]. cbn [at_port a_ports]. rewrite H2, alter_twice. eexists. split; [reflexivity|].
    intros p Hp. done.
  - apply (plain_does _ (fun k => k = 0)); [by apply plain_give|]. intros k c2 -> c H. rewrite Ex in H. by apply looked_unchanged.
Qed.

Lemma look_does i : 0 <= i < 32 ->
  does (with_state (fun s =>
    if negb (Z.testbit (a_pi (ctrl s)) i) then give 0 else
    ssts <- ahci_read (port_reg i AHCI_PxSSTS);;
    on_ctrl (at_port i (set_ssts ssts));;
    if Z.land ssts AHCI_SSTS_DET_MASK =? AHCI_SSTS_DET_ESTAB then detect_drive busy pages ctrl_addr i else give 0)) (looked i).
Proof.
  intros Hi. apply state_does. intros s Hs. destruct (Z.testbit (a_pi (ctrl s)) i); cbn [negb]; [|split; [done|by apply looked_unchanged]].
  revert s Hs. apply (plain_then _ _ _ _ (plain_read _)). intros ssts _. apply ctrl_then. case_if.
  - intros s Hs. destruct (detect_drive_does i Hi s Hs) as [H1 (H2 & f & H3 & H4)]. split; [exact H1|]. intros c0 E. rewrite <- E in H2, H3.
    split; [exact H2|]. cbn [at_port a_ports] in H3. rewrite H3, alter_twice. eexists. split; [reflexivity|]. intros p Hp. by apply H4.
  - apply (plain_does _ (fun k => k = 0)); [by apply plain_give|]. intros k c -> c0 <-. split; [done|]. eexists. split; [reflexivity|].
    intros p Hp. cbn [set_ssts p_present]. by rewrite Hp.
Qed.

(** The ports from [i] on have not been looked at, [found] drives were found behind the others. *)
Definition known (i found : Z) (c : ahci_controller) : Prop :=
  length (a_ports c) = 32%nat /\ drives (a_ports c) = found /\
  forall j, (j < 32)%nat -> p_present (a_ports c !!! j) = true ->
    Z.of_nat j < i /\ sector_count (a_ports c !!! j) = identified_sectors ctrl_addr (Z.of_nat j) m0.
Lemma known_looked i k found c c' : 0 <= i < 32 -> looked i k c c' -> known i found c -> known (i + 1) (found + k) c'.
Proof.
  intros Hi (_ & f & H2 & H3) (K1 & K2 & K3). unfold known. rewrite H2, length_alter. split; [done|].
  assert (p_present (a_ports c !!! Z.to_nat i) = false) as Hn.
  { destruct (p_present (a_ports c !!! Z.to_nat i)) eqn:E; [|done]. apply K3 in E; lia. }
  destruct (H3 _ Hn) as [H4 H5]. split; [rewrite drives_alter by lia; rewrite Hn; cbn [b2z]; lia|].
  intros j Hj. rewrite alter_total by lia. destruct (Nat.eqb_spec j (Z.to_nat i)) as [->|].
  - intros Hp. split; [lia|]. rewrite Z2Nat.id by lia. by apply H5.
  - intros Hp. destruct (K3 j Hj Hp). split; [lia|done].
Qed.

Lemma detect_ports_does n : forall i found, 0 <= i -> i + Z.of_nat n = 32 ->
  does (detect_ports busy pages ctrl_addr n i found) (fun r c c' => known i found c -> known 32 r c').
Proof.
  induction n as [|n IH]; intros i found Hi Hn; cbn [detect_ports].
  { apply (plain_does _ (fun r => r = found)); [by apply plain_give|]. intros r c ->. by replace i with 32 by lia. }
  eapply does_then; [apply look_does; lia|]. intros k s Hs. destruct (IH (i + 1) (found + k) ltac:(lia) ltac:(lia) s Hs) as [H1 H2].
  split; [exact H1|]. intros c Hk K. apply H2. apply (known_looked i k found c); [lia|done..].
Qed.
Lemma detect_does : does (ahci_detect_drives busy pages ctrl_addr) (fun r c c' => known 0 0 c -> known 32 r c').
Proof.
  unfold ahci_detect_drives. eapply plain_then; [apply plain_sayln|]. intros _ _.
  eapply does_then; [apply (detect_ports_does 32 0 0); lia|]. intros found.
  apply (plain_does _ (fun r => r = found)).
  { do 2 (eapply plain_after; [apply plain_say|intros _ _]). eapply plain_after; [apply plain_sayln|intros _ _]. by apply plain_give. }
  intros r c -> c0 H K. auto.
Qed.

(** ** Initialisation *)

(** No drive is known. *)
Definition blank (c : ahci_controller) : Prop := length (a_ports c) = 32%nat /\ forall j, (j < 32)%nat -> p_present (a_ports c !!! j) = false.
Lemma blank_known c : blank c -> known 0 0 c.
Proof.
  intros [H1 H2]. split; [done|]. split; [|intros j Hj; by rewrite H2].
  assert (forall l, (forall j, (j < length l)%nat -> p_present (l !!! j) = false) -> drives l = 0) as Hd; [|apply Hd; by rewrite H1].
  induction l as [|p l IH]; intros Hl; cbn [drives]; [done|]. pose proof (Hl 0%nat ltac:(cbn; lia)) as E. change ((p :: l) !!! 0%nat) with p in E.
  rewrite E, IH; [done|]. intros j Hj. exact (Hl (S j) ltac:(cbn; lia)).
Qed.
Lemma blank_add i fis c : blank c -> blank (add_port i fis c).
Proof.
  intros [H1 H2]. split; [cbn; by rewrite length_alter|]. intros j Hj. cbn [add_port a_ports]. rewrite alter_total by lia. case_if; [done|auto].
Qed.
Lemma init_ports_does n : forall i, does (init_hba_ports pages n i) (fun _ c c' => blank c -> blank c').
Proof.
  induction n as [|n IH]; intros i; cbn [init_hba_ports].
  { apply (plain_does _ (fun _ => True)); [by apply plain_give|done]. }
  eapply (does_then _ _ (fun _ c c' => blank c -> blank c')).
  - apply state_does. intros s Hs. destruct (Z.testbit (a_pi (ctrl s)) i); [|done]. revert s Hs.
    change (does (fis <- ahci_alloc_page pages;; on_ctrl (add_port i fis)) (fun _ c c' => blank c -> blank c')).
    apply (plain_then _ _ _ _ plain_alloc). intros fis _ s Hs.
    split; [exact Hs|]. apply blank_add.
  - intros _ s Hs. destruct (IH (i + 1) s Hs) as [H1 H2]. split; [exact H1|]. auto.
Qed.
Lemma init_does base : does (ahci_init busy pages base) (fun r c c' => r = AHCI_OK /\ (blank c -> blank c')).
Proof.
  unfold ahci_init. eapply plain_then; [apply plain_sayln|]. intros _ _. eapply plain_then; [apply plain_read|]. intros cap _.
  eapply plain_then; [apply plain_read|]. intros pi _. apply ctrl_then.
  do 2 (eapply plain_then; [apply plain_say|intros _ _]; eapply plain_then; [apply plain_hex|intros _ _]; eapply plain_then; [apply plain_sayln|intros _ _]).
  eapply plain_then; [apply plain_read|]. intros ghc _. eapply plain_then.
  { apply plain_write. intros H. by apply host_reg in H. }
  intros _ _. apply ctrl_then. eapply does_then; [apply init_ports_does|]. intros u. apply (plain_does _ (fun r => r = AHCI_OK)).
  { eapply plain_after; [apply plain_say|intros _ _]. eapply plain_after; [|intros _ _; eapply plain_after; [apply plain_sayln|intros _ _; by apply plain_give]].
    intros s Hs. exact (plain_say _ s Hs). }
  intros r c -> c2 H c1 <- c0 <-. split; [done|]. auto.
Qed.
End AtRest.

(** C18. Detecting drives does not look at them: on every controller that keeps stopped
    ports stopped, [ahci_init] and [ahci_detect_drives] end with all of memory but the
    driver's pages as it was, so that what [ahci_get_drive_info] reports of each drive
    found is the capacity computed from the bytes the structure held before (0 in
    a static one), and the number returned is that of the ports marked. *)
Theorem detection_reads_no_drive {D : Type} `{!Hba D} `{!HbaStops D} busy pages ctrl_addr base (s : ahci D) :
  0 < pages -> ctrl_addr + 16 + 32 * 1040 <= pages \/ pages + 64 * 4096 <= ctrl_addr ->
  at_rest (hba s) -> 0 <= page_idx s <= 64 -> blank (ctrl s) ->
  let s1 := snd (ahci_init busy pages base s) in
  let '(found, s2) := ahci_detect_drives busy pages ctrl_addr s1 in
  fst (ahci_init busy pages base s) = AHCI_OK /\ at_rest (hba s2) /\
  (forall a, a < pages \/ pages + 64 * 4096 <= a -> (amem s2).[a] = (amem s).[a]) /\
  found = drives (a_ports (ctrl s2)) /\
  forall port, ahci_port_present s2 port = 1 ->
    ahci_get_drive_info ctrl_addr port true 0 0 s2 = ((AHCI_OK, Some (identified_sectors ctrl_addr port (amem s))), s2).
Proof.
  intros Hp Ha Hr Hi Hb. assert (calm pages (amem s) s) as Hs by (split; [done|split; [done|by intros a _]]). cbv zeta.
  destruct (init_does busy pages Hp (amem s) base s Hs) as (C1 & Hok & B1). set (s1 := snd (ahci_init busy pages base s)) in *. clearbody s1.
  destruct (detect_does busy pages ctrl_addr Hp Ha (amem s) s1 C1) as [C2 K2]. specialize (K2 (blank_known ctrl_addr (amem s) _ (B1 Hb))).
  destruct (ahci_detect_drives busy pages ctrl_addr s1) as [found s2]. cbn [fst snd] in *. destruct C2 as (R2 & _ & O2), K2 as (_ & N2 & P2).
  split; [done|]. split; [done|]. split; [done|]. split; [done|]. intros port Hport. unfold ahci_port_present in Hport.
  destruct ((port <? 0) || (32 <=? port)) eqn:Er; [done|]. destruct (p_present (a_ports (ctrl s2) !!! Z.to_nat port)) eqn:Ep; [|done].
  destruct (P2 (Z.to_nat port) ltac:(lia) Ep) as [_ E]. rewrite Z2Nat.id in E by lia.
  unfold ahci_get_drive_info, with_state, no_drive. rewrite Er, Ep. cbn [orb negb]. unfold after, give. cbn [Z.eqb negb andb]. by rewrite E.
Qed.

(** ** Commands *)

Lemma bits40_put a lo w v m : let x := Z.lor (Z.ldiff (bits40 m a) (Z.shiftl (Z.ones w) lo)) (Z.shiftl (Z.land v (Z.ones w)) lo) in
  0 <= x < 2 ^ 40 -> bits40 (put_bits a lo w v m) a = x.
Proof.
  cbv zeta. unfold put_bits. generalize (Z.lor (Z.ldiff (bits40 m a) (Z.shiftl (Z.ones w) lo)) (Z.shiftl (Z.land v (Z.ones w)) lo)). intros x Hx.
  unfold bits40. rewrite load32_store8_ne by lia. rewrite load32_store32_eq by (apply Z.mod_pos_bound; lia). rewrite peek_store8, Z.eqb_refl.
  rewrite u8_small by (split; [apply Z.div_pos; lia|apply Z.div_lt_upper_bound; lia]). pose proof (Z.div_mod x (2 ^ 32) ltac:(lia)). lia.
Qed.
Lemma bits40_store32 a b v m : b + 4 <= a \/ a + 5 <= b -> bits40 (store32 m b v) a = bits40 m a.
Proof. intros H. unfold bits40. by rewrite load32_store32_ne, peek_store32_ne by lia. Qed.
Lemma bits40_store8 a b v m : b < a \/ a + 5 <= b -> bits40 (store8 m b v) a = bits40 m a.
Proof. intros H. unfold bits40. rewrite load32_store8_ne by lia. rewrite peek_store8. destruct (Z.eqb_spec (a + 4) b); [lia|done]. Qed.
Lemma peek_put_bits a lo w v m b : b < a \/ a + 5 <= b -> (put_bits a lo w v m).[b] = m.[b].
Proof. intros H. unfold put_bits. rewrite peek_store8, peek_store32_ne by lia. destruct (Z.eqb_spec b (a + 4)); [lia|done]. Qed.
Lemma load32_put_bits a lo w v m b : b + 4 <= a \/ a + 5 <= b -> load32 (put_bits a lo w v m) b = load32 m b.
Proof. intros H. apply load32_ext. intros c Hc. apply peek_put_bits. lia. Qed.

(** Three fields of an empty header. *)
Lemma header_fields wr a m : 0 <= wr <= 1 -> bits40 m a = 0 ->
  bits40 (hdr_prdtl 1 a (hdr_write wr a (hdr_cfl 4 a m))) a = 4 + 512 * wr + 2 ^ 19.
Proof.
  intros Hw H0. unfold hdr_cfl. assert (bits40 (put_bits a 0 8 4 m) a = 4) as H1 by (rewrite bits40_put; rewrite H0; vm_compute; done).
  revert H1. generalize (put_bits a 0 8 4 m). intros m1 H1. unfold hdr_write.
  assert (bits40 (put_bits a 9 1 wr m1) a = 4 + 512 * wr) as H2.
  { assert (wr = 0 \/ wr = 1) as [-> | ->] by lia; rewrite bits40_put; rewrite H1; vm_compute; done. }
  revert H2. generalize (put_bits a 9 1 wr m1). intros m2 H2. unfold hdr_prdtl.
  assert (wr = 0 \/ wr = 1) as [-> | ->] by lia; rewrite bits40_put; rewrite H2; vm_compute; done.
Qed.

(** How the AHCI specification lays a command out: PRDTL in the upper half of the first
    word of the header, the table's address in the third; in the table the sector
    count at 12 of the FIS and the descriptors from 128 on. *)
Definition seen_prdtl (m : mem) (hdr : Z) : Z := Z.shiftr (load32 m hdr) 16.
Definition seen_table (m : mem) (hdr : Z) : Z := load32 m (hdr + 8).
Definition seen_count (m : mem) (tbl : Z) : Z := m.[tbl + 12] + 256 * m.[tbl + 13].
Definition seen_descriptor (m : mem) (tbl : Z) : Z * Z := (load32 m (tbl + 128), load32 m (tbl + 140)).

Lemma load32_zero m a : (forall b, a <= b < a + 4 -> m.[b] = 0) -> load32 m a = 0.
Proof. intros H. unfold load32. rewrite !H by lia. done. Qed.
(** Reading past stores to other addresses. *)
Ltac elsewhere :=
  repeat first [rewrite bits40_store8 by lia | rewrite bits40_store32 by lia | rewrite load32_store8_ne by lia | rewrite load32_store32_ne by lia
    | rewrite load32_put_bits by lia | rewrite peek_put_bits by lia | rewrite peek_store32_ne by lia
    | rewrite peek_store8; match goal with |- context [?x =? ?y] => replace (x =? y) with false by lia end].

(** A word read one byte below a stored one. *)
Lemma load32_below m a v : m.[a - 1] = 0 -> load32 (store32 m a v) (a - 1) = u32 (v * 256).
Proof.
  intros H0. unfold load32. rewrite !peek_store32.
  replace (a - 1 =? a + 3) with false by lia. replace (a - 1 =? a + 2) with false by lia. replace (a - 1 =? a + 1) with false by lia. replace (a - 1 =? a) with false by lia.
  replace (a - 1 + 1) with a by lia. replace (a - 1 + 2) with (a + 1) by lia. replace (a - 1 + 3) with (a + 2) by lia. rewrite !Z.eqb_refl, H0.
  replace (a =? a + 3) with false by lia. replace (a =? a + 2) with false by lia. replace (a =? a + 1) with false by lia.
  replace (a + 1 =? a + 3) with false by lia. replace (a + 1 =? a + 2) with false by lia. replace (a + 2 =? a + 3) with false by lia.
  unfold u8, u32. change (2 ^ 8) with 256. change (2 ^ 32) with 4294967296. replace (v / 65536) with (v / 256 / 256) by (by rewrite Z.div_div by lia). zlia.
Qed.

Section Layout.
Context (wr dba dwc command lba device count hdr tbl : Z) (m : mem).
Context (Hwr : 0 <= wr <= 1) (Htbl : 0 <= tbl < 2 ^ 32) (Hdba : 0 <= dba < 2 ^ 32) (Hdwc : 0 <= dwc < 2 ^ 32) (Hlba : 0 <= lba < 2 ^ 32).
Context (Hap : hdr + 4096 <= tbl \/ tbl + 4096 <= hdr).
Context (Hh0 : forall a, hdr <= a < hdr + 4096 -> m.[a] = 0) (Ht0 : forall a, tbl <= a < tbl + 4096 -> m.[a] = 0).
Notation m' := (build_command wr dba dwc command lba device count hdr tbl m).

(** The whole command as ahci.h lays it out, field by field: the 40 bits of the header's
    bit-field ([cfl_iat_f], [write] and [prdtl], the other bits 0), [prdbc], [ctba] and
    [ctbau]; the FIS; the descriptor; and nothing else in the two pages. *)
Record command_is (m' : mem) : Prop := {
  ci_flags : bits40 m' hdr = 4 + 512 * wr + 2 ^ 19;
  ci_prdbc : load32 m' (hdr + 5) = 0;
  ci_ctba : load32 m' (hdr + 9) = tbl;
  ci_ctbau : load32 m' (hdr + 13) = 0;
  ci_fis_type : m'.[tbl] = AHCI_FIS_TYPE_H2D;
  ci_pmport_c : m'.[tbl + 1] = 0x80;
  ci_command : m'.[tbl + 2] = u8 command;
  ci_features : m'.[tbl + 3] = 0;
  ci_lba : load32 m' (tbl + 4) = lba;
  ci_device : m'.[tbl + 8] = u8 device;
  ci_count : m'.[tbl + 9] = u8 count /\ m'.[tbl + 10] = u8 (count / 256);
  ci_control : m'.[tbl + 11] = 0;
  ci_dba : load32 m' (tbl + prdt_offset) = dba;
  ci_dbau : load32 m' (tbl + prdt_offset + 4) = 0;
  ci_reserved : load32 m' (tbl + prdt_offset + 8) = 0;
  ci_dwc : load32 m' (tbl + prdt_offset + 12) = dwc;
  ci_header_rest : forall a, hdr + 17 <= a < hdr + 4096 -> m'.[a] = 0;
  ci_table_rest : forall a, tbl + 12 <= a < tbl + prdt_offset \/ tbl + prdt_offset + 16 <= a < tbl + 4096 -> m'.[a] = 0;
  ci_elsewhere : forall a, ~ hdr <= a < hdr + 4096 -> ~ tbl <= a < tbl + 4096 -> m'.[a] = m.[a]
}.

(** The two steps: the header in its page, then the FIS and the descriptor in theirs. *)
Definition with_header (m : mem) : mem := hdr_ctbau 0 hdr (hdr_ctba tbl hdr (hdr_prdtl 1 hdr (hdr_write wr hdr (hdr_cfl 4 hdr m)))).
Lemma header_bytes :
  bits40 (with_header m) hdr = 4 + 512 * wr + 2 ^ 19 /\ load32 (with_header m) (hdr + 9) = tbl /\
  load32 (with_header m) (hdr + 13) = 0 /\ (with_header m).[hdr + 8] = 0 /\
  (forall a, ~ hdr <= a < hdr + 5 -> ~ hdr + 9 <= a < hdr + 17 -> (with_header m).[a] = m.[a]).
Proof.
  unfold with_header, hdr_ctba, hdr_ctbau. split; [|split; [|split; [|split]]].
  - elsewhere. apply header_fields; [done|]. unfold bits40. rewrite Hh0 by lia. rewrite load32_zero; [done|]. intros b Hb. apply Hh0. lia.
  - elsewhere. by apply load32_store32_eq.
  - apply load32_store32_eq. lia.
  - unfold hdr_cfl, hdr_write, hdr_prdtl. elsewhere. apply Hh0. lia.
  - intros a H1 H2. unfold hdr_cfl, hdr_write, hdr_prdtl. by elsewhere.
Qed.
Lemma table_bytes m1 : m1.[tbl + 1] = 0 -> let m2 := write_cfis command lba device count tbl (write_prdt dba dwc tbl m1) in
  (m2.[tbl] = AHCI_FIS_TYPE_H2D /\ m2.[tbl + 1] = 0x80 /\ m2.[tbl + 2] = u8 command /\ m2.[tbl + 3] = 0 /\
   load32 m2 (tbl + 4) = lba /\ m2.[tbl + 8] = u8 device /\ m2.[tbl + 9] = u8 count /\ m2.[tbl + 10] = u8 (count / 256) /\ m2.[tbl + 11] = 0) /\
  (load32 m2 (tbl + 83) = dba /\ load32 m2 (tbl + 83 + 4) = 0 /\ load32 m2 (tbl + 83 + 8) = 0 /\ load32 m2 (tbl + 83 + 12) = dwc) /\
  (forall a, ~ tbl <= a < tbl + 12 -> ~ tbl + 83 <= a < tbl + 99 -> m2.[a] = m1.[a]).
Proof.
  intros H0. cbv zeta. unfold write_cfis, write_prdt, prdt_offset, sizeof_cmd_fis. cbv zeta. change (19 + 16 + 48) with 83.
  split; [|split].
  - split_and!; elsewhere; try (rewrite peek_store8, Z.eqb_refl; try done); try (by apply load32_store32_eq).
    rewrite (peek_store8 _ (tbl + 1)), Z.eqb_refl. elsewhere. by rewrite H0.
  - split_and!; elsewhere; by apply load32_store32_eq.
  - intros a H1 H2. by elsewhere.
Qed.
Lemma built_is : command_is m' /\ load32 m' (hdr + 8) = u32 (tbl * 256).
Proof.
  destruct header_bytes as (B1 & B2 & B3 & B4 & B5). destruct (table_bytes (with_header m)) as ((T1 & T2 & T3 & T4 & T5 & T6 & T7 & T8 & T9) & (P1 & P2 & P3 & P4) & T0).
  { rewrite B5 by lia. apply Ht0. lia. }
  change (build_command wr dba dwc command lba device count hdr tbl m) with (write_cfis command lba device count tbl (write_prdt dba dwc tbl (with_header m))).
  assert (Hkeep : forall a, hdr <= a < hdr + 4096 -> (write_cfis command lba device count tbl (write_prdt dba dwc tbl (with_header m))).[a] = (with_header m).[a]) by (intros a Ha; apply T0; lia).
  assert (Hw : forall a, hdr <= a -> a + 4 <= hdr + 4096 -> load32 (write_cfis command lba device count tbl (write_prdt dba dwc tbl (with_header m))) a = load32 (with_header m) a)
    by (intros a H1 H2; apply load32_ext; intros c Hc; apply Hkeep; lia).
  revert T1 T2 T3 T4 T5 T6 T7 T8 T9 P1 P2 P3 P4 T0 Hkeep Hw. generalize (write_cfis command lba device count tbl (write_prdt dba dwc tbl (with_header m))). intros m2 **.
  split; [split; try done|].
  - unfold bits40. rewrite Hw, Hkeep by lia. exact B1.
  - rewrite Hw by lia. apply load32_zero. intros b Hb. destruct (Z.eq_dec b (hdr + 8)) as [->|]; [done|]. rewrite B5 by lia. apply Hh0. lia.
  - by rewrite Hw by lia.
  - by rewrite Hw by lia.
  - intros a Ha. rewrite Hkeep, B5 by lia. apply Hh0. lia.
  - unfold prdt_offset, sizeof_cmd_fis. intros a Ha. rewrite T0, B5 by lia. apply Ht0. lia.
  - intros a H1 H2. rewrite T0, B5 by lia. done.
  - rewrite Hw by lia. unfold with_header, hdr_ctba, hdr_ctbau. rewrite load32_store32_ne by lia.
    replace (hdr + 8) with (hdr + 9 - 1) by lia. apply load32_below. unfold hdr_cfl, hdr_write, hdr_prdtl. elsewhere. apply Hh0. lia.
Qed.
End Layout.

(** C33. The commands the driver builds, for any buffer, sector and count, in its cleared
    pages.  By the structures of ahci.h every field of the header, the FIS and the
    descriptor has its value, the rest of the two pages stays 0 and no other byte
    changes.  The controller reads the layout of the specification: there the
    table's address is shifted by a byte, the header announces eight descriptors, and
    even in the right table the first descriptor is empty and the sector count 0. *)
Theorem command_layout wr dba dwc command lba device count hdr tbl m :
  0 <= wr <= 1 -> 0 <= tbl < 2 ^ 32 -> 0 <= dba < 2 ^ 32 -> 0 <= dwc < 2 ^ 32 -> 0 <= lba < 2 ^ 32 ->
  hdr + 4096 <= tbl \/ tbl + 4096 <= hdr ->
  (forall a, hdr <= a < hdr + 4096 -> m.[a] = 0) -> (forall a, tbl <= a < tbl + 4096 -> m.[a] = 0) ->
  let m' := build_command wr dba dwc command lba device count hdr tbl m in
  command_is wr dba dwc command lba device count hdr tbl m m' /\
  seen_table m' hdr = u32 (tbl * 256) /\ seen_prdtl m' hdr = 8 /\ seen_count m' tbl = 0 /\ seen_descriptor m' tbl = (0, 0).
Proof.
  intros Hw Ht Hb Hd Hl Ha H1 H2. cbv zeta.
  destruct (built_is wr dba dwc command lba device count hdr tbl m Hw Ht Hb Hd Hl Ha H1 H2) as [Hc B3].
  revert Hc B3. generalize (build_command wr dba dwc command lba device count hdr tbl m). intros m' Hc B3.
  split; [exact Hc|]. split; [exact B3|]. pose proof (ci_flags _ _ _ _ _ _ _ _ _ _ _ Hc) as B1. pose proof (ci_table_rest _ _ _ _ _ _ _ _ _ _ _ Hc) as Z0. unfold prdt_offset, sizeof_cmd_fis in Z0.
  split; [|split].
  - unfold seen_prdtl. rewrite Z.shiftr_div_pow2 by lia. unfold bits40 in B1. pose proof (load32_range m' hdr). pose proof (peek_range m' (hdr + 4)).
    symmetry. apply (Z.div_unique _ _ _ (4 + 512 * wr)); lia.
  - unfold seen_count. rewrite !Z0 by lia. done.
  - unfold seen_descriptor. rewrite !load32_zero by (intros b Hb'; apply Z0; lia). done.
Qed.

(** The model name takes 41 bytes, one more than the smallest size that is accepted. *)
Lemma copy_model_length n ctrl_addr size port model : forall i idx m, idx + 2 * Z.of_nat n <= size ->
  snd (copy_model ctrl_addr n i idx size port model m) = idx + 2 * Z.of_nat n.
Proof.
  induction n as [|n IH]; intros i idx m Hs; cbn [copy_model]; [cbn; lia|]. destruct (Z.ltb_spec idx (size - 1)); [|lia]. rewrite IH by lia. lia.
Qed.
Theorem model_needs_41_bytes {D : Type} `{!Hba D} ctrl_addr port sectors model size (s : ahci D) :
  no_drive s port = false -> model <> 0 -> 40 <= size ->
  (amem (snd (ahci_get_drive_info ctrl_addr port sectors model size s))).[model + 40] = 0.
Proof.
  intros Hn Hm Hs. unfold ahci_get_drive_info, with_state. rewrite Hn. destruct (Z.eqb_spec model 0); [done|]. destruct (Z.leb_spec 40 size); [|lia]. cbn [negb andb].
  unfold after, alter_, give. cbn [snd]. pose proof (copy_model_length 20 ctrl_addr size port model 27 0 (amem s) ltac:(lia)) as E.
  destruct (copy_model ctrl_addr 20 27 0 size port model (amem s)) as [m idx]. cbn [snd] in E. subst idx. cbn [amem with_amem]. by rewrite peek_store8, Z.eqb_refl.
Qed.

(** ** A stopped controller *)

(** Registers that keep what is written; the command issue registers of stopped ports read 0. *)
Record stopped_hba := mk_stopped { regs : Z -> Z }.
Definition issue_reg (r : Z) : bool := (0x100 <=? r) && ((r - 0x100) mod 0x80 =? AHCI_PxCI).
#[export] Instance stopped_is_hba : Hba stopped_hba := {|
  hba_read r d m := (regs d r, d, m);
  hba_write r v d m := (if issue_reg r then d else mk_stopped (fun q => if q =? r then v else regs d q), m)
|}.
#[export, refine] Instance stopped_stops : HbaStops stopped_hba := {|
  at_rest d := forall i, 0 <= i < 32 -> Z.land (regs d (port_reg i AHCI_PxCMD_REG)) start_bits = 0
|}.
Proof.
  - intros r d m H. split; [exact H|]. split; [done|]. intros (i & Hi & ->). by apply H.
  - intros r v d m H Hv. split; [|done]. cbn [hba_write stopped_is_hba fst]. case_if; [exact H|]. intros i Hi. cbn [regs].
    destruct (Z.eqb_spec (port_reg i AHCI_PxCMD_REG) r); [|by apply H]. apply Hv. exists i. done.
Defined.

(** One port with a drive. *)
Definition hba1 : stopped_hba := mk_stopped (fun r => if r =? AHCI_PI then 1 else if r =? port_reg 0 AHCI_PxSSTS then 0x123 else 0).
Definition ctrl0 : ahci_controller := mk_ctrl 0 0 0 0 (replicate 32 (mk_port 0 false 0 0)) (replicate 32 0) (replicate 32 0) (replicate 32 0).
Definition ahci0 : ahci stopped_hba := mk_ahci ctrl0 0 hba1 (fun _ => 0) (mk_serial true [] [] []).

Lemma hba1_rests : at_rest (hba ahci0).
Proof.
  intros i Hi. cbn [ahci0 hba hba1 regs]. unfold port_reg, AHCI_PI, AHCI_PxSSTS, AHCI_PxCMD_REG.
  destruct (Z.eqb_spec (256 + i * 128 + 24) 12); [lia|]. destruct (Z.eqb_spec (256 + i * 128 + 24) (256 + 0 * 128 + 40)); [lia|]. done.
Qed.
Lemma ctrl0_blank : blank (ctrl ahci0).
Proof.
  split; [reflexivity|]. intros j Hj. cbn [ahci0 ctrl ctrl0 a_ports]. by rewrite lookup_total_replicate_2.
Qed.

Notation started := (snd (ahci_init (fun _ => O) 0x200000 0xFEBF0000 ahci0)).
(** A drive is found, and it has no sectors. *)
Lemma detection_reads_no_drive_witness :
  at_rest (hba ahci0) /\ blank (ctrl ahci0) /\
  let '(found, s2) := ahci_detect_drives (fun _ => O) 0x200000 0x100000 started in
  found = 1 /\ ahci_get_drive_info 0x100000 0 true 0 0 s2 = ((AHCI_OK, Some 0), s2).
Proof.
  split; [exact hba1_rests|]. split; [exact ctrl0_blank|].
  pose proof (detection_reads_no_drive (fun _ => O) 0x200000 0x100000 0xFEBF0000 ahci0 ltac:(lia) ltac:(lia) hba1_rests ltac:(cbn; lia) ctrl0_blank) as H.
  assert (fst (ahci_detect_drives (fun _ => O) 0x200000 0x100000 started) = 1) as Hf by (vm_compute; reflexivity).
  assert (ahci_port_present (snd (ahci_detect_drives (fun _ => O) 0x200000 0x100000 started)) 0 = 1) as Hp by (vm_compute; reflexivity).
  cbv zeta in H. destruct (ahci_detect_drives (fun _ => O) 0x200000 0x100000 started) as [found s2]. cbn [fst snd] in Hf, Hp.
  destruct H as (_ & _ & _ & _ & H). split; [exact Hf|]. exact (H 0 Hp).
Defined.

Lemma zero_page a : (fun _ : Z => 0).[a] = 0.
Proof. reflexivity. Qed.
(** A read of 8 sectors: the controller takes the table to be at 0x20100000 instead of 0x201000. *)
Lemma command_layout_witness :
  let m' := build_command 0 0x300000 1023 ATA_CMD_READ_DMA 100 0x40 8 0x200000 0x201000 (fun _ => 0) in
  load32 m' (0x200000 + 9) = 0x201000 /\ m'.[0x201008] = 0x40 /\ seen_table m' 0x200000 = 0x20100000 /\ seen_count m' 0x201000 = 0.
Proof.
  destruct (command_layout 0 0x300000 1023 ATA_CMD_READ_DMA 100 0x40 8 0x200000 0x201000 (fun _ => 0) ltac:(lia) ltac:(lia) ltac:(lia) ltac:(lia) ltac:(lia) ltac:(lia)
    (fun a _ => zero_page a) (fun a _ => zero_page a)) as (Hc & H2 & _ & H3 & _).
  split; [exact (ci_ctba _ _ _ _ _ _ _ _ _ _ _ Hc)|]. split; [exact (ci_device _ _ _ _ _ _ _ _ _ _ _ Hc)|]. split; [exact H2|exact H3].
Defined.
