(* ===== verification/IpcDemo.v ===== *)
(** * ipc.c, the demonstration

    [ipc_demo] creates two tasks with ports, sends a message and a reply, overfills a
    queue and clears up.  It joins tcb.c, ipc.c and serial.c; [None] stands for a
    NULL pointer in a queue walk of [tcb_free].  Tasks are given by their slots. *)
From Stdlib Require Import String.
From S2P Require Import Prelude Mem LibString Alloc Heap Tcb Ipc Serial.

Definition IPC_MSG_DATA : Z := 1.
Definition IPC_MSG_RESPONSE : Z := 3.

Section Demo.
Context {A : Type} `{!Allocator A}.
Context (busy : list Z -> nat).

Record demo := mk_demo { d_ipc : ipc A; d_log : serial }.
Definition with_ipc_of {X} (f : ipc A -> X * ipc A) (d : demo) : X * demo := let '(r, x) := f (d_ipc d) in (r, mk_demo x (d_log d)).
Definition on_tasks (f : sched A -> sched A) (d : demo) : demo := mk_demo (set_tasks (f (tasks (d_ipc d))) (d_ipc d)) (d_log d).
Definition say (s : string) (d : demo) : demo := mk_demo (d_ipc d) (serial_write_str busy (str s) (d_log d)).
Definition sayln (s : string) (d : demo) : demo := mk_demo (d_ipc d) (serial_writeln busy (str s) (d_log d)).
Definition say_hex (v : Z) (d : demo) : demo := mk_demo (d_ipc d) (serial_write_hex32 busy v (d_log d)).
Definition demo_dec (v : Z) (d : demo) : demo := mk_demo (d_ipc d) (default (d_log d) (serial_write_dec32 busy (u32 v) (d_log d))).

Definition allocate (d : demo) : option nat * demo :=
  let '(t, s) := tcb_allocate (tasks (d_ipc d)) in (t, mk_demo (set_tasks s (d_ipc d)) (d_log d)).
Definition release_task (t : option nat) (d : demo) : option demo :=
  s ← tcb_free t (tasks (d_ipc d)); Some (mk_demo (set_tasks s (d_ipc d)) (d_log d)).
Definition recv_on (t : nat) (from : Z) (d : demo) : Z * option message * demo :=
  let '(r, m, x) := ipc_recv (Some t) from (d_ipc d) in (r, m, mk_demo x (d_log d)).
(** Word [i] of what was received into a structure. *)
Definition data (m : option message) (i : nat) : Z := payload (default zero_message m) !!! i.

(** The messages 0 to 16; the last one is to be refused. *)
Fixpoint overflow (n : nat) (i : Z) (a b : nat) (d : demo) : demo :=
  match n with
  | O => d
  | S n' =>
      let '(s, d) := with_ipc_of (ipc_try_send (Some a) (Some b) (Some (mk_message 0 0 IPC_MSG_DATA i [i; 0; 0; 0] 0))) d in
      let d := if (i <? 16) && negb (s =? 0) then sayln "" (demo_dec i (say "  unexpected fail at i=" d)) else d in
      let d := if (i =? 16) && (s =? 0) then sayln "  overflow test failed: 17th send should have failed" d else d in
      let d := if (i =? 16) && negb (s =? 0) then sayln "  overflow correctly handled (17th rejected)" d else d in
      overflow n' (i + 1) a b d
  end.
Fixpoint drain (n : nat) (b : nat) (d : demo) : demo :=
  match n with O => d | S n' => drain n' b (snd (recv_on b (-1) d)) end.

(** What follows when the first message has arrived as [m]. *)
Definition exchange (a b : nat) (m : option message) (d : demo) : demo :=
  let d := sayln "[IPC Demo] ipc_recv succeeded" d in
  let got := default zero_message m in
  let d := demo_dec (sender_tid got) (say "  sender=" d) in
  let d := demo_dec (receiver_tid got) (say " receiver=" d) in
  let d := sayln "" (demo_dec (msg_id got) (say " msg_id=" d)) in
  let d := sayln "" (say_hex (data m 0) (say "  data[0]=0x" d)) in
  let d := sayln "" (say_hex (data m 1) (say "  data[1]=0x" d)) in
  let d := if (data m 0 =? 0xDEADBEEF) && (data m 1 =? 0xCAFEBABE) then sayln "[IPC Demo] Payload verified OK" d else sayln "[IPC Demo] Payload mismatch!" d in
  let reply := mk_message (tid_of (d_ipc d) b) 0 IPC_MSG_RESPONSE (msg_id got) [0xABCD1234; 0; 0; 0] 0 in
  let d := sayln "[IPC Demo] taskB -> taskA replying..." d in
  let '(r2, d) := with_ipc_of (ipc_send (Some b) (Some a) (Some reply)) d in
  let d := if r2 =? 0 then sayln "[IPC Demo] reply send OK" d else sayln "[IPC Demo] reply send failed" d in
  let '(r3, answer, d) := recv_on a (tid_of (d_ipc d) b) d in
  let d := if r3 =? 0 then sayln "" (say_hex (data answer 0) (say "  reply data[0]=0x" (sayln "[IPC Demo] taskA received reply" d))) else d in
  let '(nb, _, x) := ipc_try_recv (Some a) (-1) (d_ipc d) in
  let d := mk_demo x (d_log d) in
  let d := if negb (nb =? 0) then sayln "[IPC Demo] ipc_try_recv correctly returned no message" d else sayln "[IPC Demo] ipc_try_recv unexpectedly succeeded" d in
  let d := sayln "[IPC Demo] Testing queue overflow (16 msgs)..." d in
  sayln "[IPC Demo] Completed successfully - IPC works!" (drain 16 b (overflow 17 0 a b d)).

Definition name_task (i : nat) (s : string) : demo -> demo := on_tasks (upd i (set_name (ipc_strncpy 32 (str s)))).
Definition clean_up (a b : nat) (portA portB : Z) (d : demo) : demo :=
  let d := snd (with_ipc_of (ipc_unbind_port (Some a) portA) d) in
  let d := snd (with_ipc_of (ipc_unbind_port (Some b) portB) d) in
  let d := mk_demo (ipc_destroy_port portB (ipc_destroy_port portA (d_ipc d))) (d_log d) in
  on_tasks (tcb_set_state (Some b) TASK_STATE_ZOMBIE) (on_tasks (tcb_set_state (Some a) TASK_STATE_ZOMBIE) d).

Definition ipc_demo (d : demo) : option demo :=
  let d := sayln "[IPC Demo] Starting IPC demonstration..." d in
  let '(taskA, d) := allocate d in
  let '(taskB, d) := allocate d in
  match taskA, taskB with
  | Some a, Some b =>
      let d := name_task b "demoB" (name_task a "demoA" d) in
      let d := demo_dec (tid_of (d_ipc d) a) (say "[IPC Demo] Allocated taskA tid=" d) in
      let d := sayln "" (demo_dec (tid_of (d_ipc d) b) (say " taskB tid=" d)) in
      let '(portA, d) := with_ipc_of (ipc_create_port (Some (str "demoA_port")) 0) d in
      let '(portB, d) := with_ipc_of (ipc_create_port (Some (str "demoB_port")) 0) d in
      if (portA <? 0) || (portB <? 0) then
        d ← release_task taskA (sayln "[IPC Demo] Failed to create ports" d); release_task taskB d
      else
        let d := snd (with_ipc_of (ipc_bind_port taskA portA) d) in
        let d := snd (with_ipc_of (ipc_bind_port taskB portB) d) in
        let msg := mk_message 0 0 IPC_MSG_DATA 42 [0xDEADBEEF; 0xCAFEBABE; 0x12345678; 0x87654321] 0 in
        let d := sayln "[IPC Demo] taskA -> taskB sending..." d in
        let '(ret, d) := with_ipc_of (ipc_send taskA taskB (Some msg)) d in
        let d := if ret =? 0 then sayln "[IPC Demo] ipc_send succeeded" d else sayln "" (demo_dec ret (say "[IPC Demo] ipc_send failed ret=" d)) in
        let '(ret, m, d) := recv_on b (-1) d in
        let d := if ret =? 0 then exchange a b m d else sayln "" (demo_dec ret (say "[IPC Demo] ipc_recv failed ret=" d)) in
        Some (clean_up a b portA portB d)
  | _, _ =>
      d ← release_task taskA (sayln "[IPC Demo] Failed to allocate demo tasks" d); release_task taskB d
  end.
End Demo.
Arguments demo A : clear implicits.

(** ** The demonstration returns and leaves tasks and queues in order *)
Section DemoCorrect.
Context {A : Type} `{!Allocator A}.
Context (busy : list Z -> nat).
Implicit Types d : demo A.

Definition demo_ok d : Prop := ipc_ok (d_ipc d).
(** A call that keeps the tasks and queues in order, and its result. *)
Lemma call_ok {X} (f : ipc A -> X * ipc A) d : (forall x, ipc_ok x -> ipc_ok (snd (f x))) -> demo_ok d -> demo_ok (snd (with_ipc_of f d)).
Proof. unfold demo_ok, with_ipc_of. intros Hf Hd. specialize (Hf _ Hd). by destruct (f (d_ipc d)). Qed.
Lemma tasks_ok f d : (forall s l, sched_inv s l -> sched_inv (f s) l) -> demo_ok d -> demo_ok (on_tasks f d).
Proof. intros Hf [H1 H2 [l Hl]]. split; [done..|]. exists l. by apply Hf. Qed.
Lemma recv_on_ok t from d : demo_ok d -> demo_ok (snd (recv_on t from d)).
Proof. unfold demo_ok, recv_on. intros Hd. pose proof (recv_ok _ (Some t) from Hd) as H. by destruct (ipc_recv (Some t) from (d_ipc d)) as [[r m] x]. Qed.
Lemma overflow_ok n a b : forall i d, demo_ok d -> demo_ok (overflow busy n i a b d).
Proof.
  induction n as [|n IH]; intros i d Hd; cbn [overflow]; [done|].
  pose proof (call_ok (ipc_try_send (Some a) (Some b) (Some (mk_message 0 0 IPC_MSG_DATA i [i; 0; 0; 0] 0))) d (fun x => exec_ok (OpTrySend _ _ _) x) Hd) as H.
  destruct (with_ipc_of _ d) as [s d1]. cbn [snd] in H. apply IH. by repeat case_if.
Qed.
Lemma drain_ok n b : forall d, demo_ok d -> demo_ok (drain n b d).
Proof. induction n as [|n IH]; intros d Hd; cbn [drain]; [done|]. by apply IH, recv_on_ok. Qed.

Lemma exchange_ok a b m d : demo_ok d -> demo_ok (exchange busy a b m d).
Proof.
  intros Hd. unfold exchange.
  match goal with |- context [with_ipc_of ?f ?x] =>
    assert (demo_ok x) as H1 by (case_if; exact Hd); pose proof (call_ok f x (fun y => send_ok y _ _ _) H1) as H2; destruct (with_ipc_of f x) as [r2 d2] end.
  clear Hd H1. cbn [snd] in H2.
  match goal with |- context [recv_on ?t ?from ?x] =>
    assert (demo_ok x) as H3 by (case_if; exact H2); pose proof (recv_on_ok t from x H3) as H4; destruct (recv_on t from x) as [[r3 ans] d3] end.
  clear H2 H3. cbn [snd] in H4.
  match goal with |- context [ipc_try_recv ?t ?from (d_ipc ?x)] =>
    assert (demo_ok x) as H5 by (case_if; exact H4); pose proof (try_recv_ok (d_ipc x) t from H5) as H6; destruct (ipc_try_recv t from (d_ipc x)) as [[nb q] x6] end.
  cbn [snd] in H6. assert (forall d, demo_ok d -> demo_ok (sayln busy "[IPC Demo] Completed successfully - IPC works!" d)) as Hs by done.
  apply Hs, drain_ok, overflow_ok. case_if; exact H6.
Qed.
Lemma clean_up_ok a b pa pb d : demo_ok d -> demo_ok (clean_up a b pa pb d).
Proof.
  intros Hd. unfold clean_up. apply tasks_ok; [intros s l Hs; by apply set_state_inv|]. apply tasks_ok; [intros s l Hs; by apply set_state_inv|].
  apply destroy_port_ok, destroy_port_ok. apply (call_ok _ _ (exec_ok (OpUnbind _ _))). apply (call_ok _ _ (exec_ok (OpUnbind _ _))). exact Hd.
Qed.

Lemma allocate_ok d : demo_ok d -> next_tid (tasks (d_ipc d)) < 2 ^ 31 - 1 ->
  demo_ok (snd (allocate d)) /\ next_tid (tasks (d_ipc (snd (allocate d)))) <= next_tid (tasks (d_ipc d)) + 1.
Proof.
  intros [H1 H2 [l Hl]] Ht. unfold allocate. destruct (tcb_allocate (tasks (d_ipc d))) as [[i|] s] eqn:E; cbn [snd].
  - destruct (allocate_inv _ l i s Hl Ht E) as (Hs & _). split; [split; [done..|by exists l]|]. cbn [d_ipc tasks set_tasks].
    unfold tcb_allocate in E. case_match; [|done]. injection E as _ <-. cbn. pose proof (c_next_tid _ _ (proj1 Hl)). rewrite i32_small; lia.
  - unfold tcb_allocate in E. case_match; [done|]. injection E as <-. split; [split; [done..|by exists l]|]. cbn. lia.
Qed.
Lemma release_ok t d : demo_ok d -> exists d', release_task t d = Some d' /\ demo_ok d'.
Proof.
  intros [H1 H2 [l Hl]]. unfold release_task. destruct t as [i|].
  - destruct (free_inv _ l i Hl) as (s & l' & -> & Hs & _). eexists. split; [reflexivity|]. split; [done..|by exists l'].
  - eexists. split; [reflexivity|]. split; [done..|by exists l].
Qed.
Lemma name_ok i n d : demo_ok d -> demo_ok (name_task i n d).
Proof. apply tasks_ok. intros s l. by apply inert_upd. Qed.

(** [ipc_demo] returns from every state in order, also when tasks or ports have
    run out, and leaves the scheduler and all queues in order. *)
Theorem ipc_demo_returns d : demo_ok d -> next_tid (tasks (d_ipc d)) < 2 ^ 31 - 2 -> exists d', ipc_demo busy d = Some d' /\ demo_ok d'.
Proof.
  intros Hd Ht. unfold ipc_demo. set (d0 := sayln busy _ d). change (demo_ok d0) in Hd. change (next_tid (tasks (d_ipc d0)) < 2 ^ 31 - 2) in Ht. clearbody d0. clear d.
  destruct (allocate_ok d0 Hd ltac:(lia)) as [H1 N1]. destruct (allocate d0) as [ta d1]. cbn [snd] in *.
  destruct (allocate_ok d1 H1 ltac:(lia)) as [H2 _]. destruct (allocate d1) as [tb d2]. cbn [snd] in *. clear Hd Ht N1 H1 d0 d1.
  assert (forall t, exists d', (d ← release_task ta (sayln busy t d2); release_task tb d) = Some d' /\ demo_ok d') as Hfail.
  { intros t. destruct (release_ok ta (sayln busy t d2) H2) as (d3 & -> & H3). exact (release_ok tb d3 H3). }
  destruct ta as [a|]; [|apply Hfail]. destruct tb as [b|]; [|apply Hfail]. clear Hfail.
  match goal with |- context [with_ipc_of (ipc_create_port ?n ?z) ?x] =>
    assert (demo_ok x) as H3 by (exact (name_ok b "demoB" _ (name_ok a "demoA" d2 H2)));
    pose proof (call_ok (ipc_create_port n z) x (fun y => create_port_ok y n z) H3) as H4; destruct (with_ipc_of (ipc_create_port n z) x) as [pa d4] end.
  cbn [snd] in H4. match goal with |- context [with_ipc_of (ipc_create_port ?n ?z) d4] =>
    pose proof (call_ok (ipc_create_port n z) d4 (fun y => create_port_ok y n z) H4) as H5; destruct (with_ipc_of (ipc_create_port n z) d4) as [pb d5] end.
  cbn [snd] in H5. clear H2 H3 H4. case_if.
  { match goal with |- context [release_task (Some a) ?x] => destruct (release_ok (Some a) x H5) as (d6 & -> & H6) end. exact (release_ok (Some b) d6 H6). }
  match goal with |- context [with_ipc_of (ipc_send ?f ?t ?m) ?x] =>
    assert (demo_ok x) as H6 by (exact (call_ok _ _ (exec_ok (OpBind (Some b) pb)) (call_ok _ _ (exec_ok (OpBind (Some a) pa)) H5)));
    pose proof (call_ok (ipc_send f t m) x (fun y => send_ok y f t m) H6) as H7; destruct (with_ipc_of (ipc_send f t m) x) as [ret d7] end.
  cbn [snd] in H7. match goal with |- context [recv_on ?t ?from ?x] =>
    assert (demo_ok x) as H8 by (case_if; exact H7); pose proof (recv_on_ok t from x H8) as H9; destruct (recv_on t from x) as [[r m] d9] end.
  cbn [snd] in H9. eexists. split; [reflexivity|]. apply clean_up_ok. case_if; [by apply exchange_ok|exact H9].
Qed.
End DemoCorrect.
